(* ===== verification/_CoqProject ===== *)
-Q . S2P
Prelude.v
Text.v
Tables.v
Programs.v
ProgramLogic.v
ApprovalDomain.v
ApprovalFacts.v
Database.v
Schema.v
TxLogic.v
Authz.v
ApprovalRepo.v
Evolve.v
Sha256.v
ContentHash.v
Submit.v
Decision.v
Cancel.v
Publish.v
RouteAdmin.v
Lifecycle.v
Scenario.v
Consistency.v
Guarantees.v
Behaviour.v
Outcomes.v
JobScheduler.v
Jobs.v
HttpErrors.v
ApprovalHttp.v
HttpContracts.v
HttpFacts.v
TemplateDomain.v
PlaceholderFacts.v
TemplateRepo.v
Templates.v
TemplateRuns.v
TemplateSafety.v
TemplateContract.v
TemplateHistory.v
TemplateScenario.v
EditorDomain.v
EditorTables.v
EditorRepo.v
Editor.v
EditorRuns.v
EditorLogic.v
EditorSpec.v
EditorInvariant.v
EditorSafety.v
EditorRefinement.v
EditorContract.v
EditorOutcomes.v
EditorScenario.v
AuthDomain.v
AuthToken.v
AuthMemory.v
AuthPostgres.v
AuthService.v
AuthStore.v
AuthLogin.v
AuthSafety.v
AuthGaps.v
AuthScenario.v
RateLimit.v
Membership.v
AuditTrail.v
Iam.v
Permissions.v
Gate.v
IdentityHttp.v
Routes.v
GateFacts.v
IdentityFacts.v
GateScenario.v
RegistryTables.v
Taxonomy.v
Registry.v
RegistryFacts.v
RegistryScenario.v
