(* ===== verification/Prelude.v ===== *)
(** * MetalDocs: a verification library for the document-approval back end

    MetalDocs is a Go modular monolith over PostgreSQL. Its core is the
    controlled life of a document: a draft is submitted along a configured
    route, voted on stage by stage, published (at once, on a date, or in place
    of an older document) and made obsolete; of the templates documents are
    made from, which are versioned, reviewed and approved in their turn; of the
    content of a draft, which one editor at a time writes as a chain of
    revisions; and of the users, who log in, hold roles and areas, and reach
    the handlers through a chain of middlewares; and of the registry that numbers
    the controlled documents of each profile. This library models that core:
    the approval from the HTTP handlers to the triggers of the database with the
    job scheduler around it, the template and editor modules from their domain
    to the interleavings of their services, and identity from the token of a
    cookie to the permission of every route.

    ** The layers and their files

    - Language and shared lemmas: [Prelude] (time as nanoseconds, Go errors as
      chains, the result type, list lemmas), [Text] (Go's string functions),
      [Sha256], [ContentHash] (Go values of type [any], their JSON text, and
      JSON members into the fields of a struct).
    - Services without transactions of their own: [Programs] (a method as a tree
      of operations of its ports; runs, crashes, histories and interleavings)
      and [ProgramLogic] (a weakest precondition with rely and guarantee, sound
      for all of them). Templates, editor and identity are such programs.
    - Pure domain, [approval/domain]: [ApprovalDomain] ([DocStates],
      [Routes], [Signoffs], [Instances], quorum and drift), theorems in
      [ApprovalFacts].
    - SQL in general: [Tables] (UPDATE, SELECT, ORDER BY, constraints on a table
      as a list of rows; tables that only grow).
    - Database: [Database] (tables as lists of rows in one record [DB],
      transaction-local settings, the service monad [M]), [Schema] (every write
      statement of the code with the constraints and BEFORE triggers of
      [migrations/]), [TxLogic] (the two program logics: [phases], a typestate
      for transactions, and the partial-correctness rules).
    - Authorisation inside a transaction, [iam/authz]: [Authz].
    - Repository, [approval/repository]: [ApprovalRepo].
    - Services, [approval/application], one Definition per exported method:
      [Submit], [Decision], [Cancel], [Publish] (publish, supersede, obsolete,
      scheduled publication), [RouteAdmin] (routes, membership, cut-over).
    - Histories: [Evolve] (the abstract contract [db_step] of every write),
      [Lifecycle] ([Call], [run_call], [history]: any sequence of calls by any
      users under any faults, interleaved with what the rest of the system may
      do, [environment]), [Scenario] (a run evaluated by the kernel, the source
      of most witnesses), [Consistency] (the invariant of the approval tables).
    - Theorems on services and histories: [Guarantees], [Behaviour],
      [Outcomes].
    - Jobs, [internal/modules/jobs]: [JobScheduler] (leases, back-pressure, one
      tick, several processes as a step relation), [Jobs] (the three jobs).
    - HTTP, [approval/http]: [HttpErrors] (error texts and
      [MapErrorToResponse]), [ApprovalHttp] (strict decoding, validation, the
      handlers, [serve] by endpoint), theorems in [HttpContracts] (requests),
      [HttpFacts] (responses and the inbox).
    - Templates, [templates_v2]: [TemplateDomain] (version state machine,
      segregation of duties, placeholder schemas, the search for visibility
      cycles) with [PlaceholderFacts]; [TemplateRepo] (the statements over the
      tables of migration 0120, the object store); [Templates] (each service
      method as a program over the ports); [TemplateRuns] (requests and what
      operations answer, with their rules); [TemplateSafety]
      (interleavings), [TemplateContract] (the class [Contract]: what each kind
      of statement must keep; the services proved once against it) and its
      instance [TemplateHistory]; [TemplateScenario] (runs the kernel
      evaluates, and crashes, the other instance).
    - Editor, [documents_v2] with its sessions, revisions, uploads, checkpoints
      and comments: [EditorDomain]; [EditorTables] (the tables, their
      constraints, the transaction monad [TX]) and [EditorRepo] (every method of
      [repository/repository.go]); [Editor] (the service and the sweepers);
      [EditorRuns], [EditorLogic]; [EditorSpec] (the abstract events
      [edit_event] and the invariant [edit_ok]), [EditorInvariant] (events keep
      it), [EditorSafety] and [EditorRefinement] (methods and services implement
      events); [EditorContract], [EditorOutcomes] (theorems);
      [EditorScenario].
    - Authentication, [auth]: [AuthDomain], [AuthToken] (cookies down to
      HMAC-SHA-256), the two stores [AuthMemory] and
      [AuthPostgres], the service [AuthService]; [AuthStore], the class both
      stores are instances of and against which [AuthLogin] and [AuthSafety]
      prove the service; [AuthGaps], [AuthScenario].
    - IAM, audit and platform: [RateLimit]; [Membership]; [AuditTrail]; [Iam] (policy, role cache, role
      administration, area check, and [Process], what the process keeps besides
      the store).
    - From the wire to the handlers: [Permissions] (the resolver of
      [permissions.go]), [Routes] (every registered route and what
      it needs); [Gate] (CORS, origin protection, session, permission, rate
      limit, in the order of [main.go]) with [GateFacts]; [IdentityHttp] (the
      endpoints of login, users, roles and audit) with [IdentityFacts];
      [GateScenario].
    - Registry and taxonomy: [RegistryTables] (profiles, areas, controlled
      documents, counters, and the statements of both repositories),
      [Taxonomy] (services and endpoints of profiles and areas), [Registry]
      (registering, statuses, duplication, the start-up migration, endpoints),
      [RegistryFacts] (the invariant of the tables, kept by every interleaving;
      the tree of the areas), [RegistryScenario].

    ** How code maps to definitions

    Names are the source's; a lower-case name with underscores is one statement
    or one inner block of the function its comment names. A service is a
    program of [M]: it reads and changes a [World] (database, open transaction,
    clock, fresh UUIDs, and a script of faults that may make any statement
    fail), and returns a value or an error. A statement outside or inside a
    transaction sees the settings [SET LOCAL] put there; an error inside a
    transaction aborts it, and the deferred [Rollback] of the Go code is the
    combinator [or_rollback]. The clock and the UUIDs are functions of a
    counter, so theorems hold of every clock the hypotheses allow.

    The template, editor, identity and registry services hold no transaction
    across calls, but for the numbering of a document: there a method is a tree
    ([Prog]) over the operations of its ports
    ([Templates.Op], [EditOp], [AuthOp], [AreaOp], [ProcOp], [RegOp]),
    each of which takes effect at once, and may fail without or after its
    effect; a history runs one tree at a time, up to any point, and a pool
    interleaves several. A method of the editor's or the users' repository is
    one transaction and one operation: it runs whole or not at all, and
    transactions that lock the rows they decide on run one at a time. The
    transaction that numbers a controlled document is several operations: its
    writes take effect with its commit, which finds the counter as it was read,
    because the UPDATE that read it holds the row's lock.

    Parameters, with what is assumed of them where it is needed: Unicode NFC
    ([UnicodeNorm]), the freeze and PDF-dispatch collaborators
    ([FreezeInvoker], [PDFDispatchInvoker] with [FreezeLaws],
    [DispatchLaws]: they do not touch the approval tables; they hold for the
    no-op freezer the binary wires), the text of a driver error
    ([PgErrorText]), the text form of a UUID ([UuidText], whose canonical form
    is its own: [UuidLaws]), the URLs the object store signs ([SignedURL]),
    the syntax of regular expressions ([RegexpSyntax]), JSONB's text
    ([JsonbText]), the modules the editor asks ([Collaborators]: registry,
    taxonomy, templates, rendering), [Bcrypt] (a hash accepts its password),
    Unicode letter case ([LetterCase]), parsed URLs ([UrlParse]), SQL patterns
    ([Ilike]) and the answers of the area check ([AreaAnswers]). Text columns compare by bytes.

    ** What the theorems show

    - Safety of histories: no document is past review without an approval all
      of whose stages completed; documents only move along the lifecycle;
      publication is irreversible; votes are append-only, one per user and
      stage; one approval in progress per document, and closed approvals are
      final ([Guarantees]).
    - Atomicity: a failed call leaves the database as it was, whatever failed
      and wherever; every success was authorised in the document's area.
    - Functional behaviour: what one vote does, when a quorum is out of reach,
      that stages terminate, that drift and quorum agree, that the trigger and
      the domain have the same transitions, that the content hash ignores map
      order and fails exactly on floats.
    - Jobs: lease epochs are fencing tokens, leases are exclusive, back-pressure
      has hysteresis, the publisher publishes only what is due.
    - HTTP: every endpoint answers, an error response means nothing changed;
      accepted routes are those of the domain and are stored as sent.
    - Templates: whatever interleaves or fails, stored versions keep author,
      reviewer and approver apart, bear the marks of their status and have a
      schema the validation accepts, which is exactly the well-formed ones; in
      histories versions follow their state machine, published ones are frozen
      and unique; interleaved, an edit may reopen a published version, and a
      crash may block a template for good.
    - Editor: whatever interleaves, one writer per document, revisions in one
      chain, recorded work kept, identifiers well formed; every step is an event
      of the specification; what a commit stores is what was announced, and
      commits of one upload agree; an abandoned document can be taken over.
    - Identity: a session needs the right password of an active user, wrong
      passwords lock, a cookie resolves exactly while its session is live, a
      revoked one never again; memberships are never ended; requests of an
      identity are bounded in any window.
    - The gate: what it decides on a request, as a function of the store; what
      every handler may rely on whatever fails; which origins may write; what
      each registered route needs; and, end to end, that roles change by
      administrators only and passwords by administrators or their user.
    - Registry: whatever interleaves and fails, the documents of a profile are
      numbered without gaps and keep their codes; the query of the areas above
      an area is complete and stops where parents run in a circle, and the
      service that checks parents makes no circle.
    - What the code cannot do although it means to: schedule a publication,
      bypass a cancellation, reap a lease, detect a stuck approval, free the
      document of a rejected approval, apply a quorum beyond the first vote,
      restore a checkpoint, save earlier content again, finalize, unlock an
      account in PostgreSQL, revoke a membership, number a document whose
      number was taken by hand.
      Each is a theorem about the code as written.

    ** Fuel and bounds

    [visit] (the search for cycles) has one call more than there are
    placeholders, [climb] (the areas above an area) one round for each area,
    shown to be enough. [janitor_loop] has the ten iterations of the source. [strip_left] runs for
    the length of its string. [itoa_loop] has more digits than a 64-bit int.
    64-bit arithmetic wraps where the source could ([wrap64]); INT and BIGINT
    columns refuse what is out of range.

    ** Not modelled

    Rows are read one statement at a time in the order of the call: two
    transactions never interleave inside a statement sequence except through
    [environment] between calls. [SchedulePublishHandler] (it parses a date with
    [time.Parse]; the service behind it is modelled), [ListRoutesHandler],
    request identifiers and logging. The signature provider is never wired.
    In the template module: the HTTP handlers, the details of audit records,
    and limits of the server beyond column widths and constraints (a failure of
    any statement stands for them). In the editor: the HTTP handlers, freezing,
    fill-in, export and views; deferred foreign keys are checked at once, and
    the reference to a controlled document is not. Columns the editor's
    statements name but no migration creates are assumed to exist. Of the gate
    and the identity endpoints: the cleaning and redirects of [http.ServeMux],
    response headers, the metrics middleware, the texts of error messages and
    the JSON text of replies (a reply holds the values it shows). Of IAM: the
    development role provider, the start-up check of the capability map, and the
    area middleware, which is never wired. Of the registry: the endpoint of the
    active document, which reads the tables of the editor and the approvals. Its
    tables and those of the editor are not joined: the registry's answers to the
    editor stay parameters ([Collaborators]).
    The remaining modules are listed in the manifest and not modelled: legacy
    documents and workflow (superseded by [documents_v2]), notifications and
    search (read models), rendering (external services), and the platform's
    clients, metrics, configuration and entry points. *)
From stdpp Require Export prelude strings list gmap sorting.
From Stdlib Require Export ZArith Lia.

#[export] Set Default Goal Selector "!".
#[export] Set Warnings "-clear-no-such-hyp,-register-all".

(** ** Time, widths *)

(** Instants are nanoseconds counted from Go's zero [time.Time]
    (1 January of year 1, UTC), so that [IsZero] is equality with 0. *)
Abbreviation Time := Z.

Definition IsZero (t : Time) : bool := bool_decide (t = 0)%Z.

(** Largest value of a PostgreSQL [INT] column. *)
Definition int4_max : Z := 2147483647.

(** Two's-complement wrap-around of Go's 64-bit [int]. *)
Definition wrap64 (z : Z) : Z := ((z + 2 ^ 63) mod 2 ^ 64 - 2 ^ 63)%Z.

(** ** Errors

    A Go error is a chain: sentinels are compared by identity (their
    variable's name here), formatted errors keep the format string and its
    arguments, and [%w] adds a link to the chain. *)
Inductive FmtArg :=
  | AStr (s : string)
  | AInt (z : Z)
  | ABool (b : bool).

Inductive Error :=
  | Sentinel (var : string)
  | Errorf (fmt : string) (args : list FmtArg)
  | Wrapf (fmt : string) (args : list FmtArg) (wrapped : Error)
  | PgError (code constraint message : string)
  | ErrCapabilityDenied (capability area actor : string).

#[export] Instance FmtArg_eq_dec : EqDecision FmtArg.
Proof. solve_decision. Defined.
#[export] Instance Error_eq_dec : EqDecision Error.
Proof. solve_decision. Defined.

(** [errors.Is]: walk the chain, comparing each link with the target. *)
Fixpoint errors_Is (err target : Error) : bool :=
  bool_decide (err = target) ||
  match err with
  | Wrapf _ _ e => errors_Is e target
  | _ => false
  end.

(** [errors.As] for [*pgconn.PgError]. *)
Fixpoint errors_As_PgError (err : Error) : option (string * string * string) :=
  match err with
  | PgError code constraint message => Some (code, constraint, message)
  | Wrapf _ _ e => errors_As_PgError e
  | _ => None
  end.

(** [errors.As] for [authz.ErrCapabilityDenied]. *)
Fixpoint errors_As_CapabilityDenied (err : Error) : option (string * string * string) :=
  match err with
  | ErrCapabilityDenied c a u => Some (c, a, u)
  | Wrapf _ _ e => errors_As_CapabilityDenied e
  | _ => None
  end.

Definition ErrNoRows : Error := Sentinel "sql.ErrNoRows".

(** A Go function returning [(T, error)]: [inl] is the error. *)
Abbreviation Result A := (Error + A)%type.

(** ** Lists *)

(** Index of the first element satisfying [p], searching from [start]:
    the [for i := start; i < len(l); i++] loops of the source. *)
Fixpoint find_index {A} (p : A -> bool) (l : list A) : option nat :=
  match l with
  | [] => None
  | x :: l' => if p x then Some 0 else S <$> find_index p l'
  end.

Definition find_index_from {A} (p : A -> bool) (start : nat) (l : list A) : option nat :=
  (fun i => start + i) <$> find_index p (drop start l).

(** Boolean filter and count (SQL [WHERE] clauses, Go counting loops). *)
Definition bfilter {A} (p : A -> bool) (l : list A) : list A :=
  filter (fun x => p x = true) l.

Definition bcount {A} (p : A -> bool) (l : list A) : nat := length (bfilter p l).

(** [strings] equality as a boolean. *)
Definition str_eqb (a b : string) : bool := bool_decide (a = b).

(** ** Generic lemmas *)

Lemma errors_Is_refl e : errors_Is e e = true.
Proof. destruct e; simpl; by rewrite bool_decide_eq_true_2. Qed.

Lemma errors_Is_Wrapf f args e target :
  errors_Is e target = true -> errors_Is (Wrapf f args e) target = true.
Proof. intros H. simpl. rewrite H. by rewrite orb_true_r. Qed.

Lemma str_eqb_true a b : str_eqb a b = true <-> a = b.
Proof. apply bool_decide_eq_true. Qed.

Lemma str_eqb_false a b : str_eqb a b = false <-> a <> b.
Proof. apply bool_decide_eq_false. Qed.

Lemma str_eqb_refl a : str_eqb a a = true.
Proof. by apply str_eqb_true. Qed.

Lemma find_index_Some {A} (p : A -> bool) l i :
  find_index p l = Some i <->
  exists x, l !! i = Some x /\ p x = true /\
    forall j y, (j < i)%nat -> l !! j = Some y -> p y = false.
Proof.
  revert i. induction l as [|a l IH]; intros i; simpl.
  { split; [done|]. by intros (x & Hx & _). }
  destruct (p a) eqn:Hp.
  - split.
    + intros [= <-]. exists a. split_and!; [done..|]. intros j y Hj. lia.
    + intros (x & Hx & Hpx & Hmin). destruct i as [|i]; [done|].
      exfalso. assert (p a = false) by (apply (Hmin 0%nat); [lia|done]). congruence.
  - rewrite fmap_Some. split.
    + intros (i' & Hi' & ->). apply IH in Hi' as (x & Hx & Hpx & Hmin).
      exists x. split_and!; [done..|]. intros [|j] y Hj Hy; simpl in Hy; [congruence|].
      apply (Hmin j); [lia|done].
    + intros (x & Hx & Hpx & Hmin). destruct i as [|i]; simpl in Hx; [congruence|].
      exists i. split; [|done]. apply IH. exists x. split_and!; [done..|].
      intros j y Hj Hy. apply (Hmin (S j)); [lia|done].
Qed.

Lemma find_index_None {A} (p : A -> bool) l :
  find_index p l = None <-> forall x, x ∈ l -> p x = false.
Proof.
  induction l as [|a l IH]; simpl.
  { split; [|done]. intros _ x Hx. by apply not_elem_of_nil in Hx. }
  destruct (p a) eqn:Hp.
  - split; [done|]. intros H. assert (p a = false) by (apply H; left). congruence.
  - rewrite fmap_None, IH. split; intros H x.
    + intros [->|Hx]%elem_of_cons; auto.
    + intros Hx. apply H. by right.
Qed.

Lemma find_index_app {A} (p : A -> bool) l x k :
  Forall (fun y => p y = false) l -> p x = true ->
  find_index p (l ++ x :: k) = Some (length l).
Proof. induction 1 as [|y l Hy _ IH]; intros Hx; simpl; [by rewrite Hx|]. by rewrite Hy, IH. Qed.

Lemma find_index_all_false {A} (p : A -> bool) l :
  Forall (fun y => p y = false) l -> find_index p l = None.
Proof. intros H. apply find_index_None. by apply Forall_forall. Qed.

Lemma alter_middle {A} (f : A -> A) l x k :
  alter f (length l) (l ++ x :: k) = l ++ f x :: k.
Proof. induction l; simpl; [done|]. by f_equal. Qed.

Lemma drop_middle {A} (l : list A) x k : drop (S (length l)) (l ++ x :: k) = k.
Proof. induction l; simpl; [by rewrite drop_0|done]. Qed.

Lemma elem_of_bfilter {A} (p : A -> bool) l x : x ∈ bfilter p l <-> p x = true /\ x ∈ l.
Proof. unfold bfilter. by rewrite list_elem_of_filter. Qed.

Lemma bfilter_cons {A} (p : A -> bool) x l :
  bfilter p (x :: l) = if p x then x :: bfilter p l else bfilter p l.
Proof. unfold bfilter. rewrite filter_cons. destruct (p x); by case_decide. Qed.

Lemma bfilter_app {A} (p : A -> bool) l k :
  bfilter p (l ++ k) = bfilter p l ++ bfilter p k.
Proof. unfold bfilter. apply filter_app. Qed.

Lemma bcount_le {A} (p : A -> bool) l : (bcount p l <= length l)%nat.
Proof. unfold bcount, bfilter. apply length_filter. Qed.

(** ** Automation *)

(** Rewrite boolean string tests into equalities and inequalities. *)
Ltac bool_to_prop :=
  repeat match goal with
  | H : str_eqb _ _ = true |- _ => apply str_eqb_true in H
  | H : str_eqb _ _ = false |- _ => apply str_eqb_false in H
  | H : bool_decide _ = true |- _ => apply bool_decide_eq_true in H
  | H : bool_decide _ = false |- _ => apply bool_decide_eq_false in H
  | H : andb _ _ = true |- _ => apply andb_true_iff in H as [? ?]
  | H : orb _ _ = false |- _ => apply orb_false_iff in H as [? ?]
  | H : negb _ = true |- _ => apply negb_true_iff in H
  | H : negb _ = false |- _ => apply negb_false_iff in H
  end.

Create HintDb metaldocs.
#[export] Hint Resolve errors_Is_refl errors_Is_Wrapf str_eqb_refl : metaldocs.
