(* ===== verification/Text.v ===== *)
(** * Text

    The functions of Go's [strings], [strconv] and [net] the code uses, on
    strings as bytes, and the lemmas about them that components share. *)
From S2P Require Import Prelude.
From stdpp Require Import pretty.
From Stdlib Require Import Ascii.
Local Open Scope Z_scope.

(** ** Searching and trimming *)

Definition char_of (n : nat) : Ascii.ascii := Ascii.ascii_of_nat n.

(** [strings.Contains]. *)
Fixpoint Contains (s sub : string) : bool :=
  String.prefix sub s || match s with EmptyString => false | String _ s' => Contains s' sub end.

(** [strings.HasPrefix] and [strings.TrimPrefix]. *)
Definition HasPrefix (s p : string) : bool := String.prefix p s.

Fixpoint drop_chars (n : nat) (s : string) : string :=
  match n, s with
  | S n', String _ s' => drop_chars n' s'
  | _, _ => s
  end.

Definition TrimPrefix (s p : string) : string :=
  if HasPrefix s p then drop_chars (String.length p) s else s.

(** The UTF-8 encodings of the runes [unicode.IsSpace] accepts. *)
Definition bytes_string (l : list nat) : string := String.string_of_list_ascii (char_of <$> l).

Definition spaces : list string :=
  bytes_string <$>
    [[9]; [10]; [11]; [12]; [13]; [32]; [194; 133]; [194; 160]; [225; 154; 128];
     [226; 128; 128]; [226; 128; 129]; [226; 128; 130]; [226; 128; 131]; [226; 128; 132];
     [226; 128; 133]; [226; 128; 134]; [226; 128; 135]; [226; 128; 136]; [226; 128; 137];
     [226; 128; 138]; [226; 128; 168]; [226; 128; 169]; [226; 128; 175]; [226; 129; 159];
     [227; 128; 128]]%nat.

(** Strip any of [cutset] from the left, [fuel] times at most: the length of
    the string is enough, since every element of [cutset] is non-empty. *)
Fixpoint strip_left (fuel : nat) (cutset : list string) (s : string) : string :=
  match fuel with
  | O => s
  | S fuel' =>
      match List.find (fun c => String.prefix c s) cutset with
      | Some c => strip_left fuel' cutset (drop_chars (String.length c) s)
      | None => s
      end
  end.

Definition rev_string (s : string) : string :=
  String.string_of_list_ascii (rev (String.list_ascii_of_string s)).

Definition trim (cutset : list string) (s : string) : string :=
  let l := strip_left (String.length s) cutset s in
  rev_string (strip_left (String.length l) (rev_string <$> cutset) (rev_string l)).

(** [strings.TrimSpace] on a valid UTF-8 string. *)
Definition TrimSpace (s : string) : string := trim spaces s.

Definition quote_char : string := bytes_string [34%nat].

(** [strings.Trim(value, quote)]. *)
Definition TrimQuotes (s : string) : string := trim [quote_char] s.

(** [strconv.Itoa] and [strconv.Atoi] (64-bit [int]). *)
Definition Itoa (z : Z) : string := pretty z.

Definition digit_value (c : Ascii.ascii) : option Z :=
  let n := Z.of_nat (Ascii.nat_of_ascii c) in
  if (48 <=? n) && (n <=? 57) then Some (n - 48) else None.

Fixpoint digits_value (acc : Z) (s : string) : option Z :=
  match s with
  | EmptyString => Some acc
  | String c s' =>
      match digit_value c with
      | Some d => digits_value (10 * acc + d) s'
      | None => None
      end
  end.

Definition unsigned_value (s : string) : option Z :=
  match s with EmptyString => None | _ => digits_value 0 s end.

Definition Atoi (s : string) : option Z :=
  z ← (if HasPrefix s "-" then Z.opp <$> unsigned_value (drop_chars 1 s)
       else if HasPrefix s "+" then unsigned_value (drop_chars 1 s)
       else unsigned_value s);
  if (- 2 ^ 63 <=? z) && (z <? 2 ^ 63) then Some z else None.

(** ** Cutting *)

(** [strings.HasSuffix]. *)
Definition HasSuffix (s p : string) : bool := String.prefix (rev_string p) (rev_string s).

(** [strings.Split(s, c)] for a separator of one byte. *)
Fixpoint Split (s : string) (c : Ascii.ascii) : list string :=
  match s with
  | EmptyString => [""]
  | String d s' =>
      if Ascii.eqb d c then "" :: Split s' c
      else match Split s' c with p :: ps => String d p :: ps | [] => [String d ""] end
  end.

Definition IndexByte (s : string) (c : Ascii.ascii) : option nat :=
  find_index (Ascii.eqb c) (String.list_ascii_of_string s).

Definition LastIndexByte (s : string) (c : Ascii.ascii) : option nat :=
  (fun i => String.length s - S i)%nat <$> IndexByte (rev_string s) c.

(** [net.SplitHostPort]: host and port, or an error. *)
Definition SplitHostPort (hostport : string) : option (string * string) :=
  match LastIndexByte hostport (char_of 58) with
  | None => None
  | Some i =>
      let port := drop_chars (S i) hostport in
      if HasPrefix hostport "[" then
        match IndexByte hostport (char_of 93) with
        | None => None
        | Some e =>
            if negb (Nat.eqb (S e) i) then None
            else if Contains (drop_chars 1 hostport) "[" || Contains (drop_chars (S e) hostport) "]" then None
            else Some (String.substring 1 (e - 1) hostport, port)
        end
      else
        let host := String.substring 0 i hostport in
        if Contains host ":" || Contains hostport "[" || Contains hostport "]" then None
        else Some (host, port)
  end.

Example SplitHostPort_v4 : SplitHostPort "10.0.0.7:8080" = Some ("10.0.0.7", "8080").
Proof. reflexivity. Qed.
Example SplitHostPort_v6 : SplitHostPort "[::1]:8080" = Some ("::1", "8080").
Proof. reflexivity. Qed.
Example SplitHostPort_bare : SplitHostPort "::1" = None.
Proof. reflexivity. Qed.

(** ** Letter case *)

(** ASCII part of [strings.ToLower]: all the code needs where a string with a
    non-ASCII character is rejected, or matches nothing, either way. *)
Definition ascii_lower (c : Ascii.ascii) : Ascii.ascii :=
  let n := Ascii.nat_of_ascii c in
  if (Nat.leb 65 n && Nat.leb n 90)%bool then Ascii.ascii_of_nat (n + 32) else c.

Fixpoint ToLower (s : string) : string :=
  match s with
  | EmptyString => EmptyString
  | String c s' => String (ascii_lower c) (ToLower s')
  end.

(** ** Trimming *)

Lemma strip_left_stop fuel cutset s :
  List.find (fun c => String.prefix c s) cutset = None -> strip_left fuel cutset s = s.
Proof. intros Hf. destruct fuel; simpl; [done|by rewrite Hf]. Qed.

Lemma prefix_other c d s t : c <> d -> String.prefix (String c s) (String d t) = false.
Proof. intros Hne. simpl. by destruct (Ascii.ascii_dec c d). Qed.

(** ** Decimal integers *)

Definition is_digit (c : Ascii.ascii) : Prop := is_Some (digit_value c).

Lemma digit_char_spec d : (d < 10)%N -> digit_value (pretty.pretty_N_char d) = Some (Z.of_N d).
Proof.
  intros Hd. assert (d = 0 \/ d = 1 \/ d = 2 \/ d = 3 \/ d = 4 \/ d = 5 \/ d = 6 \/ d = 7 \/
    d = 8 \/ d = 9)%N as Hcases by lia.
  by destruct_or! Hcases; subst.
Qed.

Lemma digits_value_go x s :
  digits_value 0 (pretty.pretty_N_go x s) = digits_value (Z.of_N x) s.
Proof.
  revert s. induction (N.lt_wf_0 x) as [x _ IH]; intros s.
  destruct (decide (x = 0)%N) as [->|Hx]; [by rewrite pretty.pretty_N_go_0|].
  rewrite pretty.pretty_N_go_step by lia.
  rewrite IH by (apply N.div_lt; lia). cbn [digits_value].
  rewrite digit_char_spec by (apply N.mod_lt; lia). f_equal.
  rewrite N2Z.inj_div, N2Z.inj_mod. pose proof (Z.div_mod (Z.of_N x) 10). lia.
Qed.

Lemma digits_go x s :
  Forall is_digit (String.list_ascii_of_string s) ->
  Forall is_digit (String.list_ascii_of_string (pretty.pretty_N_go x s)).
Proof.
  revert s. induction (N.lt_wf_0 x) as [x _ IH]; intros s Hs.
  destruct (decide (x = 0)%N) as [->|Hx]; [by rewrite pretty.pretty_N_go_0|].
  rewrite pretty.pretty_N_go_step by lia.
  apply IH; [apply N.div_lt; lia|]. constructor; [|done]. unfold is_digit.
  rewrite digit_char_spec by (apply N.mod_lt; lia). done.
Qed.

Lemma Itoa_digits z :
  0 <= z -> digits_value 0 (Itoa z) = Some z /\
            Forall is_digit (String.list_ascii_of_string (Itoa z)) /\ Itoa z <> "".
Proof.
  intros Hz. destruct z as [|p|p]; [| |lia].
  { split_and!; [done| |done]. constructor; [by eexists|constructor]. }
  assert (Itoa (Z.pos p) = pretty.pretty_N_go (N.pos p) "") as -> by done.
  pose proof (digits_value_go (N.pos p) "") as Hv.
  split_and!; [done|by apply digits_go|]. intros Heq. by rewrite Heq in Hv.
Qed.

Lemma is_digit_not c (x : Ascii.ascii) : is_digit c -> digit_value x = None -> c <> x.
Proof. intros [d Hd] Hx ->. congruence. Qed.

Lemma unsigned_not_signed s c :
  s <> "" -> Forall is_digit (String.list_ascii_of_string s) -> digit_value c = None ->
  HasPrefix s (String c "") = false.
Proof.
  intros Hs HF Hc. destruct s as [|d s]; [done|]. inversion HF; subst. unfold HasPrefix. simpl.
  destruct (Ascii.ascii_dec c d) as [->|]; [|done]. by destruct (is_digit_not d d).
Qed.

Lemma Atoi_Itoa z : 0 <= z < 2 ^ 63 -> Atoi (Itoa z) = Some z.
Proof.
  intros Hz. destruct (Itoa_digits z) as (Hv & Hd & Hne); [lia|]. unfold Atoi.
  rewrite !unsigned_not_signed by done.
  unfold unsigned_value. destruct (Itoa z); [done|]. rewrite Hv. simpl.
  destruct (Z.leb_spec (- 2 ^ 63) z); [|lia]. by destruct (Z.ltb_spec z (2 ^ 63)); [|lia].
Qed.

(** ** Concatenation *)

Lemma list_ascii_app s t :
  String.list_ascii_of_string (s +:+ t) =
  String.list_ascii_of_string s ++ String.list_ascii_of_string t.
Proof. induction s as [|c s IH]; [done|]. exact (f_equal (cons c) IH). Qed.

Lemma string_app_nil s : s +:+ "" = s.
Proof. induction s as [|c s IH]; [done|]. exact (f_equal (String c) IH). Qed.

Lemma string_app_assoc s t u : (s +:+ t) +:+ u = s +:+ t +:+ u.
Proof. induction s as [|c s IH]; [done|]. exact (f_equal (String c) IH). Qed.

Lemma string_of_list_ascii_app l k :
  String.string_of_list_ascii (l ++ k) =
  String.string_of_list_ascii l +:+ String.string_of_list_ascii k.
Proof. induction l as [|c l IH]; simpl; [done|by rewrite IH]. Qed.

Lemma rev_string_involutive s : rev_string (rev_string s) = s.
Proof.
  unfold rev_string.
  by rewrite String.list_ascii_of_string_of_list_ascii, rev_involutive, String.string_of_list_ascii_of_string.
Qed.

Lemma rev_string_app s t : rev_string (s +:+ t) = rev_string t +:+ rev_string s.
Proof. unfold rev_string. by rewrite list_ascii_app, rev_app_distr, string_of_list_ascii_app. Qed.


(** White space starts and ends with a byte outside the visible ASCII range, so
    text that starts and ends inside it is already trimmed. *)
Definition visible (c : Ascii.ascii) : bool :=
  let n := Ascii.nat_of_ascii c in (Nat.ltb 32 n && Nat.ltb n 128)%bool.

Definition starts_visible (s : string) : bool :=
  match s with EmptyString => true | String c _ => visible c end.

Definition starts_invisible (w : string) : bool :=
  match w with EmptyString => false | String c _ => negb (visible c) end.

Lemma strip_left_visible fuel cutset s :
  forallb starts_invisible cutset = true -> starts_visible s = true -> strip_left fuel cutset s = s.
Proof.
  intros Hc Hs. apply strip_left_stop. rewrite forallb_forall in Hc.
  destruct (List.find _ _) as [w|] eqn:Hw; [|done]. apply find_some in Hw as [Hin Hp].
  specialize (Hc w Hin). destruct w as [|d w]; [done|]. destruct s as [|c s]; [done|].
  simpl in *. destruct (Ascii.ascii_dec d c) as [->|]; [|done]. by rewrite Hs in Hc.
Qed.

Lemma TrimSpace_visible s :
  starts_visible s = true -> starts_visible (rev_string s) = true -> TrimSpace s = s.
Proof.
  intros H1 H2. unfold TrimSpace, trim. rewrite (strip_left_visible _ spaces) by done.
  rewrite strip_left_visible by done. apply rev_string_involutive.
Qed.

(** ** Split *)

Definition chars (s : string) : list Ascii.ascii := String.list_ascii_of_string s.

Lemma Split_not_nil s c : Split s c <> [].
Proof. destruct s as [|d s]; [done|]. simpl. case_match; [done|]. by case_match. Qed.

Lemma Split_none s c : c ∉ chars s -> Split s c = [s].
Proof.
  induction s as [|d s IH]; [done|]. intros Hc. simpl.
  destruct (Ascii.eqb_spec d c) as [->|Hne]; [exfalso; apply Hc; left|].
  rewrite IH; [done|]. intros H. apply Hc. by right.
Qed.

Lemma Split_app s c t : c ∉ chars s -> Split (s +:+ String c t) c = s :: Split t c.
Proof.
  induction s as [|d s IH]; intros Hc; [simpl; by rewrite Ascii.eqb_refl|].
  change (String d s +:+ String c t) with (String d (s +:+ String c t)). simpl.
  destruct (Ascii.eqb_spec d c) as [->|Hne]; [exfalso; apply Hc; left|].
  rewrite IH; [done|]. intros H. apply Hc. by right.
Qed.

Lemma Split_head s c p ps : Split s c = p :: ps -> c ∉ chars p.
Proof.
  revert p ps. induction s as [|d s IH]; intros p ps; simpl.
  { intros [= <- <-]. apply not_elem_of_nil. }
  destruct (Ascii.eqb_spec d c) as [->|Hne]; [intros [= <- <-]; apply not_elem_of_nil|].
  destruct (Split s c) as [|q qs] eqn:Hs; [by destruct (Split_not_nil s c)|].
  intros [= <- <-]. intros [->|H]%elem_of_cons; [done|]. by apply (IH q qs eq_refl).
Qed.

(** What two parts say of the text they come from. *)
Lemma Split_two s c a b :
  Split s c = [a; b] <-> s = a +:+ String c b /\ c ∉ chars a /\ c ∉ chars b.
Proof.
  split; [|intros (-> & Ha & Hb); by rewrite Split_app, Split_none by done].
  revert a. induction s as [|d s IH]; intros a; simpl; [done|].
  destruct (Ascii.eqb_spec d c) as [->|Hne].
  - intros [= <- Hs]. destruct s as [|e s]; [injection Hs as <-; split_and!; [done|apply not_elem_of_nil..]|].
    assert (c ∉ chars b) as Hb by (by apply (Split_head (String e s) c b [])).
    split_and!; [|apply not_elem_of_nil|done]. clear IH.
    assert (forall s b, Split s c = [b] -> s = b) as Hone; [|by rewrite (Hone _ _ Hs)].
    clear. intros s. induction s as [|d s IH]; intros b; simpl; [by intros [= <-]|].
    destruct (Ascii.eqb_spec d c) as [->|]; [intros [= _ H]; by destruct (Split_not_nil s c)|].
    destruct (Split s c) as [|q qs] eqn:Hs; [by destruct (Split_not_nil s c)|].
    intros [= <- ->]. f_equal. by apply IH.
  - destruct (Split s c) as [|q qs] eqn:Hs; [done|]. intros [= <- ->].
    destruct (IH q eq_refl) as (-> & Hq & Hb). split_and!; [done| |done].
    by intros [->|H]%elem_of_cons.
Qed.
