(* ===== verification/Tables.v ===== *)
(** * Tables

    The statements of SQL in general, on a table as a list of rows: UPDATE with
    a condition, SELECT of one row, ORDER BY, constraints; and how a table may
    grow, with the lemmas every component uses. *)
From S2P Require Import Prelude.
Local Open Scope Z_scope.

(** ** SQL errors *)

Definition check_violation (msg : string) : Error := PgError "23514" "" msg.
Definition unique_violation (constraint : string) : Error :=
  PgError "23505" constraint "duplicate key value violates unique constraint".
Definition fk_violation (constraint : string) : Error :=
  PgError "23503" constraint "insert or update violates foreign key constraint".
Definition raise_exception (msg : string) : Error := PgError "P0001" "" msg.
Definition undefined_column (msg : string) : Error := PgError "42703" "" msg.
Definition out_of_range : Error := PgError "22003" "" "integer out of range".
Definition undefined_guc (name : string) : Error :=
  PgError "42704" "" ("unrecognized configuration parameter " ++ name).

(** ** Generic statements *)

(** [UPDATE t SET ... WHERE cond], with the number of rows affected. *)
Fixpoint update_where {R} (cond : R -> bool) (upd : R -> Result R) (rows : list R)
    : Result (Z * list R) :=
  match rows with
  | [] => inr (0, [])
  | r :: rest =>
      match (if cond r then upd r else inr r) with
      | inl e => inl e
      | inr r' =>
          match update_where cond upd rest with
          | inl e => inl e
          | inr (n, rest') => inr ((if cond r then n + 1 else n), r' :: rest')
          end
      end
  end.

(** First row of [SELECT ... WHERE cond]. *)
Definition select_one {R} (cond : R -> bool) (rows : list R) : option R :=
  head (bfilter cond rows).

(** [ORDER BY key ASC] (ties in any order: here, insertion order). *)
Fixpoint insert_by {R} (key : R -> Z) (r : R) (l : list R) : list R :=
  match l with
  | [] => [r]
  | x :: l' => if key r <? key x then r :: l else x :: insert_by key r l'
  end.

Fixpoint order_by {R} (key : R -> Z) (l : list R) : list R :=
  match l with
  | [] => []
  | x :: l' => insert_by key x (order_by key l')
  end.

(** A constraint: [b] must hold or the statement fails with [e]. *)
Definition constraint (b : bool) (e : Error) : Result unit := if b then inr tt else inl e.

Notation "'check!' r ; k" :=
  (match r with inl e => inl e | inr _ => k end)
  (at level 60, r at level 59, k at level 200, right associativity).

(** The first rows evolve by [step], new rows come after them. *)
Definition grows {A} (step : A -> A -> Prop) (l l' : list A) : Prop :=
  exists l1 new, l' = l1 ++ new /\ Forall2 step l l1.

(** ** Parameters *)

(** PostgreSQL's input of a [uuid] parameter: the canonical text, [None] when
    malformed (SQLSTATE 22P02). *)
Class UuidText := uuid_in : string -> option string.

Class UuidLaws `{UuidText} : Prop :=
  uuid_in_canonical : forall s c, uuid_in s = Some c -> uuid_in c = Some c.

Definition invalid_uuid (s : string) : Error :=
  PgError "22P02" "" ("invalid input syntax for type uuid: " +:+ s).

Definition uuid_param `{UuidText} (s : string) : Result string :=
  match uuid_in s with Some c => inr c | None => inl (invalid_uuid s) end.

(** A nullable parameter. *)
Definition uuid_param_opt `{UuidText} (s : option string) : Result (option string) :=
  match s with
  | None => inr None
  | Some s => match uuid_param s with inl e => inl e | inr c => inr (Some c) end
  end.

(** PostgreSQL's input of a [jsonb] parameter: the text of the value, [None]
    when malformed. *)
Class JsonbText := jsonb_in : string -> option string.

Definition invalid_json : Error := PgError "22P02" "" "invalid input syntax for type json".

Definition jsonb_param `{JsonbText} (s : string) : Result string :=
  match jsonb_in s with Some c => inr c | None => inl invalid_json end.

(** An [int] parameter against an INT column. *)
Definition int4_param (n : Z) : Result Z :=
  if (n <? -2147483648) || (int4_max <? n) then inl out_of_range else inr n.

Definition isInvalidUUID (err : Error) : bool :=
  match errors_As_PgError err with Some (code, _, _) => str_eqb code "22P02" | None => false end.

Definition map_error {A} (f : Error -> Error) (r : Result A) : Result A :=
  match r with inl e => inl (f e) | inr a => inr a end.

Notation "'let!' x ':=' r 'in' k" :=
  (match r with inl e => inl e | inr x => k end)
  (at level 10, x name, r at level 100, k at level 200).

(** ** Facts *)

(** The rows of an UPDATE: those outside the condition are kept, the others
    are what the SET clause and the triggers return; their number is counted. *)
Definition updated {R} (cond : R -> bool) (upd : R -> Result R) (r r' : R) : Prop :=
  if cond r then upd r = inr r' else r' = r.

Lemma update_where_ok {R} (cond : R -> bool) upd rows n rows' :
  update_where cond upd rows = inr (n, rows') ->
  Forall2 (updated cond upd) rows rows' /\ n = Z.of_nat (bcount cond rows).
Proof.
  revert n rows'. induction rows as [|r rows IH]; intros n rows'; simpl.
  { intros [= <- <-]. split; [constructor|done]. }
  destruct (if cond r then upd r else inr r) as [e|r'] eqn:Hr; [done|].
  destruct (update_where cond upd rows) as [e|[k rest]]; [done|].
  intros [= <- <-]. destruct (IH k rest eq_refl) as [H1 ->]. split.
  - constructor; [|done]. unfold updated. destruct (cond r); congruence.
  - unfold bcount. rewrite bfilter_cons. destruct (cond r); simpl; lia.
Qed.

Lemma update_where_none {R} (cond : R -> bool) upd rows :
  Forall (fun r => cond r = false) rows -> update_where cond upd rows = inr (0, rows).
Proof. induction 1 as [|r rows Hr _ IH]; simpl; [done|]. by rewrite Hr, IH. Qed.

(** An UPDATE whose SET clause cannot fail. *)
Lemma update_where_map {R} (cond : R -> bool) (f : R -> R) (upd : R -> Result R) rows :
  (forall r, r ∈ rows -> cond r = true -> upd r = inr (f r)) ->
  update_where cond upd rows
  = inr (Z.of_nat (bcount cond rows), (fun r => if cond r then f r else r) <$> rows).
Proof.
  induction rows as [|r rows IH]; intros Hu; simpl; [done|].
  rewrite IH by (intros q Hq; apply Hu; by right). unfold bcount. rewrite bfilter_cons.
  destruct (cond r) eqn:Hc; simpl.
  - rewrite (Hu r ltac:(left) Hc). do 2 f_equal. lia.
  - done.
Qed.

Lemma select_one_fmap {R} (cond : R -> bool) (g : R -> R) rows :
  (forall r, cond (g r) = cond r) -> select_one cond (g <$> rows) = g <$> select_one cond rows.
Proof.
  intros Hg. unfold select_one. induction rows as [|r rows IH]; [done|].
  rewrite fmap_cons, !bfilter_cons, Hg. by destruct (cond r).
Qed.

Lemma select_one_Some {R} (cond : R -> bool) rows r :
  select_one cond rows = Some r -> r ∈ rows /\ cond r = true.
Proof.
  unfold select_one. destruct (bfilter cond rows) as [|x l] eqn:Hb; [done|]. intros [= ->].
  assert (r ∈ bfilter cond rows) as Hr by (rewrite Hb; left). apply elem_of_bfilter in Hr. tauto.
Qed.

Lemma select_one_None {R} (cond : R -> bool) rows :
  select_one cond rows = None <-> forall r, r ∈ rows -> cond r = false.
Proof.
  unfold select_one. induction rows as [|x rows IH]; [split; [intros _ r Hr; by apply not_elem_of_nil in Hr|done]|].
  rewrite bfilter_cons. destruct (cond x) eqn:Hx; simpl.
  - split; [done|]. intros H. by rewrite (H x) in Hx by left.
  - rewrite IH. split; [intros H r [->|Hr]%elem_of_cons; auto|intros H r Hr; apply H; by right].
Qed.

Lemma constraint_ok b e u : constraint b e = inr u <-> b = true.
Proof. destruct b, u; split; done. Qed.

(** A negated existential test, on an element of the list. *)
Lemma existsb_false_elem {A} (f : A -> bool) l x :
  existsb f l = false -> x ∈ l -> f x = false.
Proof.
  intros H Hx. destruct (f x) eqn:Hf; [|done].
  assert (existsb f l = true); [|congruence]. apply existsb_exists. exists x.
  split; [by apply list_elem_of_In|done].
Qed.

Lemma existsb_true_elem {A} (f : A -> bool) l :
  existsb f l = true -> exists x, x ∈ l /\ f x = true.
Proof. intros (x & Hx & Hf)%existsb_exists. exists x. by rewrite list_elem_of_In. Qed.

Lemma elem_of_map_inv {A B} (f : A -> B) (l : list A) y : y ∈ f <$> l -> exists x, x ∈ l /\ y = f x.
Proof. intros (x & -> & Hx)%list_elem_of_fmap. eauto. Qed.

Lemma updated_forall {A} (P : A -> A -> Prop) (l l' : list A) : 
  Forall2 P l l' -> forall x, x ∈ l -> exists y, y ∈ l' /\ P x y.
Proof.
  intros HF x [k Hk]%list_elem_of_lookup. destruct (Forall2_lookup_l _ _ _ _ _ HF Hk) as (y & Hy & Hp).
  exists y. split; [by eapply list_elem_of_lookup_2|done].
Qed.

Lemma updated_forall_r {A} (P : A -> A -> Prop) (l l' : list A) :
  Forall2 P l l' -> forall y, y ∈ l' -> exists x, x ∈ l /\ P x y.
Proof.
  intros HF y [k Hk]%list_elem_of_lookup. destruct (Forall2_lookup_r _ _ _ _ _ HF Hk) as (x & Hx & Hp).
  exists x. split; [by eapply list_elem_of_lookup_2|done].
Qed.

Lemma bfilter_none {A} (p : A -> bool) l : (forall x, x ∈ l -> p x = false) -> bfilter p l = [].
Proof.
  induction l as [|x l IH]; intros H; [done|]. rewrite bfilter_cons, (H x) by left.
  apply IH. intros y Hy. apply H. by right.
Qed.

Lemma bfilter_all {A} (p : A -> bool) l : (forall x, x ∈ l -> p x = true) -> bfilter p l = l.
Proof.
  induction l as [|x l IH]; intros H; [done|]. rewrite bfilter_cons, (H x) by left.
  f_equal. apply IH. intros y Hy. apply H. by right.
Qed.

Lemma bcount_exists {A} (p : A -> bool) l : bcount p l <> 0%nat -> exists x, x ∈ l /\ p x = true.
Proof.
  unfold bcount. destruct (bfilter p l) as [|x k] eqn:Hb; [done|]. intros _. exists x.
  assert (x ∈ bfilter p l) as Hx by (rewrite Hb; left). apply elem_of_bfilter in Hx. tauto.
Qed.

(** ** Keys and parameters *)

Lemma NoDup_fmap_inj {A B} (f : A -> B) (l : list A) x y :
  NoDup (f <$> l) -> x ∈ l -> y ∈ l -> f x = f y -> x = y.
Proof.
  intros Hnd [i Hi]%list_elem_of_lookup [j Hj]%list_elem_of_lookup E.
  assert (i = j) as <-; [|congruence].
  apply (NoDup_lookup (f <$> l) i j (f x)); [done|by rewrite list_lookup_fmap, Hi|].
  by rewrite list_lookup_fmap, Hj, E.
Qed.

Lemma select_one_unique {R} (key : R -> string) k rows r :
  NoDup (key <$> rows) -> r ∈ rows -> key r = k ->
  select_one (fun x => str_eqb (key x) k) rows = Some r.
Proof.
  intros Hnd Hr <-. unfold select_one.
  destruct (bfilter (fun x => str_eqb (key x) (key r)) rows) as [|x l] eqn:Hb.
  - assert (r ∈ bfilter (fun x => str_eqb (key x) (key r)) rows) as Hin.
    { apply elem_of_bfilter. by rewrite str_eqb_refl. }
    rewrite Hb in Hin. by apply not_elem_of_nil in Hin.
  - simpl. f_equal. assert (x ∈ bfilter (fun x => str_eqb (key x) (key r)) rows) as Hin.
    { rewrite Hb. left. }
    apply elem_of_bfilter in Hin as [E Hx]. bool_to_prop. by apply (NoDup_fmap_inj key rows).
Qed.

Lemma NoDup_fmap_snoc {A B} (f : A -> B) l x :
  NoDup (f <$> l) -> (forall y, y ∈ l -> f y <> f x) -> NoDup (f <$> (l ++ [x])).
Proof.
  intros Hl Hx. rewrite fmap_app. apply NoDup_app. split_and!; [done| |apply NoDup_singleton].
  intros b (y & -> & Hy)%list_elem_of_fmap Hb%list_elem_of_singleton. by apply (Hx y).
Qed.

Lemma NoDup_snoc {A} (l : list A) x : NoDup l -> x ∉ l -> NoDup (l ++ [x]).
Proof. intros Hl Hx. apply NoDup_app. split_and!; [done|set_solver|apply NoDup_singleton]. Qed.

Lemma existsb_app_single {A} (f : A -> bool) l x : existsb f (l ++ [x]) = existsb f l || f x.
Proof. rewrite existsb_app. simpl. by rewrite orb_false_r. Qed.

Lemma uuid_param_ok `{UuidText} s c : uuid_param s = inr c -> uuid_in s = Some c.
Proof. unfold uuid_param. destruct (uuid_in s); naive_solver. Qed.

Lemma int4_param_ok n m : int4_param n = inr m -> m = n.
Proof. unfold int4_param. case_match; naive_solver. Qed.

Lemma map_error_ok {A} f (r : Result A) a : map_error f r = inr a -> r = inr a.
Proof. by destruct r. Qed.

(** ** ORDER BY *)

Lemma insert_by_Permutation {R} (key : R -> Z) r l : Permutation (insert_by key r l) (r :: l).
Proof.
  induction l as [|x l IH]; simpl; [done|]. destruct (key r <? key x); [done|].
  rewrite IH. apply Permutation_swap.
Qed.

Lemma order_by_Permutation {R} (key : R -> Z) l : Permutation (order_by key l) l.
Proof. induction l as [|x l IH]; simpl; [done|]. by rewrite insert_by_Permutation, IH. Qed.

Lemma elem_of_order_by {R} (key : R -> Z) l x : x ∈ order_by key l <-> x ∈ l.
Proof. by rewrite order_by_Permutation. Qed.

Lemma order_by_map {R S} (key : R -> Z) (key' : S -> Z) (h : R -> S) l :
  (forall x, key' (h x) = key x) -> order_by key' (h <$> l) = h <$> order_by key l.
Proof.
  intros Hk. induction l as [|x l IH]; [done|]. rewrite fmap_cons. simpl. rewrite IH. clear IH.
  generalize (order_by key l). intros k. induction k as [|y k IHk]; simpl; [done|].
  rewrite !Hk. destruct (key x <? key y); simpl; [done|]. by f_equal.
Qed.

(** A list in strictly increasing order is left as it is. *)
Lemma order_by_sorted {R} (key : R -> Z) l :
  StronglySorted (fun x y => key x < key y) l -> order_by key l = l.
Proof.
  induction 1 as [|x l _ IH HF]; [done|]. simpl. rewrite IH.
  destruct HF as [|y l Hy _]; [done|]. simpl. by apply Z.ltb_lt in Hy as ->.
Qed.

Lemma order_by_nil_iff {R} (key : R -> Z) l : order_by key l = [] <-> l = [].
Proof.
  split; [|by intros ->]. intros H. pose proof (order_by_Permutation key l) as Hp. rewrite H in Hp.
  by apply Permutation_nil_l in Hp.
Qed.

(** ** Growing tables *)

Lemma grows_refl {A} (R : A -> A -> Prop) `{!Reflexive R} l : grows R l l.
Proof. exists l, []. rewrite app_nil_r. split; [done|]. reflexivity. Qed.

Lemma grows_update {A} (R : A -> A -> Prop) l l' : Forall2 R l l' -> grows R l l'.
Proof. intros H. exists l', []. by rewrite app_nil_r. Qed.

Lemma grows_append {A} (R : A -> A -> Prop) `{!Reflexive R} l new : grows R l (l ++ new).
Proof. exists l, new. split; [done|]. reflexivity. Qed.

#[export] Instance grows_preorder {A} (R : A -> A -> Prop) `{!PreOrder R} : PreOrder (grows R).
Proof.
  split; [intros l; by apply grows_refl; tc_solve|].
  intros l1 l2 l3 (m1 & n1 & -> & H1) (m2 & n2 & -> & H2).
  apply Forall2_app_inv_l in H2 as (m3 & m4 & H3 & H4 & ->).
  exists m3, (m4 ++ n2). split; [by rewrite <- app_assoc|]. by etrans.
Qed.
