(* ===== verification/Programs.v ===== *)
(** * Programs over ports

    A service without transactions of its own, as a program: a tree whose nodes
    are operations of its ports (repository, object store, clock) and whose
    branches are their answers. A component says what its operations do with an
    instance of [Ports]; this file says how programs run over it: alone, cut
    short by a crash, one request after the other ([history]) or interleaved
    one operation at a time ([pool_step]), any operation failing with or
    without having taken effect. *)
From S2P Require Import Prelude.
From stdpp Require Import relations.
Local Open Scope Z_scope.

(** The URL the object store signs for a method and a key. *)
Class SignedURL := signed_url : string -> string -> string.

(** ** Programs *)

Inductive Prog (Op : Type -> Type) (A : Type) : Type :=
  | Ret (a : A)
  | Vis {B : Type} (o : Op B) (k : Result B -> Prog Op A).
Arguments Ret {Op A} a.
Arguments Vis {Op A B} o k.

(** Programs that may return an error; an error skips the rest. *)
Definition PM (Op : Type -> Type) (A : Type) : Type := Prog Op (Result A).

Fixpoint prog_bind {Op A B} (f : A -> Prog Op B) (p : Prog Op A) : Prog Op B :=
  match p with
  | Ret a => f a
  | Vis o k => Vis o (fun b => prog_bind f (k b))
  end.

#[export] Instance PM_ret {Op} : MRet (PM Op) := fun A a => Ret (inr a).
#[export] Instance PM_bind {Op} : MBind (PM Op) := fun A B f p =>
  prog_bind (fun r => match r with inl e => Ret (inl e) | inr a => f a end) p.

Section programs.
Context {Op : Type -> Type}.

Definition fail {A} (e : Error) : PM Op A := Ret (inl e).

(** An operation whose error is returned to the caller. *)
Definition call {B} (o : Op B) : PM Op B := Vis o Ret.
(** One whose error the code looks at, or drops. *)
Definition attempt {B} (o : Op B) : PM Op (Result B) := Vis o (fun r => Ret (inr r)).

Definition pguard (b : bool) (e : Error) : PM Op unit := if b then mret tt else fail e.
Definition plift {A} (r : Result A) : PM Op A := Ret r.

(** [if err != nil { return f(err) }]. *)
Definition pmap_err {A} (f : Error -> Error) (p : PM Op A) : PM Op A :=
  prog_bind (fun r => Ret (match r with inl e => inl (f e) | inr a => inr a end)) p.
End programs.

(** ** Ports: what the operations do

    The answer at a time, with what is drawn at random, and the operations that
    may fail: those that leave the process. *)
Class Ports (Op : Type -> Type) (St Draw : Type) := {
  step : forall B, Op B -> Time -> Draw -> St -> Result B * St;
  fallible : forall B, Op B -> bool
}.
#[export] Hint Mode Ports ! - - : typeclass_instances.
Arguments step {Op St Draw _ B} o t u st.
Arguments fallible {Op St Draw _ B} o.

Section runs.
Context {Op : Type -> Type} {St Draw : Type} `{!Ports Op St Draw}.

(** An operation answers, or fails without effect, or fails after it took
    effect: the acknowledgement is lost. *)
Inductive answers {B} (o : Op B) (st : St) : Result B -> St -> Prop :=
  | answer_ok t u r st' : step o t u st = (r, st') -> answers o st r st'
  | answer_failed e : fallible o = true -> answers o st (inl e) st
  | answer_lost e t u r st' :
      fallible o = true -> step o t u st = (r, st') -> answers o st (inl e) st'.

(** A run of a program up to any point: the process may die there. *)
Inductive runs {A} : Prog Op A -> St -> St -> Prop :=
  | runs_cut p st : runs p st st
  | runs_step B (o : Op B) k b st st1 st2 :
      answers o st b st1 -> runs (k b) st1 st2 -> runs (Vis o k) st st2.

(** A run to the end, with what the program returns. *)
Inductive finishes {A} : Prog Op A -> St -> A -> St -> Prop :=
  | finishes_ret a st : finishes (Ret a) st a st
  | finishes_step B (o : Op B) k b st st1 a st2 :
      answers o st b st1 -> finishes (k b) st1 a st2 -> finishes (Vis o k) st a st2.

Lemma finishes_runs {A} (p : Prog Op A) st a st' : finishes p st a st' -> runs p st st'.
Proof. induction 1; by econstructor. Qed.

(** ** Requests, one after the other or interleaved *)

Context {Call Reply : Type} (serve : Call -> PM Op Reply).
(** What else changes the state, in one step: clients, other modules. *)
Context (outside : relation St).

Inductive turn : St -> St -> Prop :=
  | turn_call c st st' : runs (serve c) st st' -> turn st st'
  | turn_outside st st' : outside st st' -> turn st st'.

Definition history : relation St := rtc turn.

Record Pool := mkPool { pool_threads : list (PM Op Reply); pool_store : St }.

Inductive pool_step : Pool -> Pool -> Prop :=
  | pool_request c ts st : pool_step (mkPool ts st) (mkPool (ts ++ [serve c]) st)
  | pool_op ts st i B (o : Op B) k b st' :
      ts !! i = Some (Vis o k) -> answers o st b st' ->
      pool_step (mkPool ts st) (mkPool (<[i := k b]> ts) st')
  | pool_outside ts st st' : outside st st' -> pool_step (mkPool ts st) (mkPool ts st').

Definition interleaved (st st' : St) : Prop :=
  exists ts, rtc pool_step (mkPool [] st) (mkPool ts st').

(** A sequential history is one of the interleavings. *)
Lemma runs_pool (p : PM Op Reply) st st' :
  runs p st st' -> forall ts i, ts !! i = Some p ->
  exists ts', rtc pool_step (mkPool ts st) (mkPool ts' st').
Proof.
  induction 1 as [p st|B o k b st st1 st2 Ha _ IH]; intros ts i Hi; [by eexists|].
  destruct (IH (<[i := k b]> ts) i) as [ts' Hts'].
  { apply list_lookup_insert_eq. by eapply lookup_lt_Some. }
  exists ts'. eapply rtc_l; [by econstructor|done].
Qed.

Lemma history_pool st st' ts :
  history st st' -> exists ts', rtc pool_step (mkPool ts st) (mkPool ts' st').
Proof.
  intros Hh. revert ts. induction Hh as [st|st st1 st2 Ht _ IH]; intros ts; [by eexists|].
  assert (exists ts1, rtc pool_step (mkPool ts st) (mkPool ts1 st1)) as [ts1 Hts1].
  { destruct Ht as [c st st1 Hr|st st1 Ho]; [|eexists; by apply rtc_once; constructor].
    destruct (runs_pool _ _ _ Hr (ts ++ [serve c]) (length ts)) as [ts' Hts'].
    { by rewrite list_lookup_middle. }
    exists ts'. eapply rtc_l; [constructor|done]. }
  destruct (IH ts1) as [ts2 Hts2]. exists ts2. by etrans.
Qed.

Lemma history_interleaved st st' : history st st' -> interleaved st st'.
Proof. apply history_pool. Qed.

(** ** Runs without failures, as functions *)

(** What is drawn at a time. *)
Context (draw_at : Time -> Draw).

Fixpoint run_prog {A} (p : Prog Op A) (t : Time) (st : St) : A * Time * St :=
  match p with
  | Ret a => (a, t, st)
  | Vis o k => let '(r, st') := step o t (draw_at t) st in run_prog (k r) (t + 1) st'
  end.

Lemma run_bind {A B} (f : A -> PM Op B) (m : PM Op A) t st :
  run_prog (mbind f m) t st =
  match run_prog m t st with
  | (inl e, t1, st1) => (inl e, t1, st1)
  | (inr a, t1, st1) => run_prog (f a) t1 st1
  end.
Proof.
  revert t st. induction m as [r|C o k IH]; intros t st; [by destruct r|].
  simpl. destruct (step o t (draw_at t) st) as [r st']. apply IH.
Qed.

Lemma run_ret {A} (a : A) t st : run_prog (mret a : PM Op A) t st = (inr a, t, st).
Proof. done. Qed.

(** An operation whose answer is known, and the rest of the program. *)
Lemma run_call {A B} (o : Op B) (f : B -> PM Op A) t st r st1 :
  step o t (draw_at t) st = (r, st1) ->
  run_prog (call o ≫= f) t st =
  match r with inl e => (inl e, t + 1, st1) | inr b => run_prog (f b) (t + 1) st1 end.
Proof. intros Hs. rewrite run_bind. simpl. by rewrite Hs. Qed.

Lemma run_attempt {A B} (o : Op B) (f : Result B -> PM Op A) t st r st1 :
  step o t (draw_at t) st = (r, st1) ->
  run_prog (attempt o ≫= f) t st = run_prog (f r) (t + 1) st1.
Proof. intros Hs. rewrite run_bind. simpl. by rewrite Hs. Qed.

Lemma run_map_err {A B} g (m : PM Op A) (f : A -> PM Op B) t st a t1 st1 :
  run_prog m t st = (inr a, t1, st1) -> run_prog (pmap_err g m ≫= f) t st = run_prog (f a) t1 st1.
Proof.
  intros Hm. rewrite run_bind. unfold pmap_err.
  assert (forall h (p : PM Op A) t st, run_prog (prog_bind (fun r => Ret (h r)) p) t st
    = (let '(r, t1, st1) := run_prog p t st in (h r, t1, st1))) as ->; [|by rewrite Hm].
  intros h p. clear. induction p as [r|C o k IH]; intros t st; [done|].
  simpl. destruct (step o t (draw_at t) st) as [r st']. apply IH.
Qed.

Lemma run_guard {A} b e (f : unit -> PM Op A) t st :
  run_prog (pguard b e ≫= f) t st = if b then run_prog (f tt) t st else (inl e, t, st).
Proof. by destruct b. Qed.

Lemma run_prog_finishes {A} (p : Prog Op A) t st :
  finishes p st (run_prog p t st).1.1 (run_prog p t st).2.
Proof.
  revert t st. induction p as [a|B o k IH]; intros t st; simpl; [constructor|].
  destruct (step o t (draw_at t) st) as [r st'] eqn:Ho.
  eapply finishes_step; [by eapply answer_ok|apply IH].
Qed.

Lemma run_prog_runs {A} (p : Prog Op A) t st : runs p st (run_prog p t st).2.
Proof. eapply finishes_runs, run_prog_finishes. Qed.

(** The first [n] operations only. *)
Fixpoint run_cut {A} (n : nat) (p : Prog Op A) (t : Time) (st : St) : St :=
  match n, p with
  | S n, Vis o k => let '(r, st') := step o t (draw_at t) st in run_cut n (k r) (t + 1) st'
  | _, _ => st
  end.

Lemma run_cut_runs {A} n (p : Prog Op A) t st : runs p st (run_cut n p t st).
Proof.
  revert p t st. induction n as [|n IH]; intros p t st; [constructor|].
  destruct p as [a|B o k]; simpl; [constructor|].
  destruct (step o t (draw_at t) st) as [r st'] eqn:Ho.
  eapply runs_step; [by eapply answer_ok|apply IH].
Qed.

(** Requests one after the other: the replies and the state. *)
Fixpoint run_calls (cs : list Call) (t : Time) (st : St) : list (Result Reply) * St :=
  match cs with
  | [] => ([], st)
  | c :: cs =>
      let '(r, t', st') := run_prog (serve c) t st in
      let '(rs, st'') := run_calls cs t' st' in (r :: rs, st'')
  end.

Lemma run_calls_cons c cs t st r t1 st1 :
  run_prog (serve c) t st = (r, t1, st1) ->
  run_calls (c :: cs) t st = (r :: (run_calls cs t1 st1).1, (run_calls cs t1 st1).2).
Proof. intros Hc. simpl. rewrite Hc. by destruct (run_calls cs t1 st1). Qed.

Lemma run_calls_turns cs t st : history st (run_calls cs t st).2.
Proof.
  revert t st. induction cs as [|c cs IH]; intros t st; simpl; [constructor|].
  pose proof (run_prog_runs (serve c) t st) as Hr.
  destruct (run_prog (serve c) t st) as [[r t'] st']. specialize (IH t' st').
  destruct (run_calls cs t' st') as [rs st'']. eapply rtc_l; [by eapply turn_call|done].
Qed.

(** A schedule: a request arrives, or a thread does its next operation. *)
Inductive Event := Start (c : Call) | Step (i : nat).

Definition exec_event (e : Event) (t : Time) (pool : Pool) : Pool :=
  match e with
  | Start c => mkPool (pool_threads pool ++ [serve c]) (pool_store pool)
  | Step i =>
      match pool_threads pool !! i with
      | Some (Vis o k) =>
          let '(r, st') := step o t (draw_at t) (pool_store pool) in
          mkPool (<[i := k r]> (pool_threads pool)) st'
      | _ => pool
      end
  end.

Fixpoint exec (es : list Event) (t : Time) (pool : Pool) : Pool :=
  match es with [] => pool | e :: es => exec es (t + 1) (exec_event e t pool) end.

Lemma exec_steps es t pool : rtc pool_step pool (exec es t pool).
Proof.
  revert t pool. induction es as [|e es IH]; intros t pool; simpl; [done|].
  etrans; [|apply IH]. destruct pool as [ts st], e as [c|i]; simpl; [apply rtc_once; constructor|].
  destruct (ts !! i) as [[r|B o k]|] eqn:Hi; [done| |done].
  destruct (step o t (draw_at t) st) as [r st'] eqn:Ho. apply rtc_once.
  eapply pool_op; [done|by eapply answer_ok].
Qed.

Lemma exec_interleaved es t st : interleaved st (pool_store (exec es t (mkPool [] st))).
Proof.
  pose proof (exec_steps es t (mkPool [] st)) as Hs. destruct (exec es t (mkPool [] st)) as [ts st'].
  by exists ts.
Qed.
End runs.
