(* ===== verification/ProgramLogic.v ===== *)
(** * The logic of programs over ports

    A weakest precondition for programs, with a rely (what others may do
    between two operations), a guarantee (what each operation of the program
    does) and an invariant of the state. With equality as the rely it speaks of
    histories, with the guarantee as the rely of interleavings; both are
    soundness theorems. *)
From S2P Require Import Prelude Programs.
From stdpp Require Import relations.
Local Open Scope Z_scope.

Record Protocol (St : Type) := mkProtocol {
  pr_rely : relation St;
  pr_guar : relation St;
  pr_inv : St -> Prop
}.
Arguments mkProtocol {St}.
Arguments pr_rely {St}.
Arguments pr_guar {St}.
Arguments pr_inv {St}.

Section wp.
Context {Op : Type -> Type} {St Draw : Type} `{!Ports Op St Draw} (P : Protocol St).

Fixpoint wp {A} (p : Prog Op A) (Q : A -> St -> Prop) (st : St) : Prop :=
  match p with
  | Ret a => Q a st
  | Vis o k =>
      forall st1, pr_rely P st st1 -> pr_inv P st1 ->
      forall b st2, answers o st1 b st2 ->
        pr_inv P st2 /\ pr_guar P st1 st2 /\ wp (k b) Q st2
  end.

(** For programs that may fail: nothing is asked of a failure. *)
Definition wpe {A} (m : PM Op A) (Q : A -> St -> Prop) (st : St) : Prop :=
  wp m (fun r st' => match r with inl _ => True | inr a => Q a st' end) st.

Lemma wp_mono {A} (p : Prog Op A) (Q Q' : A -> St -> Prop) st :
  (forall a st', Q a st' -> Q' a st') -> wp p Q st -> wp p Q' st.
Proof.
  intros HQ. revert st. induction p as [a|B o k IH]; intros st; simpl; [apply HQ|].
  intros Hwp st1 Hr Hi b st2 Ha. destruct (Hwp st1 Hr Hi b st2 Ha) as (? & ? & ?). auto.
Qed.

Lemma wp_bind {A B} (p : Prog Op A) (f : A -> Prog Op B) (Q : B -> St -> Prop) st :
  wp p (fun a st' => wp (f a) Q st') st -> wp (prog_bind f p) Q st.
Proof.
  revert st. induction p as [a|C o k IH]; intros st; simpl; [done|].
  intros Hwp st1 Hr Hi b st2 Ha. destruct (Hwp st1 Hr Hi b st2 Ha) as (? & ? & ?). auto.
Qed.

Lemma wpe_ret {A} (a : A) (Q : A -> St -> Prop) st : Q a st -> wpe (mret a) Q st.
Proof. done. Qed.

Lemma wpe_fail {A} e (Q : A -> St -> Prop) st : wpe (fail e) Q st.
Proof. done. Qed.

Lemma wpe_bind {A B} (m : PM Op A) (f : A -> PM Op B) (Q : B -> St -> Prop) st :
  wpe m (fun a st' => wpe (f a) Q st') st -> wpe (mbind f m) Q st.
Proof.
  intros Hm. apply wp_bind. eapply wp_mono; [|exact Hm]. intros [e|a] st'; [done|]. auto.
Qed.

Lemma wpe_mono {A} (m : PM Op A) (Q Q' : A -> St -> Prop) st :
  (forall a st', Q a st' -> Q' a st') -> wpe m Q st -> wpe m Q' st.
Proof. intros HQ. apply wp_mono. intros [e|a] st'; [done|apply HQ]. Qed.

Lemma wpe_guard b e (Q : unit -> St -> Prop) st :
  (b = true -> Q tt st) -> wpe (pguard b e) Q st.
Proof. destruct b; [|done]. intros HQ. by apply HQ. Qed.

Lemma wpe_lift {A} (r : Result A) (Q : A -> St -> Prop) st :
  (forall a, r = inr a -> Q a st) -> wpe (plift r) Q st.
Proof. destruct r; [done|]. intros HQ. by apply HQ. Qed.

Lemma wpe_map_err {A} f (m : PM Op A) (Q : A -> St -> Prop) st :
  wpe m Q st -> wpe (pmap_err f m) Q st.
Proof. intros Hm. apply wp_bind. eapply wp_mono; [|exact Hm]. by intros [e|a] st'. Qed.

Lemma wpe_true {A} (m : PM Op A) st : wpe m (fun _ _ => True) st <-> wp m (fun _ _ => True) st.
Proof. split; apply wp_mono; [done|by intros []]. Qed.

Context `{!PreOrder (pr_guar P)}.

(** An operation: its effect, if it has one, keeps the invariant and the
    guarantee; what it returns satisfies [Q]. *)
Lemma wpe_call {B} (o : Op B) (Q : B -> St -> Prop) st :
  (forall st1 t u r st2, pr_rely P st st1 -> pr_inv P st1 -> step o t u st1 = (r, st2) ->
     pr_inv P st2 /\ pr_guar P st1 st2 /\ match r with inl _ => True | inr b => Q b st2 end) ->
  wpe (call o) Q st.
Proof.
  intros HQ st1 Hr Hi b st2 Ha. destruct Ha as [t u r st2 Ho|e Hf|e t u r st2 Hf Ho].
  - by eapply HQ.
  - split_and!; [done|reflexivity|done].
  - by destruct (HQ st1 t u r st2 Hr Hi Ho) as (? & ? & _).
Qed.

(** Reading: one answer per state, nothing changes. *)
Lemma wpe_read {B} (o : Op B) (f : St -> Result B) (Q : B -> St -> Prop) st :
  (forall t u st', step o t u st' = (f st', st')) ->
  (forall st1 b, pr_rely P st st1 -> pr_inv P st1 -> f st1 = inr b -> Q b st1) ->
  wpe (call o) Q st.
Proof.
  intros Ho HQ. apply wpe_call. intros st1 t u r st2 Hr Hi. rewrite Ho. intros [= <- <-].
  split_and!; [done|reflexivity|]. destruct (f st1) eqn:Hf; [done|]. by apply HQ.
Qed.

(** An operation whose failure the program sees. *)
Lemma wpe_attempt {B} (o : Op B) (Q : Result B -> St -> Prop) st :
  (forall st1 e, pr_rely P st st1 -> pr_inv P st1 -> Q (inl e) st1) ->
  (forall st1 t u r st2, pr_rely P st st1 -> pr_inv P st1 -> step o t u st1 = (r, st2) ->
     pr_inv P st2 /\ pr_guar P st1 st2 /\ Q r st2 /\ forall e, Q (inl e) st2) ->
  wpe (attempt o) Q st.
Proof.
  intros Hf HQ st1 Hr Hi b st2 Ha. destruct Ha as [t u r st2 Ho|e _|e t u r st2 _ Ho].
  - by destruct (HQ st1 t u r st2 Hr Hi Ho) as (? & ? & ? & _).
  - split_and!; [done|reflexivity|by apply Hf].
  - destruct (HQ st1 t u r st2 Hr Hi Ho) as (? & ? & _ & He). split_and!; [done|done|apply He].
Qed.

(** A program that promises nothing of its result may start later. *)
Lemma wp_later {A} (p : Prog Op A) st st' `{!Transitive (pr_rely P)} :
  pr_rely P st st' -> wp p (fun _ _ => True) st -> wp p (fun _ _ => True) st'.
Proof. destruct p; [done|]. simpl. intros Hr Hwp st1 Hr'. apply Hwp. by etrans. Qed.

(** Where every operation keeps the invariant and the guarantee, every program
    does. *)
Lemma wp_any {A} (p : Prog Op A) st :
  (forall B (o : Op B) t u st r st', step o t u st = (r, st') -> pr_inv P st ->
     pr_inv P st' /\ pr_guar P st st') ->
  wp p (fun _ _ => True) st.
Proof.
  intros Hop. revert st. induction p as [a|B o k IH]; intros st; simpl; [done|].
  intros st1 _ Hi b st2 Ha. assert (pr_inv P st2 /\ pr_guar P st1 st2) as [? ?]; [|auto].
  destruct Ha as [t u r st2 Ho|e _|e t u r st2 _ Ho]; [by eapply Hop|split; [done|reflexivity]|by eapply Hop].
Qed.

(** What a program does is among what the others rely on. *)
Lemma wp_frame {A} (p : Prog Op A) st `{!PreOrder (pr_rely P)} :
  (forall st st', pr_guar P st st' -> pr_rely P st st') ->
  wp p (fun _ _ => True) st -> wp p (fun _ st' => pr_rely P st st') st.
Proof.
  intros Hc. assert (forall st0 st, pr_rely P st0 st -> wp p (fun _ _ => True) st ->
    wp p (fun _ st' => pr_rely P st0 st') st) as Hgen; [|by apply Hgen].
  induction p as [a|B o k IH]; simpl; intros st0 st1 Hr0 Hwp; [done|].
  intros st2 Hr Hi b st3 Ha. destruct (Hwp st2 Hr Hi b st3 Ha) as (? & Hg & Hk).
  split_and!; [done..|]. apply IH; [|done]. apply Hc in Hg. by do 2 (etrans; [eassumption|]).
Qed.
End wp.

(** ** The operations of a program

    What does not depend on the state: every operation the program may reach is
    [ok], given that each answers as [ans] allows; its result satisfies [Q]. *)

Section each_op.
Context {Op : Type -> Type} (ok : forall B, Op B -> Prop) (ans : forall B, Op B -> Result B -> Prop).

Fixpoint each_op {A} (p : Prog Op A) (Q : A -> Prop) : Prop :=
  match p with
  | Ret a => Q a
  | Vis o k => ok _ o /\ forall b, ans _ o b -> each_op (k b) Q
  end.

(** For programs that may fail: nothing is asked of a failure. *)
Definition each_ope {A} (m : PM Op A) (Q : A -> Prop) : Prop :=
  each_op m (fun r => match r with inl _ => True | inr a => Q a end).

Lemma each_op_mono {A} (p : Prog Op A) (Q Q' : A -> Prop) :
  (forall a, Q a -> Q' a) -> each_op p Q -> each_op p Q'.
Proof.
  intros HQ. induction p as [a|B o k IH]; simpl; [apply HQ|]. intros [Ho Hk]. split; [done|]. intros b Hb.
  by apply IH, Hk.
Qed.

Lemma each_op_prog_bind {A B} (f : A -> Prog Op B) (p : Prog Op A) Q :
  each_op p (fun a => each_op (f a) Q) -> each_op (prog_bind f p) Q.
Proof.
  induction p as [a|C o k IH]; simpl; [done|]. intros [Ho Hk]. split; [done|]. intros b Hb. by apply IH, Hk.
Qed.

Lemma each_ope_bind {A B} (f : A -> PM Op B) (m : PM Op A) Q :
  each_ope m (fun a => each_ope (f a) Q) -> each_ope (m ≫= f) Q.
Proof. intros Hm. apply each_op_prog_bind. eapply each_op_mono; [|exact Hm]. by intros [e|a]. Qed.

Lemma each_ope_call {B} (o : Op B) (Q : B -> Prop) :
  ok _ o -> (forall b, ans _ o (inr b) -> Q b) -> each_ope (call o) Q.
Proof. intros Ho HQ. split; [done|]. intros [e|b]; [done|apply HQ]. Qed.

Lemma each_ope_attempt {B} (o : Op B) (Q : Result B -> Prop) :
  ok _ o -> (forall b, ans _ o b -> Q b) -> each_ope (attempt o) Q.
Proof. intros Ho HQ. by split. Qed.

Lemma each_ope_guard b e (Q : unit -> Prop) : (b = true -> Q tt) -> each_ope (pguard b e : PM Op unit) Q.
Proof. destruct b; [|done]. intros HQ. by apply HQ. Qed.

Lemma each_ope_lift {A} (r : Result A) (Q : A -> Prop) :
  (forall a, r = inr a -> Q a) -> each_ope (plift r : PM Op A) Q.
Proof. destruct r; [done|]. intros HQ. by apply HQ. Qed.

Lemma each_ope_map_err {A} g (m : PM Op A) Q : each_ope m Q -> each_ope (pmap_err g m) Q.
Proof. intros Hm. apply each_op_prog_bind. eapply each_op_mono; [|exact Hm]. by intros [e|a]. Qed.

Context {St Draw : Type} `{!Ports Op St Draw} (P : Protocol St) `{!Reflexive (pr_guar P)}.

(** A program whose operations are such that each keeps the invariant and the
    guarantee does. *)
Lemma wp_each_op {A} (p : Prog Op A) Q st :
  (forall B (o : Op B) t u st r st', ok _ o -> step o t u st = (r, st') -> pr_inv P st ->
     pr_inv P st' /\ pr_guar P st st' /\ ans _ o r) ->
  (forall B (o : Op B) e, fallible o = true -> ans _ o (inl e)) ->
  each_op p Q -> wp P p (fun a _ => Q a) st.
Proof.
  intros Hop Hf. revert st. induction p as [a|B o k IH]; intros st; [done|]. intros [Ho Hk] st1 _ Hi b st2 Ha.
  assert (pr_inv P st2 /\ pr_guar P st1 st2 /\ ans _ o b) as (? & ? & Hb).
  { destruct Ha as [t u r st2 Hs|e He|e t u r st2 He Hs].
    - by eapply Hop.
    - split_and!; [done|reflexivity|by apply Hf].
    - destruct (Hop _ o t u st1 r st2 Ho Hs Hi) as (? & ? & _). split_and!; [done..|by apply Hf]. }
  split_and!; [done..|]. by apply IH, Hk.
Qed.
End each_op.

(** ** Soundness *)

Section sound.
Context {Op : Type -> Type} {St Draw : Type} `{!Ports Op St Draw} (P : Protocol St).
Context `{!PreOrder (pr_rely P)} `{!PreOrder (pr_guar P)}.
Context {Call Reply : Type} (serve : Call -> PM Op Reply) (outside : relation St).
(** Every request is served within the protocol, and so is what comes from outside. *)
Context (Hserve : forall c st, pr_inv P st -> wpe P (serve c) (fun _ _ => True) st).
Context (Houtside : forall st st', outside st st' -> pr_inv P st -> pr_inv P st' /\ pr_guar P st st').

Lemma wp_runs {A} (p : Prog Op A) Q st st' :
  wp P p Q st -> runs p st st' -> pr_inv P st -> pr_inv P st' /\ pr_guar P st st'.
Proof.
  intros Hwp Hr. revert Hwp. induction Hr as [p st|B o k b st st1 st2 Ha _ IH]; intros Hwp Hi.
  { split; [done|reflexivity]. }
  destruct (Hwp st ltac:(reflexivity) Hi _ _ Ha) as (Hi1 & Hg & Hk).
  destruct (IH Hk Hi1) as [? ?]. split; [done|by etrans].
Qed.

Lemma wp_finishes {A} (p : Prog Op A) (Q : A -> St -> Prop) st a st' :
  wp P p Q st -> finishes p st a st' -> pr_inv P st -> Q a st'.
Proof.
  intros Hwp Hr. revert Hwp. induction Hr as [a st|B o k b st st1 a st2 Ha _ IH]; intros Hwp Hi; [done|].
  destruct (Hwp st ltac:(reflexivity) Hi _ _ Ha) as (Hi1 & _ & Hk). by apply IH.
Qed.

Lemma turn_sound st st' :
  turn serve outside st st' -> pr_inv P st -> pr_inv P st' /\ pr_guar P st st'.
Proof.
  intros [c s s' Hr|s s' Ho] Hi; [|by apply Houtside]. eapply wp_runs; [by apply Hserve|done..].
Qed.

Theorem history_sound st st' :
  history serve outside st st' -> pr_inv P st -> pr_inv P st' /\ pr_guar P st st'.
Proof.
  intros Hh. induction Hh as [st|st st1 st2 Ht _ IH]; intros Hi; [split; [done|reflexivity]|].
  destruct (turn_sound _ _ Ht Hi) as [Hi1 Hg1]. destruct (IH Hi1) as [? ?]. split; [done|by etrans].
Qed.

(** Interleaved: what one thread guarantees is what the others rely on. *)
Context (Hcompat : forall st st', pr_guar P st st' -> pr_rely P st st').

Definition pool_ok (pool : Pool (Op := Op) (St := St) (Reply := Reply)) : Prop :=
  pr_inv P (pool_store pool)
  /\ Forall (fun p => wp P p (fun _ _ => True) (pool_store pool)) (pool_threads pool).

Lemma pool_step_ok pool pool' :
  pool_step serve outside pool pool' -> pool_ok pool ->
  pool_ok pool' /\ pr_guar P (pool_store pool) (pool_store pool').
Proof.
  assert (forall ts st st', pr_guar P st st' ->
    Forall (fun p : PM Op Reply => wp P p (fun _ _ => True) st) ts ->
    Forall (fun p => wp P p (fun _ _ => True) st') ts) as Hlater.
  { intros ts st st' Hg HF. eapply Forall_impl; [exact HF|]. intros p. apply wp_later; [tc_solve|by apply Hcompat]. }
  intros [c ts st|ts st i B o k b st' Hi Ha|ts st st' Ho] [Hinv Hts]; simpl in *.
  - split; [|reflexivity]. split; [done|]. apply Forall_app. split; [done|].
    apply Forall_singleton. by apply (wpe_true P), Hserve.
  - assert (wp P (Vis o k) (fun _ _ => True) st) as Hwp by (by eapply Forall_lookup_1 in Hts).
    destruct (Hwp st ltac:(reflexivity) Hinv _ _ Ha) as (Hi1 & Hg & Hk).
    split; [|done]. split; [done|]. apply Forall_insert; [by eapply Hlater|done].
  - destruct (Houtside _ _ Ho Hinv) as [Hi1 Hg]. split; [|done]. split; [done|].
    by eapply Hlater.
Qed.

Theorem interleaved_sound st st' :
  interleaved serve outside st st' -> pr_inv P st -> pr_inv P st' /\ pr_guar P st st'.
Proof.
  intros [ts Hr] Hi. assert (pool_ok (mkPool [] st)) as Hok by (by split).
  assert (forall pool pool', rtc (pool_step serve outside) pool pool' -> pool_ok pool ->
    pool_ok pool' /\ pr_guar P (pool_store pool) (pool_store pool')) as Hall.
  { induction 1 as [pool|pool p1 p2 Hs _ IH]; intros Hp; [split; [done|reflexivity]|].
    destruct (pool_step_ok _ _ Hs Hp) as [Hp1 Hg1]. destruct (IH Hp1) as [? ?].
    split; [done|by etrans]. }
  destruct (Hall _ _ Hr Hok) as [[Hi' _] Hg]. done.
Qed.

(** A request among others in flight: what its program establishes, and no one
    undoes, holds once it has replied. *)
Lemma thread_sound (Q : Result Reply -> St -> Prop) i pool pool' :
  (forall r st st', pr_rely P st st' -> Q r st -> Q r st') ->
  rtc (pool_step serve outside) pool pool' -> pool_ok pool ->
  (exists p, pool_threads pool !! i = Some p /\ wp P p Q (pool_store pool)) ->
  pool_ok pool' /\ exists p, pool_threads pool' !! i = Some p /\ wp P p Q (pool_store pool').
Proof.
  intros HQ Hr. induction Hr as [pool|pool p1 p2 Hs _ IH]; intros Hok Hi; [done|].
  destruct (pool_step_ok _ _ Hs Hok) as [Hok1 Hg]. apply IH; [done|]. clear IH. destruct Hi as (p & Hp & Hwp).
  assert (forall st st', pr_guar P st st' -> wp P p Q st -> wp P p Q st') as Hlater.
  { intros st st' Hg'%Hcompat. destruct p as [a|B o k]; simpl; [by apply HQ|].
    intros Hk st1 Hr1. apply Hk. by etrans. }
  destruct Hs as [c ts st|ts st j B o k b st' Hj Ha|ts st st' Ho]; simpl in *.
  - exists p. split; [by apply lookup_app_l_Some|done].
  - destruct (decide (i = j)) as [->|Hne].
    + rewrite Hj in Hp. injection Hp as <-. exists (k b). split; [apply list_lookup_insert_eq; by eapply lookup_lt_Some|].
      by destruct (Hwp st ltac:(reflexivity) (proj1 Hok) _ _ Ha) as (_ & _ & Hk).
    + exists p. rewrite list_lookup_insert_ne by done. split; [done|]. by apply (Hlater st).
  - exists p. split; [done|]. by apply (Hlater st).
Qed.

Lemma replied_sound (Q : Reply -> St -> Prop) c st0 ts st ts' st' a :
  (forall r st st', pr_rely P st st' -> Q r st -> Q r st') ->
  (forall st, pr_inv P st -> wpe P (serve c) Q st) ->
  pr_inv P st0 -> rtc (pool_step serve outside) (mkPool [] st0) (mkPool ts st) ->
  rtc (pool_step serve outside) (mkPool (ts ++ [serve c]) st) (mkPool ts' st') ->
  ts' !! length ts = Some (Ret (inr a)) -> Q a st'.
Proof.
  intros HQ Hc Hi0 H1 H2 Ha.
  assert (forall pool pool', rtc (pool_step serve outside) pool pool' -> pool_ok pool -> pool_ok pool') as Hall.
  { induction 1 as [|pool p1 p2 Hs _ IH]; [done|]. intros Hp. apply IH. by eapply pool_step_ok. }
  assert (pool_ok (mkPool ts st)) as Hok by (eapply Hall; [exact H1|by split]).
  set (Q' := fun (r : Result Reply) st => match r with inl _ => True | inr a => Q a st end).
  destruct (thread_sound Q' (length ts) _ _ ltac:(by intros [e|r] ??; [|apply HQ]) H2) as (_ & p & Hp & Hwp).
  - eapply pool_step_ok; [|exact Hok]. constructor.
  - exists (serve c). split; [by apply list_lookup_middle|]. apply Hc, Hok.
  - simpl in Hp. rewrite Ha in Hp. by injection Hp as <-.
Qed.
End sound.
