(* ===== verification/ApprovalDomain.v ===== *)
(** * Approval domain: document states, routes, quorum, drift, instances, signoffs

    Pure code of [internal/modules/documents_v2/approval/domain].
    - [DocStates]: [state.go], the eight-state document lifecycle;
    - [Routes]: [route.go], route configuration and its validation;
    - [Signoffs]: [signoff.go], [sod.go], votes and separation of duties;
    - [Instances]: [instance.go], the approval instance aggregate;
    - [Quorums]: [quorum.go], [drift.go], stage outcomes.
    Go string enumerations that the code receives from outside keep an
    [...Other] constructor for the values that are none of the constants;
    a value of such a type always comes from the conversion [..._of]. *)
From S2P Require Import Prelude Text Tables.
Local Open Scope Z_scope.

Module DocStates.

Definition ErrLegacyStateRejected : Error := Sentinel "domain.ErrLegacyStateRejected".

(** [type DocState string]; [StateOther] is any other string. *)
Inductive DocState :=
  | StateDraft | StateUnderReview | StateApproved | StateRejected
  | StateScheduled | StatePublished | StateSuperseded | StateObsolete
  | StateOther (s : string).

#[export] Instance DocState_eq_dec : EqDecision DocState.
Proof. solve_decision. Defined.

Definition AllStates : list DocState :=
  [StateDraft; StateUnderReview; StateApproved; StateRejected;
   StateScheduled; StatePublished; StateSuperseded; StateObsolete].

(** [func (s DocState) String() string]. *)
Definition DocState_String (s : DocState) : string :=
  match s with
  | StateDraft => "draft"
  | StateUnderReview => "under_review"
  | StateApproved => "approved"
  | StateRejected => "rejected"
  | StateScheduled => "scheduled"
  | StatePublished => "published"
  | StateSuperseded => "superseded"
  | StateObsolete => "obsolete"
  | StateOther t => t
  end.

(** The conversion [DocState(s)]. *)
Definition DocState_of (s : string) : DocState :=
  if str_eqb s "draft" then StateDraft
  else if str_eqb s "under_review" then StateUnderReview
  else if str_eqb s "approved" then StateApproved
  else if str_eqb s "rejected" then StateRejected
  else if str_eqb s "scheduled" then StateScheduled
  else if str_eqb s "published" then StatePublished
  else if str_eqb s "superseded" then StateSuperseded
  else if str_eqb s "obsolete" then StateObsolete
  else StateOther s.

Definition StateFromString (s : string) : Result DocState :=
  match DocState_of s with
  | StateOther t =>
      if str_eqb t "finalized" || str_eqb t "archived" then inl ErrLegacyStateRejected
      else inl (Errorf ("unknown document state: " ++ s) [])
  | st => inr st
  end.

(** The [legalTransitions] map: each state with the targets set to true. *)
Definition legalTransitions : list (DocState * list DocState) :=
  [(StateDraft, [StateUnderReview]);
   (StateUnderReview, [StateApproved; StateRejected]);
   (StateRejected, [StateDraft]);
   (StateApproved, [StatePublished; StateScheduled; StateDraft]);
   (StateScheduled, [StatePublished; StateDraft]);
   (StatePublished, [StateSuperseded; StateObsolete]);
   (StateSuperseded, [StateObsolete]);
   (StateObsolete, [])].

Definition transition_targets (from : DocState) : option (list DocState) :=
  snd <$> head (bfilter (fun e => bool_decide (fst e = from)) legalTransitions).

Definition IsLegalTransition (from to : DocState) : bool :=
  if bool_decide (from = to) then false
  else match transition_targets from with
       | None => false
       | Some targets => bool_decide (to ∈ targets)
       end.

End DocStates.

Module Routes.

(** [type QuorumPolicy string]. *)
Inductive QuorumPolicy :=
  | QuorumAny1Of | QuorumAllOf | QuorumMofN | QuorumOther (s : string).

#[export] Instance QuorumPolicy_eq_dec : EqDecision QuorumPolicy.
Proof. solve_decision. Defined.

Definition QuorumPolicy_of (s : string) : QuorumPolicy :=
  if str_eqb s "any_1_of" then QuorumAny1Of
  else if str_eqb s "all_of" then QuorumAllOf
  else if str_eqb s "m_of_n" then QuorumMofN
  else QuorumOther s.

Definition QuorumPolicy_String (q : QuorumPolicy) : string :=
  match q with
  | QuorumAny1Of => "any_1_of" | QuorumAllOf => "all_of" | QuorumMofN => "m_of_n"
  | QuorumOther s => s
  end.

(** [type DriftPolicy string]. *)
Inductive DriftPolicy :=
  | DriftReduceQuorum | DriftFailStage | DriftKeepSnapshot | DriftOther (s : string).

#[export] Instance DriftPolicy_eq_dec : EqDecision DriftPolicy.
Proof. solve_decision. Defined.

Definition DriftPolicy_of (s : string) : DriftPolicy :=
  if str_eqb s "reduce_quorum" then DriftReduceQuorum
  else if str_eqb s "fail_stage" then DriftFailStage
  else if str_eqb s "keep_snapshot" then DriftKeepSnapshot
  else DriftOther s.

Record Stage := mkStage {
  st_Order : Z;
  st_Name : string;
  st_RequiredRole : string;
  st_RequiredCapability : string;
  st_AreaCode : string;
  st_Quorum : QuorumPolicy;
  st_QuorumM : option Z;
  st_OnEligibilityDrift : DriftPolicy
}.

Record Route := mkRoute {
  rt_ID : string;
  rt_TenantID : string;
  rt_ProfileCode : string;
  rt_Version : Z;
  rt_Stages : list Stage
}.

(** Quorum and QuorumM consistency of one stage. *)
Definition check_quorum_m (s : Stage) : Result unit :=
  if bool_decide (st_Quorum s = QuorumMofN) then
    match st_QuorumM s with
    | None => inl (Errorf "stage %q: quorum m_of_n requires QuorumM" [AStr (st_Name s)])
    | Some m =>
        if m <? 1 then inl (Errorf "stage %q: QuorumM must be >= 1" [AStr (st_Name s)])
        else inr tt
    end
  else
    match st_QuorumM s with
    | Some _ =>
        inl (Errorf "stage %q: QuorumM must be nil for quorum %s"
               [AStr (st_Name s); AStr (QuorumPolicy_String (st_Quorum s))])
    | None => inr tt
    end.

(** The loop of [Validate] from index [i], [names] being the names seen. *)
Fixpoint validate_from (i : Z) (names : gset string) (stages : list Stage) : Result unit :=
  match stages with
  | [] => inr tt
  | s :: rest =>
      if negb (st_Order s =? i + 1) then
        inl (Errorf "stage order must be dense starting at 1: stage at index %d has order %d, expected %d"
               [AInt i; AInt (st_Order s); AInt (i + 1)])
      else
        match check_quorum_m s with
        | inl e => inl e
        | inr _ =>
            if bool_decide (st_Name s ∈ names)
            then inl (Errorf "duplicate stage name %q in route" [AStr (st_Name s)])
            else validate_from (i + 1) ({[st_Name s]} ∪ names) rest
        end
  end.

(** [func (r Route) Validate() error]. *)
Definition Validate (r : Route) : Result unit :=
  match rt_Stages r with
  | [] => inl (Errorf "route must have at least one stage" [])
  | stages => validate_from 0 ∅ stages
  end.

End Routes.

Module Signoffs.

Inductive Decision := DecisionApprove | DecisionReject | DecisionOther (s : string).

#[export] Instance Decision_eq_dec : EqDecision Decision.
Proof. solve_decision. Defined.

(** The conversion [domain.Decision(s)]. *)
Definition Decision_of (s : string) : Decision :=
  if str_eqb s "approve" then DecisionApprove
  else if str_eqb s "reject" then DecisionReject
  else DecisionOther s.

Record Signoff := mkSignoff {
  so_ID : string;
  so_ApprovalInstanceID : string;
  so_StageInstanceID : string;
  so_ActorUserID : string;
  so_ActorTenantID : string;
  so_Decision : Decision;
  so_Comment : string;
  so_SignedAt : Time;
  so_SignatureMethod : string;
  so_SignaturePayload : option string;
  so_ContentHash : string
}.

Definition is_hex_digit (c : Ascii.ascii) : bool :=
  let n := Ascii.nat_of_ascii c in
  (Nat.leb 48 n && Nat.leb n 57) || (Nat.leb 97 n && Nat.leb n 102).

Fixpoint all_chars (p : Ascii.ascii -> bool) (s : string) : bool :=
  match s with
  | EmptyString => true
  | String c s' => p c && all_chars p s'
  end.

(** [hashRegex = ^[0-9a-f]{64}$]. *)
Definition hashRegex_MatchString (s : string) : bool :=
  Nat.eqb (String.length s) 64 && all_chars is_hex_digit s.

(** [NewSignoff]: the parameters are the eleven fields of [SignoffParams],
    which are the fields of [Signoff] before normalisation of the hash. *)
Definition NewSignoff (p : Signoff) : Result Signoff :=
  if str_eqb (so_ID p) "" then inl (Errorf "signoff: ID is required" [])
  else if str_eqb (so_ApprovalInstanceID p) "" then
    inl (Errorf "signoff: ApprovalInstanceID is required" [])
  else if str_eqb (so_StageInstanceID p) "" then
    inl (Errorf "signoff: StageInstanceID is required" [])
  else if str_eqb (so_ActorUserID p) "" then
    inl (Errorf "signoff: ActorUserID is required" [])
  else if str_eqb (so_ActorTenantID p) "" then
    inl (Errorf "signoff: ActorTenantID is required" [])
  else if negb (bool_decide (so_Decision p = DecisionApprove)) &&
          negb (bool_decide (so_Decision p = DecisionReject)) then
    inl (Errorf "signoff: Decision must be 'approve' or 'reject'" [])
  else if IsZero (so_SignedAt p) then
    inl (Errorf "signoff: SignedAt must not be zero" [])
  else
    let hash := ToLower (so_ContentHash p) in
    if negb (hashRegex_MatchString hash) then
      inl (Errorf "signoff: ContentHash must be 64 lowercase hex chars (sha-256)" [])
    else
      inr {| so_ID := so_ID p;
             so_ApprovalInstanceID := so_ApprovalInstanceID p;
             so_StageInstanceID := so_StageInstanceID p;
             so_ActorUserID := so_ActorUserID p;
             so_ActorTenantID := so_ActorTenantID p;
             so_Decision := so_Decision p;
             so_Comment := so_Comment p;
             so_SignedAt := so_SignedAt p;
             so_SignatureMethod := so_SignatureMethod p;
             so_SignaturePayload := so_SignaturePayload p;
             so_ContentHash := hash |}.

Definition ErrAuthorCannotSign : Error := Sentinel "domain.ErrAuthorCannotSign".
Definition ErrActorAlreadySigned : Error := Sentinel "domain.ErrActorAlreadySigned".

(** [sod.go]: [CheckSoD]. *)
Definition CheckSoD (authorUserID actorUserID : string) (priorSignoffs : list Signoff)
    : Result unit :=
  if str_eqb actorUserID authorUserID then inl ErrAuthorCannotSign
  else if existsb (fun s => str_eqb (so_ActorUserID s) actorUserID) priorSignoffs
  then inl ErrActorAlreadySigned
  else inr tt.

End Signoffs.

Module Instances.
Import Routes.

Definition ErrNoActiveStage : Error := Sentinel "domain.ErrNoActiveStage".
Definition ErrCannotSkipLastStage : Error := Sentinel "domain.ErrCannotSkipLastStage".
Definition ErrRevisionRegression : Error := Sentinel "domain.ErrRevisionRegression".
Definition ErrInstanceTerminal : Error := Sentinel "domain.ErrInstanceTerminal".

Inductive InstanceStatus :=
  | InstanceInProgress | InstanceApproved | InstanceRejected | InstanceCancelled.

#[export] Instance InstanceStatus_eq_dec : EqDecision InstanceStatus.
Proof. solve_decision. Defined.

(** [StageCancelled] is the value ['cancelled'] that [CancelInstance] writes
    by SQL; the other five are the constants of [instance.go]. *)
Inductive StageStatus :=
  | StagePending | StageActive | StageCompleted | StageSkipped | StageRejectedHere
  | StageCancelled.

#[export] Instance StageStatus_eq_dec : EqDecision StageStatus.
Proof. solve_decision. Defined.

Record StageInstance := mkStageInstance {
  si_ID : string;
  si_ApprovalInstanceID : string;
  si_StageOrder : Z;
  si_NameSnapshot : string;
  si_RequiredRoleSnapshot : string;
  si_RequiredCapabilitySnapshot : string;
  si_AreaCodeSnapshot : string;
  si_QuorumSnapshot : QuorumPolicy;
  si_QuorumMSnapshot : option Z;
  si_OnEligibilityDriftSnapshot : DriftPolicy;
  si_EligibleActorIDs : list string;
  si_EffectiveDenominator : option Z;
  si_Status : StageStatus;
  si_OpenedAt : option Time;
  si_CompletedAt : option Time;
  si_SkipReason : string
}.

Record ApprovalInstance := mkApprovalInstance {
  in_ID : string;
  in_TenantID : string;
  in_DocumentID : string;
  in_RouteID : string;
  in_RouteVersionSnapshot : Z;
  in_Status : InstanceStatus;
  in_SubmittedBy : string;
  in_SubmittedAt : Time;
  in_CompletedAt : option Time;
  in_ContentHashAtSubmit : string;
  in_IdempotencyKey : string;
  in_RevisionVersion : Z;
  in_Stages : list StageInstance
}.

(** Field assignments [s.Status = ...], [s.OpenedAt = ...] and so on. *)
Definition si_assign (status : StageStatus) (opened completed : option Time)
    (reason : string) (s : StageInstance) : StageInstance :=
  {| si_ID := si_ID s;
     si_ApprovalInstanceID := si_ApprovalInstanceID s;
     si_StageOrder := si_StageOrder s;
     si_NameSnapshot := si_NameSnapshot s;
     si_RequiredRoleSnapshot := si_RequiredRoleSnapshot s;
     si_RequiredCapabilitySnapshot := si_RequiredCapabilitySnapshot s;
     si_AreaCodeSnapshot := si_AreaCodeSnapshot s;
     si_QuorumSnapshot := si_QuorumSnapshot s;
     si_QuorumMSnapshot := si_QuorumMSnapshot s;
     si_OnEligibilityDriftSnapshot := si_OnEligibilityDriftSnapshot s;
     si_EligibleActorIDs := si_EligibleActorIDs s;
     si_EffectiveDenominator := si_EffectiveDenominator s;
     si_Status := status;
     si_OpenedAt := opened;
     si_CompletedAt := completed;
     si_SkipReason := reason |}.

Definition in_assign (status : InstanceStatus) (completed : option Time)
    (revision : Z) (stages : list StageInstance) (i : ApprovalInstance) : ApprovalInstance :=
  {| in_ID := in_ID i;
     in_TenantID := in_TenantID i;
     in_DocumentID := in_DocumentID i;
     in_RouteID := in_RouteID i;
     in_RouteVersionSnapshot := in_RouteVersionSnapshot i;
     in_Status := status;
     in_SubmittedBy := in_SubmittedBy i;
     in_SubmittedAt := in_SubmittedAt i;
     in_CompletedAt := completed;
     in_ContentHashAtSubmit := in_ContentHashAtSubmit i;
     in_IdempotencyKey := in_IdempotencyKey i;
     in_RevisionVersion := revision;
     in_Stages := stages |}.

Definition is_active (s : StageInstance) : bool := bool_decide (si_Status s = StageActive).
Definition is_pending (s : StageInstance) : bool := bool_decide (si_Status s = StagePending).

(** [Active]: the first active stage, or nil. *)
Definition Active (inst : ApprovalInstance) : option StageInstance :=
  find_index is_active (in_Stages inst) ≫= fun i => in_Stages inst !! i.

Definition mark_completed (now : Time) (s : StageInstance) : StageInstance :=
  si_assign StageCompleted (si_OpenedAt s) (Some now) (si_SkipReason s) s.
Definition mark_active (now : Time) (s : StageInstance) : StageInstance :=
  si_assign StageActive (Some now) (si_CompletedAt s) (si_SkipReason s) s.
Definition mark_rejected (now : Time) (reason : string) (s : StageInstance) : StageInstance :=
  si_assign StageRejectedHere (si_OpenedAt s) (Some now) reason s.
Definition mark_skipped (now : Time) (reason : string) (s : StageInstance) : StageInstance :=
  si_assign StageSkipped (si_OpenedAt s) (Some now) reason s.

Definition set_stages (stages : list StageInstance) (i : ApprovalInstance) : ApprovalInstance :=
  in_assign (in_Status i) (in_CompletedAt i) (in_RevisionVersion i) stages i.

(** [AdvanceStage]; [now] is [time.Now().UTC()]. *)
Definition AdvanceStage (now : Time) (inst : ApprovalInstance) : Result ApprovalInstance :=
  match find_index is_active (in_Stages inst) with
  | None => inl ErrNoActiveStage
  | Some activeIdx =>
      let stages := alter (mark_completed now) activeIdx (in_Stages inst) in
      match find_index_from is_pending (S activeIdx) stages with
      | Some i => inr (set_stages (alter (mark_active now) i stages) inst)
      | None =>
          inr (in_assign InstanceApproved (Some now) (in_RevisionVersion inst) stages inst)
      end
  end.

(** [RejectHere]. *)
Definition RejectHere (now : Time) (reason : string) (inst : ApprovalInstance)
    : Result ApprovalInstance :=
  match find_index is_active (in_Stages inst) with
  | None => inl ErrNoActiveStage
  | Some activeIdx =>
      inr (in_assign InstanceRejected (Some now) (in_RevisionVersion inst)
             (alter (mark_rejected now reason) activeIdx (in_Stages inst)) inst)
  end.

(** [SkipStage]: the successor test precedes every write. *)
Definition SkipStage (now : Time) (reason : string) (inst : ApprovalInstance)
    : Result ApprovalInstance :=
  match find_index is_active (in_Stages inst) with
  | None => inl ErrNoActiveStage
  | Some activeIdx =>
      match find_index_from is_pending (S activeIdx) (in_Stages inst) with
      | None => inl ErrCannotSkipLastStage
      | Some _ =>
          let stages := alter (mark_skipped now reason) activeIdx (in_Stages inst) in
          match find_index_from is_pending (S activeIdx) stages with
          | Some i => inr (set_stages (alter (mark_active now) i stages) inst)
          | None => inr (set_stages stages inst)
          end
      end
  end.

Definition BumpRevisionVersion (next : Z) (inst : ApprovalInstance) : Result ApprovalInstance :=
  if next <? in_RevisionVersion inst then inl ErrRevisionRegression
  else inr (in_assign (in_Status inst) (in_CompletedAt inst) next (in_Stages inst) inst).

Definition isTerminal (inst : ApprovalInstance) : bool :=
  bool_decide (in_Status inst = InstanceApproved) ||
  bool_decide (in_Status inst = InstanceRejected) ||
  bool_decide (in_Status inst = InstanceCancelled).

(** [Cancel]: the reason is persisted by the caller. *)
Definition Cancel (now : Time) (inst : ApprovalInstance) : Result ApprovalInstance :=
  match in_Status inst with
  | InstanceApproved | InstanceRejected | InstanceCancelled => inl ErrInstanceTerminal
  | InstanceInProgress =>
      inr (in_assign InstanceCancelled (Some now) (in_RevisionVersion inst) (in_Stages inst) inst)
  end.

End Instances.

Module Quorums.
Import Routes Signoffs Instances.

Inductive QuorumOutcome := QuorumPending | QuorumApprovedStage | QuorumRejectedStage.

#[export] Instance QuorumOutcome_eq_dec : EqDecision QuorumOutcome.
Proof. solve_decision. Defined.

Definition Zlength {A} (l : list A) : Z := Z.of_nat (length l).
Definition Zcount {A} (p : A -> bool) (l : list A) : Z := Z.of_nat (bcount p l).

Definition id_set (ids : list string) : gset string := list_to_set ids.
Definition in_set (s : gset string) (id : string) : bool := bool_decide (id ∈ s).

Definition ComputeEffectiveDenominator (stage : StageInstance) (currentEligible : list string) : Z :=
  if Nat.eqb (length (si_EligibleActorIDs stage)) 0 || Nat.eqb (length currentEligible) 0 then 0
  else Zcount (in_set (id_set (si_EligibleActorIDs stage))) currentEligible.

(** Signoffs that count for the stage: all of them when no eligible set is
    configured, else those of eligible actors. *)
Definition count_signoffs (stage : StageInstance) (signoffs : list Signoff) : Z :=
  if Nat.eqb (length (si_EligibleActorIDs stage)) 0 then Zlength signoffs
  else Zcount (fun s => in_set (id_set (si_EligibleActorIDs stage)) (so_ActorUserID s)) signoffs.

Definition EvaluateQuorum (stage : StageInstance) (approvals rejections : list Signoff)
    (effectiveDenominator : Z) : QuorumOutcome :=
  if effectiveDenominator =? 0 then QuorumRejectedStage
  else
    let approveCount := count_signoffs stage approvals in
    let rejectCount := count_signoffs stage rejections in
    match si_QuorumSnapshot stage with
    | QuorumAny1Of =>
        if 1 <=? approveCount then QuorumApprovedStage
        else if 1 <=? rejectCount then QuorumRejectedStage
        else QuorumPending
    | QuorumAllOf =>
        if 1 <=? rejectCount then QuorumRejectedStage
        else if effectiveDenominator <=? approveCount then QuorumApprovedStage
        else QuorumPending
    | QuorumMofN =>
        let m := default 1 (si_QuorumMSnapshot stage) in
        if m <=? approveCount then QuorumApprovedStage
        else if effectiveDenominator - m <? rejectCount then QuorumRejectedStage
        else QuorumPending
    | QuorumOther _ => QuorumPending
    end.

Record DriftResult := mkDriftResult {
  dr_EffectiveDenominator : Z;
  dr_ForcedOutcome : QuorumOutcome;
  dr_Reason : string
}.

(** [itoa]. The digits are written from the end of a 20-byte buffer at
    [pos]; [None] is the index-out-of-range panic of [buf[pos]] when [pos]
    is decremented below 0. The accumulator is [buf[pos:]]. *)
Definition digit_char (d : Z) : Ascii.ascii :=
  Ascii.ascii_of_N (Z.to_N ((48 + d) mod 256)).

Definition buf_write (c : Ascii.ascii) (st : option (nat * string)) : option (nat * string) :=
  match st with
  | Some (S pos, s) => Some (pos, String c s)
  | _ => None
  end.

Fixpoint itoa_loop (fuel : nat) (n : Z) (st : option (nat * string)) : option (nat * string) :=
  match fuel with
  | O => None
  | S fuel =>
      if 10 <=? n then itoa_loop fuel (n / 10) (buf_write (digit_char (n mod 10)) st)
      else buf_write (digit_char n) st
  end.

Definition itoa (n : Z) : option string :=
  if n =? 0 then Some "0"
  else
    let neg := n <? 0 in
    let n := if neg then wrap64 (- n) else n in
    let st := itoa_loop 20 n (Some (20%nat, "")) in
    let st := if neg then buf_write (Ascii.ascii_of_nat 45) st else st in
    snd <$> st.

Definition ApplyEligibilityDrift (stage : StageInstance) (currentEligible : list string)
    : option DriftResult :=
  let snapshot_len := Zlength (si_EligibleActorIDs stage) in
  let current := id_set currentEligible in
  match si_OnEligibilityDriftSnapshot stage with
  | DriftReduceQuorum =>
      let denom := Zcount (in_set current) (si_EligibleActorIDs stage) in
      let delta := snapshot_len - denom in
      if 0 <? delta then
        digits ← itoa delta;
        Some {| dr_EffectiveDenominator := denom; dr_ForcedOutcome := QuorumPending;
                dr_Reason := "eligibility drift: reduce_quorum policy, denominator reduced by "
                               ++ digits |}
      else
        Some {| dr_EffectiveDenominator := denom; dr_ForcedOutcome := QuorumPending;
                dr_Reason := "" |}
  | DriftFailStage =>
      if existsb (fun id => negb (in_set current id)) (si_EligibleActorIDs stage) then
        Some {| dr_EffectiveDenominator := 0; dr_ForcedOutcome := QuorumRejectedStage;
                dr_Reason := "eligibility drift: fail_stage policy" |}
      else
        Some {| dr_EffectiveDenominator := snapshot_len; dr_ForcedOutcome := QuorumPending;
                dr_Reason := "" |}
  | DriftKeepSnapshot | DriftOther _ =>
      Some {| dr_EffectiveDenominator := snapshot_len; dr_ForcedOutcome := QuorumPending;
              dr_Reason := "" |}
  end.

End Quorums.
