(* ===== verification/ApprovalFacts.v ===== *)
(** * Properties of the approval domain

    Theorems about the pure definitions of [ApprovalDomain]: the lifecycle
    graph, route validation, signoff construction, stage progress of an
    instance, quorum outcomes and eligibility drift. *)
From S2P Require Import Prelude Text Tables ApprovalDomain.
Import DocStates Routes Signoffs Instances Quorums.
Local Open Scope Z_scope.

(** ** Specifications *)

(** The lifecycle edges, as a relation between states. *)
Definition lifecycle_edges : list (DocState * DocState) :=
  [(StateDraft, StateUnderReview);
   (StateUnderReview, StateApproved); (StateUnderReview, StateRejected);
   (StateRejected, StateDraft);
   (StateApproved, StatePublished); (StateApproved, StateScheduled);
   (StateApproved, StateDraft);
   (StateScheduled, StatePublished); (StateScheduled, StateDraft);
   (StatePublished, StateSuperseded); (StatePublished, StateObsolete);
   (StateSuperseded, StateObsolete)].

Definition legal_step (a b : DocState) : Prop := IsLegalTransition a b = true.

(** States a published document can be in from then on. *)
Definition released (s : DocState) : Prop :=
  s = StatePublished \/ s = StateSuperseded \/ s = StateObsolete.

(** What [Route.Validate] promises. *)
Definition stage_quorum_ok (s : Stage) : Prop :=
  match st_Quorum s, st_QuorumM s with
  | QuorumMofN, Some m => 1 <= m
  | QuorumMofN, None => False
  | _, None => True
  | _, Some _ => False
  end.

Record route_ok (r : Route) : Prop := {
  route_nonempty : rt_Stages r <> [];
  route_dense : forall i s, rt_Stages r !! i = Some s -> st_Order s = Z.of_nat i + 1;
  route_quorum : Forall stage_quorum_ok (rt_Stages r);
  route_names : NoDup (st_Name <$> rt_Stages r)
}.

(** Shape of the stages of an instance in progress: closed stages, one
    active stage, pending stages. *)
Definition closed (s : StageInstance) : Prop :=
  si_Status s = StageCompleted \/ si_Status s = StageSkipped.
Definition pending (s : StageInstance) : Prop := si_Status s = StagePending.

Definition in_sequence (done : list StageInstance) (a : StageInstance)
    (todo : list StageInstance) (stages : list StageInstance) : Prop :=
  stages = done ++ a :: todo /\ Forall closed done /\
  si_Status a = StageActive /\ Forall pending todo.

(** [n] successive calls of [AdvanceStage] at the given instants. *)
Fixpoint advance_n (nows : list Time) (inst : ApprovalInstance) : Result ApprovalInstance :=
  match nows with
  | [] => inr inst
  | now :: rest =>
      match AdvanceStage now inst with
      | inl e => inl e
      | inr inst' => advance_n rest inst'
      end
  end.

(** Distinct actors of a list of signoffs. *)
Definition actors (l : list Signoff) : list string := so_ActorUserID <$> l.

(** Value of a string of decimal digits, with an optional minus sign. *)
Fixpoint decimal_value (acc : Z) (s : string) : Z :=
  match s with
  | EmptyString => acc
  | String c s' => decimal_value (10 * acc + (Z.of_N (Ascii.N_of_ascii c) - 48)) s'
  end.

Definition signed_value (s : string) : Z :=
  match s with
  | String c s' => if bool_decide (c = Ascii.ascii_of_nat 45) then - decimal_value 0 s'
                   else decimal_value 0 s
  | EmptyString => 0
  end.

(** ** Lifecycle graph *)

Lemma IsLegalTransition_edges from to :
  IsLegalTransition from to = true <-> (from, to) ∈ lifecycle_edges.
Proof.
  split.
  - destruct from, to; intros H; try discriminate H;
      try (by apply (bool_decide_unpack _); vm_compute).
    revert H. unfold IsLegalTransition. case_bool_decide; intros Hf; discriminate Hf.
  - unfold lifecycle_edges. intros H.
    repeat (apply elem_of_cons in H as [[= -> ->]|H]; [done|]).
    by apply not_elem_of_nil in H.
Qed.

Lemma legal_step_released a b : legal_step a b -> released a -> released b.
Proof.
  unfold legal_step, released. rewrite IsLegalTransition_edges. unfold lifecycle_edges.
  intros H Ha. repeat (apply elem_of_cons in H as [[= -> ->]|H];
    [destruct Ha as [Ha|[Ha|Ha]]; try discriminate Ha; auto|]).
  by apply not_elem_of_nil in H.
Qed.

Lemma DocState_of_String s : DocState_of (DocState_String (DocState_of s)) = DocState_of s.
Proof.
  unfold DocState_of.
  repeat match goal with |- context [if str_eqb s ?k then _ else _] =>
    destruct (str_eqb s k) eqn:?; [done|] end.
  simpl. repeat match goal with H : str_eqb s _ = false |- _ => rewrite H; clear H end. done.
Qed.

Lemma StateFromString_ok s st :
  StateFromString s = inr st -> st ∈ AllStates /\ DocState_String st = s.
Proof.
  unfold StateFromString, DocState_of.
  repeat match goal with |- context [if str_eqb s ?k then _ else _] =>
    destruct (str_eqb s k) eqn:?;
      [intros [= <-]; bool_to_prop; subst; split; [by apply (bool_decide_unpack _); vm_compute|done]|] end.
  destruct (_ || _); discriminate.
Qed.

(** ** Route validation *)

Lemma check_quorum_m_ok s : check_quorum_m s = inr tt <-> stage_quorum_ok s.
Proof.
  unfold check_quorum_m, stage_quorum_ok.
  case_bool_decide as Hq; [rewrite Hq|]; destruct (st_QuorumM s) as [m|];
    try destruct (st_Quorum s); try done; destruct (Z.ltb_spec m 1); split; try done; lia.
Qed.

Lemma validate_from_ok i names stages :
  validate_from i names stages = inr tt <->
  (forall j s, stages !! j = Some s -> st_Order s = i + Z.of_nat j + 1) /\
  Forall stage_quorum_ok stages /\
  NoDup (st_Name <$> stages) /\
  Forall (fun s => st_Name s ∉ names) stages.
Proof.
  revert i names. induction stages as [|s stages IH]; intros i names; simpl.
  { split; [|done]. intros _. split_and!; [done|by constructor..]. }
  destruct (Z.eqb_spec (st_Order s) (i + 1)) as [Ho|Ho]; simpl.
  2:{ split; [done|]. intros (H & _). specialize (H 0%nat s eq_refl). lia. }
  destruct (check_quorum_m s) as [e|[]] eqn:Hq.
  { split; [done|]. intros (_ & H & _). inversion H as [|?? H1]; subst.
    apply check_quorum_m_ok in H1. congruence. }
  apply check_quorum_m_ok in Hq. case_bool_decide as Hn.
  { split; [done|]. intros (_ & _ & _ & H). by inversion H. }
  rewrite IH, !NoDup_cons, !Forall_cons. split.
  - intros (H1 & H2 & H3 & H4). split_and!; try done.
    + intros [|j] t Ht; simpl in Ht; [simplify_eq; lia|]. rewrite (H1 j t Ht). lia.
    + intros (t & Heq & Ht)%list_elem_of_fmap. rewrite Forall_forall in H4.
      specialize (H4 t Ht). set_solver.
    + eapply Forall_impl; [exact H4|]. simpl. set_solver.
  - intros (H1 & [_ H2] & [H3 H3'] & [H4 H4']). split_and!; try done.
    + intros j t Ht. rewrite (H1 (S j) t Ht). lia.
    + rewrite Forall_forall in *. intros t Ht. specialize (H4' t Ht).
      assert (st_Name t <> st_Name s); [|set_solver].
      intros Heq. apply H3. rewrite <- Heq. by apply list_elem_of_fmap_2.
Qed.

Lemma Validate_ok r : Validate r = inr tt <-> route_ok r.
Proof.
  unfold Validate. destruct (rt_Stages r) as [|s l] eqn:Hs.
  { split; [done|]. intros []. congruence. }
  rewrite validate_from_ok. split.
  - intros (H1 & H2 & H3 & _). split; rewrite Hs; done.
  - intros [H0 H1 H2 H3]. rewrite Hs in *. split_and!; try done.
    apply Forall_true. set_solver.
Qed.

(** ** Signoffs *)

(** The invariant of the immutable value object. *)
Record signoff_ok (s : Signoff) : Prop := {
  so_id_set : so_ID s <> "";
  so_instance_set : so_ApprovalInstanceID s <> "";
  so_stage_set : so_StageInstanceID s <> "";
  so_actor_set : so_ActorUserID s <> "";
  so_tenant_set : so_ActorTenantID s <> "";
  so_decided : so_Decision s = DecisionApprove \/ so_Decision s = DecisionReject;
  so_dated : so_SignedAt s <> 0;
  so_hash_hex : hashRegex_MatchString (so_ContentHash s) = true
}.

Lemma ascii_lower_hex c : is_hex_digit c = true -> ascii_lower c = c.
Proof. destruct c as [[] [] [] [] [] [] [] []]; vm_compute; done. Qed.

Lemma ToLower_hex s : all_chars is_hex_digit s = true -> ToLower s = s.
Proof.
  induction s as [|c s IH]; simpl; [done|]. intros [Hc Hs]%andb_true_iff.
  by rewrite ascii_lower_hex, IH.
Qed.

Lemma ToLower_hash s : hashRegex_MatchString s = true -> ToLower s = s.
Proof. unfold hashRegex_MatchString. intros [_ H]%andb_true_iff. by apply ToLower_hex. Qed.

Lemma NewSignoff_inv p s :
  NewSignoff p = inr s ->
  signoff_ok s /\
  so_ActorUserID s = so_ActorUserID p /\ so_StageInstanceID s = so_StageInstanceID p /\
  so_ApprovalInstanceID s = so_ApprovalInstanceID p /\
  so_ActorTenantID s = so_ActorTenantID p /\ so_Decision s = so_Decision p /\
  so_ID s = so_ID p /\ so_SignaturePayload s = so_SignaturePayload p.
Proof.
  unfold NewSignoff, IsZero. intros H.
  repeat match type of H with
  | (if ?b then _ else _) = _ => destruct b eqn:?; [discriminate H|]
  end.
  injection H as <-. bool_to_prop. split; [|done]. split; simpl; try done.
  match goal with H : negb _ && negb _ = false |- _ => revert H end.
  repeat case_bool_decide; auto; discriminate.
Qed.

Lemma NewSignoff_fix s : signoff_ok s -> NewSignoff s = inr s.
Proof.
  intros [H1 H2 H3 H4 H5 H6 H7 H8]. unfold NewSignoff, IsZero.
  apply str_eqb_false in H1 as ->, H2 as ->, H3 as ->, H4 as ->, H5 as ->.
  rewrite (bool_decide_eq_false_2 _ H7), ToLower_hash, H8 by done.
  destruct s; simpl in *. by destruct H6 as [->| ->].
Qed.

Lemma CheckSoD_ok author actor prior :
  CheckSoD author actor prior = inr tt <-> actor <> author /\ actor ∉ actors prior.
Proof.
  unfold CheckSoD, actors. destruct (str_eqb actor author) eqn:Ha; bool_to_prop.
  { split; [done|]. by intros []. }
  destruct (existsb _ prior) eqn:He.
  - split; [done|]. intros [_ Hn]. apply existsb_exists in He as (s & Hs & Heq).
    bool_to_prop. subst. destruct Hn. apply list_elem_of_fmap_2.
    by apply list_elem_of_In.
  - split; [|done]. intros _. split; [done|].
    intros (s & -> & Hs)%list_elem_of_fmap.
    assert (existsb (fun t => str_eqb (so_ActorUserID t) (so_ActorUserID s)) prior = true); [|congruence].
    apply existsb_exists. exists s. split; [by apply list_elem_of_In|apply str_eqb_refl].
Qed.

(** ** Stage progress *)

Lemma closed_not_active s : closed s -> is_active s = false.
Proof. unfold closed, is_active. intros [->| ->]; done. Qed.

Lemma pending_not_active s : pending s -> is_active s = false.
Proof. unfold pending, is_active. by intros ->. Qed.

Lemma find_active done a todo stages :
  in_sequence done a todo stages -> find_index is_active stages = Some (length done).
Proof.
  intros (-> & Hd & Ha & _). apply find_index_app.
  - eapply Forall_impl; [exact Hd|]. apply closed_not_active.
  - by apply bool_decide_eq_true.
Qed.

Lemma Active_in_sequence done a todo inst :
  in_sequence done a todo (in_Stages inst) -> Active inst = Some a.
Proof.
  intros H. unfold Active. rewrite (find_active _ _ _ _ H). simpl.
  destruct H as (-> & _). by rewrite lookup_app_r, Nat.sub_diag.
Qed.

(** One [AdvanceStage] on a well-shaped instance. *)
Lemma AdvanceStage_in_sequence now done a todo inst :
  in_sequence done a todo (in_Stages inst) ->
  AdvanceStage now inst =
    inr match todo with
        | [] => in_assign InstanceApproved (Some now) (in_RevisionVersion inst)
                  (done ++ [mark_completed now a]) inst
        | p :: todo' => set_stages (done ++ mark_completed now a :: mark_active now p :: todo') inst
        end.
Proof.
  intros H. unfold AdvanceStage. rewrite (find_active _ _ _ _ H).
  destruct H as (-> & _ & _ & Hp). rewrite alter_middle. unfold find_index_from.
  rewrite drop_middle. destruct todo as [|p todo]; simpl; [done|].
  inversion Hp as [|?? Hp1]; subst. unfold is_pending at 1.
  rewrite bool_decide_eq_true_2 by done. simpl. do 2 f_equal.
  rewrite Nat.add_0_r. induction done as [|d done IH]; simpl; [done|]. by f_equal.
Qed.

Lemma in_sequence_step now done a p todo :
  Forall closed done -> Forall pending todo ->
  in_sequence (done ++ [mark_completed now a]) (mark_active now p) todo
    (done ++ mark_completed now a :: mark_active now p :: todo).
Proof.
  intros Hd Ht. split_and!; [by rewrite <- app_assoc| |done|done].
  apply Forall_app. split; [done|]. repeat constructor.
Qed.

Lemma AdvanceStage_no_active now inst :
  Forall (fun s => is_active s = false) (in_Stages inst) ->
  AdvanceStage now inst = inl ErrNoActiveStage.
Proof. intros H. unfold AdvanceStage. by rewrite find_index_all_false. Qed.

Lemma advance_n_in_sequence nows done a todo inst :
  in_sequence done a todo (in_Stages inst) ->
  length nows = S (length todo) ->
  exists inst', advance_n nows inst = inr inst' /\
    in_Status inst' = InstanceApproved /\
    length (in_Stages inst') = length (in_Stages inst) /\
    Forall closed (in_Stages inst').
Proof.
  revert done a todo inst. induction nows as [|now nows IH]; intros done a todo inst H Hlen;
    simpl in *; [lia|].
  rewrite (AdvanceStage_in_sequence now _ _ _ _ H).
  destruct H as (Hs & Hd & Ha & Hp). destruct todo as [|p todo].
  - destruct nows; [|simpl in *; lia]. simpl. eexists. split_and!; [done|done| |].
    + simpl. rewrite Hs, !length_app. done.
    + simpl. apply Forall_app. split; [done|]. by repeat constructor.
  - apply Forall_cons in Hp as [_ Hp].
    destruct (IH (done ++ [mark_completed now a]) (mark_active now p) todo
                (set_stages (done ++ mark_completed now a :: mark_active now p :: todo) inst))
      as (inst' & -> & ? & H2 & ?).
    + by apply in_sequence_step.
    + simpl in *. lia.
    + exists inst'. split_and!; [done|done| |done].
      rewrite H2, Hs. simpl. rewrite !length_app. done.
Qed.

(** ** Counting distinct voters *)

Lemma Zcount_map {A B} (p : B -> bool) (f : A -> B) l :
  Zcount (fun x => p (f x)) l = Zcount p (f <$> l).
Proof.
  unfold Zcount, bcount. f_equal. induction l as [|x l IH]; [done|].
  rewrite fmap_cons, !bfilter_cons. destruct (p (f x)); simpl; by rewrite IH.
Qed.

Lemma Zcount_app {A} (p : A -> bool) l k : Zcount p (l ++ k) = Zcount p l + Zcount p k.
Proof. unfold Zcount, bcount. rewrite bfilter_app, length_app. lia. Qed.

Lemma Zcount_nonneg {A} (p : A -> bool) l : 0 <= Zcount p l <= Zlength l.
Proof. unfold Zcount, Zlength. pose proof (bcount_le p l). lia. Qed.

Lemma Zcount_all {A} (p : A -> bool) l : (forall x, x ∈ l -> p x = true) -> Zcount p l = Zlength l.
Proof.
  unfold Zcount, Zlength, bcount. intros H. do 2 f_equal. induction l as [|x l IH]; [done|].
  rewrite bfilter_cons, (H x) by left. f_equal. apply IH. intros y Hy. apply H. by right.
Qed.

Lemma Zcount_split {A} (p : A -> bool) l :
  Zcount p l + Zcount (fun x => negb (p x)) l = Zlength l.
Proof.
  unfold Zcount, Zlength, bcount. induction l as [|x l IH]; [done|].
  rewrite !bfilter_cons. destruct (p x); simpl in *; lia.
Qed.

Lemma in_set_elem l x : in_set (id_set l) x = true <-> x ∈ l.
Proof. unfold in_set, id_set. rewrite bool_decide_eq_true. by rewrite elem_of_list_to_set. Qed.

Lemma in_set_elem_false l x : in_set (id_set l) x = false <-> x ∉ l.
Proof. unfold in_set, id_set. rewrite bool_decide_eq_false. by rewrite elem_of_list_to_set. Qed.

(** For duplicate-free lists the intersection is counted the same from
    either side. *)
Lemma Zcount_inter_comm l k :
  NoDup l -> NoDup k -> Zcount (in_set (id_set l)) k = Zcount (in_set (id_set k)) l.
Proof.
  intros Hl Hk. unfold Zcount, bcount. f_equal. apply Permutation_length, NoDup_Permutation.
  - by apply NoDup_filter.
  - by apply NoDup_filter.
  - intros x. rewrite !elem_of_bfilter, !in_set_elem. tauto.
Qed.

(** A voter whose signoffs are to be added: only the actor matters. *)
Definition vote_of (actor : string) : Signoff :=
  mkSignoff "" "" "" actor "" DecisionApprove "" 0 "" None "".

Lemma actors_app l k : actors (l ++ k) = actors l ++ actors k.
Proof. apply fmap_app. Qed.

Lemma actors_vote_of ids : actors (vote_of <$> ids) = ids.
Proof. unfold actors. rewrite <- list_fmap_compose. apply list_fmap_id. Qed.

Lemma count_signoffs_eligible stage l :
  si_EligibleActorIDs stage <> [] ->
  count_signoffs stage l = Zcount (in_set (id_set (si_EligibleActorIDs stage))) (actors l).
Proof.
  intros H. unfold count_signoffs. destruct (si_EligibleActorIDs stage) eqn:E; [done|].
  simpl length. unfold actors. rewrite <- Zcount_map. done.
Qed.

(** Distinct eligible voters are at most as many as the eligible actors. *)
Lemma voters_bound ids voters :
  NoDup ids -> NoDup voters -> Zcount (in_set (id_set ids)) voters <= Zlength ids.
Proof. intros Hi Hv. rewrite Zcount_inter_comm by done. apply Zcount_nonneg. Qed.

(** The eligible actors that have not voted, as a list. *)
Definition remaining (ids voters : list string) : list string :=
  bfilter (fun x => negb (in_set (id_set voters) x)) ids.

Lemma remaining_count ids voters :
  NoDup ids -> NoDup voters ->
  Zlength (remaining ids voters) = Zlength ids - Zcount (in_set (id_set ids)) voters.
Proof.
  intros Hi Hv. rewrite (Zcount_inter_comm ids voters) by done.
  rewrite <- (Zcount_split (in_set (id_set voters)) ids). unfold Zcount, Zlength, bcount, remaining. lia.
Qed.

Lemma remaining_NoDup ids voters :
  NoDup ids -> NoDup voters -> NoDup (voters ++ remaining ids voters).
Proof.
  intros Hi Hv. apply NoDup_app. split_and!; [done| |by apply NoDup_filter].
  intros x Hx Hr. apply elem_of_bfilter in Hr as [Hn _].
  apply negb_true_iff, in_set_elem_false in Hn. done.
Qed.

(** ** Quorum and drift *)

Lemma count_extension stage l k :
  si_EligibleActorIDs stage <> [] ->
  count_signoffs stage (l ++ k) =
    Zcount (in_set (id_set (si_EligibleActorIDs stage))) (actors l) +
    Zcount (in_set (id_set (si_EligibleActorIDs stage))) (actors k).
Proof. intros H. by rewrite count_signoffs_eligible, actors_app, Zcount_app. Qed.

Lemma EvaluateQuorum_m_of_n stage approvals rejections m n :
  si_QuorumSnapshot stage = QuorumMofN -> si_QuorumMSnapshot stage = Some m -> n <> 0 ->
  EvaluateQuorum stage approvals rejections n = QuorumRejectedStage <->
  count_signoffs stage approvals < m /\ n - m < count_signoffs stage rejections.
Proof.
  intros Hq Hm Hn. unfold EvaluateQuorum. rewrite (proj2 (Z.eqb_neq n 0) Hn), Hq, Hm. simpl.
  destruct (Z.leb_spec m (count_signoffs stage approvals)); [split; [done|lia]|].
  destruct (Z.ltb_spec (n - m) (count_signoffs stage rejections)); split; try done; lia.
Qed.

(** A stage with quorum m_of_n and a configured set of eligible actors is
    rejected exactly when approval has become impossible: the approvals are
    below [m] and stay below it whatever the actors that have not signed yet
    decide (each actor signs at most once). *)
Theorem quorum_m_of_n_rejects_iff_unreachable stage approvals rejections m
    (Hpolicy : si_QuorumSnapshot stage = QuorumMofN)
    (Hm : si_QuorumMSnapshot stage = Some m)
    (Heligible : si_EligibleActorIDs stage <> [])
    (Hdistinct : NoDup (si_EligibleActorIDs stage))
    (Hvoted_once : NoDup (actors (approvals ++ rejections))) :
  EvaluateQuorum stage approvals rejections
      (ComputeEffectiveDenominator stage (si_EligibleActorIDs stage)) = QuorumRejectedStage <->
  (forall more : list Signoff, NoDup (actors ((approvals ++ rejections) ++ more)) ->
     count_signoffs stage (approvals ++ more) < m).
Proof.
  set (ids := si_EligibleActorIDs stage) in *.
  assert (Hden : ComputeEffectiveDenominator stage ids = Zlength ids).
  { unfold ComputeEffectiveDenominator. fold ids. destruct ids as [|x l] eqn:E; [done|].
    simpl length. rewrite Zcount_all; [done|]. intros y. by rewrite in_set_elem. }
  assert (Hne : Zlength ids <> 0) by (destruct ids; [done|unfold Zlength; simpl; lia]).
  rewrite Hden, (EvaluateQuorum_m_of_n _ _ _ _ _ Hpolicy Hm Hne).
  rewrite !count_signoffs_eligible by done. fold ids.
  set (c := Zcount (in_set (id_set ids))).
  assert (Hc : c (actors (approvals ++ rejections)) = c (actors approvals) + c (actors rejections))
    by (by unfold c; rewrite actors_app, Zcount_app).
  split.
  - intros [Ha Hr] more Hmore. rewrite count_extension by done. fold ids c.
    pose proof (voters_bound ids _ Hdistinct Hmore) as Hb. fold c in Hb.
    rewrite actors_app in Hb. unfold c in Hb at 1. rewrite Zcount_app in Hb. fold c in Hb. lia.
  - intros Hall. split.
    + specialize (Hall []). rewrite !app_nil_r, count_signoffs_eligible in Hall by done. auto.
    + set (rest := remaining ids (actors (approvals ++ rejections))).
      assert (Hrest : c rest = Zlength rest).
      { apply Zcount_all. intros x Hx. apply elem_of_bfilter in Hx as [_ Hx]. by apply in_set_elem. }
      specialize (Hall (vote_of <$> rest)).
      rewrite count_extension, actors_app, actors_vote_of in Hall by done. fold ids c in Hall.
      pose proof (remaining_count ids _ Hdistinct Hvoted_once) as Hn. fold c rest in Hn.
      specialize (Hall (remaining_NoDup ids _ Hdistinct Hvoted_once)). lia.
Qed.

Definition demo_stage (q : QuorumPolicy) (m : option Z) (ids : list string) : StageInstance :=
  mkStageInstance "s1" "i1" 1 "Review" "reviewer" "doc.signoff" "QA" q m DriftKeepSnapshot
    ids None StageActive None None "".

Lemma quorum_m_of_n_rejects_iff_unreachable_witness :
  EvaluateQuorum (demo_stage QuorumMofN (Some 2) ["ana"; "bia"; "caio"])
    [vote_of "ana"] [vote_of "bia"] 3 = QuorumPending /\
  (EvaluateQuorum (demo_stage QuorumMofN (Some 2) ["ana"; "bia"]) [vote_of "ana"] [vote_of "bia"]
     (ComputeEffectiveDenominator (demo_stage QuorumMofN (Some 2) ["ana"; "bia"]) ["ana"; "bia"])
     = QuorumRejectedStage <->
   (forall more, NoDup (actors (([vote_of "ana"] ++ [vote_of "bia"]) ++ more)) ->
     count_signoffs (demo_stage QuorumMofN (Some 2) ["ana"; "bia"]) ([vote_of "ana"] ++ more) < 2)).
Proof.
  split; [vm_compute; reflexivity|].
  apply (quorum_m_of_n_rejects_iff_unreachable
           (demo_stage QuorumMofN (Some 2) ["ana"; "bia"]) [vote_of "ana"] [vote_of "bia"] 2
           eq_refl eq_refl); [done| |]; apply (bool_decide_unpack _); vm_compute; exact I.
Defined.

(** *** Decimal rendering *)

Lemma digit_char_value d : 0 <= d < 10 -> Z.of_N (Ascii.N_of_ascii (digit_char d)) - 48 = d.
Proof.
  intros H. unfold digit_char.
  assert (d = 0 \/ d = 1 \/ d = 2 \/ d = 3 \/ d = 4 \/ d = 5 \/ d = 6 \/ d = 7 \/ d = 8 \/ d = 9)
    as Hd by lia.
  by repeat destruct Hd as [->|Hd]; [..|subst].
Qed.

Lemma digit_char_not_minus d : 0 <= d < 10 -> digit_char d <> Ascii.ascii_of_nat 45.
Proof.
  intros H Heq. apply (f_equal (fun c => Z.of_N (Ascii.N_of_ascii c) - 48)) in Heq.
  rewrite digit_char_value in Heq by done. vm_compute in Heq. subst. lia.
Qed.

Lemma itoa_loop_spec (k fuel : nat) n pos s :
  (1 <= k)%nat -> (k <= fuel)%nat -> (k <= pos)%nat -> 0 <= n < 10 ^ Z.of_nat k ->
  exists pos' c s', itoa_loop fuel n (Some (pos, s)) = Some (pos', String c s') /\
    (pos - k <= pos')%nat /\ c <> Ascii.ascii_of_nat 45 /\
    decimal_value 0 (String c s') = decimal_value n s.
Proof.
  revert fuel n pos s. induction k as [|k IH]; intros fuel n pos s Hk Hf Hp Hn; [lia|].
  destruct fuel as [|fuel]; [lia|]. destruct pos as [|pos]; [lia|]. simpl itoa_loop.
  destruct (Z.leb_spec 10 n) as [Hge|Hlt].
  - assert (Hk1 : (1 <= k)%nat) by (destruct k; [simpl in Hn; lia|lia]).
    assert (Hdiv : 0 <= n / 10 < 10 ^ Z.of_nat k).
    { rewrite Nat2Z.inj_succ, Z.pow_succ_r in Hn by lia.
      split; [apply Z.div_pos; lia|]. apply Z.div_lt_upper_bound; lia. }
    destruct (IH fuel (n / 10) pos (String (digit_char (n mod 10)) s)) as (p & c & s' & H1 & H2 & H3 & H4);
      [lia|lia|lia|done|].
    exists p, c, s'. split_and!; [done|lia|done|]. rewrite H4. simpl.
    rewrite digit_char_value by (apply Z.mod_pos_bound; lia). f_equal.
    rewrite (Z.div_mod n 10) at 3 by lia. lia.
  - exists pos, (digit_char n), s. split_and!; [done|lia|by apply digit_char_not_minus; lia|].
    cbn [decimal_value]. by rewrite digit_char_value by lia.
Qed.

Lemma itoa_correct n :
  - 2 ^ 63 < n < 2 ^ 63 -> exists s, itoa n = Some s /\ s <> "" /\ signed_value s = n.
Proof.
  intros Hn. unfold itoa. destruct (Z.eqb_spec n 0) as [->|Hnz]; [by exists "0"|].
  assert (Hmag : forall z, 0 <= z < 2 ^ 63 -> 0 <= z < 10 ^ Z.of_nat 19) by (intros z; lia).
  destruct (Z.ltb_spec n 0) as [Hneg|Hpos].
  - unfold wrap64. rewrite Z.mod_small by lia.
    replace (- n + 2 ^ 63 - 2 ^ 63) with (- n) by lia.
    destruct (itoa_loop_spec 19 20 (- n) 20 "") as (p & c & s & H1 & H2 & H3 & H4); [lia..|].
    rewrite H1. destruct p as [|p]; [lia|]. eexists. split_and!; [done|done|].
    cbn [decimal_value] in H4. simpl. rewrite H4. lia.
  - destruct (itoa_loop_spec 19 20 n 20 "") as (p & c & s & H1 & H2 & H3 & H4); [lia..|].
    rewrite H1. eexists. split_and!; [done|done|].
    cbn [signed_value fmap option_fmap option_map snd]. by rewrite bool_decide_eq_false_2.
Qed.

(** Eligibility drift is computed consistently: under [reduce_quorum]
    the denominator of [ApplyEligibilityDrift] is the one of
    [ComputeEffectiveDenominator] (one counts the snapshot inside the current
    set, the other the current set inside the snapshot), it lies between 0
    and the size of the snapshot, no outcome is forced, and a reason is given
    exactly when some snapshot actor is no longer eligible; the decimal
    rendering of the difference never overruns its buffer. *)
Theorem drift_reduce_quorum_agrees stage current
    (Hpolicy : si_OnEligibilityDriftSnapshot stage = DriftReduceQuorum)
    (Hsnapshot : NoDup (si_EligibleActorIDs stage)) (Hcurrent : NoDup current)
    (Hsize : Zlength (si_EligibleActorIDs stage) < 2 ^ 63) :
  exists r, ApplyEligibilityDrift stage current = Some r /\
    dr_EffectiveDenominator r = ComputeEffectiveDenominator stage current /\
    0 <= dr_EffectiveDenominator r <= Zlength (si_EligibleActorIDs stage) /\
    dr_ForcedOutcome r = QuorumPending /\
    (dr_Reason r = "" <-> forall id, id ∈ si_EligibleActorIDs stage -> id ∈ current).
Proof.
  set (ids := si_EligibleActorIDs stage) in *.
  pose proof (Zcount_nonneg (in_set (id_set current)) ids) as Hb.
  assert (Hden : ComputeEffectiveDenominator stage current = Zcount (in_set (id_set current)) ids).
  { unfold ComputeEffectiveDenominator. fold ids.
    rewrite <- (Zcount_inter_comm ids current) by done.
    destruct ids as [|x l], current as [|y k]; try done.
    simpl. rewrite (Zcount_inter_comm _ []) by (done || constructor). done. }
  assert (Hall : Zcount (in_set (id_set current)) ids = Zlength ids <->
                 forall id, id ∈ ids -> id ∈ current).
  { pose proof (Zcount_split (in_set (id_set current)) ids) as Hs. split.
    - intros He id Hid. apply in_set_elem. apply not_false_iff_true. intros Hf.
      assert (Hin : id ∈ bfilter (fun x => negb (in_set (id_set current) x)) ids)
        by (apply elem_of_bfilter; rewrite Hf; done).
      unfold Zcount at 2, bcount in Hs. destruct (bfilter _ ids); [by apply not_elem_of_nil in Hin|].
      simpl in Hs. lia.
    - intros H. apply Zcount_all. intros x Hx. by apply in_set_elem, H. }
  unfold ApplyEligibilityDrift. rewrite Hpolicy. fold ids. rewrite Hden.
  destruct (Z.ltb_spec 0 (Zlength ids - Zcount (in_set (id_set current)) ids)) as [Hd|Hd].
  - destruct (itoa_correct (Zlength ids - Zcount (in_set (id_set current)) ids)) as (s & -> & _);
      [lia|]. eexists. split_and!; [done|done|simpl; lia|simpl; lia|done|].
    simpl. split; [done|]. rewrite <- Hall. lia.
  - eexists. split_and!; [done|done|simpl; lia|simpl; lia|done|]. simpl. split; [|done].
    intros _. apply Hall. lia.
Qed.

Definition demo_drift_stage (ids : list string) : StageInstance :=
  mkStageInstance "s1" "i1" 1 "Review" "reviewer" "doc.signoff" "QA" QuorumAllOf None
    DriftReduceQuorum ids None StageActive None None "".

Lemma drift_reduce_quorum_agrees_witness :
  (exists r, ApplyEligibilityDrift (demo_drift_stage ["ana"; "bia"; "caio"]) ["caio"; "dora"] = Some r /\
    dr_EffectiveDenominator r =
      ComputeEffectiveDenominator (demo_drift_stage ["ana"; "bia"; "caio"]) ["caio"; "dora"] /\
    0 <= dr_EffectiveDenominator r <= 3 /\ dr_ForcedOutcome r = QuorumPending /\
    (dr_Reason r = "" <-> forall id, id ∈ ["ana"; "bia"; "caio"] -> id ∈ ["caio"; "dora"])) /\
  (dr_Reason <$> ApplyEligibilityDrift (demo_drift_stage ["ana"; "bia"; "caio"]) ["caio"; "dora"])
    = Some "eligibility drift: reduce_quorum policy, denominator reduced by 2".
Proof.
  split; [|vm_compute; reflexivity].
  apply (drift_reduce_quorum_agrees (demo_drift_stage ["ana"; "bia"; "caio"]) ["caio"; "dora"] eq_refl);
    [apply (bool_decide_unpack _); vm_compute; exact I..|vm_compute; reflexivity].
Defined.

(** C39 Approval terminates: an instance in sequence (closed stages, one
    active stage, [k] pending stages) becomes approved after exactly [k + 1]
    calls of [AdvanceStage], with every stage closed and no stage added or
    lost; before that it is still in progress, and one more call is refused
    with [ErrNoActiveStage]. *)
Theorem advance_stage_terminates nows later now done a todo inst
    (Hseq : in_sequence done a todo (in_Stages inst))
    (Hlen : length nows = S (length todo)) :
  (exists inst', advance_n nows inst = inr inst' /\
     in_Status inst' = InstanceApproved /\
     length (in_Stages inst') = length (in_Stages inst) /\
     Forall closed (in_Stages inst') /\ Active inst' = None /\
     AdvanceStage later inst' = inl ErrNoActiveStage) /\
  (todo <> [] -> exists inst', AdvanceStage now inst = inr inst' /\
     in_Status inst' = in_Status inst /\ Active inst' <> None).
Proof.
  split.
  - destruct (advance_n_in_sequence nows done a todo inst Hseq Hlen) as (i & H1 & H2 & H3 & H4).
    assert (Hno : Forall (fun s => is_active s = false) (in_Stages i))
      by (eapply Forall_impl; [exact H4|apply closed_not_active]).
    exists i. split_and!; [done..| |by apply AdvanceStage_no_active].
    unfold Active. by rewrite find_index_all_false.
  - intros Hne. rewrite (AdvanceStage_in_sequence now _ _ _ _ Hseq).
    destruct todo as [|p todo]; [done|]. eexists. split; [done|]. split; [done|].
    destruct Hseq as (_ & Hd & _ & Hp). apply Forall_cons in Hp as [_ Hp].
    erewrite Active_in_sequence; [done|]. by apply in_sequence_step.
Qed.

Definition demo_instance (stages : list StageInstance) : ApprovalInstance :=
  mkApprovalInstance "i1" "t1" "d1" "r1" 1 InstanceInProgress "ana" 5 None "h" "k" 0 stages.

Definition demo_pending : StageInstance :=
  si_assign StagePending None None "" (demo_stage QuorumAny1Of None []).

Lemma advance_stage_terminates_witness :
  (exists inst', advance_n [1; 2] (demo_instance [demo_stage QuorumAny1Of None []; demo_pending]) = inr inst' /\
     in_Status inst' = InstanceApproved /\ length (in_Stages inst') = 2%nat /\
     Forall closed (in_Stages inst') /\ Active inst' = None /\
     AdvanceStage 3 inst' = inl ErrNoActiveStage) /\
  ([demo_pending] <> [] -> exists inst',
     AdvanceStage 1 (demo_instance [demo_stage QuorumAny1Of None []; demo_pending]) = inr inst' /\
     in_Status inst' = InstanceInProgress /\ Active inst' <> None).
Proof.
  apply (advance_stage_terminates [1; 2] 3 1 [] (demo_stage QuorumAny1Of None []) [demo_pending]
           (demo_instance [demo_stage QuorumAny1Of None []; demo_pending])); [|reflexivity].
  split_and!; [reflexivity|constructor|reflexivity|repeat constructor].
Defined.
