(* ===== verification/Database.v ===== *)
(** * Database: tables, constraints, transactions and the service monad

    The approval services talk to PostgreSQL through [database/sql]. This
    file holds the tables they use (columns and constraints of
    [migrations/0110] to [0159]), the meaning of the SQL statements the Go
    code embeds, and the monad [M] in which the services are written: a
    committed database, at most one open transaction working on its own copy,
    the transaction-local settings ([set_config(..., true)]), and a script of
    faults, one per database call, so that every error path of the Go code
    can be taken. Identifiers are opaque strings; [json.Marshal] of a map is
    kept as the list of its entries. *)
From S2P Require Import Prelude Tables ApprovalDomain.
Import DocStates Routes Signoffs Instances.
Local Open Scope Z_scope.

(** ** Rows *)

(** The six snapshot columns of [documents]. *)
Record DocSnapshot := mkDocSnapshot {
  sn_placeholder_schema_snapshot : option string;
  sn_placeholder_schema_hash : option string;
  sn_composition_config_snapshot : option string;
  sn_composition_config_hash : option string;
  sn_body_docx_snapshot_s3_key : option string;
  sn_body_docx_hash : option string
}.

Record Document := mkDocument {
  d_id : string;
  d_tenant_id : string;
  d_status : DocState;
  d_revision_version : Z;
  d_created_by : string;
  d_process_area_code_snapshot : option string;
  d_controlled_document_id : option string;
  d_effective_from : option Time;
  d_snapshot : DocSnapshot;
  d_values_frozen_at : option Time
}.

Record ControlledDocument := mkControlledDocument {
  cd_id : string;
  cd_process_area_code : option string
}.

Record RouteRow := mkRouteRow {
  ar_id : string;
  ar_tenant_id : string;
  ar_profile_code : string;
  ar_name : string;
  ar_version : Z;
  ar_created_by : string;
  ar_active : bool
}.

Record RouteStageRow := mkRouteStageRow {
  ars_route_id : string;
  ars_stage : Stage
}.

Record InstanceRow := mkInstanceRow {
  ai_id : string;
  ai_tenant_id : string;
  ai_document_v2_id : string;
  ai_route_id : string;
  ai_route_version_snapshot : Z;
  ai_status : InstanceStatus;
  ai_submitted_by : string;
  ai_submitted_at : Time;
  ai_completed_at : option Time;
  ai_content_hash_at_submit : string;
  ai_idempotency_key : string
}.

Record UserProcessAreaRow := mkUserProcessAreaRow {
  upa_user_id : string;
  upa_tenant_id : string;
  upa_area_code : string;
  upa_role : string;
  upa_effective_to : option Time
}.

(** [GovernanceEvent] of [application/events.go]. *)
Record GovernanceEvent := mkGovernanceEvent {
  ev_TenantID : string;
  ev_EventType : string;
  ev_ActorUserID : string;
  ev_ResourceType : string;
  ev_ResourceID : string;
  ev_Reason : string;
  ev_PayloadJSON : list (string * FmtArg)
}.

(** ** The database *)

(** Stage instance rows are [StageInstance] values (there is no skip_reason
    column: it is always empty), signoff rows are [Signoff] values. *)
Record DB := mkDB {
  documents : list Document;
  controlled_documents : list ControlledDocument;
  approval_routes : list RouteRow;
  approval_route_stages : list RouteStageRow;
  approval_instances : list InstanceRow;
  approval_stage_instances : list StageInstance;
  approval_signoffs : list Signoff;
  governance_events : list GovernanceEvent;
  user_process_areas : list UserProcessAreaRow;
  role_capabilities : list (string * string);
  iam_users : list (string * string);
  document_profiles : list (string * string)
}.

Definition set_documents x db := mkDB x (controlled_documents db) (approval_routes db)
  (approval_route_stages db) (approval_instances db) (approval_stage_instances db)
  (approval_signoffs db) (governance_events db) (user_process_areas db)
  (role_capabilities db) (iam_users db) (document_profiles db).
Definition set_routes x y db := mkDB (documents db) (controlled_documents db) x y
  (approval_instances db) (approval_stage_instances db)
  (approval_signoffs db) (governance_events db) (user_process_areas db)
  (role_capabilities db) (iam_users db) (document_profiles db).
Definition set_instances x db := mkDB (documents db) (controlled_documents db)
  (approval_routes db) (approval_route_stages db) x (approval_stage_instances db)
  (approval_signoffs db) (governance_events db) (user_process_areas db)
  (role_capabilities db) (iam_users db) (document_profiles db).
Definition set_stage_instances x db := mkDB (documents db) (controlled_documents db)
  (approval_routes db) (approval_route_stages db) (approval_instances db) x
  (approval_signoffs db) (governance_events db) (user_process_areas db)
  (role_capabilities db) (iam_users db) (document_profiles db).
Definition set_signoffs x db := mkDB (documents db) (controlled_documents db)
  (approval_routes db) (approval_route_stages db) (approval_instances db)
  (approval_stage_instances db) x (governance_events db) (user_process_areas db)
  (role_capabilities db) (iam_users db) (document_profiles db).
Definition set_events x db := mkDB (documents db) (controlled_documents db)
  (approval_routes db) (approval_route_stages db) (approval_instances db)
  (approval_stage_instances db) (approval_signoffs db) x (user_process_areas db)
  (role_capabilities db) (iam_users db) (document_profiles db).

(** Transaction-local settings [metaldocs.*]. The JSON array of
    [asserted_caps] is kept as the list of its [(cap, area)] objects. *)
Record GUCs := mkGUCs {
  guc_tenant_id : option string;
  guc_actor_id : option string;
  guc_bypass_authz : option string;
  guc_asserted_caps : option (list (string * string));
  guc_cancel_in_progress : option string
}.

Definition no_gucs : GUCs := mkGUCs None None None None None.

Record Tx := mkTx {
  tx_db : DB;
  tx_guc : GUCs;
  tx_now : Time;        (* SQL now() *)
  tx_aborted : bool     (* a statement failed: only ROLLBACK is accepted *)
}.

Definition tx_set_db db tx := mkTx db (tx_guc tx) (tx_now tx) (tx_aborted tx).
Definition tx_set_guc g tx := mkTx (tx_db tx) g (tx_now tx) (tx_aborted tx).
Definition tx_abort tx := mkTx (tx_db tx) (tx_guc tx) (tx_now tx) true.

(** ** The world and the monad *)

Record World := mkWorld {
  w_db : DB;                          (* committed data *)
  w_tx : option Tx;                   (* the open transaction, if any *)
  w_faults : list (option Error);     (* outcome of the next database calls *)
  w_clock : nat -> Time;              (* clock readings *)
  w_ticks : nat;
  w_uuid : nat -> string;             (* values of uuid.New().String() *)
  w_uuids : nat
}.

Definition w_set_tx t w :=
  mkWorld (w_db w) t (w_faults w) (w_clock w) (w_ticks w) (w_uuid w) (w_uuids w).
Definition w_set_db db w :=
  mkWorld db (w_tx w) (w_faults w) (w_clock w) (w_ticks w) (w_uuid w) (w_uuids w).
Definition w_pop_fault w :=
  mkWorld (w_db w) (w_tx w) (tail (w_faults w)) (w_clock w) (w_ticks w) (w_uuid w) (w_uuids w).
Definition w_tick w :=
  mkWorld (w_db w) (w_tx w) (w_faults w) (w_clock w) (S (w_ticks w)) (w_uuid w) (w_uuids w).
Definition w_next_uuid w :=
  mkWorld (w_db w) (w_tx w) (w_faults w) (w_clock w) (w_ticks w) (w_uuid w) (S (w_uuids w)).

Definition next_fault (w : World) : option Error :=
  match w_faults w with
  | f :: _ => f
  | [] => None
  end.

Definition M (A : Type) : Type := World -> Result A * World.

#[export] Instance M_ret : MRet M := fun A a w => (inr a, w).
#[export] Instance M_bind : MBind M := fun A B k m w =>
  match m w with
  | (inl e, w') => (inl e, w')
  | (inr a, w') => k a w'
  end.

Definition throw {A} (e : Error) : M A := fun w => (inl e, w).

Definition lift {A} (r : Result A) : M A := fun w => (r, w).

(** [if err := m; err != nil { return f(err) }]. *)
Definition map_err {A} (f : Error -> Error) (m : M A) : M A := fun w =>
  match m w with
  | (inl e, w') => (inl (f e), w')
  | r => r
  end.

(** [if b { ... }] with no result. *)
Definition when (b : bool) (m : M unit) : M unit := if b then m else mret tt.

Definition Now : M Time := fun w => (inr (w_clock w (w_ticks w)), w_tick w).
Definition NewUUID : M string := fun w => (inr (w_uuid w (w_uuids w)), w_next_uuid w).

Definition ErrTxDone : Error := Sentinel "sql.ErrTxDone".
Definition ErrTxAborted : Error :=
  PgError "25P02" "" "current transaction is aborted, commands ignored until end of transaction block".
Definition ErrSecondTx : Error := Sentinel "model.second_transaction".
(** Scanning NULL into a Go string. *)
Definition ErrScanNull : Error :=
  Errorf "converting NULL to string is unsupported" [].

(** [db.BeginTx]. *)
Definition BeginTx : M unit := fun w =>
  match w_tx w with
  | Some _ => (inl ErrSecondTx, w)
  | None =>
      match next_fault w with
      | Some e => (inl e, w_pop_fault w)
      | None =>
          (inr tt, w_set_tx (Some (mkTx (w_db w) no_gucs (w_clock w (w_ticks w)) false))
                     (w_tick (w_pop_fault w)))
      end
  end.

(** [_ = tx.Rollback()]. *)
Definition Rollback : M unit := fun w => (inr tt, w_set_tx None w).

(** [tx.Commit()]: a failing commit leaves nothing committed. *)
Definition Commit : M unit := fun w =>
  match w_tx w with
  | None => (inl ErrTxDone, w)
  | Some tx =>
      match next_fault w with
      | Some e => (inl e, w_set_tx None (w_pop_fault w))
      | None =>
          if tx_aborted tx then (inl ErrTxAborted, w_set_tx None (w_pop_fault w))
          else (inr tt, w_set_tx None (w_set_db (tx_db tx) (w_pop_fault w)))
      end
  end.

(** One statement sent over the transaction. An error of the statement or of
    the connection aborts the transaction. *)
Definition db_call {A} (stmt : Tx -> Result (A * Tx)) : M A := fun w =>
  match w_tx w with
  | None => (inl ErrTxDone, w)
  | Some tx =>
      match next_fault w with
      | Some e => (inl e, w_set_tx (Some (tx_abort tx)) (w_pop_fault w))
      | None =>
          if tx_aborted tx then (inl ErrTxAborted, w_pop_fault w)
          else match stmt tx with
               | inl e => (inl e, w_set_tx (Some (tx_abort tx)) (w_pop_fault w))
               | inr (a, tx') => (inr a, w_set_tx (Some tx') (w_pop_fault w))
               end
      end
  end.

(** A read, and a read of one row that must exist ([sql.ErrNoRows] is raised
    by [Scan] and does not abort the transaction). *)
Definition query {A} (q : DB -> A) : M A := db_call (fun tx => inr (q (tx_db tx), tx)).

Definition query_row {A} (q : DB -> option A) : M A :=
  r ← query q;
  match r with
  | Some a => mret a
  | None => throw ErrNoRows
  end.

Definition scan_string (v : option string) : M string :=
  match v with
  | Some s => mret s
  | None => throw ErrScanNull
  end.

(** A read that also looks at the settings and can fail. *)
Definition query_tx {A} (q : GUCs -> DB -> Result A) : M A :=
  db_call (fun tx => match q (tx_guc tx) (tx_db tx) with
                     | inl e => inl e
                     | inr a => inr (a, tx)
                     end).

(** A statement that changes the tables. *)
Definition exec {A} (s : GUCs -> Time -> DB -> Result (A * DB)) : M A :=
  db_call (fun tx =>
    match s (tx_guc tx) (tx_now tx) (tx_db tx) with
    | inl e => inl e
    | inr (a, db) => inr (a, tx_set_db db tx)
    end).

(** [SELECT set_config(name, value, true)]. *)
Definition set_config (f : GUCs -> GUCs) : M unit :=
  db_call (fun tx => inr (tt, tx_set_guc (f (tx_guc tx)) tx)).

Definition with_tenant_id v g := mkGUCs (Some v) (guc_actor_id g) (guc_bypass_authz g)
  (guc_asserted_caps g) (guc_cancel_in_progress g).
Definition with_actor_id v g := mkGUCs (guc_tenant_id g) (Some v) (guc_bypass_authz g)
  (guc_asserted_caps g) (guc_cancel_in_progress g).
Definition with_bypass_authz v g := mkGUCs (guc_tenant_id g) (guc_actor_id g) (Some v)
  (guc_asserted_caps g) (guc_cancel_in_progress g).
Definition with_asserted_caps v g := mkGUCs (guc_tenant_id g) (guc_actor_id g)
  (guc_bypass_authz g) (Some v) (guc_cancel_in_progress g).
Definition with_cancel_in_progress v g := mkGUCs (guc_tenant_id g) (guc_actor_id g)
  (guc_bypass_authz g) (guc_asserted_caps g) (Some v).

(** A setting that is not modelled. *)
Definition same_gucs (g : GUCs) : GUCs := g.

(** [if err := m; err != nil { _ = tx.Rollback(); return f(err) }]. *)
Definition or_rollback {A} (f : Error -> Error) (m : M A) : M A := fun w =>
  match m w with
  | (inl e, w') => (inl (f e), w_set_tx None w')
  | r => r
  end.

(** [_ = tx.Rollback(); return err]. *)
Definition rollback_return {A} (e : Error) : M A := Rollback ;; throw e.

(** [fmt.Errorf("...: %w", err)]. *)
Definition wrap (fmt : string) (e : Error) : Error := Wrapf fmt [] e.
Definition same (e : Error) : Error := e.

(** [_ = m]: the result and the error are dropped. *)
Definition ignore_error {A} (m : M A) : M unit := fun w => (inr tt, snd (m w)).
