(* ===== verification/Schema.v ===== *)
(** * Schema: triggers, constraints and the statements on the tables

    The write statements embedded in the approval code, with what the schema
    of [migrations/] makes them do: [BEFORE] triggers in alphabetical order,
    CHECK constraints, unique indexes, foreign keys. *)
From S2P Require Import Prelude Tables ApprovalDomain Database.
Import DocStates Routes Signoffs Instances.
Local Open Scope Z_scope.

(** ** documents *)

(** [SET revision_version = revision_version + 1] on an INT column. *)
Definition bump_revision (v : Z) : Result Z :=
  if int4_max <? v + 1 then inl out_of_range else inr (v + 1).

Definition doc_set (status : DocState) (revision : Z) (d : Document) : Document :=
  mkDocument (d_id d) (d_tenant_id d) status revision (d_created_by d)
    (d_process_area_code_snapshot d) (d_controlled_document_id d) (d_effective_from d)
    (d_snapshot d) (d_values_frozen_at d).

(** [SET status = s, revision_version = revision_version + 1]. *)
Definition set_status_bump (s : DocState) (d : Document) : Result Document :=
  match bump_revision (d_revision_version d) with
  | inl e => inl e
  | inr v => inr (doc_set s v d)
  end.

Definition is_Some_b {A} (o : option A) : bool := match o with Some _ => true | None => false end.

Definition snapshot_complete (s : DocSnapshot) : bool :=
  is_Some_b (sn_placeholder_schema_snapshot s) && is_Some_b (sn_placeholder_schema_hash s) &&
  is_Some_b (sn_composition_config_snapshot s) && is_Some_b (sn_composition_config_hash s) &&
  is_Some_b (sn_body_docx_snapshot_s3_key s) && is_Some_b (sn_body_docx_hash s).

(** Migration 0152: [enforce_snapshot_on_submit]. *)
Definition enforce_snapshot_on_submit (new : Document) : Result unit :=
  match d_status new with
  | StateUnderReview | StateApproved | StateScheduled | StatePublished =>
      constraint (snapshot_complete (d_snapshot new))
        (check_violation "documents snapshot columns required")
  | _ => inr tt
  end.

(** Migration 0144: [enforce_document_transition]. *)
Definition sql_transition_allowed (old new : DocState) : bool :=
  match old, new with
  | StateDraft, StateUnderReview
  | StateUnderReview, (StateApproved | StateRejected)
  | StateRejected, StateDraft
  | StateApproved, (StatePublished | StateScheduled | StateDraft)
  | StateScheduled, (StatePublished | StateDraft)
  | StatePublished, (StateSuperseded | StateObsolete)
  | StateSuperseded, StateObsolete => true
  | _, _ => false
  end.

Definition enforce_document_transition (g : GUCs) (old new : DocState) : Result unit :=
  if bool_decide (old = new) then inr tt
  else if bool_decide (old = StateUnderReview) && bool_decide (new = StateDraft) then
    match guc_cancel_in_progress g with
    | None => inl (check_violation "illegal status transition under_review -> draft")
    | Some i => constraint (negb (str_eqb i ""))
                  (check_violation "illegal status transition under_review -> draft")
    end
  else constraint (sql_transition_allowed old new) (check_violation "illegal status transition").

(** Migration 0140: [enforce_revision_version_monotonic]. *)
Definition enforce_revision_monotonic (old new : Z) : Result unit :=
  constraint (negb (new <? old)) (check_violation "revision_version cannot decrease").

Definition before_update_document (g : GUCs) (old new : Document) : Result Document :=
  check! enforce_snapshot_on_submit new;
  check! enforce_document_transition g (d_status old) (d_status new);
  check! enforce_revision_monotonic (d_revision_version old) (d_revision_version new);
  inr new.

(** [UPDATE documents SET ... WHERE ...]. *)
Definition update_documents (cond : Document -> bool) (upd : Document -> Result Document)
    (g : GUCs) (now : Time) (db : DB) : Result (Z * DB) :=
  match update_where cond
          (fun d => match upd d with
                    | inl e => inl e
                    | inr d' => before_update_document g d d'
                    end) (documents db) with
  | inl e => inl e
  | inr (n, rows) => inr (n, set_documents rows db)
  end.

(** [WHERE id = $1 AND tenant_id = $2]. *)
Definition doc_is (id tenant : string) (d : Document) : bool :=
  str_eqb (d_id d) id && str_eqb (d_tenant_id d) tenant.

Definition doc_has_status (s : DocState) (d : Document) : bool := bool_decide (d_status d = s).
Definition doc_has_revision (v : Z) (d : Document) : bool := d_revision_version d =? v.

(** ** Capability tripwire (migration 0142b) *)

(** [enforce_capability_asserted] on INSERT: the audit event of the
    scheduler bypass, or nothing. *)
Definition enforce_capability_asserted (g : GUCs) (required table tenant id : string)
    : Result (list GovernanceEvent) :=
  let missing := raise_exception ("ErrCapabilityNotAsserted: cap " ++ required) in
  match guc_bypass_authz g with
  | Some b =>
      if str_eqb b "" then
        match guc_asserted_caps g with
        | Some caps =>
            if existsb (fun c => str_eqb (fst c) required) caps then inr [] else inl missing
        | None => inl missing
        end
      else if str_eqb b "scheduler" then
        inr [mkGovernanceEvent tenant "authz.bypass_used" "system:scheduler" table id
               ("scheduler bypass for " ++ required)
               [("required_cap", AStr required); ("bypass_token", AStr b);
                ("table", AStr table); ("op", AStr "INSERT")]]
      else inl missing
  | None =>
      match guc_asserted_caps g with
      | Some caps =>
          if existsb (fun c => str_eqb (fst c) required) caps then inr [] else inl missing
      | None => inl missing
      end
  end.

Definition append_events (evs : list GovernanceEvent) (db : DB) : DB :=
  set_events (governance_events db ++ evs) db.

(** ** approval_instances *)

Definition user_exists (db : DB) (tenant user : string) : bool :=
  bool_decide ((tenant, user) ∈ iam_users db).

Definition insert_instance (r : InstanceRow) (g : GUCs) (now : Time) (db : DB)
    : Result (unit * DB) :=
  match enforce_capability_asserted g "doc.submit" "approval_instances"
          (ai_tenant_id r) (ai_id r) with
  | inl e => inl e
  | inr evs =>
      let rows := approval_instances db in
      check! constraint (negb (existsb (fun x => str_eqb (ai_id x) (ai_id r)) rows))
               (unique_violation "approval_instances_pkey");
      check! constraint
               (negb (existsb (fun x => str_eqb (ai_document_v2_id x) (ai_document_v2_id r) &&
                                        str_eqb (ai_idempotency_key x) (ai_idempotency_key r)) rows))
               (unique_violation "approval_instances_document_v2_id_idempotency_key_key");
      check! constraint
               (negb (bool_decide (ai_status r = InstanceInProgress) &&
                      existsb (fun x => str_eqb (ai_document_v2_id x) (ai_document_v2_id r) &&
                                        bool_decide (ai_status x = InstanceInProgress)) rows))
               (unique_violation "ux_approval_instances_active");
      check! constraint (existsb (fun d => str_eqb (d_id d) (ai_document_v2_id r)) (documents db))
               (fk_violation "approval_instances_document_v2_id_fkey");
      check! constraint (existsb (fun x => str_eqb (ar_id x) (ai_route_id r)) (approval_routes db))
               (fk_violation "approval_instances_route_id_fkey");
      check! constraint (user_exists db (ai_tenant_id r) (ai_submitted_by r))
               (fk_violation "approval_instances_submitted_by_tenant_fkey");
      inr (tt, append_events evs (set_instances (rows ++ [r]) db))
  end.

Definition ai_set_status (s : InstanceStatus) (completed : option Time) (r : InstanceRow)
    : InstanceRow :=
  mkInstanceRow (ai_id r) (ai_tenant_id r) (ai_document_v2_id r) (ai_route_id r)
    (ai_route_version_snapshot r) s (ai_submitted_by r) (ai_submitted_at r) completed
    (ai_content_hash_at_submit r) (ai_idempotency_key r).

(** [UPDATE approval_instances SET status, completed_at WHERE ...]; the new
    statuses written by the code are terminal, so the partial unique index on
    ['in_progress'] rows cannot be violated. *)
Definition update_instances (cond : InstanceRow -> bool) (s : InstanceStatus)
    (completed : option Time) (db : DB) : Result (Z * DB) :=
  match update_where cond (fun r => inr (ai_set_status s completed r)) (approval_instances db) with
  | inl e => inl e
  | inr (n, rows) => inr (n, set_instances rows db)
  end.

(** ** approval_stage_instances *)

Definition quorum_text_ok (q : QuorumPolicy) : bool :=
  match q with QuorumOther _ => false | _ => true end.
Definition drift_text_ok (d : DriftPolicy) : bool :=
  match d with DriftOther _ => false | _ => true end.

Definition insert_stage_instance (s : StageInstance) (db : DB) : Result DB :=
  let rows := approval_stage_instances db in
  check! constraint ((1 <=? si_StageOrder s) && quorum_text_ok (si_QuorumSnapshot s) &&
                     drift_text_ok (si_OnEligibilityDriftSnapshot s))
           (check_violation "approval_stage_instances check constraint");
  check! constraint (negb (existsb (fun x => str_eqb (si_ID x) (si_ID s)) rows))
           (unique_violation "approval_stage_instances_pkey");
  check! constraint
           (negb (existsb (fun x => str_eqb (si_ApprovalInstanceID x) (si_ApprovalInstanceID s) &&
                                    (si_StageOrder x =? si_StageOrder s)) rows))
           (unique_violation "approval_stage_instances_approval_instance_id_stage_order_key");
  check! constraint
           (existsb (fun x => str_eqb (ai_id x) (si_ApprovalInstanceID s)) (approval_instances db))
           (fk_violation "approval_stage_instances_approval_instance_id_fkey");
  inr (set_stage_instances (rows ++ [s]) db).

Fixpoint insert_stage_instances (l : list StageInstance) (db : DB) : Result DB :=
  match l with
  | [] => inr db
  | s :: rest =>
      match insert_stage_instance s db with
      | inl e => inl e
      | inr db' => insert_stage_instances rest db'
      end
  end.

(** ** approval_signoffs *)

(** Migration 0135: [enforce_signoff_sod]. *)
Definition signoff_author (db : DB) (instance : string) : option string :=
  i ← select_one (fun x => str_eqb (ai_id x) instance) (approval_instances db);
  d ← select_one (fun d => str_eqb (d_id d) (ai_document_v2_id i)) (documents db);
  Some (d_created_by d).

Definition enforce_signoff_sod (db : DB) (s : Signoff) : Result unit :=
  constraint (negb (bool_decide (signoff_author db (so_ApprovalInstanceID s) =
                                 Some (so_ActorUserID s))))
    (check_violation "SoD: author cannot sign own revision").

(** Migration 0135: [enforce_signoff_tenant_consistent]. *)
Definition enforce_signoff_tenant_consistent (db : DB) (s : Signoff) : Result unit :=
  constraint
    (bool_decide
       (ai_tenant_id <$> select_one (fun x => str_eqb (ai_id x) (so_ApprovalInstanceID s))
                           (approval_instances db) = Some (so_ActorTenantID s)))
    (check_violation "cross-tenant signoff rejected").

Definition decision_text_ok (d : Decision) : bool :=
  match d with DecisionOther _ => false | _ => true end.

(** [INSERT ... ON CONFLICT (approval_instance_id, actor_user_id) DO NOTHING
    RETURNING id]: [None] when the conflict fired. *)
Definition insert_signoff (s : Signoff) (g : GUCs) (now : Time) (db : DB)
    : Result (option string * DB) :=
  match enforce_capability_asserted g "doc.signoff" "approval_signoffs"
          (so_ActorTenantID s) (so_ID s) with
  | inl e => inl e
  | inr evs =>
      let rows := approval_signoffs db in
      let db1 := append_events evs db in
      check! enforce_signoff_sod db s;
      check! enforce_signoff_tenant_consistent db s;
      check! constraint (decision_text_ok (so_Decision s))
               (check_violation "approval_signoffs_decision_check");
      if existsb (fun x => str_eqb (so_ApprovalInstanceID x) (so_ApprovalInstanceID s) &&
                           str_eqb (so_ActorUserID x) (so_ActorUserID s)) rows
      then inr (None, db1)
      else
        check! constraint (negb (existsb (fun x => str_eqb (so_ID x) (so_ID s)) rows))
                 (unique_violation "approval_signoffs_pkey");
        check! constraint
                 (negb (existsb (fun x => str_eqb (so_StageInstanceID x) (so_StageInstanceID s) &&
                                          str_eqb (so_ActorUserID x) (so_ActorUserID s)) rows))
                 (unique_violation "approval_signoffs_stage_instance_id_actor_user_id_key");
        check! constraint
                 (existsb (fun x => str_eqb (si_ID x) (so_StageInstanceID s) &&
                                    str_eqb (si_ApprovalInstanceID x) (so_ApprovalInstanceID s))
                    (approval_stage_instances db))
                 (fk_violation "approval_signoffs_stage_matches_instance");
        check! constraint (user_exists db (so_ActorTenantID s) (so_ActorUserID s))
                 (fk_violation "approval_signoffs_actor_tenant_fkey");
        inr (Some (so_ID s), set_signoffs (rows ++ [s]) db1)
  end.

(** ** approval_routes *)

(** Migration 0145: [enforce_route_immutable]. *)
Definition enforce_route_immutable (db : DB) (route_id : string) : Result unit :=
  constraint (negb (existsb (fun i => str_eqb (ai_route_id i) route_id) (approval_instances db)))
    (raise_exception "ErrRouteInUse: route is referenced by one or more approval instances").

(** Insertion: primary key, unique profile per tenant, existing profile. *)
Definition insert_route (r : RouteRow) (g : GUCs) (now : Time) (db : DB) : Result (string * DB) :=
  let rows := approval_routes db in
  check! constraint (negb (existsb (fun x => str_eqb (ar_id x) (ar_id r)) rows))
           (unique_violation "approval_routes_pkey");
  check! constraint
           (negb (existsb (fun x => str_eqb (ar_tenant_id x) (ar_tenant_id r) &&
                                    str_eqb (ar_profile_code x) (ar_profile_code r)) rows))
           (unique_violation "approval_routes_tenant_profile_key");
  check! constraint (bool_decide ((ar_tenant_id r, ar_profile_code r) ∈ document_profiles db))
           (fk_violation "approval_routes_document_profile_fk");
  inr (ar_id r, set_routes (rows ++ [r]) (approval_route_stages db) db).

Definition route_is (id tenant : string) (r : RouteRow) : bool :=
  str_eqb (ar_id r) id && str_eqb (ar_tenant_id r) tenant.

(** [UPDATE approval_routes SET ... WHERE id, tenant], under the trigger. *)
Definition update_routes (id tenant : string) (upd : RouteRow -> Result RouteRow) (db : DB)
    : Result (Z * DB) :=
  match update_where (route_is id tenant)
          (fun r => match enforce_route_immutable db (ar_id r) with
                    | inl e => inl e
                    | inr _ => upd r
                    end) (approval_routes db) with
  | inl e => inl e
  | inr (n, rows) => inr (n, set_routes rows (approval_route_stages db) db)
  end.

(** [DELETE FROM approval_route_stages WHERE route_id = $1]. *)
Definition delete_route_stages (route_id : string) (g : GUCs) (now : Time) (db : DB)
    : Result (unit * DB) :=
  inr (tt, set_routes (approval_routes db)
             (bfilter (fun x => negb (str_eqb (ars_route_id x) route_id)) (approval_route_stages db))
             db).

Definition insert_route_stage (route_id : string) (st : Stage) (db : DB) : Result DB :=
  let rows := approval_route_stages db in
  check! constraint ((st_Order st <=? int4_max) && (default 0 (st_QuorumM st) <=? int4_max))
           out_of_range;
  check! constraint
           ((1 <=? st_Order st) && quorum_text_ok (st_Quorum st) &&
            drift_text_ok (st_OnEligibilityDrift st) &&
            match st_Quorum st, st_QuorumM st with
            | QuorumMofN, Some m => 1 <=? m
            | QuorumMofN, None => false
            | _, None => true
            | _, Some _ => false
            end)
           (check_violation "approval_route_stages_quorum_m_consistent");
  check! constraint
           (negb (existsb (fun x => str_eqb (ars_route_id x) route_id &&
                                    (st_Order (ars_stage x) =? st_Order st)) rows))
           (unique_violation "approval_route_stages_route_stage_order_key");
  check! constraint (existsb (fun x => str_eqb (ar_id x) route_id) (approval_routes db))
           (fk_violation "approval_route_stages_route_id_fkey");
  inr (set_routes (approval_routes db) (rows ++ [mkRouteStageRow route_id st]) db).

(** ** Facts *)

Lemma set_status_bump_ok s d d' :
  set_status_bump s d = inr d' ->
  d' = doc_set s (d_revision_version d + 1) d /\ d_revision_version d + 1 <= int4_max.
Proof.
  unfold set_status_bump, bump_revision.
  destruct (int4_max <? d_revision_version d + 1) eqn:H; [done|].
  intros [= <-]. split; [done|]. lia.
Qed.

(** One row of an UPDATE on [documents]: the triggers accepted it. *)
Definition doc_updated (cond : Document -> bool) (upd : Document -> Result Document) (g : GUCs)
    (d d' : Document) : Prop :=
  if cond d then upd d = inr d' /\ before_update_document g d d' = inr d' else d' = d.

Lemma update_documents_ok cond upd g now db n db' :
  update_documents cond upd g now db = inr (n, db') ->
  exists docs, db' = set_documents docs db /\
    Forall2 (doc_updated cond upd g) (documents db) docs /\
    n = Z.of_nat (bcount cond (documents db)).
Proof.
  unfold update_documents. destruct (update_where _ _ _) as [e|[k docs]] eqn:Hu; [done|].
  intros [= <- <-]. exists docs. split; [done|].
  apply update_where_ok in Hu as [HF ->]. split; [|done].
  eapply Forall2_impl; [exact HF|]. intros d d' H. unfold updated, doc_updated in *.
  destruct (cond d); [|done]. destruct (upd d) as [e|d1] eqn:Hd; [done|].
  assert (d1 = d') as <-; [|done]. revert H. unfold before_update_document.
  by repeat (case_match; [done|]); intros [= <-].
Qed.

Lemma before_update_document_ok g d d' d'' :
  before_update_document g d d' = inr d'' ->
  enforce_snapshot_on_submit d' = inr tt /\
  enforce_document_transition g (d_status d) (d_status d') = inr tt /\
  (d_revision_version d <= d_revision_version d').
Proof.
  unfold before_update_document, enforce_revision_monotonic.
  destruct (enforce_snapshot_on_submit d') as [|[]]; [done|].
  destruct (enforce_document_transition _ _ _) as [|[]]; [done|].
  destruct (constraint _ _) as [|u] eqn:H; [done|]. intros _.
  apply constraint_ok in H. split_and!; [done..|].
  apply negb_true_iff in H. lia.
Qed.

Ltac bool_split H :=
  unfold constraint in H;
  repeat match type of H with
  | (match (if ?b then inr tt else inl _) with _ => _ end) = inr _ =>
      let E := fresh "Hc" in destruct b eqn:E; [|discriminate H]
  end.

Lemma insert_instance_ok r g now db u db' :
  insert_instance r g now db = inr (u, db') ->
  exists evs, enforce_capability_asserted g "doc.submit" "approval_instances"
                (ai_tenant_id r) (ai_id r) = inr evs /\
    db' = append_events evs (set_instances (approval_instances db ++ [r]) db) /\
    (forall x, x ∈ approval_instances db ->
       ai_id x <> ai_id r /\
       (ai_document_v2_id x, ai_idempotency_key x) <> (ai_document_v2_id r, ai_idempotency_key r) /\
       (ai_status r = InstanceInProgress -> ai_status x = InstanceInProgress ->
        ai_document_v2_id x <> ai_document_v2_id r)).
Proof.
  unfold insert_instance. destruct (enforce_capability_asserted _ _ _ _ _) as [e|evs]; [done|].
  intros H. bool_split H. injection H as <- <-. exists evs. split_and!; [done..|].
  intros x Hx. bool_to_prop.
  apply (existsb_false_elem _ _ x) in Hc, Hc0; [|done..].
  cbn beta in Hc, Hc0. bool_to_prop. split_and!; [done| |].
  - intros [= H1 H2]. rewrite H1, H2, !str_eqb_refl in Hc0. done.
  - intros Hr Hs Hd. rewrite (bool_decide_eq_true_2 _ Hr) in Hc1. simpl in Hc1.
    apply (existsb_false_elem _ _ x) in Hc1; [|done]. cbn beta in Hc1.
    rewrite Hd, str_eqb_refl, (bool_decide_eq_true_2 _ Hs) in Hc1. done.
Qed.

Lemma insert_stage_instance_ok s db db' :
  insert_stage_instance s db = inr db' ->
  db' = set_stage_instances (approval_stage_instances db ++ [s]) db /\
  (forall x, x ∈ approval_stage_instances db ->
     si_ID x <> si_ID s /\
     (si_ApprovalInstanceID x, si_StageOrder x) <> (si_ApprovalInstanceID s, si_StageOrder s)) /\
  (exists i, i ∈ approval_instances db /\ ai_id i = si_ApprovalInstanceID s).
Proof.
  unfold insert_stage_instance. intros H. bool_split H. injection H as <-. bool_to_prop.
  split_and!; [done| |].
  - intros x Hx. apply (existsb_false_elem _ _ x) in Hc0, Hc1; [|done..].
    cbn beta in Hc0, Hc1. bool_to_prop. split; [done|]. intros [= E1 E2].
    rewrite E1, E2, str_eqb_refl, Z.eqb_refl in Hc1. done.
  - apply existsb_true_elem in Hc2 as (i & Hi & He). bool_to_prop. eauto.
Qed.

(** Inserting a list of stages appends them, one by one. *)
Lemma insert_stage_instances_ok l db db' :
  insert_stage_instances l db = inr db' ->
  db' = set_stage_instances (approval_stage_instances db ++ l) db.
Proof.
  revert db. induction l as [|s l IH]; intros db; simpl.
  { intros [= <-]. rewrite app_nil_r. by destruct db. }
  destruct (insert_stage_instance s db) as [|db1] eqn:H1; [done|].
  apply insert_stage_instance_ok in H1 as (-> & _). intros H. apply IH in H as ->.
  unfold set_stage_instances. simpl. by rewrite <- app_assoc.
Qed.

Lemma update_instances_ok cond s completed db n db' :
  update_instances cond s completed db = inr (n, db') ->
  db' = set_instances ((fun r => if cond r then ai_set_status s completed r else r)
                         <$> approval_instances db) db /\
  n = Z.of_nat (bcount cond (approval_instances db)).
Proof.
  unfold update_instances. destruct (update_where _ _ _) as [e|[k rows]] eqn:Hu; [done|].
  intros [= <- <-]. apply update_where_ok in Hu as [HF ->]. split; [|done]. f_equal.
  induction HF as [|r r' rows rows' Hr _ IH]; [done|].
  rewrite fmap_cons. f_equal; [|done]. unfold updated in Hr. destruct (cond r); congruence.
Qed.

(** What a successful INSERT of a signoff did: nothing but an audit event on
    conflict, one more row otherwise. *)
Definition signoff_inserted (s : Signoff) (db : DB) : Prop :=
  signoff_author db (so_ApprovalInstanceID s) <> Some (so_ActorUserID s) /\
  (forall x, x ∈ approval_signoffs db ->
     so_ID x <> so_ID s /\
     (so_ApprovalInstanceID x, so_ActorUserID x) <> (so_ApprovalInstanceID s, so_ActorUserID s)) /\
  (exists st, st ∈ approval_stage_instances db /\ si_ID st = so_StageInstanceID s /\
     si_ApprovalInstanceID st = so_ApprovalInstanceID s).

Lemma insert_signoff_ok s g now db r db' :
  insert_signoff s g now db = inr (r, db') ->
  exists evs, enforce_capability_asserted g "doc.signoff" "approval_signoffs"
                (so_ActorTenantID s) (so_ID s) = inr evs /\
    ((r = None /\ db' = append_events evs db /\
      exists x, x ∈ approval_signoffs db /\ so_ApprovalInstanceID x = so_ApprovalInstanceID s /\
        so_ActorUserID x = so_ActorUserID s) \/
     (r = Some (so_ID s) /\
      db' = set_signoffs (approval_signoffs db ++ [s]) (append_events evs db) /\
      signoff_inserted s db)).
Proof.
  unfold insert_signoff, enforce_signoff_sod, enforce_signoff_tenant_consistent.
  destruct (enforce_capability_asserted _ _ _ _ _) as [e|evs]; [done|].
  intros H. exists evs. split; [done|]. bool_split H.
  match type of H with (if existsb ?f _ then _ else _) = _ => destruct (existsb f _) eqn:He end.
  - injection H as <- <-. left. split_and!; [done..|].
    apply existsb_true_elem in He as (x & Hx & Hb). bool_to_prop. eauto.
  - bool_split H. injection H as <- <-. right. bool_to_prop. split_and!; [done..|].
    split_and!; [done| |].
    + intros x Hx.
      match goal with H1 : existsb (fun x => str_eqb (so_ID x) _) _ = false |- _ =>
        apply (existsb_false_elem _ _ x) in H1; [|done] end.
      apply (existsb_false_elem _ _ x) in He; [|done]. cbn beta in *. bool_to_prop.
      split; [done|]. intros [= E1 E2]. rewrite E1, E2, !str_eqb_refl in He. done.
    + match goal with H1 : existsb _ (approval_stage_instances db) = true |- _ =>
        apply existsb_true_elem in H1 as (st & Hst & Hb) end.
      bool_to_prop. eauto.
Qed.
