(* ===== verification/TxLogic.v ===== *)
(** * Reasoning about the service monad

    Two logics for programs in [M].
    - [phases p m q]: a typestate judgement. A service starts [Before] its
      transaction (no transaction open, database as on entry), works [Within]
      it (database still as on entry: only [Commit] publishes) and ends [After]
      a commit. On error every service must be back in [Before]: rolled back,
      no transaction left open, nothing published.
    - inversion of successful runs ([m w = (inr a, w')]), by [run_inv]: each
      primitive yields what it read and the transaction it left.
    Both hold for every script of database faults. *)
From S2P Require Import Prelude Tables Database Schema.
Local Open Scope Z_scope.

(** ** Typestate *)

Inductive phase := Before | Within | After.

Definition in_phase (p : phase) (db0 : DB) (w : World) : Prop :=
  match p with
  | Before => w_tx w = None /\ w_db w = db0
  | Within => is_Some (w_tx w) /\ w_db w = db0
  | After => w_tx w = None
  end.

(** [m] runs from phase [p] to [q], and to [e] when it fails. *)
Definition phases {A} (p : phase) (m : M A) (q e : phase) : Prop :=
  forall db0 w, in_phase p db0 w ->
    match m w with
    | (inr _, w') => in_phase q db0 w'
    | (inl _, w') => in_phase e db0 w'
    end.

(** A whole service method: committed on success, untouched on error. *)
Abbreviation transactional m := (phases Before m After Before).

Lemma phases_ret {A} p (a : A) e : phases p (mret a) p e.
Proof. by intros db0 w H. Qed.

Lemma phases_throw {A} e q (err : Error) : phases e (throw err : M A) q e.
Proof. by intros db0 w H. Qed.

Lemma phases_lift {A} p (r : Result A) : phases p (lift r) p p.
Proof. intros db0 w H. unfold lift. by destruct r. Qed.

Lemma phases_bind {A B} p q r e (m : M A) (k : A -> M B) :
  phases p m q e -> (forall a, phases q (k a) r e) -> phases p (mbind k m) r e.
Proof.
  intros Hm Hk db0 w Hw. specialize (Hm db0 w Hw). unfold mbind, M_bind.
  destruct (m w) as [[err|a] w'] eqn:Hmw; [done|]. by apply Hk.
Qed.

Lemma phases_map_err {A} p q e (f : Error -> Error) (m : M A) :
  phases p m q e -> phases p (map_err f m) q e.
Proof.
  intros Hm db0 w Hw. specialize (Hm db0 w Hw). unfold map_err.
  by destruct (m w) as [[err|a] w'].
Qed.

Lemma phases_or_rollback {A} q (f : Error -> Error) (m : M A) :
  phases Within m q Within -> phases Within (or_rollback f m) q Before.
Proof.
  intros Hm db0 w Hw. specialize (Hm db0 w Hw). unfold or_rollback.
  destruct (m w) as [[err|a] w']; [|done]. split; [done|]. apply Hm.
Qed.

Lemma phases_rollback_return {A} q (err : Error) :
  phases Within (rollback_return err : M A) q Before.
Proof. intros db0 w [_ Hw]. by split. Qed.

Lemma phases_when p e b m : phases p m p e -> phases p (when b m) p e.
Proof. intros H. destruct b; [done|]. apply phases_ret. Qed.

Lemma phases_if {A} p q e (b : bool) (m n : M A) :
  phases p m q e -> phases p n q e -> phases p (if b then m else n) q e.
Proof. by destruct b. Qed.

Lemma phases_Now p e : phases p Now p e.
Proof. intros db0 w H. by destruct p. Qed.

Lemma phases_NewUUID p e : phases p NewUUID p e.
Proof. intros db0 w H. by destruct p. Qed.

Lemma phases_BeginTx : phases Before BeginTx Within Before.
Proof.
  intros db0 w [Ht Hd]. unfold BeginTx. rewrite Ht.
  destruct (next_fault w); simpl; [done|]. by split.
Qed.

Lemma phases_Commit : phases Within Commit After Before.
Proof.
  intros db0 w [[tx Ht] Hd]. unfold Commit. rewrite Ht.
  destruct (next_fault w); simpl; [done|]. by destruct (tx_aborted tx).
Qed.

Lemma phases_db_call {A} (stmt : Tx -> Result (A * Tx)) : phases Within (db_call stmt) Within Within.
Proof.
  intros db0 w [[tx Ht] Hd]. unfold db_call. rewrite Ht.
  destruct (next_fault w); simpl; [by split|].
  destruct (tx_aborted tx); simpl; [by rewrite Ht|].
  destruct (stmt tx) as [err|[a tx']]; simpl; by split.
Qed.

Lemma phases_query {A} (q : DB -> A) : phases Within (query q) Within Within.
Proof. apply phases_db_call. Qed.

Lemma phases_query_tx {A} (q : GUCs -> DB -> Result A) : phases Within (query_tx q) Within Within.
Proof. apply phases_db_call. Qed.

Lemma phases_exec {A} (s : GUCs -> Time -> DB -> Result (A * DB)) :
  phases Within (exec s) Within Within.
Proof. apply phases_db_call. Qed.

Lemma phases_set_config f : phases Within (set_config f) Within Within.
Proof. apply phases_db_call. Qed.

Lemma phases_query_row {A} (q : DB -> option A) : phases Within (query_row q) Within Within.
Proof.
  eapply phases_bind; [apply phases_query|]. intros [a|]; [apply phases_ret|apply phases_throw].
Qed.

Lemma phases_scan_string p v : phases p (scan_string v) p p.
Proof. destruct v; [apply phases_ret|apply phases_throw]. Qed.

Create HintDb phases.
#[export] Hint Resolve phases_ret phases_throw phases_lift phases_or_rollback
  phases_rollback_return phases_when phases_Now phases_NewUUID phases_BeginTx phases_Commit
  phases_db_call phases_query phases_query_tx phases_exec phases_set_config phases_query_row
  phases_scan_string phases_map_err : phases.

Lemma phases_commit_ignored : phases Within (ignore_error Commit) After Before.
Proof.
  intros db0 w Hw. pose proof (phases_Commit db0 w Hw) as H. unfold ignore_error.
  destruct (Commit w) as [[e|[]] w']; simpl in *; [apply H|done].
Qed.
#[export] Hint Resolve phases_commit_ignored : phases.

Lemma phases_or_rollback_Commit f : phases Within (or_rollback f Commit) After Before.
Proof.
  intros db0 w Hw. pose proof (phases_Commit db0 w Hw) as H. unfold or_rollback.
  destruct (Commit w) as [[e|[]] w']; simpl in *; [|done]. by destruct H.
Qed.
#[export] Hint Resolve phases_or_rollback_Commit : phases.

(** Walk a program: binds first, then branches, then the leaves. *)
Ltac phases_tac :=
  repeat first
    [ progress intros
    | solve [eauto with phases]
    | match goal with
      | |- phases _ (mbind _ _) _ _ => eapply phases_bind
      | |- phases _ (or_rollback _ _) _ _ => apply phases_or_rollback
      | |- phases _ (map_err _ _) _ _ => apply phases_map_err
      | |- phases _ (when _ _) _ _ => apply phases_when
      | |- phases _ (match ?x with _ => _ end) _ _ => destruct x
      end ].

(** ** Successful runs *)

Lemma bind_ok {A B} (m : M A) (k : A -> M B) w b w' :
  mbind k m w = (inr b, w') <-> exists a w1, m w = (inr a, w1) /\ k a w1 = (inr b, w').
Proof.
  unfold mbind, M_bind. destruct (m w) as [[e|a] w1]; split.
  - done.
  - by intros (a & w2 & H & _).
  - intros H. by exists a, w1.
  - intros (a' & w2 & [= -> ->] & H). done.
Qed.

Lemma ret_ok {A} (a : A) (w : World) b w' : (mret a : M A) w = (inr b, w') <-> a = b /\ w = w'.
Proof. unfold mret, M_ret. split; [by intros [= -> ->]|by intros [-> ->]]. Qed.

Lemma throw_ok {A} e w (b : A) w' : throw e w = (inr b, w') -> False.
Proof. done. Qed.

Lemma rollback_return_ok {A} e w (b : A) w' : rollback_return e w = (inr b, w') -> False.
Proof. done. Qed.

Lemma lift_ok {A} (r : Result A) w b w' : lift r w = (inr b, w') <-> r = inr b /\ w = w'.
Proof. unfold lift. split; [by intros [= -> ->]|by intros [-> ->]]. Qed.

Lemma or_rollback_ok {A} f (m : M A) w b w' :
  or_rollback f m w = (inr b, w') <-> m w = (inr b, w').
Proof. unfold or_rollback. destruct (m w) as [[e|a] w1]; split; congruence. Qed.

Lemma map_err_ok {A} f (m : M A) w b w' :
  map_err f m w = (inr b, w') <-> m w = (inr b, w').
Proof. unfold map_err. destruct (m w) as [[e|a] w1]; split; congruence. Qed.

(** A successful database call: what it returned, and the transaction before
    and after it. *)
Definition call_ok {A} (stmt : Tx -> Result (A * Tx)) (w : World) (a : A) (w' : World) : Prop :=
  exists tx tx', w_tx w = Some tx /\ stmt tx = inr (a, tx') /\ w_tx w' = Some tx' /\
    w_db w' = w_db w /\ w_uuid w' = w_uuid w /\ w_uuids w' = w_uuids w.

Lemma db_call_ok {A} (stmt : Tx -> Result (A * Tx)) w a w' :
  db_call stmt w = (inr a, w') -> call_ok stmt w a w'.
Proof.
  unfold db_call. destruct (w_tx w) as [tx|] eqn:Ht; [|done].
  destruct (next_fault w); [done|]. destruct (tx_aborted tx); [done|].
  destruct (stmt tx) as [e|[a' tx']] eqn:Hs; [done|]. intros [= -> <-].
  exists tx, tx'. done.
Qed.

Lemma query_ok {A} (q : DB -> A) w a w' tx :
  query q w = (inr a, w') -> w_tx w = Some tx ->
  a = q (tx_db tx) /\ w_tx w' = Some tx /\ w_db w' = w_db w.
Proof. intros (t & t' & H1 & [= <- <-] & ? & ? & _)%db_call_ok Ht. by simplify_eq. Qed.

Lemma query_tx_ok {A} (q : GUCs -> DB -> Result A) w a w' tx :
  query_tx q w = (inr a, w') -> w_tx w = Some tx ->
  q (tx_guc tx) (tx_db tx) = inr a /\ w_tx w' = Some tx /\ w_db w' = w_db w.
Proof.
  intros (t & t' & H1 & H2 & ? & ? & _)%db_call_ok Ht. simplify_eq.
  destruct (q _ _) as [e|a']; [done|]. by injection H2 as -> <-.
Qed.

Lemma query_row_ok {A} (q : DB -> option A) w a w' tx :
  query_row q w = (inr a, w') -> w_tx w = Some tx ->
  q (tx_db tx) = Some a /\ w_tx w' = Some tx /\ w_db w' = w_db w.
Proof.
  unfold query_row. intros (r & w1 & Hq & Hr)%bind_ok Ht.
  apply (query_ok _ _ _ _ tx) in Hq as (-> & H1 & H2); [|done].
  destruct (q (tx_db tx)); [|done]. by apply ret_ok in Hr as [-> <-].
Qed.

Lemma exec_ok {A} (s : GUCs -> Time -> DB -> Result (A * DB)) w a w' tx :
  exec s w = (inr a, w') -> w_tx w = Some tx ->
  exists db', s (tx_guc tx) (tx_now tx) (tx_db tx) = inr (a, db') /\
    w_tx w' = Some (tx_set_db db' tx) /\ w_db w' = w_db w.
Proof.
  intros (t & t' & H1 & H2 & ? & ? & _)%db_call_ok Ht. simplify_eq.
  destruct (s _ _ _) as [e|[a' db']]; [done|]. injection H2 as -> <-. eauto.
Qed.

Lemma set_config_ok f w u w' tx :
  set_config f w = (inr u, w') -> w_tx w = Some tx ->
  w_tx w' = Some (tx_set_guc (f (tx_guc tx)) tx) /\ w_db w' = w_db w.
Proof. intros (t & t' & H1 & [= <-] & ? & ? & _)%db_call_ok Ht. by simplify_eq. Qed.

Lemma BeginTx_ok w u w' :
  BeginTx w = (inr u, w') ->
  exists now, w_tx w' = Some (mkTx (w_db w) no_gucs now false) /\ w_db w' = w_db w.
Proof.
  unfold BeginTx. destruct (w_tx w); [done|]. destruct (next_fault w); [done|].
  intros [= _ <-]. simpl. eauto.
Qed.

Lemma Commit_ok w u w' tx :
  Commit w = (inr u, w') -> w_tx w = Some tx -> w_tx w' = None /\ w_db w' = tx_db tx.
Proof.
  unfold Commit. intros H Ht. rewrite Ht in H. destruct (next_fault w); [done|].
  destruct (tx_aborted tx); [done|]. by injection H as _ <-.
Qed.

Lemma Now_ok w t w' :
  Now w = (inr t, w') -> w_tx w' = w_tx w /\ w_db w' = w_db w.
Proof. by intros [= _ <-]. Qed.

Lemma NewUUID_ok w s w' :
  NewUUID w = (inr s, w') -> w_tx w' = w_tx w /\ w_db w' = w_db w.
Proof. by intros [= _ <-]. Qed.

Lemma scan_string_ok v w s w' : scan_string v w = (inr s, w') <-> v = Some s /\ w = w'.
Proof.
  destruct v; simpl; [rewrite ret_ok; split; intros [? ?]; by simplify_eq|].
  split; [done|by intros []].
Qed.

(** Normalise the transaction equation of the current world. *)
Ltac tx_trans :=
  repeat match goal with
  | H1 : w_tx ?w' = w_tx ?w, H2 : w_tx ?w = Some _ |- _ => rewrite H2 in H1
  | H1 : w_tx ?w' = w_tx ?w, H2 : w_tx ?w = None |- _ => rewrite H2 in H1
  | H1 : w_db ?w' = w_db ?w, H2 : w_db ?w = ?x |- _ => rewrite H2 in H1
  end.

(** One inversion step on a successful run. *)
Ltac run_inv_step :=
  match goal with
  | H : mbind _ _ _ = (inr _, _) |- _ => apply bind_ok in H as (? & ? & ? & H)
  | H : or_rollback _ _ _ = (inr _, _) |- _ => apply or_rollback_ok in H
  | H : map_err _ _ _ = (inr _, _) |- _ => apply map_err_ok in H
  | H : @mret M _ _ _ _ = (inr _, _) |- _ => apply ret_ok in H as [? ?]; subst
  | H : throw _ _ = (inr _, _) |- _ => by apply throw_ok in H
  | H : rollback_return _ _ = (inr _, _) |- _ => by apply rollback_return_ok in H
  | H : lift _ _ = (inr _, _) |- _ => apply lift_ok in H as [? ?]; subst
  | H : scan_string _ _ = (inr _, _) |- _ => apply scan_string_ok in H as [? ?]; subst
  | H : BeginTx _ = (inr _, _) |- _ => apply BeginTx_ok in H as (? & ? & ?)
  | H : Now _ = (inr _, _) |- _ => apply Now_ok in H as [? ?]; tx_trans
  | H : NewUUID _ = (inr _, _) |- _ => apply NewUUID_ok in H as [? ?]; tx_trans
  | H : query _ ?w = (inr _, _), Ht : w_tx ?w = Some _ |- _ =>
      apply (query_ok _ _ _ _ _ H) in Ht as (? & ? & ?); clear H; tx_trans
  | H : query_tx _ ?w = (inr _, _), Ht : w_tx ?w = Some _ |- _ =>
      apply (query_tx_ok _ _ _ _ _ H) in Ht as (? & ? & ?); clear H; tx_trans
  | H : query_row _ ?w = (inr _, _), Ht : w_tx ?w = Some _ |- _ =>
      apply (query_row_ok _ _ _ _ _ H) in Ht as (? & ? & ?); clear H; tx_trans
  | H : exec _ ?w = (inr _, _), Ht : w_tx ?w = Some _ |- _ =>
      apply (exec_ok _ _ _ _ _ H) in Ht as (? & ? & ? & ?); clear H; tx_trans
  | H : set_config _ ?w = (inr _, _), Ht : w_tx ?w = Some _ |- _ =>
      apply (set_config_ok _ _ _ _ _ H) in Ht as (? & ?); clear H; tx_trans
  | H : Commit ?w = (inr _, _), Ht : w_tx ?w = Some _ |- _ =>
      apply (Commit_ok _ _ _ _ H) in Ht as (? & ?); clear H
  | H : (let '(_, _) := ?p in _) _ = (inr _, _) |- _ => destruct p
  | H : (if ?b then _ else _) _ = (inr _, _) |- _ => destruct b eqn:?
  | H : (match ?x with _ => _ end) _ = (inr _, _) |- _ => destruct x eqn:?
  end.

Ltac run_inv := repeat (run_inv_step; simpl in * ).
