(* ===== verification/Authz.v ===== *)
(** * Capability checks inside a transaction

    [internal/modules/iam/authz/authz.go] and
    [approval/application/authz_guc.go]. The capability cache that
    [WithCapCache] puts in the context is [None] when the context has none,
    and otherwise the set of granted keys; [Require] returns the cache it
    leaves. *)
From S2P Require Import Prelude Tables ApprovalDomain Database Schema TxLogic.
Local Open Scope Z_scope.

Abbreviation CapCache := (option (gset string)).

Definition WithCapCache : CapCache := Some ∅.

(** [cacheKey]: the two parts are separated by a NUL byte. *)
Definition nul : string := String Ascii.zero EmptyString.
Definition cacheKey (capability areaCode : string) : string :=
  capability ++ nul ++ areaCode.

Definition cacheGranted (cache : CapCache) (capability areaCode : string) : bool :=
  match cache with
  | None => false
  | Some granted => bool_decide (cacheKey capability areaCode ∈ granted)
  end.

Definition storeGranted (cache : CapCache) (capability areaCode : string) : CapCache :=
  match cache with
  | None => None
  | Some granted => Some ({[cacheKey capability areaCode]} ∪ granted)
  end.

(** [current_setting(name, false)]: an unset parameter is an error. *)
Definition current_setting (name : string) (v : option string) : Result string :=
  match v with
  | Some s => inr s
  | None => inl (undefined_guc name)
  end.

(** The [EXISTS] query: some role with the capability is held, now, by the
    actor in the tenant, in the area (any area when it is ['tenant']). *)
Definition role_grants (db : DB) (tenant actor capability areaCode : string) : bool :=
  existsb (fun rc =>
    str_eqb (snd rc) capability &&
    existsb (fun upa =>
      str_eqb (upa_role upa) (fst rc) && str_eqb (upa_tenant_id upa) tenant &&
      str_eqb (upa_user_id upa) actor && negb (is_Some_b (upa_effective_to upa)) &&
      (str_eqb areaCode "tenant" || str_eqb (upa_area_code upa) areaCode))
      (user_process_areas db))
    (role_capabilities db).

Definition granted_query (capability areaCode : string) (g : GUCs) (db : DB) : Result bool :=
  match current_setting "metaldocs.tenant_id" (guc_tenant_id g) with
  | inl e => inl e
  | inr tenant =>
      match current_setting "metaldocs.actor_id" (guc_actor_id g) with
      | inl e => inl e
      | inr actor => inr (role_grants db tenant actor capability areaCode)
      end
  end.

Definition actorIDFromTx : M string :=
  query_tx (fun g _ => current_setting "metaldocs.actor_id" (guc_actor_id g)).

Definition appendAssertedCap (capability areaCode : string) : M unit :=
  raw ← query_tx (fun g _ => inr (guc_asserted_caps g));
  let asserted := default [] raw in
  set_config (with_asserted_caps (asserted ++ [(capability, areaCode)])).

Definition Require (ctx : CapCache) (capability areaCode : string) : M CapCache :=
  if cacheGranted ctx capability areaCode then
    appendAssertedCap capability areaCode ;; mret ctx
  else
    granted ← query_tx (granted_query capability areaCode);
    if negb granted then
      actorID ← actorIDFromTx;
      throw (ErrCapabilityDenied capability areaCode actorID)
    else
      appendAssertedCap capability areaCode ;;
      mret (storeGranted ctx capability areaCode).

Definition BypassSystem : M unit := set_config (with_bypass_authz "scheduler").

(** [setAuthzGUC] of the approval services. *)
Definition setAuthzGUC (tenantID actorID : string) : M unit :=
  map_err (wrap "set tenant GUC: %w") (set_config (with_tenant_id tenantID)) ;;
  map_err (wrap "set actor GUC: %w") (set_config (with_actor_id actorID)).

(** [loadDocumentAreaCode] of [submit_service.go]: the first non-NULL of the
    document's snapshot and its controlled document's area; ["tenant"] when
    there is no row or no area. *)
Definition document_area (documentID tenantID : string) (db : DB) : option string :=
  d ← select_one (doc_is documentID tenantID) (documents db);
  Some
    match d_process_area_code_snapshot d with
    | Some a => a
    | None =>
        match d_controlled_document_id d ≫= fun c =>
                select_one (fun x => str_eqb (cd_id x) c) (controlled_documents db) with
        | Some cd => default "" (cd_process_area_code cd)
        | None => ""
        end
    end.

Definition loadDocumentAreaCode (tenantID documentID : string) : M string :=
  r ← query (document_area documentID tenantID);
  match r with
  | None => mret "tenant"
  | Some areaCode => if str_eqb areaCode "" then mret "tenant" else mret areaCode
  end.

(** ** Facts *)

Lemma phases_appendAssertedCap c a : phases Within (appendAssertedCap c a) Within Within.
Proof. unfold appendAssertedCap. phases_tac. Qed.

Lemma phases_Require ctx c a : phases Within (Require ctx c a) Within Within.
Proof.
  unfold Require, actorIDFromTx. pose proof phases_appendAssertedCap.
  phases_tac; apply phases_throw.
Qed.

Lemma phases_setAuthzGUC t a : phases Within (setAuthzGUC t a) Within Within.
Proof. unfold setAuthzGUC. phases_tac. Qed.

Lemma phases_BypassSystem : phases Within BypassSystem Within Within.
Proof. unfold BypassSystem. phases_tac. Qed.

Lemma phases_loadDocumentAreaCode t d : phases Within (loadDocumentAreaCode t d) Within Within.
Proof. unfold loadDocumentAreaCode. phases_tac. Qed.

#[export] Hint Resolve phases_appendAssertedCap phases_Require phases_setAuthzGUC
  phases_BypassSystem phases_loadDocumentAreaCode : phases.

(** A successful [Require]: the capability was granted (or cached) and is
    now among the asserted ones; nothing else changed. *)
Lemma Require_ok ctx c a w ctx' w' tx :
  Require ctx c a w = (inr ctx', w') -> w_tx w = Some tx ->
  exists caps, w_tx w' = Some (tx_set_guc (with_asserted_caps caps (tx_guc tx)) tx) /\
    w_db w' = w_db w /\ (c, a) ∈ caps /\
    (cacheGranted ctx c a = true \/
     exists tenant actor, guc_tenant_id (tx_guc tx) = Some tenant /\
       guc_actor_id (tx_guc tx) = Some actor /\
       role_grants (tx_db tx) tenant actor c a = true).
Proof.
  unfold Require, appendAssertedCap, actorIDFromTx. intros H Ht.
  destruct (cacheGranted ctx c a) eqn:Hc; run_inv;
    (eexists; split_and!; [eassumption|congruence|apply elem_of_app; right; left|]).
  - by left.
  - right. apply negb_false_iff in Heqb. subst.
    match goal with H : granted_query _ _ _ _ = _ |- _ => unfold granted_query, current_setting in H end.
    destruct (guc_tenant_id (tx_guc tx)) as [t|]; [|done].
    destruct (guc_actor_id (tx_guc tx)) as [u|]; [|done]. simplify_eq. eauto.
Qed.

Lemma setAuthzGUC_ok t a w u w' tx :
  setAuthzGUC t a w = (inr u, w') -> w_tx w = Some tx ->
  w_tx w' = Some (tx_set_guc (with_actor_id a (with_tenant_id t (tx_guc tx))) tx) /\
  w_db w' = w_db w.
Proof. unfold setAuthzGUC. intros H Ht. run_inv. split; [done|congruence]. Qed.

(** What [loadDocumentAreaCode] returns. *)
Definition area_code (db : DB) (tenantID documentID : string) : string :=
  match document_area documentID tenantID db with
  | Some a => if str_eqb a "" then "tenant" else a
  | None => "tenant"
  end.

Lemma loadDocumentAreaCode_ok t d w a w' tx :
  loadDocumentAreaCode t d w = (inr a, w') -> w_tx w = Some tx ->
  a = area_code (tx_db tx) t d /\ w_tx w' = Some tx /\ w_db w' = w_db w.
Proof.
  unfold loadDocumentAreaCode, area_code. intros H Ht.
  run_inv; subst; repeat match goal with H : _ = document_area _ _ _ |- _ => rewrite <- H end;
    try match goal with H : str_eqb _ _ = _ |- _ => rewrite H end; done.
Qed.

Ltac authz_inv_step :=
  match goal with
  | H : Require _ _ _ ?w = (inr _, _), Ht : w_tx ?w = Some _ |- _ =>
      apply (Require_ok _ _ _ _ _ _ _ H) in Ht as (? & ? & ? & ? & ?); clear H; tx_trans
  | H : setAuthzGUC _ _ ?w = (inr _, _), Ht : w_tx ?w = Some _ |- _ =>
      apply (setAuthzGUC_ok _ _ _ _ _ _ H) in Ht as (? & ?); clear H; tx_trans
  | H : loadDocumentAreaCode _ _ ?w = (inr _, _), Ht : w_tx ?w = Some _ |- _ =>
      apply (loadDocumentAreaCode_ok _ _ _ _ _ _ H) in Ht as (? & ? & ?); clear H; tx_trans
  | H : BypassSystem _ = (inr _, _) |- _ => unfold BypassSystem in H
  end.
