(* ===== verification/ApprovalRepo.v ===== *)
(** * Approval repository

    [internal/modules/documents_v2/approval/repository]: the PostgreSQL
    error mapping of [errors.go] and the operations of
    [postgres_approval_repository.go], each one statement (or two) on the
    caller's transaction. [LoadInstance] scans no revision_version: the loaded
    instance carries the zero value of the Go struct field. *)
From S2P Require Import Prelude Tables ApprovalDomain Database Schema TxLogic Authz.
Import DocStates Routes Signoffs Instances.
Local Open Scope Z_scope.

Definition ErrStaleRevision : Error := Sentinel "repository.ErrStaleRevision".
Definition ErrNoActiveInstance : Error := Sentinel "repository.ErrNoActiveInstance".
Definition ErrDuplicateSubmission : Error := Sentinel "repository.ErrDuplicateSubmission".
Definition ErrActorAlreadySigned : Error := Sentinel "repository.ErrActorAlreadySigned".
Definition ErrInstanceCompleted : Error := Sentinel "repository.ErrInstanceCompleted".
Definition ErrStageNotActive : Error := Sentinel "repository.ErrStageNotActive".
Definition ErrFKViolation : Error := Sentinel "repository.ErrFKViolation".
Definition ErrCheckViolation : Error := Sentinel "repository.ErrCheckViolation".
Definition ErrInsufficientPrivilege : Error := Sentinel "repository.ErrInsufficientPrivilege".
Definition ErrUnknownDB : Error := Sentinel "repository.ErrUnknownDB".
Definition ErrRouteInUse : Error := Sentinel "repository.ErrRouteInUse".
Definition ErrDuplicateRouteProfile : Error := Sentinel "repository.ErrDuplicateRouteProfile".

(** [MapPgError]; [hint] is [hints.UniqueConstraint]. *)
Definition MapPgError (hint : string) (err : Error) : Error :=
  match errors_As_PgError err with
  | None => err
  | Some (code, constraint, message) =>
      if str_eqb code "23505" then
        if str_eqb constraint "ux_approval_instances_active" ||
           str_eqb constraint "approval_instances_document_v2_id_idempotency_key_key"
        then ErrDuplicateSubmission
        else if str_eqb constraint "approval_signoffs_approval_instance_id_actor_user_id_key" ||
                str_eqb constraint "approval_signoffs_stage_instance_id_actor_user_id_key"
        then ErrActorAlreadySigned
        else if str_eqb constraint "approval_routes_tenant_profile_key"
        then ErrDuplicateRouteProfile
        else if negb (str_eqb hint "") && str_eqb constraint hint
        then ErrDuplicateSubmission
        else ErrActorAlreadySigned
      else if str_eqb code "23503" then ErrFKViolation
      else if str_eqb code "23514" then
        if negb (str_eqb message "") then Wrapf "%w: %s" [AStr message] ErrCheckViolation
        else ErrCheckViolation
      else if str_eqb code "42501" then ErrInsufficientPrivilege
      else if str_eqb code "P0001" && String.prefix "ErrRouteInUse" message then ErrRouteInUse
      else Wrapf "%w: %s (SQLSTATE %s)" [AStr message; AStr code] ErrUnknownDB
  end.

(** ** Rows and domain values *)

Definition row_of_instance (inst : ApprovalInstance) : InstanceRow :=
  mkInstanceRow (in_ID inst) (in_TenantID inst) (in_DocumentID inst) (in_RouteID inst)
    (in_RouteVersionSnapshot inst) (in_Status inst) (in_SubmittedBy inst) (in_SubmittedAt inst)
    None (in_ContentHashAtSubmit inst) (in_IdempotencyKey inst).

Definition instance_of_row (r : InstanceRow) (stages : list StageInstance) : ApprovalInstance :=
  mkApprovalInstance (ai_id r) (ai_tenant_id r) (ai_document_v2_id r) (ai_route_id r)
    (ai_route_version_snapshot r) (ai_status r) (ai_submitted_by r) (ai_submitted_at r)
    (ai_completed_at r) (ai_content_hash_at_submit r) (ai_idempotency_key r)
    0 stages.

(** The thirteen columns inserted for a stage: not opened_at, completed_at. *)
Definition row_of_stage (s : StageInstance) : StageInstance :=
  si_assign (si_Status s) None None "" s.

(** ** Operations *)

Definition InsertInstance (inst : ApprovalInstance) : M unit :=
  map_err (MapPgError "") (exec (insert_instance (row_of_instance inst))).

Definition InsertStageInstances (stages : list StageInstance) : M unit :=
  match stages with
  | [] => mret tt
  | _ =>
      map_err (MapPgError "")
        (exec (fun g now db =>
           match insert_stage_instances (row_of_stage <$> stages) db with
           | inl e => inl e
           | inr db' => inr (tt, db')
           end))
  end.

(** [scanSignoff]: a stored row goes through [NewSignoff] again. *)
Definition scanSignoff (row : Signoff) : Result Signoff := NewSignoff row.

Definition LoadSignoffByActor (tenantID instanceID actorUserID : string) : M Signoff :=
  row ← query_row (fun db =>
    select_one (fun s =>
      str_eqb (so_ApprovalInstanceID s) instanceID && str_eqb (so_ActorUserID s) actorUserID &&
      existsb (fun i => str_eqb (ai_id i) (so_ApprovalInstanceID s) &&
                        str_eqb (ai_tenant_id i) tenantID) (approval_instances db))
      (approval_signoffs db));
  lift (scanSignoff row).

Record SignoffInsertResult := mkSignoffInsertResult { sir_ID : string; sir_WasReplay : bool }.

Definition same_signoff (existing s : Signoff) : bool :=
  str_eqb (so_StageInstanceID existing) (so_StageInstanceID s) &&
  bool_decide (so_Decision existing = so_Decision s) &&
  str_eqb (so_ContentHash existing) (so_ContentHash s).

(** The row sent: a nil payload is stored as [{}]. *)
Definition row_of_signoff (s : Signoff) : Signoff :=
  mkSignoff (so_ID s) (so_ApprovalInstanceID s) (so_StageInstanceID s) (so_ActorUserID s)
    (so_ActorTenantID s) (so_Decision s) (so_Comment s) (so_SignedAt s) (so_SignatureMethod s)
    (Some (default "{}" (so_SignaturePayload s))) (so_ContentHash s).

Definition InsertSignoff (s : Signoff) : M SignoffInsertResult :=
  returned ← map_err (MapPgError "") (exec (insert_signoff (row_of_signoff s)));
  match returned with
  | Some returnedID => mret (mkSignoffInsertResult returnedID false)
  | None =>
      existing ← map_err (wrap "load existing signoff for replay check: %w")
        (LoadSignoffByActor (so_ActorTenantID s) (so_ApprovalInstanceID s) (so_ActorUserID s));
      if same_signoff existing s then mret (mkSignoffInsertResult (so_ID existing) true)
      else throw ErrActorAlreadySigned
  end.

Definition stages_of (instanceID : string) (db : DB) : list StageInstance :=
  order_by si_StageOrder
    (bfilter (fun s => str_eqb (si_ApprovalInstanceID s) instanceID) (approval_stage_instances db)).

Definition loadStageInstances (instanceID : string) : M (list StageInstance) :=
  map_err (MapPgError "") (query (stages_of instanceID)).

(** [if errors.Is(err, sql.ErrNoRows) { return ErrNoActiveInstance }], else
    the mapped error. *)
Definition no_rows_as_no_instance (e : Error) : Error :=
  if errors_Is e ErrNoRows then ErrNoActiveInstance else MapPgError "" e.

Definition instance_row (tenantID id : string) (db : DB) : option InstanceRow :=
  select_one (fun r => str_eqb (ai_id r) id && str_eqb (ai_tenant_id r) tenantID)
    (approval_instances db).

Definition LoadInstance (tenantID id : string) : M ApprovalInstance :=
  row ← map_err no_rows_as_no_instance (query_row (instance_row tenantID id));
  stages ← loadStageInstances (ai_id row);
  mret (instance_of_row row stages).

(** [status IN ('in_progress','approved') ORDER BY submitted_at DESC LIMIT 1]. *)
Definition active_instance_row (tenantID docID : string) (db : DB) : option InstanceRow :=
  head (order_by (fun r => - ai_submitted_at r)
    (bfilter (fun r =>
       str_eqb (ai_document_v2_id r) docID && str_eqb (ai_tenant_id r) tenantID &&
       (bool_decide (ai_status r = InstanceInProgress) ||
        bool_decide (ai_status r = InstanceApproved)))
       (approval_instances db))).

Definition LoadActiveInstanceByDocument (tenantID docID : string) : M ApprovalInstance :=
  row ← map_err no_rows_as_no_instance (query_row (active_instance_row tenantID docID));
  stages ← loadStageInstances (ai_id row);
  mret (instance_of_row row stages).

(** The SET clause of [UpdateStageStatus]. *)
Definition stage_set_status (newStatus : StageStatus) (now : Time) (s : StageInstance)
    : StageInstance :=
  si_assign newStatus
    (if bool_decide (newStatus = StageActive) then Some now else si_OpenedAt s)
    (if bool_decide (newStatus = StageCompleted) || bool_decide (newStatus = StageSkipped) ||
        bool_decide (newStatus = StageRejectedHere)
     then Some now else si_CompletedAt s)
    (si_SkipReason s) s.

(** The WHERE clause of [UpdateStageStatus], joined with the instances. *)
Definition stage_matches (tenantID stageID : string) (expected : StageStatus) (db : DB)
    (s : StageInstance) : bool :=
  str_eqb (si_ID s) stageID && bool_decide (si_Status s = expected) &&
  existsb (fun i => str_eqb (si_ApprovalInstanceID s) (ai_id i) &&
                    str_eqb (ai_tenant_id i) tenantID) (approval_instances db).

Definition update_stage_status (tenantID stageID : string) (newStatus expected : StageStatus)
    (g : GUCs) (now : Time) (db : DB) : Result (Z * DB) :=
  match update_where (stage_matches tenantID stageID expected db)
          (fun s => inr (stage_set_status newStatus now s)) (approval_stage_instances db) with
  | inl e => inl e
  | inr (n, rows) => inr (n, set_stage_instances rows db)
  end.

Definition UpdateStageStatus (tenantID stageID : string) (newStatus expectedOldStatus : StageStatus)
    : M unit :=
  n ← map_err (MapPgError "")
        (exec (update_stage_status tenantID stageID newStatus expectedOldStatus));
  if n =? 0 then throw ErrStageNotActive else mret tt.

Definition instance_matches (tenantID instID : string) (expected : InstanceStatus)
    (r : InstanceRow) : bool :=
  str_eqb (ai_id r) instID && str_eqb (ai_tenant_id r) tenantID &&
  bool_decide (ai_status r = expected).

Definition UpdateInstanceStatus (tenantID instID : string)
    (newStatus expectedStatus : InstanceStatus) (completedAt : option Time) : M unit :=
  n ← map_err (MapPgError "")
        (exec (fun _ _ db =>
           update_instances (instance_matches tenantID instID expectedStatus) newStatus
             completedAt db));
  if n =? 0 then throw ErrInstanceCompleted else mret tt.

Record ScheduledPublishRow := mkScheduledPublishRow {
  sp_DocumentID : string;
  sp_TenantID : string;
  sp_EffectiveFrom : Time;
  sp_RevisionVersion : Z
}.

Definition is_due (now : Time) (d : Document) : bool :=
  bool_decide (d_status d = StateScheduled) &&
  match d_effective_from d with Some t => t <=? now | None => false end.

Definition scheduled_row (d : Document) : ScheduledPublishRow :=
  mkScheduledPublishRow (d_id d) (d_tenant_id d) (default 0 (d_effective_from d))
    (d_revision_version d).

Definition scheduled_due (now : Time) (limit : nat) (db : DB) : list ScheduledPublishRow :=
  take limit (order_by sp_EffectiveFrom (scheduled_row <$> bfilter (is_due now) (documents db))).

Definition ListScheduledDue (now : Time) (limit : nat) : M (list ScheduledPublishRow) :=
  map_err (MapPgError "") (query (scheduled_due now limit)).

(** [sqlEmitter.Emit]. *)
Definition Emit (ev : GovernanceEvent) : M unit :=
  exec (fun _ _ db => inr (tt, append_events [ev] db)).

(** ** Facts *)

Ltac repo_phases := phases_tac; try apply phases_throw; try apply phases_ret.

Lemma phases_InsertInstance i : phases Within (InsertInstance i) Within Within.
Proof. unfold InsertInstance. repo_phases. Qed.
Lemma phases_InsertStageInstances l : phases Within (InsertStageInstances l) Within Within.
Proof. unfold InsertStageInstances. repo_phases. Qed.
Lemma phases_LoadSignoffByActor t i a : phases Within (LoadSignoffByActor t i a) Within Within.
Proof. unfold LoadSignoffByActor. repo_phases. Qed.
#[export] Hint Resolve phases_LoadSignoffByActor : phases.
Lemma phases_InsertSignoff s : phases Within (InsertSignoff s) Within Within.
Proof. unfold InsertSignoff. repo_phases. Qed.
Lemma phases_loadStageInstances i : phases Within (loadStageInstances i) Within Within.
Proof. unfold loadStageInstances. repo_phases. Qed.
#[export] Hint Resolve phases_loadStageInstances : phases.
Lemma phases_LoadInstance t i : phases Within (LoadInstance t i) Within Within.
Proof. unfold LoadInstance. repo_phases. Qed.
Lemma phases_LoadActiveInstanceByDocument t d :
  phases Within (LoadActiveInstanceByDocument t d) Within Within.
Proof. unfold LoadActiveInstanceByDocument. repo_phases. Qed.
Lemma phases_UpdateStageStatus t s a b : phases Within (UpdateStageStatus t s a b) Within Within.
Proof. unfold UpdateStageStatus. repo_phases. Qed.
Lemma phases_UpdateInstanceStatus t i a b c :
  phases Within (UpdateInstanceStatus t i a b c) Within Within.
Proof. unfold UpdateInstanceStatus. repo_phases. Qed.
Lemma phases_ListScheduledDue n l : phases Within (ListScheduledDue n l) Within Within.
Proof. unfold ListScheduledDue. repo_phases. Qed.
Lemma phases_Emit e : phases Within (Emit e) Within Within.
Proof. unfold Emit. repo_phases. Qed.

#[export] Hint Resolve phases_InsertInstance phases_InsertStageInstances phases_InsertSignoff
  phases_LoadInstance phases_LoadActiveInstanceByDocument phases_UpdateStageStatus
  phases_UpdateInstanceStatus phases_ListScheduledDue phases_Emit : phases.

(** ** Successful runs *)

(** The transaction after the run: database [db'], committed data as before. *)
Definition left_in (w w' : World) (tx : Tx) (db' : DB) : Prop := w_tx w' = Some (tx_set_db db' tx) /\ w_db w' = w_db w.

Lemma InsertInstance_ok i u w w' tx :
  InsertInstance i w = (inr u, w') -> w_tx w = Some tx ->
  exists db', insert_instance (row_of_instance i) (tx_guc tx) (tx_now tx) (tx_db tx) = inr (tt, db') /\
    left_in w w' tx db'.
Proof. unfold InsertInstance. intros H Htx. run_inv. destruct u. eexists. split; [eassumption|done]. Qed.

Lemma tx_set_db_same (t : Tx) : tx_set_db (tx_db t) t = t.
Proof. by destruct t. Qed.

Lemma InsertStageInstances_ok l u w w' tx :
  InsertStageInstances l w = (inr u, w') -> w_tx w = Some tx ->
  left_in w w' tx (set_stage_instances (approval_stage_instances (tx_db tx) ++ (row_of_stage <$> l)) (tx_db tx)).
Proof.
  unfold InsertStageInstances. intros H Htx. destruct l as [|s l].
  - run_inv. split; [|done]. rewrite app_nil_r.
    replace (set_stage_instances _ _) with (tx_db tx) by (by destruct (tx_db tx)).
    by rewrite tx_set_db_same.
  - apply map_err_ok, (exec_ok _ _ _ _ tx) in H as (db' & H & H1 & H2); [|done].
    destruct (insert_stage_instances _ _) as [|db1] eqn:Hi; [done|]. simplify_eq.
    by apply insert_stage_instances_ok in Hi as ->.
Qed.

Lemma LoadInstance_ok t id i w w' tx :
  LoadInstance t id w = (inr i, w') -> w_tx w = Some tx ->
  exists row, instance_row t id (tx_db tx) = Some row /\
    i = instance_of_row row (stages_of (ai_id row) (tx_db tx)) /\
    w_tx w' = Some tx /\ w_db w' = w_db w.
Proof.
  unfold LoadInstance, loadStageInstances. intros H Htx. run_inv. subst. eexists.
  split_and!; [eassumption|done|done|congruence].
Qed.

Lemma LoadSignoffByActor_ok t id a s w w' tx :
  LoadSignoffByActor t id a w = (inr s, w') -> w_tx w = Some tx -> w_tx w' = Some tx /\ w_db w' = w_db w.
Proof. unfold LoadSignoffByActor. intros H Htx. run_inv. split; [done|congruence]. Qed.

(** The stage rows after [UpdateStageStatus]. *)
Definition mark_stage (t id : string) (new old : StageStatus) (now : Time) (db : DB)
    (s : StageInstance) : StageInstance :=
  if stage_matches t id old db s then stage_set_status new now s else s.

Lemma update_stage_status_ok t id new old g now db n db' :
  update_stage_status t id new old g now db = inr (n, db') ->
  db' = set_stage_instances (mark_stage t id new old now db <$> approval_stage_instances db) db /\
  n = Z.of_nat (bcount (stage_matches t id old db) (approval_stage_instances db)).
Proof.
  unfold update_stage_status. destruct (update_where _ _ _) as [e|[k rows]] eqn:Hu; [done|].
  intros [= <- <-]. apply update_where_ok in Hu as [HF ->]. split; [|done]. f_equal.
  induction HF as [|s s' l l' Hs _ IH]; [done|]. rewrite fmap_cons. f_equal; [|done].
  unfold updated, mark_stage in *. destruct (stage_matches t id old db s); congruence.
Qed.

Lemma UpdateStageStatus_ok t s new old u w w' tx :
  UpdateStageStatus t s new old w = (inr u, w') -> w_tx w = Some tx ->
  bcount (stage_matches t s old (tx_db tx)) (approval_stage_instances (tx_db tx)) <> 0%nat /\
  left_in w w' tx (set_stage_instances
    (mark_stage t s new old (tx_now tx) (tx_db tx) <$> approval_stage_instances (tx_db tx))
    (tx_db tx)).
Proof.
  unfold UpdateStageStatus. intros H Htx. run_inv.
  match goal with H : (_ =? 0) = false |- _ => apply Z.eqb_neq in H end.
  match goal with H : update_stage_status _ _ _ _ _ _ _ = _ |- _ =>
    apply update_stage_status_ok in H as [-> ->] end.
  split; [lia|]. split; [done|congruence].
Qed.

Lemma UpdateInstanceStatus_ok t i new old completed u w w' tx :
  UpdateInstanceStatus t i new old completed w = (inr u, w') -> w_tx w = Some tx ->
  bcount (instance_matches t i old) (approval_instances (tx_db tx)) <> 0%nat /\
  left_in w w' tx (set_instances
    ((fun r => if instance_matches t i old r then ai_set_status new completed r else r)
       <$> approval_instances (tx_db tx)) (tx_db tx)).
Proof.
  unfold UpdateInstanceStatus. intros H Htx. run_inv.
  match goal with H : (_ =? 0) = false |- _ => apply Z.eqb_neq in H as Hn end.
  match goal with H : update_instances _ _ _ _ = _ |- _ => apply update_instances_ok in H as [-> ->] end.
  split; [lia|]. split; [done|congruence].
Qed.

Lemma InsertSignoff_ok s r w w' tx :
  InsertSignoff s w = (inr r, w') -> w_tx w = Some tx ->
  exists returned db',
    insert_signoff (row_of_signoff s) (tx_guc tx) (tx_now tx) (tx_db tx) = inr (returned, db') /\
    sir_WasReplay r = bool_decide (returned = None) /\ left_in w w' tx db'.
Proof.
  unfold InsertSignoff. intros H Htx. run_inv; (eexists _, _; split_and!; [eassumption|done|]).
  - by split.
  - match goal with H : LoadSignoffByActor _ _ _ _ = _ |- _ => rename H into Hl end.
    unfold LoadSignoffByActor in Hl. run_inv. split; [done|congruence].
Qed.

Lemma Emit_ok ev u w w' tx : Emit ev w = (inr u, w') -> w_tx w = Some tx -> left_in w w' tx (append_events [ev] (tx_db tx)).
Proof. unfold Emit. intros H Htx. run_inv. simplify_eq. done. Qed.

(** Normalise a transaction built by successive statements. *)
Ltac tx_simpl := cbn [tx_db tx_guc tx_now tx_aborted tx_set_db tx_set_guc] in *.

Ltac repo_inv_step :=
  match goal with
  | H : InsertInstance _ ?w = (inr _, _), Ht : w_tx ?w = Some _ |- _ =>
      apply (InsertInstance_ok _ _ _ _ _ H) in Ht as (? & ? & ? & ?); clear H; tx_trans
  | H : InsertStageInstances _ ?w = (inr _, _), Ht : w_tx ?w = Some _ |- _ =>
      apply (InsertStageInstances_ok _ _ _ _ _ H) in Ht as (? & ?); clear H; tx_trans
  | H : LoadInstance _ _ ?w = (inr _, _), Ht : w_tx ?w = Some _ |- _ =>
      apply (LoadInstance_ok _ _ _ _ _ _ H) in Ht as (? & ? & ? & ? & ?); clear H; tx_trans
  | H : UpdateStageStatus _ _ _ _ ?w = (inr _, _), Ht : w_tx ?w = Some _ |- _ =>
      apply (UpdateStageStatus_ok _ _ _ _ _ _ _ _ H) in Ht as (? & ? & ?); clear H; tx_trans
  | H : UpdateInstanceStatus _ _ _ _ _ ?w = (inr _, _), Ht : w_tx ?w = Some _ |- _ =>
      apply (UpdateInstanceStatus_ok _ _ _ _ _ _ _ _ _ H) in Ht as (? & ? & ?); clear H; tx_trans
  | H : InsertSignoff _ ?w = (inr _, _), Ht : w_tx ?w = Some _ |- _ =>
      apply (InsertSignoff_ok _ _ _ _ _ H) in Ht as (? & ? & ? & ? & ? & ?); clear H; tx_trans
  | H : Emit _ ?w = (inr _, _), Ht : w_tx ?w = Some _ |- _ =>
      apply (Emit_ok _ _ _ _ _ H) in Ht as (? & ?); clear H; tx_trans
  end.

(** Inversion of a successful run of a service; [svc_hook] is extended by the
    files that have inversion lemmas of their own. *)
Ltac svc_hook := fail.

(** Name the committed database of the initial world everywhere. *)
Ltac db_norm :=
  repeat match goal with
  | H : w_db ?a = w_db ?b |- _ => rewrite H in *; clear H
  end.

Ltac svc_inv := repeat (first [run_inv_step | authz_inv_step | repo_inv_step | svc_hook]; tx_simpl).
