(* ===== verification/Evolve.v ===== *)
(** * How the database may evolve

    [db_step] is the abstract contract of every write of the approval code:
    documents move along the lifecycle (one revision number per move),
    instances and stages along their own state machines with final states,
    votes and governance events are only appended, and the keys of the schema
    stay unique. [evolves R m] says that the program [m] respects a preorder
    [R] of databases, on the committed data and inside its transaction, for
    every script of faults; its rules follow the structure of the program. *)
From S2P Require Import Prelude Tables ApprovalDomain ApprovalFacts Database Schema TxLogic Authz.
From S2P Require Import ApprovalRepo.
Import DocStates Routes Signoffs Instances.
Local Open Scope Z_scope.

(** ** The contract *)

(** The lifecycle of the domain, and the edge [Cancel] is authorised to take. *)
Definition lifecycle_move (a b : DocState) : Prop :=
  legal_step a b \/ (a = StateUnderReview /\ b = StateDraft).

(** An edit of the other columns. *)
Definition same_lifecycle (d d' : Document) : Prop :=
  d_id d' = d_id d /\ d_tenant_id d' = d_tenant_id d /\ d_created_by d' = d_created_by d /\
  d_status d' = d_status d /\ d_revision_version d' = d_revision_version d.

Inductive doc_step : Document -> Document -> Prop :=
  | doc_step_move d s :
      lifecycle_move (d_status d) s -> d_revision_version d + 1 <= int4_max ->
      doc_step d (doc_set s (d_revision_version d + 1) d)
  | doc_step_edit d d' : same_lifecycle d d' -> doc_step d d'.

(** Only an instance in progress changes, once, to a final status. *)
Definition instance_step (r r' : InstanceRow) : Prop :=
  r' = r \/
  (ai_status r = InstanceInProgress /\
   exists s completed, s <> InstanceInProgress /\ r' = ai_set_status s completed r).

Definition stage_edge (a b : StageStatus) : Prop :=
  match a, b with
  | StagePending, StageActive | StageActive, StageCompleted | StageActive, StageRejectedHere
  | StageActive, StageCancelled | StagePending, StageCancelled => True
  | _, _ => False
  end.

Definition stage_step (s s' : StageInstance) : Prop :=
  exists st opened completed,
    stage_edge (si_Status s) st /\ s' = si_assign st opened completed (si_SkipReason s) s.

(** Keys of the schema. *)
Definition in_progress (r : InstanceRow) : bool := bool_decide (ai_status r = InstanceInProgress).
Definition vote_key (s : Signoff) : string * string := (so_ApprovalInstanceID s, so_ActorUserID s).

Record db_wf (db : DB) : Prop := {
  wf_documents : NoDup (d_id <$> documents db);
  wf_instances : NoDup (ai_id <$> approval_instances db);
  wf_active : NoDup (ai_document_v2_id <$> bfilter in_progress (approval_instances db));
  wf_stages : NoDup (si_ID <$> approval_stage_instances db);
  wf_stage_instance s : s ∈ approval_stage_instances db ->
    si_ApprovalInstanceID s ∈ ai_id <$> approval_instances db;
  wf_signoffs : NoDup (so_ID <$> approval_signoffs db);
  wf_votes : NoDup (vote_key <$> approval_signoffs db);
  wf_signoff_stage v : v ∈ approval_signoffs db ->
    (so_StageInstanceID v, so_ApprovalInstanceID v) ∈
      (fun s => (si_ID s, si_ApprovalInstanceID s)) <$> approval_stage_instances db
}.

Record db_step (db db' : DB) : Prop := {
  step_documents : grows (rtc doc_step) (documents db) (documents db');
  step_instances : grows instance_step (approval_instances db) (approval_instances db');
  step_stages : grows (rtc stage_step) (approval_stage_instances db) (approval_stage_instances db');
  step_signoffs : grows eq (approval_signoffs db) (approval_signoffs db');
  step_events : grows eq (governance_events db) (governance_events db');
  step_wf : db_wf db -> db_wf db'
}.

(** ** The judgement *)

Definition tx_respects (R : DB -> DB -> Prop) (w : World) : Prop :=
  forall tx, w_tx w = Some tx -> R (w_db w) (tx_db tx).

Definition evolves (R : DB -> DB -> Prop) {A} (m : M A) : Prop :=
  forall w, tx_respects R w -> R (w_db w) (w_db (snd (m w))) /\ tx_respects R (snd (m w)).

(** A statement respects [R]. *)
Definition stmt_evolves (R : DB -> DB -> Prop) {A} (s : GUCs -> Time -> DB -> Result (A * DB)) : Prop :=
  forall g now db a db', s g now db = inr (a, db') -> R db db'.

(** Preorders that do not look at the events, or at the routes. *)
Class EventBlind (R : DB -> DB -> Prop) : Prop :=
  event_blind evs db : R db (append_events evs db).
Class RouteBlind (R : DB -> DB -> Prop) : Prop :=
  route_blind rows stages db : R db (set_routes rows stages db).

(** ** Facts *)

Section rules.
Context (R : DB -> DB -> Prop) `{!PreOrder R}.

Lemma evolves_same {A} (m : M A) :
  (forall w, w_db (snd (m w)) = w_db w /\
             (w_tx (snd (m w)) = w_tx w \/ w_tx (snd (m w)) = None)) -> evolves R m.
Proof.
  intros H w Hw. destruct (H w) as [Hd Ht]. split; [by rewrite Hd|].
  intros tx Htx. rewrite Hd. destruct Ht as [Ht|Ht]; [|congruence]. apply Hw. congruence.
Qed.

Lemma evolves_ret {A} (a : A) : evolves R (mret a).
Proof. apply evolves_same. intros w. split; [done|by left]. Qed.

Lemma evolves_throw {A} e : evolves R (throw e : M A).
Proof. apply evolves_same. intros w. split; [done|by left]. Qed.

Lemma evolves_lift {A} (r : Result A) : evolves R (lift r).
Proof. apply evolves_same. intros w. split; [done|by left]. Qed.

Lemma evolves_Now : evolves R Now.
Proof. apply evolves_same. intros w. split; [done|by left]. Qed.

Lemma evolves_NewUUID : evolves R NewUUID.
Proof. apply evolves_same. intros w. split; [done|by left]. Qed.

Lemma evolves_Rollback : evolves R Rollback.
Proof. apply evolves_same. intros w. split; [done|by right]. Qed.

Lemma evolves_bind {A B} (m : M A) (k : A -> M B) :
  evolves R m -> (forall a, evolves R (k a)) -> evolves R (mbind k m).
Proof.
  intros Hm Hk w Hw. specialize (Hm w Hw). unfold mbind, M_bind.
  destruct (m w) as [[e|a] w1]; [done|]. simpl in Hm. destruct Hm as [H1 H2].
  destruct (Hk a w1 H2) as [H3 H4]. split; [by etrans|done].
Qed.

Lemma evolves_map_err {A} f (m : M A) : evolves R m -> evolves R (map_err f m).
Proof. intros Hm w Hw. specialize (Hm w Hw). unfold map_err. by destruct (m w) as [[e|a] w1]. Qed.

Lemma evolves_or_rollback {A} f (m : M A) : evolves R m -> evolves R (or_rollback f m).
Proof.
  intros Hm w Hw. specialize (Hm w Hw). unfold or_rollback.
  destruct (m w) as [[e|a] w1]; [|done]. split; [apply Hm|by intros tx].
Qed.

Lemma evolves_ignore_error {A} (m : M A) : evolves R m -> evolves R (ignore_error m).
Proof. intros Hm w Hw. apply (Hm w Hw). Qed.

Lemma evolves_rollback_return {A} e : evolves R (rollback_return e : M A).
Proof. apply evolves_bind; [apply evolves_Rollback|]. intros _. apply evolves_throw. Qed.

Lemma evolves_BeginTx : evolves R BeginTx.
Proof.
  intros w Hw. unfold BeginTx. destruct (w_tx w) eqn:Ht; [done|].
  destruct (next_fault w); simpl; (split; [done|]); intros tx; simpl; [congruence|].
  by intros [= <-].
Qed.

Lemma evolves_Commit : evolves R Commit.
Proof.
  intros w Hw. unfold Commit. destruct (w_tx w) as [tx|] eqn:Ht; [|done].
  destruct (next_fault w); simpl; [by split|].
  destruct (tx_aborted tx); simpl; [by split|]. split; [by apply Hw|done].
Qed.

Lemma evolves_db_call {A} (stmt : Tx -> Result (A * Tx)) :
  (forall tx a tx', stmt tx = inr (a, tx') -> R (tx_db tx) (tx_db tx')) -> evolves R (db_call stmt).
Proof.
  intros Hs w Hw. unfold db_call. destruct (w_tx w) as [tx|] eqn:Ht; [|done].
  pose proof (Hw tx Ht) as Htx.
  destruct (next_fault w); simpl; [split; [done|]; by intros ? [= <-]|].
  destruct (tx_aborted tx); simpl.
  { split; [done|]. intros ? Ht'. simpl in *. by simplify_eq. }
  destruct (stmt tx) as [e|[a tx']] eqn:He; simpl; (split; [done|]); intros ? [= <-]; simpl; [done|].
  etrans; [done|]. by eapply Hs.
Qed.

Lemma evolves_query {A} (q : DB -> A) : evolves R (query q).
Proof. apply evolves_db_call. by intros tx a tx' [= _ <-]. Qed.

Lemma evolves_query_tx {A} (q : GUCs -> DB -> Result A) : evolves R (query_tx q).
Proof.
  apply evolves_db_call. intros tx a tx'. destruct (q _ _); [done|]. by intros [= _ <-].
Qed.

Lemma evolves_set_config f : evolves R (set_config f).
Proof. apply evolves_db_call. intros tx a tx' H. simplify_eq/=. reflexivity. Qed.

Lemma evolves_exec {A} (s : GUCs -> Time -> DB -> Result (A * DB)) :
  stmt_evolves R s -> evolves R (exec s).
Proof.
  intros Hs. apply evolves_db_call. intros tx a tx'.
  destruct (s _ _ _) as [e|[a' db']] eqn:He; [done|]. intros [= _ <-]. by eapply Hs.
Qed.

Lemma evolves_query_row {A} (q : DB -> option A) : evolves R (query_row q).
Proof.
  apply evolves_bind; [apply evolves_query|]. intros [a|]; [apply evolves_ret|apply evolves_throw].
Qed.

Lemma evolves_scan_string v : evolves R (scan_string v).
Proof. destruct v; [apply evolves_ret|apply evolves_throw]. Qed.

End rules.

Create HintDb evolves.
#[export] Hint Resolve evolves_ret evolves_throw evolves_lift evolves_Now evolves_NewUUID
  evolves_Rollback evolves_rollback_return evolves_BeginTx evolves_Commit evolves_query
  evolves_query_tx evolves_set_config evolves_query_row evolves_scan_string : evolves.

(** Walk a program, as [phases_tac] does. *)
Ltac evolves_tac :=
  repeat first
    [ match goal with |- forall _, _ => intro end
    | solve [eauto with evolves typeclass_instances]
    | match goal with
      | |- evolves _ (mbind _ _) => apply evolves_bind; [tc_solve| |]
      | |- evolves _ (or_rollback _ _) => apply evolves_or_rollback
      | |- evolves _ (map_err _ _) => apply evolves_map_err
      | |- evolves _ (ignore_error _) => apply evolves_ignore_error
      | |- evolves _ (exec _) => apply evolves_exec; [tc_solve|]
      | |- evolves _ (match ?x with _ => _ end) => destruct x
      end ].

(** ** [db_step] is a preorder *)

#[export] Instance instance_step_preorder : PreOrder instance_step.
Proof.
  split; [by left|]. intros r1 r2 r3 [->|(H1 & s & c & Hs & ->)] H2; [done|].
  destruct H2 as [->|(H3 & _)]; [right; eauto|done].
Qed.

#[export] Instance db_step_preorder : PreOrder db_step.
Proof.
  split.
  - intros db. split; reflexivity || done.
  - intros db1 db2 db3 [A1 B1 C1 D1 E1 F1] [A2 B2 C2 D2 E2 F2].
    split; try (by etrans); auto.
Qed.

(** ** Identities are stable *)

Lemma doc_steps_id d d' :
  rtc doc_step d d' ->
  d_id d' = d_id d /\ d_tenant_id d' = d_tenant_id d /\ d_created_by d' = d_created_by d.
Proof. induction 1 as [d|d1 d2 d3 Hs _ (H1 & H2 & H3)]; [done|]. destruct Hs as [|? ? (E1 & E2 & E3 & _)]; simpl in *; [done|].
  by rewrite H1, H2, H3.
Qed.

Lemma instance_step_id r r' :
  instance_step r r' ->
  ai_id r' = ai_id r /\ ai_document_v2_id r' = ai_document_v2_id r /\
  ai_tenant_id r' = ai_tenant_id r /\ ai_submitted_by r' = ai_submitted_by r.
Proof. by intros [->|(_ & s & c & _ & ->)]. Qed.

Lemma stage_steps_id s s' :
  rtc stage_step s s' ->
  si_ID s' = si_ID s /\ si_ApprovalInstanceID s' = si_ApprovalInstanceID s /\
  si_StageOrder s' = si_StageOrder s.
Proof.
  induction 1 as [s|s1 s2 s3 (st & o & c & _ & ->) _ (H1 & H2 & H3)]; [done|]. simpl in *. done.
Qed.

Lemma Forall2_fmap_eq {A B} (R : A -> A -> Prop) (f : A -> B) l l' :
  (forall x y, R x y -> f y = f x) -> Forall2 R l l' -> f <$> l' = f <$> l.
Proof. intros Hf. induction 1; simpl; [done|]. f_equal; auto. Qed.

(** ** Changes of one table *)

Lemma db_step_documents docs db :
  Forall2 (rtc doc_step) (documents db) docs -> db_step db (set_documents docs db).
Proof.
  intros HF. split; try reflexivity; [by apply grows_update|].
  intros []. split; simpl; try done.
  rewrite (Forall2_fmap_eq (rtc doc_step) d_id (documents db)); [done| |done].
  intros d d' H. apply (doc_steps_id d d' H).
Qed.

Lemma in_progress_sublist l l' :
  Forall2 instance_step l l' ->
  sublist (ai_document_v2_id <$> bfilter in_progress l') (ai_document_v2_id <$> bfilter in_progress l).
Proof.
  induction 1 as [|r r' l l' Hr _ IH]; [done|]. rewrite !bfilter_cons.
  destruct Hr as [->|(Hp & s & c & Hs & ->)].
  - destruct (in_progress r); simpl; [by constructor|done].
  - replace (in_progress (ai_set_status s c r)) with false by (symmetry; by apply bool_decide_eq_false_2).
    replace (in_progress r) with true by (symmetry; by apply bool_decide_eq_true_2).
    simpl. by constructor.
Qed.

Lemma db_step_instances rows db :
  Forall2 instance_step (approval_instances db) rows -> db_step db (set_instances rows db).
Proof.
  intros HF. split; try reflexivity; [by apply grows_update|].
  intros [H1 H2 H3 H4 H5 H6 H7 H8].
  assert (Hid : ai_id <$> rows = ai_id <$> approval_instances db).
  { apply (Forall2_fmap_eq instance_step); [|done]. intros r r' H. apply (instance_step_id r r' H). }
  split; simpl; try done.
  - by rewrite Hid.
  - eapply sublist_NoDup; [|by apply in_progress_sublist]. done.
  - rewrite Hid. apply H5.
Qed.

Lemma db_step_stages rows db :
  Forall2 (rtc stage_step) (approval_stage_instances db) rows ->
  db_step db (set_stage_instances rows db).
Proof.
  intros HF. split; try reflexivity; [by apply grows_update|].
  intros [H1 H2 H3 H4 H5 H6 H7 H8].
  assert (Hid : forall B (f : StageInstance -> B),
            (forall s s', rtc stage_step s s' -> f s' = f s) ->
            f <$> rows = f <$> approval_stage_instances db).
  { intros B f Hf. by apply (Forall2_fmap_eq (rtc stage_step)). }
  split; simpl; try done.
  - rewrite Hid; [done|]. intros s s' H. apply (stage_steps_id s s' H).
  - intros s Hs. apply (list_elem_of_fmap_2 si_ApprovalInstanceID) in Hs.
    rewrite Hid in Hs; [|intros ? ? H; apply (stage_steps_id _ _ H)].
    apply list_elem_of_fmap in Hs as (s0 & -> & Hs0). auto.
  - intros v Hv. rewrite Hid; [auto|]. intros s s' H.
    by destruct (stage_steps_id s s' H) as (-> & -> & _).
Qed.

Lemma db_step_events evs db : db_step db (append_events evs db).
Proof. split; try reflexivity; [apply grows_append; tc_solve|]. by intros []. Qed.

Lemma db_step_routes rows stages db : db_step db (set_routes rows stages db).
Proof. split; try reflexivity. by intros []. Qed.

(** ** Insertions *)

Lemma db_step_insert_instance r g now db u db' :
  insert_instance r g now db = inr (u, db') -> db_step db db'.
Proof.
  intros (evs & _ & -> & Hx)%insert_instance_ok. etrans; [|apply db_step_events].
  split; try reflexivity; [apply grows_append; tc_solve|].
  intros [H1 H2 H3 H4 H5 H6 H7 H8]. split; simpl; try done.
  - apply NoDup_fmap_snoc; [done|]. intros y Hy. by apply Hx.
  - rewrite bfilter_app, bfilter_cons. destruct (in_progress r) eqn:Hr.
    + apply NoDup_fmap_snoc; [done|]. intros y [Hp Hy]%elem_of_bfilter.
      apply bool_decide_eq_true in Hp, Hr. by apply (Hx y Hy).
    + unfold bfilter at 2. by rewrite filter_nil, app_nil_r.
  - intros s Hs. rewrite fmap_app. apply elem_of_app. left. auto.
Qed.

Lemma db_step_insert_stage s db db' : insert_stage_instance s db = inr db' -> db_step db db'.
Proof.
  intros (-> & Hx & i & Hi & He)%insert_stage_instance_ok.
  split; try reflexivity; [apply grows_append; tc_solve|].
  intros [H1 H2 H3 H4 H5 H6 H7 H8]. split; simpl; try done.
  - apply NoDup_fmap_snoc; [done|]. intros y Hy. by apply Hx.
  - intros s' [Hs| ->%list_elem_of_singleton]%elem_of_app; [auto|].
    rewrite <- He. by apply list_elem_of_fmap_2.
  - intros v Hv. rewrite fmap_app. apply elem_of_app. left. auto.
Qed.

Lemma db_step_insert_stages l db db' : insert_stage_instances l db = inr db' -> db_step db db'.
Proof.
  revert db. induction l as [|s l IH]; intros db; simpl; [by intros [= <-]|].
  destruct (insert_stage_instance s db) as [|db1] eqn:H1; [done|]. intros H.
  etrans; [by eapply db_step_insert_stage|by apply IH].
Qed.

Lemma db_step_insert_signoff s g now db r db' :
  insert_signoff s g now db = inr (r, db') -> db_step db db'.
Proof.
  intros (evs & _ & [(_ & -> & _)|(_ & -> & Hs)])%insert_signoff_ok; [apply db_step_events|].
  etrans; [apply (db_step_events evs)|]. destruct Hs as (_ & Hx & st & Hst & E1 & E2).
  split; try reflexivity; [apply grows_append; tc_solve|].
  intros [H1 H2 H3 H4 H5 H6 H7 H8]. split; simpl in *; try done.
  - apply NoDup_fmap_snoc; [done|]. intros y Hy. by apply Hx.
  - apply NoDup_fmap_snoc; [done|]. intros y Hy. by apply Hx.
  - intros v [Hv| ->%list_elem_of_singleton]%elem_of_app; [auto|].
    rewrite <- E1, <- E2.
    by apply (list_elem_of_fmap_2 (fun s => (si_ID s, si_ApprovalInstanceID s))).
Qed.

(** ** Statements *)

(** The transition trigger admits exactly the lifecycle of [state.go], the
    [rejected] and [cancel] edges included. *)
Lemma sql_transition_allowed_edges a b : sql_transition_allowed a b = IsLegalTransition a b.
Proof.
  destruct (sql_transition_allowed a b) eqn:H.
  - symmetry. destruct a, b; try discriminate H; vm_compute; reflexivity.
  - symmetry. apply not_true_is_false. rewrite IsLegalTransition_edges. intros Hin.
    unfold lifecycle_edges in Hin. repeat rewrite elem_of_cons in Hin.
    repeat destruct Hin as [[= -> ->]|Hin]; try discriminate H. by apply not_elem_of_nil in Hin.
Qed.

Lemma enforce_transition_ok g a b :
  enforce_document_transition g a b = inr tt -> a = b \/ lifecycle_move a b.
Proof.
  unfold enforce_document_transition. case_bool_decide as H1; [by left|].
  case_bool_decide as H2; [case_bool_decide as H3|]; simpl.
  - intros _. right. by right.
  - rewrite sql_transition_allowed_edges. intros H%constraint_ok. right. by left.
  - rewrite sql_transition_allowed_edges. intros H%constraint_ok. right. by left.
Qed.

(** An UPDATE that moves documents out of a state other than its target. *)
Lemma doc_updated_step cond s g d d' :
  (forall d, cond d = true -> d_status d <> s) ->
  doc_updated cond (set_status_bump s) g d d' -> rtc doc_step d d'.
Proof.
  intros Hc. unfold doc_updated. destruct (cond d) eqn:Hd; [|by intros ->].
  intros [[-> Hmax]%set_status_bump_ok (_ & Ht & _)%before_update_document_ok].
  apply rtc_once. constructor; [|done].
  apply enforce_transition_ok in Ht as [Ht|Ht]; [|done]. by apply Hc in Ht.
Qed.

Lemma stmt_update_documents cond s :
  (forall d, cond d = true -> d_status d <> s) ->
  stmt_evolves db_step (update_documents cond (set_status_bump s)).
Proof.
  intros Hc g now db a db' (docs & -> & HF & _)%update_documents_ok.
  apply db_step_documents. eapply Forall2_impl; [exact HF|]. intros d d'. by apply doc_updated_step.
Qed.

Lemma stmt_insert_instance r : stmt_evolves db_step (insert_instance r).
Proof. intros g now db u db'. apply db_step_insert_instance. Qed.

Lemma stmt_insert_signoff s : stmt_evolves db_step (insert_signoff s).
Proof. intros g now db u db'. apply db_step_insert_signoff. Qed.

Lemma stmt_update_instances cond s completed :
  (forall r, cond r = true -> ai_status r = InstanceInProgress) -> s <> InstanceInProgress ->
  stmt_evolves db_step (fun _ now => update_instances cond s (completed now)).
Proof.
  intros Hc Hs g now db n db' [-> _]%update_instances_ok. apply db_step_instances.
  induction (approval_instances db) as [|r l IH]; [constructor|]. constructor; [|done].
  destruct (cond r) eqn:Hr; [|by left]. right. eauto 10.
Qed.

Lemma updated_Forall2_stage cond f rows n rows' :
  (forall s, cond s = true -> stage_step s (f s)) ->
  update_where cond (fun s => inr (f s)) rows = inr (n, rows') ->
  Forall2 (rtc stage_step) rows rows'.
Proof.
  intros Hf [HF _]%update_where_ok. eapply Forall2_impl; [exact HF|].
  intros s s'. unfold updated. destruct (cond s) eqn:Hs; [|by intros ->].
  intros [= <-]. apply rtc_once. auto.
Qed.

Lemma stmt_update_stage_status t id new old :
  stage_edge old new -> stmt_evolves db_step (update_stage_status t id new old).
Proof.
  intros He g now db n db'. unfold update_stage_status.
  destruct (update_where _ _ _) as [e|[k rows]] eqn:Hu; [done|]. intros [= <- <-].
  apply db_step_stages. eapply updated_Forall2_stage; [|exact Hu].
  intros s Hs. unfold stage_matches in Hs. bool_to_prop. unfold stage_set_status.
  eexists _, _, _. split; [|reflexivity]. by simplify_eq.
Qed.

(** ** Programs *)

Section programs.
Context (R : DB -> DB -> Prop) `{!PreOrder R, !EventBlind R}.

Lemma evolves_Emit ev : evolves R (Emit ev).
Proof.
  apply evolves_exec; [tc_solve|]. intros g now db u db' H. simplify_eq. apply event_blind.
Qed.

Lemma evolves_appendAssertedCap c a : evolves R (appendAssertedCap c a).
Proof. unfold appendAssertedCap. evolves_tac. Qed.
Local Hint Resolve evolves_Emit evolves_appendAssertedCap : evolves.
Lemma evolves_Require ctx c a : evolves R (Require ctx c a).
Proof. unfold Require, actorIDFromTx. evolves_tac. Qed.
Lemma evolves_setAuthzGUC t a : evolves R (setAuthzGUC t a).
Proof. unfold setAuthzGUC. evolves_tac. Qed.
Lemma evolves_BypassSystem : evolves R BypassSystem.
Proof. unfold BypassSystem. evolves_tac. Qed.
Lemma evolves_loadDocumentAreaCode t d : evolves R (loadDocumentAreaCode t d).
Proof. unfold loadDocumentAreaCode. evolves_tac. Qed.
Lemma evolves_LoadSignoffByActor t i a : evolves R (LoadSignoffByActor t i a).
Proof. unfold LoadSignoffByActor. evolves_tac. Qed.
Lemma evolves_loadStageInstances i : evolves R (loadStageInstances i).
Proof. unfold loadStageInstances. evolves_tac. Qed.
Local Hint Resolve evolves_LoadSignoffByActor evolves_loadStageInstances : evolves.
Lemma evolves_LoadInstance t i : evolves R (LoadInstance t i).
Proof. unfold LoadInstance. evolves_tac. Qed.
Lemma evolves_ListScheduledDue n l : evolves R (ListScheduledDue n l).
Proof. unfold ListScheduledDue. evolves_tac. Qed.

End programs.

#[export] Hint Resolve evolves_Emit evolves_appendAssertedCap evolves_LoadSignoffByActor
  evolves_loadStageInstances evolves_Require evolves_setAuthzGUC evolves_BypassSystem
  evolves_loadDocumentAreaCode evolves_LoadInstance evolves_ListScheduledDue : evolves.

#[export] Instance db_step_event_blind : EventBlind db_step.
Proof. intros evs db. apply db_step_events. Qed.
#[export] Instance db_step_route_blind : RouteBlind db_step.
Proof. intros rows stages db. apply db_step_routes. Qed.

Lemma evolves_InsertInstance i : evolves db_step (InsertInstance i).
Proof. unfold InsertInstance. evolves_tac. apply stmt_insert_instance. Qed.
Lemma evolves_InsertStageInstances l : evolves db_step (InsertStageInstances l).
Proof.
  unfold InsertStageInstances. evolves_tac. intros g now db u db'.
  destruct (insert_stage_instances _ db) as [|db1] eqn:H; [done|]. intros [= _ <-].
  by eapply db_step_insert_stages.
Qed.
Lemma evolves_InsertSignoff s : evolves db_step (InsertSignoff s).
Proof. unfold InsertSignoff. evolves_tac. apply stmt_insert_signoff. Qed.
Lemma evolves_UpdateStageStatus t s new old :
  stage_edge old new -> evolves db_step (UpdateStageStatus t s new old).
Proof. intros H. unfold UpdateStageStatus. evolves_tac. by apply stmt_update_stage_status. Qed.
Lemma evolves_UpdateInstanceStatus t i new completed :
  new <> InstanceInProgress ->
  evolves db_step (UpdateInstanceStatus t i new InstanceInProgress completed).
Proof.
  intros H. unfold UpdateInstanceStatus. evolves_tac. apply (stmt_update_instances _ _ (fun _ => completed)); [|done].
  intros r Hr. unfold instance_matches in Hr. by bool_to_prop.
Qed.

#[export] Hint Resolve evolves_InsertInstance evolves_InsertStageInstances
  evolves_InsertSignoff : evolves.
#[export] Hint Extern 1 (evolves _ (UpdateStageStatus _ _ _ _)) =>
  (apply evolves_UpdateStageStatus; exact I) : evolves.
#[export] Hint Extern 1 (evolves _ (UpdateInstanceStatus _ _ _ _ _)) =>
  (apply evolves_UpdateInstanceStatus; discriminate) : evolves.
