(* ===== verification/Sha256.v ===== *)
(** * SHA-256 and hexadecimal encoding

    [crypto/sha256.Sum256] and [encoding/hex.EncodeToString] of the Go
    standard library, executable: 32-bit words are [Z] in [0, 2^32) with the
    wrap-around written out. *)
From S2P Require Import Prelude Tables.
Local Open Scope Z_scope.

Definition add32 (a b : Z) : Z := (a + b) mod 2 ^ 32.
Definition not32 (a : Z) : Z := 2 ^ 32 - 1 - a.
Definition shr (n a : Z) : Z := Z.shiftr a n.
Definition rotr (n a : Z) : Z :=
  Z.lor (Z.shiftr a n) (Z.shiftl a (32 - n) mod 2 ^ 32).

(** The constants of the standard: the first 32 bits of the fractional parts
    of the cube roots (round constants) and square roots (initial state) of
    the first primes. *)
Definition is_prime (n : nat) : bool :=
  (2 <=? n)%nat && forallb (fun d => negb (Nat.eqb (n mod d) 0)) (seq 2 (n - 2)).

Definition primes : list Z :=
  Eval vm_compute in Z.of_nat <$> List.filter is_prime (seq 0 312).

(** Largest [r] with [r ^ 3 <= n], bit by bit from [2 ^ bits]. *)
Fixpoint cbrt_from (bits : nat) (r n : Z) : Z :=
  match bits with
  | O => r
  | S bits =>
      let r' := r + 2 ^ Z.of_nat bits in
      cbrt_from bits (if r' ^ 3 <=? n then r' else r) n
  end.

Definition K256 : list Z :=
  Eval vm_compute in (fun p => cbrt_from 40 0 (p * 2 ^ 96) mod 2 ^ 32) <$> primes.

Definition H256 : list Z :=
  Eval vm_compute in (fun p => Z.sqrt (p * 2 ^ 64) mod 2 ^ 32) <$> take 8 primes.

(** Message schedule: the window holds the last sixteen words, newest first. *)
Fixpoint schedule (n : nat) (window : list Z) : list Z :=
  match n with
  | O => []
  | S n =>
      let w i := nth i window 0 in
      let s0 := Z.lxor (Z.lxor (rotr 7 (w 14%nat)) (rotr 18 (w 14%nat))) (shr 3 (w 14%nat)) in
      let s1 := Z.lxor (Z.lxor (rotr 17 (w 1%nat)) (rotr 19 (w 1%nat))) (shr 10 (w 1%nat)) in
      let x := add32 (add32 (w 15%nat) s0) (add32 (w 6%nat) s1) in
      x :: schedule n (x :: take 15 window)
  end.

Definition round (st : list Z) (kw : Z * Z) : list Z :=
  match st with
  | [a; b; c; d; e; f; g; h] =>
      let s1 := Z.lxor (Z.lxor (rotr 6 e) (rotr 11 e)) (rotr 25 e) in
      let ch := Z.lxor (Z.land e f) (Z.land (not32 e) g) in
      let t1 := add32 (add32 (add32 h s1) (add32 ch (fst kw))) (snd kw) in
      let s0 := Z.lxor (Z.lxor (rotr 2 a) (rotr 13 a)) (rotr 22 a) in
      let maj := Z.lxor (Z.lxor (Z.land a b) (Z.land a c)) (Z.land b c) in
      let t2 := add32 s0 maj in
      [add32 t1 t2; a; b; c; add32 d t1; e; f; g]
  | _ => st
  end.

Definition compress (h : list Z) (block : list Z) : list Z :=
  let ws := block ++ schedule 48 (rev block) in
  zip_with add32 h (fold_left round (zip K256 ws) h).

(** Big-endian words of a byte list whose length is a multiple of four. *)
Fixpoint words_of (l : list Z) : list Z :=
  match l with
  | a :: b :: c :: d :: l' => (a * 2 ^ 24 + b * 2 ^ 16 + c * 2 ^ 8 + d) :: words_of l'
  | _ => []
  end.

Fixpoint blocks_of (n : nat) (ws : list Z) : list (list Z) :=
  match n with
  | O => []
  | S n => take 16 ws :: blocks_of n (drop 16 ws)
  end.

Definition be_bytes (n : nat) (z : Z) : list Z :=
  rev ((fun i => Z.shiftr z (8 * Z.of_nat i) mod 256) <$> seq 0 n).

Definition pad (msg : list Z) : list Z :=
  let len := Z.of_nat (length msg) in
  let zeros := Z.to_nat ((55 - len) mod 64) in
  msg ++ [0x80] ++ replicate zeros 0 ++ be_bytes 8 (8 * len).

Definition Sum256 (msg : list Z) : list Z :=
  let ws := words_of (pad msg) in
  let h := fold_left compress (blocks_of (Nat.div (length ws) 16) ws) H256 in
  h ≫= be_bytes 4.

Definition bytes_of_string (s : string) : list Z :=
  (fun c => Z.of_N (Ascii.N_of_ascii c)) <$> String.list_ascii_of_string s.

Definition hex_char (d : Z) : Ascii.ascii :=
  Ascii.ascii_of_N (Z.to_N (if d <? 10 then 48 + d else 87 + d)).

Fixpoint EncodeToString (bytes : list Z) : string :=
  match bytes with
  | [] => EmptyString
  | b :: l => String (hex_char (b / 16)) (String (hex_char (b mod 16)) (EncodeToString l))
  end.

Definition sha256_hex (s : string) : string := EncodeToString (Sum256 (bytes_of_string s)).

(** ** Facts *)

Example sha256_empty : sha256_hex "" =
  "e3b0c44298fc1c149afbf4c8996fb92427ae41e4649b934ca495991b7852b855".
Proof. vm_compute. reflexivity. Qed.

Example sha256_abc : sha256_hex "abc" =
  "ba7816bf8f01cfea414140de5dae2223b00361a396177a9cb410ff61f20015ad".
Proof. vm_compute. reflexivity. Qed.

(** 56 bytes: the padding spills into a second block. *)
Example sha256_two_blocks :
  sha256_hex "abcdbcdecdefdefgefghfghighijhijkijkljklmklmnlmnomnopnopq" =
  "248d6a61d20638b8e5c026930c3e6039a33ce45964ff2167f6ecedd419db06c1".
Proof. vm_compute. reflexivity. Qed.

Lemma round_length st kw : length (round st kw) = length st.
Proof. by do 9 (destruct st as [|? st]; [done|]). Qed.

Lemma fold_round_length kws st : length (fold_left round kws st) = length st.
Proof. revert st. induction kws as [|kw kws IH]; intros st; simpl; [done|]. by rewrite IH, round_length. Qed.

Lemma compress_length h block : length (compress h block) = length h.
Proof. unfold compress. rewrite length_zip_with, fold_round_length. lia. Qed.

Lemma fold_compress_length blocks h : length (fold_left compress blocks h) = length h.
Proof. revert h. induction blocks as [|b bs IH]; intros h; simpl; [done|]. by rewrite IH, compress_length. Qed.

Lemma be_bytes_range n z : Forall (fun b => 0 <= b < 256) (be_bytes n z).
Proof.
  unfold be_bytes. apply Forall_forall. intros b Hb. rewrite list_elem_of_In, <- in_rev in Hb.
  apply list_elem_of_In, list_elem_of_fmap in Hb as (i & -> & _). apply Z.mod_pos_bound. lia.
Qed.

Lemma Sum256_shape msg :
  length (Sum256 msg) = 32%nat /\ Forall (fun b => 0 <= b < 256) (Sum256 msg).
Proof.
  unfold Sum256. set (h := fold_left _ _ _).
  assert (Hh : length h = 8%nat) by (unfold h; by rewrite fold_compress_length). clearbody h.
  split.
  - assert (H : length (h ≫= be_bytes 4) = (4 * length h)%nat); [|rewrite H, Hh; lia].
    clear Hh. induction h as [|x h IH]; [done|]. rewrite bind_cons, length_app, IH.
    unfold be_bytes. rewrite length_rev, length_fmap, length_seq. simpl. lia.
  - clear Hh. induction h as [|x h IH]; [constructor|]. rewrite bind_cons.
    apply Forall_app; split; [apply be_bytes_range|done].
Qed.

Lemma EncodeToString_length l : String.length (EncodeToString l) = (2 * length l)%nat.
Proof. induction l; simpl; [done|]. lia. Qed.

(** Every character written by [EncodeToString] satisfies [p], if the sixteen
    digits do. *)
Definition all_digits (p : Ascii.ascii -> bool) : bool :=
  forallb (fun d => p (hex_char (Z.of_nat d))) (seq 0 16).

Lemma hex_char_digit p d : all_digits p = true -> 0 <= d < 16 -> p (hex_char d) = true.
Proof.
  unfold all_digits. rewrite forallb_forall. intros H Hd.
  rewrite <- (Z2Nat.id d) by lia. apply H. apply in_seq. lia.
Qed.

Lemma sha256_hex_shape p s :
  all_digits p = true ->
  String.length (sha256_hex s) = 64%nat /\
  Forall (fun c => p c = true) (String.list_ascii_of_string (sha256_hex s)).
Proof.
  intros Hp. unfold sha256_hex. destruct (Sum256_shape (bytes_of_string s)) as [Hl Hr].
  rewrite EncodeToString_length, Hl. split; [done|]. clear Hl.
  induction Hr as [|b l Hb _ IH]; simpl; [constructor|].
  constructor; [apply hex_char_digit; [done|]|constructor; [apply hex_char_digit; [done|]|done]].
  - split; [apply Z.div_pos; lia|apply Z.div_lt_upper_bound; lia].
  - apply Z.mod_pos_bound. lia.
Qed.
