(* ===== verification/ContentHash.v ===== *)
(** * Content hash: canonical JSON, float rejection, idempotency keys

    [approval/application/content_hash.go], [idempotency.go] and
    [ValidateEventPayload] of [services.go]. Go values of type [any] are the
    inductive [Any]; a Go map is the list of its entries in some iteration
    order, and the theorems show that the order does not matter. Unicode
    normalisation ([golang.org/x/text/unicode/norm]) is a parameter, the
    class [UnicodeNorm]; the JSON string encoder and SHA-256 of the standard
    library are defined here and in [Sha256]. *)
From S2P Require Import Prelude Text Tables ApprovalDomain Sha256.
From stdpp Require Import pretty.
Local Open Scope Z_scope.

(** ** Values *)

(** [AnyOther r]: a value of any other type, for which [json.Marshal]
    returns [r] (such as [json.Number]). *)
Inductive Any :=
  | AnyNil
  | AnyBool (b : bool)
  | AnyInt (z : Z)
  | AnyInt64 (z : Z)
  | AnyFloat64 (text : string)
  | AnyString (s : string)
  | AnySlice (l : list Any)
  | AnyMap (m : list (string * Any))
  | AnyOther (marshal : Result string).

(** [norm.NFC.String]. *)
Class UnicodeNorm := NFC_String : string -> string.

(** ** [json.Marshal] of a string *)

Definition hex_digit (d : Z) : Z := if d <? 10 then 48 + d else 87 + d.

(** [htmlSafeSet] complement below 0x80. *)
Definition escape_ascii (b : Z) : list Z :=
  if (b =? 92) || (b =? 34) then [92; b]
  else if b =? 8 then [92; 98]
  else if b =? 12 then [92; 102]
  else if b =? 10 then [92; 110]
  else if b =? 13 then [92; 114]
  else if b =? 9 then [92; 116]
  else if (b <? 32) || (b =? 60) || (b =? 62) || (b =? 38) then
    [92; 117; 48; 48; hex_digit (b / 16); hex_digit (b mod 16)]
  else [b].

Definition cont (b : Z) : bool := (128 <=? b) && (b <=? 191).
Definition between (lo b hi : Z) : bool := (lo <=? b) && (b <=? hi).

(** [\ufffd] for an invalid byte. *)
Definition replacement : list Z := [92; 117; 102; 102; 102; 100].

(** Body of the quoted string: escapes, valid UTF-8 copied, U+2028 and U+2029
    escaped, each invalid byte replaced. *)
Fixpoint json_escape (l : list Z) : list Z :=
  match l with
  | [] => []
  | b :: l1 =>
      if b <? 128 then escape_ascii b ++ json_escape l1
      else
        match l1 with
        | c :: l2 =>
            if between 194 b 223 && cont c then b :: c :: json_escape l2
            else
              match l2 with
              | d :: l3 =>
                  if cont d &&
                     (((b =? 224) && between 160 c 191) ||
                      ((between 225 b 236 || between 238 b 239) && cont c) ||
                      ((b =? 237) && between 128 c 159)) then
                    if (b =? 226) && (c =? 128) && between 168 d 169 then
                      [92; 117; 50; 48; 50; hex_digit (d - 160)] ++ json_escape l3
                    else b :: c :: d :: json_escape l3
                  else
                    match l3 with
                    | e :: l4 =>
                        if cont d && cont e &&
                           (((b =? 240) && between 144 c 191) ||
                            (between 241 b 243 && cont c) ||
                            ((b =? 244) && between 128 c 143))
                        then b :: c :: d :: e :: json_escape l4
                        else replacement ++ json_escape l1
                    | [] => replacement ++ json_escape l1
                    end
              | [] => replacement ++ json_escape l1
              end
        | [] => replacement
        end
  end.

Definition string_of_bytes (l : list Z) : string :=
  String.string_of_list_ascii ((fun b => Ascii.ascii_of_N (Z.to_N b)) <$> l).

Definition json_string (s : string) : string :=
  string_of_bytes ([34] ++ json_escape (bytes_of_string s) ++ [34]).

(** ** [content_hash.go] *)

Definition ErrFloatInFormData : Error := Sentinel "application.ErrFloatInFormData".
Definition ErrFloatInPayload : Error := Sentinel "application.ErrFloatInPayload".

(** The loops that build a JSON array or object: elements separated by
    commas, the first error returned. *)
Fixpoint join_rest (l : list (Result string)) : Result string :=
  match l with
  | [] => inr ""
  | inl e :: _ => inl e
  | inr b :: rest =>
      match join_rest rest with
      | inl e => inl e
      | inr bs => inr ("," +:+ b +:+ bs)
      end
  end.

Definition join (l : list (Result string)) : Result string :=
  match l with
  | [] => inr ""
  | inl e :: _ => inl e
  | inr b :: rest =>
      match join_rest rest with
      | inl e => inl e
      | inr bs => inr (b +:+ bs)
      end
  end.

Definition enclose (l r : string) (body : Result string) : Result string :=
  match body with
  | inl e => inl e
  | inr s => inr (l +:+ s +:+ r)
  end.

(** [sort.Strings] on the keys, each key keeping its value. *)
Definition key_le {A} (p q : string * A) : Prop := stdpp.strings.String.le (fst p) (fst q).

#[export] Instance key_le_dec {A} : RelDecision (@key_le A).
Proof. intros p q. apply stdpp.strings.String.le_dec. Defined.

Definition sort_keys {A} (m : list (string * A)) : list (string * A) := merge_sort key_le m.

(** One member of an object. *)
Definition json_entry `{UnicodeNorm} (kv : string * Result string) : Result string :=
  match snd kv with
  | inl e => inl e
  | inr vb => inr (json_string (NFC_String (fst kv)) +:+ ":" +:+ vb)
  end.

(** [json.Marshal] of the standard library on such a value: object keys
    sorted, strings not normalised; a float is printed by its text. *)
Fixpoint json_Marshal (v : Any) : Result string :=
  match v with
  | AnyNil => inr "null"
  | AnyBool b => inr (if b then "true" else "false")
  | AnyInt z | AnyInt64 z => inr (pretty z)
  | AnyFloat64 text => inr text
  | AnyString s => inr (json_string s)
  | AnySlice l => enclose "[" "]" (join (map json_Marshal l))
  | AnyMap m =>
      enclose "{" "}"
        (join ((@json_entry (fun s => s)) <$>
               sort_keys (map (fun kv => (fst kv, json_Marshal (snd kv))) m)))
  | AnyOther r => r
  end.

Section canonical.
Context `{UnicodeNorm}.

Fixpoint canonicalize (v : Any) : Result string :=
  match v with
  | AnyNil => inr "null"
  | AnyBool b => inr (if b then "true" else "false")
  | AnyInt z | AnyInt64 z => inr (pretty z)
  | AnyFloat64 _ => inl ErrFloatInFormData
  | AnyString s => inr (json_string (NFC_String s))
  | AnySlice l => enclose "[" "]" (join (map canonicalize l))
  | AnyMap m =>
      enclose "{" "}"
        (join (json_entry <$> sort_keys (map (fun kv => (fst kv, canonicalize (snd kv))) m)))
  | AnyOther r => r
  end.

(** [walkAny]: [true] when a float64 is found. *)
Fixpoint walkAny (v : Any) : bool :=
  match v with
  | AnyFloat64 _ => true
  | AnyMap m => existsb (fun kv => walkAny (snd kv)) m
  | AnySlice l => existsb walkAny l
  | _ => false
  end.

Definition validateNoFloats (m : list (string * Any)) : Result unit :=
  if walkAny (AnyMap m) then inl ErrFloatInFormData else inr tt.

Record ContentHashInput := mkContentHashInput {
  ch_TenantID : string;
  ch_DocumentID : string;
  ch_RevisionNumber : Z;
  ch_FormData : list (string * Any);
  ch_ValuesHash : string;
  ch_SchemaHash : string
}.

Definition content_hash_fields (i : ContentHashInput) : Any :=
  AnyMap [("tenant_id", AnyString (ch_TenantID i));
          ("document_id", AnyString (ch_DocumentID i));
          ("revision_number", AnyInt (ch_RevisionNumber i));
          ("form_data", AnyMap (ch_FormData i));
          ("values_hash", AnyString (ch_ValuesHash i));
          ("schema_hash", AnyString (ch_SchemaHash i))].

Definition ComputeContentHash (input : ContentHashInput) : Result string :=
  match validateNoFloats (ch_FormData input) with
  | inl e => inl e
  | inr _ =>
      match canonicalize (content_hash_fields input) with
      | inl e => inl (Wrapf "content hash: canonicalize: %w" [] e)
      | inr canonical => inr (sha256_hex canonical)
      end
  end.

(** [ValidateEventPayload]: only the top level is inspected. *)
Definition ValidateEventPayload (payload : list (string * Any)) : Result unit :=
  if existsb (fun kv => match snd kv with AnyFloat64 _ => true | _ => false end) payload
  then inl ErrFloatInPayload else inr tt.

(** ** [idempotency.go] *)

(** Two or more decimal digits. *)
Definition pad_digits (n : nat) (z : Z) : string :=
  let d : string := pretty z in
  String.string_of_list_ascii
    (replicate (n - String.length d) (Ascii.ascii_of_nat 48)) +:+ d.

(** [t.UTC().Format(time.RFC3339)], whole seconds: proleptic Gregorian date
    of the day count since 1 January of year 1 (shifted to 1 March of year 0). *)
Definition format_RFC3339 (t : Time) : string :=
  let secs := t / 1000000000 in
  let z := secs / 86400 + 306 in
  let sod := secs mod 86400 in
  let era := z / 146097 in
  let doe := z mod 146097 in
  let yoe := (doe - doe / 1460 + doe / 36524 - doe / 146096) / 365 in
  let doy := doe - (365 * yoe + yoe / 4 - yoe / 100) in
  let mp := (5 * doy + 2) / 153 in
  let day := doy - (153 * mp + 2) / 5 + 1 in
  let month := if mp <? 10 then mp + 3 else mp - 9 in
  let year := yoe + era * 400 + (if month <=? 2 then 1 else 0) in
  pad_digits 4 year +:+ "-" +:+ pad_digits 2 month +:+ "-" +:+ pad_digits 2 day +:+ "T" +:+
  pad_digits 2 (sod / 3600) +:+ ":" +:+ pad_digits 2 (sod mod 3600 / 60) +:+ ":" +:+
  pad_digits 2 (sod mod 60) +:+ "Z".

(** [t.Truncate(time.Second)]. *)
Definition Truncate_second (t : Time) : Time := t - t mod 1000000000.

Record IdempotencyInput := mkIdempotencyInput {
  id_ActorUserID : string;
  id_DocumentID : string;
  id_StageInstanceID : string;
  id_Decision : string;
  id_Timestamp : Time
}.

Definition ComputeIdempotencyKey (input : IdempotencyInput) : string :=
  let ts := Truncate_second (id_Timestamp input) in
  let m := AnyMap [("actor_user_id", AnyString (id_ActorUserID input));
                   ("document_id", AnyString (id_DocumentID input));
                   ("stage_instance_id", AnyString (id_StageInstanceID input));
                   ("decision", AnyString (id_Decision input));
                   ("timestamp", AnyString (format_RFC3339 ts))] in
  match canonicalize m with
  | inr b => sha256_hex b
  | inl _ => sha256_hex ""
  end.

End canonical.

(** ** Facts *)

(** Two values that differ only by the iteration order of their maps: the
    least congruence containing the reorderings of a map with distinct keys. *)
Inductive any_equiv : Any -> Any -> Prop :=
  | equiv_refl v : any_equiv v v
  | equiv_trans v1 v2 v3 : any_equiv v1 v2 -> any_equiv v2 v3 -> any_equiv v1 v3
  | equiv_slice l1 x y l2 :
      any_equiv x y -> any_equiv (AnySlice (l1 ++ x :: l2)) (AnySlice (l1 ++ y :: l2))
  | equiv_entry l1 k x y l2 :
      any_equiv x y -> any_equiv (AnyMap (l1 ++ (k, x) :: l2)) (AnyMap (l1 ++ (k, y) :: l2))
  | equiv_order m m' :
      NoDup (fst <$> m) -> Permutation m m' -> any_equiv (AnyMap m) (AnyMap m').

#[export] Instance any_equiv_equivalence : Equivalence any_equiv.
Proof.
  split.
  - intros v. apply equiv_refl.
  - intros v w H. induction H; eauto using any_equiv.
    apply equiv_order; [|done]. by rewrite <- H0.
  - intros u v w. apply equiv_trans.
Qed.

#[export] Instance key_le_trans {A} : Transitive (@key_le A).
Proof. intros x y z. unfold key_le. apply (@transitivity _ _ _). Qed.

#[export] Instance key_le_total {A} : Total (@key_le A).
Proof. intros x y. unfold key_le. apply stdpp.strings.String.le_total. Qed.

Lemma NoDup_keys_value {A} (m : list (string * A)) k v1 v2 :
  NoDup (fst <$> m) -> (k, v1) ∈ m -> (k, v2) ∈ m -> v1 = v2.
Proof.
  intros Hnd [i Hi]%list_elem_of_lookup [j Hj]%list_elem_of_lookup.
  assert (i = j) as <-; [|congruence].
  apply (NoDup_lookup (fst <$> m) i j k); [done|by rewrite list_lookup_fmap, Hi|].
  by rewrite list_lookup_fmap, Hj.
Qed.

(** Sorting by key forgets the iteration order. *)
Lemma sort_keys_Permutation {A} (m m' : list (string * A)) :
  NoDup (fst <$> m) -> Permutation m m' -> sort_keys m = sort_keys m'.
Proof.
  intros Hnd Hp. unfold sort_keys. apply StronglySorted_unique_strong with (R := key_le).
  - intros [k1 v1] [k2 v2] H1 H2 L1 L2. unfold key_le in *. simpl in *.
    assert (k1 = k2) as -> by (by apply (anti_symm stdpp.strings.String.le)).
    rewrite merge_sort_Permutation in H1. rewrite merge_sort_Permutation, <- Hp in H2.
    by rewrite (NoDup_keys_value m k2 v1 v2).
  - apply StronglySorted_merge_sort; tc_solve.
  - apply StronglySorted_merge_sort; tc_solve.
  - by rewrite !merge_sort_Permutation.
Qed.

Section facts.
Context `{UnicodeNorm}.

Definition canonical_entries (m : list (string * Any)) : list (string * Result string) :=
  map (fun kv => (fst kv, canonicalize (snd kv))) m.

Lemma canonical_entries_keys m : fst <$> canonical_entries m = fst <$> m.
Proof. induction m as [|[k v] m IH]; simpl; [done|]. by f_equal. Qed.

(** Canonical JSON does not see the iteration order of maps. *)
#[export] Instance canonicalize_Proper : Proper (any_equiv ==> eq) canonicalize.
Proof.
  intros v v' Hv. induction Hv as [v|u v w _ IH1 _ IH2|l1 x y l2 _ IH|l1 k x y l2 _ IH|m m' Hnd Hp].
  - done.
  - congruence.
  - simpl. by rewrite !map_app; simpl; rewrite IH.
  - simpl. by rewrite !map_app; simpl; rewrite IH.
  - simpl. fold (canonical_entries m) (canonical_entries m').
    rewrite (sort_keys_Permutation (canonical_entries m) (canonical_entries m')); [done| |].
    + by rewrite canonical_entries_keys.
    + by apply Permutation_map.
Qed.

Lemma existsb_middle {A} (f : A -> bool) l1 x y l2 :
  f x = f y -> existsb f (l1 ++ x :: l2) = existsb f (l1 ++ y :: l2).
Proof. intros H'. rewrite !existsb_app. simpl. by rewrite H'. Qed.

Lemma existsb_Permutation {A} (f : A -> bool) l l' :
  Permutation l l' -> existsb f l = existsb f l'.
Proof.
  induction 1; simpl; [done|congruence| |congruence].
  rewrite !orb_assoc. f_equal. apply orb_comm.
Qed.

#[export] Instance walkAny_Proper : Proper (any_equiv ==> eq) walkAny.
Proof.
  intros v v' Hv. induction Hv; simpl;
    eauto using existsb_middle, existsb_Permutation; congruence.
Qed.

(** Nested induction on [Any]. *)
Lemma Any_nested_ind (P : Any -> Prop) :
  P AnyNil -> (forall b, P (AnyBool b)) -> (forall z, P (AnyInt z)) ->
  (forall z, P (AnyInt64 z)) -> (forall t, P (AnyFloat64 t)) -> (forall s, P (AnyString s)) ->
  (forall l, Forall P l -> P (AnySlice l)) ->
  (forall m, Forall (fun kv => P (snd kv)) m -> P (AnyMap m)) ->
  (forall r, P (AnyOther r)) -> forall v, P v.
Proof.
  intros H1 H2 H3 H4 H5 H6 Hl Hm H9. fix IH 1. intros [|b|z|z|t|s|l|m|r];
    [exact H1|apply H2|apply H3|apply H4|apply H5|apply H6| | |apply H9].
  - apply Hl. induction l as [|x l IHl]; constructor; [apply IH|apply IHl].
  - apply Hm. induction m as [|x m IHm]; constructor; [apply IH|apply IHm].
Qed.

(** [join] fails exactly when an element does, with the error of one. *)
Lemma join_error l e : join l = inl e -> inl e ∈ l.
Proof.
  assert (Hrest : forall l e, join_rest l = inl e -> inl e ∈ l).
  { clear l e. intros l. induction l as [|[e'|b] l IH]; intros e; simpl; [done| |].
    - intros [= ->]. left.
    - destruct (join_rest l) eqn:Hl; [|done]. intros [= ->]. right. by apply IH. }
  destruct l as [|[e'|b] l]; simpl; [done| |].
  - intros [= ->]. left.
  - destruct (join_rest l) eqn:Hl; [|done]. intros [= ->]. right. by apply Hrest.
Qed.

Lemma join_error_of l : (exists e, inl e ∈ l) -> exists e, join l = inl e.
Proof.
  assert (Hrest : forall l, (exists e, inl e ∈ l) -> exists e, join_rest l = inl e).
  { clear l. intros l. induction l as [|[e'|b] l IH]; simpl.
    - intros [e He]. by apply not_elem_of_nil in He.
    - eauto.
    - intros [e He]. apply elem_of_cons in He as [?|He]; [done|].
      destruct IH as [e' ->]; eauto. }
  destruct l as [|[e'|b] l]; simpl.
  - intros [e He]. by apply not_elem_of_nil in He.
  - eauto.
  - intros [e He]. apply elem_of_cons in He as [?|He]; [done|].
    destruct (Hrest l) as [e' ->]; eauto.
Qed.

Lemma enclose_error l r b e : enclose l r b = inl e <-> b = inl e.
Proof. destruct b; simpl; split; congruence. Qed.

Lemma json_entry_error kv e : json_entry kv = inl e <-> snd kv = inl e.
Proof. unfold json_entry. destruct (snd kv); split; congruence. Qed.

(** Values built from JSON types only. *)
Fixpoint json_typed (v : Any) : bool :=
  match v with
  | AnySlice l => forallb json_typed l
  | AnyMap m => forallb (fun kv => json_typed (snd kv)) m
  | AnyOther _ => false
  | _ => true
  end.

Lemma elem_of_map_entries (m : list (string * Any)) (r : Result string) :
  r ∈ (json_entry <$> sort_keys (canonical_entries m)) <->
  exists k v, (k, v) ∈ m /\ r = json_entry (k, canonicalize v).
Proof.
  unfold sort_keys. rewrite merge_sort_Permutation, list_elem_of_fmap. split.
  - intros (x & -> & Hx). unfold canonical_entries in Hx.
    apply list_elem_of_fmap in Hx as ([k v] & -> & Hx). eauto.
  - intros (k & v & Hx & ->). exists (k, canonicalize v). split; [done|].
    apply list_elem_of_fmap. by exists (k, v).
Qed.

(** What [canonicalize] and [walkAny] say of the elements decides what they
    say of the whole, for arrays and objects alike. *)
Definition float_error (v : Any) : Prop :=
  (walkAny v = true -> canonicalize v = inl ErrFloatInFormData) /\
  (forall e, canonicalize v = inl e -> walkAny v = true /\ e = ErrFloatInFormData).

Lemma float_error_join v l b (vs : list Any) :
  (forall r, r ∈ l -> (exists x, x ∈ vs /\ forall e, r = inl e <-> canonicalize x = inl e)) ->
  (forall x, x ∈ vs -> exists r, r ∈ l /\ forall e, r = inl e <-> canonicalize x = inl e) ->
  walkAny v = existsb walkAny vs ->
  canonicalize v = enclose b.1 b.2 (join l) ->
  Forall float_error vs -> float_error v.
Proof.
  intros Hl Hvs Hw Hc HF. rewrite Forall_forall in HF.
  assert (Hback : forall e, canonicalize v = inl e -> walkAny v = true /\ e = ErrFloatInFormData).
  { rewrite Hc, Hw. intros e He%enclose_error%join_error.
    destruct (Hl _ He) as (x & Hx & Hr). destruct (HF x Hx) as [_ H2].
    destruct (H2 e) as [Hwx ->]; [by apply Hr|]. split; [|done].
    apply existsb_exists. exists x. by rewrite <- list_elem_of_In. }
  split; [|done]. rewrite Hw. intros (x & Hx & Hwx)%existsb_exists.
  apply list_elem_of_In in Hx. destruct (Hvs x Hx) as (r & Hr & Hrx).
  destruct (join_error_of l) as [e He].
  { exists ErrFloatInFormData. replace (inl ErrFloatInFormData) with r; [done|].
    apply Hrx. by apply HF. }
  destruct (Hback e) as [_ ->]; [by rewrite Hc, He|]. by rewrite Hc, He.
Qed.

Lemma canonicalize_error v : json_typed v = true -> float_error v.
Proof.
  induction v as [|b|z|z|t|s|l IH|m IH|r] using Any_nested_ind; intros Ht;
    try (by split; [done|]; intros e [= <-]).
  - apply (float_error_join _ (map canonicalize l) ("[", "]") l); try done.
    + intros r (x & -> & Hx)%list_elem_of_fmap. by exists x.
    + intros x Hx. exists (canonicalize x). split; [by apply list_elem_of_fmap_2|done].
    + simpl in Ht. rewrite forallb_forall in Ht. rewrite Forall_forall in IH |- *.
      intros x Hx. apply IH; [done|]. apply Ht. by apply list_elem_of_In.
  - apply (float_error_join _ (json_entry <$> sort_keys (canonical_entries m)) ("{", "}")
             (snd <$> m)); try done.
    + intros r (k & x & Hx & ->)%elem_of_map_entries. exists x. split.
      * apply list_elem_of_fmap. by exists (k, x).
      * intros e. by rewrite json_entry_error.
    + intros x ([k y] & -> & Hx)%list_elem_of_fmap. exists (json_entry (k, canonicalize y)).
      split; [apply elem_of_map_entries; eauto|]. intros e. by rewrite json_entry_error.
    + simpl. clear. induction m as [|x m IHm]; simpl; [done|]. by rewrite IHm.
    + simpl in Ht. rewrite forallb_forall in Ht. rewrite Forall_forall in IH. apply Forall_forall.
      intros x ([k y] & -> & Hx)%list_elem_of_fmap. apply (IH (k, y)); [done|].
      apply (Ht (k, y)). by apply list_elem_of_In.
  - done.
Qed.

Lemma hashRegex_sha256 s : Signoffs.hashRegex_MatchString (sha256_hex s) = true.
Proof.
  destruct (sha256_hex_shape Signoffs.is_hex_digit s) as [Hl Hc]; [by vm_compute|].
  unfold Signoffs.hashRegex_MatchString. apply andb_true_iff. split; [by apply Nat.eqb_eq|].
  clear Hl. induction (sha256_hex s) as [|c s' IH]; [done|]. simpl in *.
  apply Forall_cons in Hc as [-> Hc]. by apply IH.
Qed.

(** The content hash does not depend on the iteration order of the form
    data: two submissions whose form data are the same maps, whatever the order
    in which Go enumerates them and at whatever depth, have the same hash (or
    the same error). *)
Theorem content_hash_order_independent tenant document revision form form' values schema
  (Hequiv : any_equiv (AnyMap form) (AnyMap form')) :
  ComputeContentHash (mkContentHashInput tenant document revision form values schema) =
  ComputeContentHash (mkContentHashInput tenant document revision form' values schema).
Proof.
  unfold ComputeContentHash, validateNoFloats, content_hash_fields. cbn [ch_TenantID ch_DocumentID
    ch_RevisionNumber ch_FormData ch_ValuesHash ch_SchemaHash].
  rewrite Hequiv. destruct (walkAny (AnyMap form')); [done|].
  pose proof (canonicalize_Proper _ _ (equiv_entry
    [("tenant_id", AnyString tenant); ("document_id", AnyString document);
     ("revision_number", AnyInt revision)] "form_data" _ _
    [("values_hash", AnyString values); ("schema_hash", AnyString schema)] Hequiv)) as Heq.
  cbn [app] in Heq. by rewrite Heq.
Qed.

(** On form data decoded from JSON, hashing fails exactly when a float
    occurs somewhere in it, with [ErrFloatInFormData]; otherwise it succeeds
    with 64 lowercase hexadecimal digits, the form [NewSignoff] demands. *)
Theorem content_hash_fails_iff_float input
  (Htyped : json_typed (AnyMap (ch_FormData input)) = true) :
  (walkAny (AnyMap (ch_FormData input)) = true /\
   ComputeContentHash input = inl ErrFloatInFormData) \/
  (walkAny (AnyMap (ch_FormData input)) = false /\
   exists h, ComputeContentHash input = inr h /\ Signoffs.hashRegex_MatchString h = true).
Proof.
  unfold ComputeContentHash, validateNoFloats.
  destruct (walkAny (AnyMap (ch_FormData input))) eqn:Hw; [by left|]. right. split; [done|].
  assert (Hok : json_typed (content_hash_fields input) = true)
    by (unfold content_hash_fields; simpl in Htyped |- *; by rewrite Htyped).
  destruct (canonicalize (content_hash_fields input)) as [e|c] eqn:Hc.
  - apply (canonicalize_error _ Hok) in Hc as [Hf _]. exfalso.
    unfold content_hash_fields in Hf. simpl in Hf, Hw. by rewrite Hw in Hf.
  - eexists. split; [done|]. apply hashRegex_sha256.
Qed.

Lemma Truncate_second_bounds t : Truncate_second t <= t < Truncate_second t + 1000000000.
Proof. unfold Truncate_second. pose proof (Z.mod_pos_bound t 1000000000). lia. Qed.

Lemma Truncate_second_eq t u : t / 1000000000 = u / 1000000000 -> Truncate_second t = Truncate_second u.
Proof. unfold Truncate_second. intros H'. rewrite !Zmod_eq by lia. lia. Qed.

(** The idempotency key never fails and sees the timestamp in whole
    seconds only: the same vote (same actor, document, stage, decision) sent
    twice within one second of the clock has one key. *)
Theorem idempotency_key_within_second actor document stage decision t1 t2
  (Hsec : t1 / 1000000000 = t2 / 1000000000) :
  let key t := ComputeIdempotencyKey (mkIdempotencyInput actor document stage decision t) in
  key t1 = key t2 /\ Signoffs.hashRegex_MatchString (key t1) = true.
Proof.
  unfold ComputeIdempotencyKey. cbn [id_ActorUserID id_DocumentID id_StageInstanceID id_Decision
    id_Timestamp]. rewrite (Truncate_second_eq _ _ Hsec). split; [done|].
  destruct (canonicalize _); apply hashRegex_sha256.
Qed.
End facts.

(** ** Witnesses: ASCII text is its own normal form *)

Definition nfc_ascii : UnicodeNorm := fun s => s.

Example format_RFC3339_unix_epoch :
  format_RFC3339 (62135596800 * 1000000000) = "1970-01-01T00:00:00Z".
Proof. vm_compute. reflexivity. Qed.

Example format_RFC3339_leap_day :
  format_RFC3339 ((62135596800 + 951782400 + 3661) * 1000000000) = "2000-02-29T01:01:01Z".
Proof. vm_compute. reflexivity. Qed.

Lemma content_hash_order_independent_witness :
  let form := [("b", AnyInt 1); ("a", AnyMap [("x", AnyBool true)])] in
  let form' := [("a", AnyMap [("x", AnyBool true)]); ("b", AnyInt 1)] in
  form <> form' /\
  @ComputeContentHash nfc_ascii (mkContentHashInput "t" "d" 1 form "v" "s") =
  @ComputeContentHash nfc_ascii (mkContentHashInput "t" "d" 1 form' "v" "s").
Proof.
  split; [done|]. apply content_hash_order_independent. apply equiv_order.
  - apply NoDup_cons. split; [|apply NoDup_singleton]. by intros ?%list_elem_of_singleton.
  - apply Permutation_swap.
Defined.

Lemma content_hash_fails_iff_float_witness :
  let input := mkContentHashInput "t" "d" 1
                 [("k", AnySlice [AnyMap [("deep", AnyFloat64 "1.5")]])] "v" "s" in
  (walkAny (AnyMap (ch_FormData input)) = true /\
   @ComputeContentHash nfc_ascii input = inl ErrFloatInFormData) \/
  (walkAny (AnyMap (ch_FormData input)) = false /\
   exists h, @ComputeContentHash nfc_ascii input = inr h /\
     Signoffs.hashRegex_MatchString h = true).
Proof. apply content_hash_fails_iff_float. reflexivity. Defined.

Lemma idempotency_key_within_second_witness :
  let key t := @ComputeIdempotencyKey nfc_ascii (mkIdempotencyInput "u" "d" "s" "approve" t) in
  key 1000000001 = key 1999999999 /\ Signoffs.hashRegex_MatchString (key 1000000001) = true.
Proof. apply idempotency_key_within_second. reflexivity. Defined.

(** * JSON fields

    How [encoding/json] stores the members of an object into the fields of a
    struct: the field of a key, fields of type string, int and bool, pointers
    and slices, and the decoding of a struct that ignores unknown members. *)

(** A [json.UnmarshalTypeError] (or a number out of range). *)
Definition JsonUnmarshalTypeError (text : string) : Error :=
  Wrapf "%s" [AStr text] (Sentinel "json.UnmarshalTypeError").

Definition type_error (what : string) : Error :=
  JsonUnmarshalTypeError ("json: cannot unmarshal into Go value of type " +:+ what).

(** The integers of an [int]. *)
Definition int_of (v : Any) : option Z :=
  match v with
  | AnyInt z | AnyInt64 z => if (- 2 ^ 63 <=? z) && (z <? 2 ^ 63) then Some z else None
  | _ => None
  end.

Section fields.
Context {T : Type}.

(** A field of the target struct: its JSON name and how a value is stored. *)
Abbreviation Field := (string * (Any -> T -> Result T))%type.

(** The field of a key: the exact name, else the same name in another case. *)
Definition find_field (fields : list Field) (k : string) : option Field :=
  match List.find (fun f => str_eqb (fst f) k) fields with
  | Some f => Some f
  | None => List.find (fun f => str_eqb (ToLower (fst f)) (ToLower k)) fields
  end.

(** A [string], [int] or [*int] field; [null] leaves a value as it is. *)
Definition string_field (set : string -> T -> T) (v : Any) (x : T) : Result T :=
  match v with
  | AnyNil => inr x
  | AnyString s => inr (set s x)
  | _ => inl (type_error "string")
  end.

Definition int_field (set : Z -> T -> T) (v : Any) (x : T) : Result T :=
  match v with
  | AnyNil => inr x
  | _ => match int_of v with Some z => inr (set z x) | None => inl (type_error "int") end
  end.

Definition int_ptr_field (set : option Z -> T -> T) (v : Any) (x : T) : Result T :=
  match v with
  | AnyNil => inr (set None x)
  | _ => match int_of v with Some z => inr (set (Some z) x) | None => inl (type_error "int") end
  end.

(** [*string], [*bool] and [[]string]. *)
Definition string_ptr_field (set : option string -> T -> T) (v : Any) (x : T) : Result T :=
  match v with
  | AnyNil => inr (set None x)
  | AnyString s => inr (set (Some s) x)
  | _ => inl (type_error "string")
  end.

Definition bool_ptr_field (set : option bool -> T -> T) (v : Any) (x : T) : Result T :=
  match v with
  | AnyNil => inr (set None x)
  | AnyBool b => inr (set (Some b) x)
  | _ => inl (type_error "bool")
  end.

Definition string_element (v : Any) : Result string :=
  match v with
  | AnyNil => inr ""
  | AnyString s => inr s
  | _ => inl (type_error "string")
  end.

Fixpoint string_elements (l : list Any) : Result (list string) :=
  match l with
  | [] => inr []
  | v :: l =>
      match string_element v, string_elements l with
      | inl e, _ => inl e
      | _, inl e => inl e
      | inr s, inr rest => inr (s :: rest)
      end
  end.

Definition strings_field (set : list string -> T -> T) (v : Any) (x : T) : Result T :=
  match v with
  | AnyNil => inr (set [] x)
  | AnySlice l => match string_elements l with inl e => inl e | inr ss => inr (set ss x) end
  | _ => inl (type_error "[]string")
  end.

(** The members in order, unknown ones ignored; the first error is remembered
    and decoding goes on. *)
Fixpoint store_members (fields : list Field) (m : list (string * Any)) (x : T)
    (saved : option Error) : Result T :=
  match m with
  | [] => match saved with Some e => inl e | None => inr x end
  | (k, v) :: rest =>
      match find_field fields k with
      | None => store_members fields rest x saved
      | Some (_, set) =>
          match set v x with
          | inl e => store_members fields rest x (match saved with Some _ => saved | None => Some e end)
          | inr x' => store_members fields rest x' saved
          end
      end
  end.

(** [json.NewDecoder(r.Body).Decode]: the first value of the body, [None] when
    it is empty or malformed. *)
Definition decode_body (fields : list Field) (zero : T) (body : option Any) : Result T :=
  match body with
  | None => inl (Sentinel "json.SyntaxError")
  | Some AnyNil => inr zero
  | Some (AnyMap m) => store_members fields m zero None
  | Some _ => inl (type_error "struct")
  end.
End fields.
