(* ===== verification/Submit.v ===== *)
(** * Submission

    [application/submit_service.go]: [SubmitRevisionForReview] opens an
    approval instance on a draft document, one stage instance per stage of the
    route, and moves the document to [under_review], in one transaction. *)
From S2P Require Import Prelude Tables ApprovalDomain ApprovalFacts Database Schema TxLogic Authz.
From S2P Require Import ApprovalRepo ContentHash.
Import DocStates Routes Signoffs Instances.
Local Open Scope Z_scope.

Record SubmitRequest := mkSubmitRequest {
  sr_TenantID : string;
  sr_DocumentID : string;
  sr_RouteID : string;
  sr_SubmittedBy : string;
  sr_ContentFormData : list (string * Any);
  sr_RevisionVersion : Z
}.

Record SubmitResult := mkSubmitResult { sres_InstanceID : string }.

(** [loadRoute]: the row, then its stages by [stage_order]. *)
Definition route_row (tenantID routeID : string) (db : DB) : option RouteRow :=
  select_one (fun r => str_eqb (ar_id r) routeID && str_eqb (ar_tenant_id r) tenantID)
    (approval_routes db).

Definition route_stages (routeID : string) (db : DB) : list Stage :=
  order_by st_Order
    (ars_stage <$> bfilter (fun r => str_eqb (ars_route_id r) routeID) (approval_route_stages db)).

Definition loadRoute (tenantID routeID : string) : M Route :=
  row ← map_err (fun e =>
            if errors_Is e ErrNoRows
            then Errorf "route %s not found for tenant %s" [AStr routeID; AStr tenantID]
            else e)
          (query_row (route_row tenantID routeID));
  stages ← query (route_stages routeID);
  mret (mkRoute (ar_id row) (ar_tenant_id row) (ar_profile_code row) (ar_version row) stages).

(** The loop of step 8 from index [i]: the first stage is active. *)
Definition new_stage (instanceID id : string) (first : bool) (now : Time) (stage : Stage)
    : StageInstance :=
  mkStageInstance id instanceID (st_Order stage) (st_Name stage) (st_RequiredRole stage)
    (st_RequiredCapability stage) (st_AreaCode stage) (st_Quorum stage) (st_QuorumM stage)
    (st_OnEligibilityDrift stage) [] None
    (if first then StageActive else StagePending) (if first then Some now else None) None "".

Fixpoint build_stages (instanceID : string) (now : Time) (first : bool) (stages : list Stage)
    : M (list StageInstance) :=
  match stages with
  | [] => mret []
  | stage :: rest =>
      id ← NewUUID;
      others ← build_stages instanceID now false rest;
      mret (new_stage instanceID id first now stage :: others)
  end.

Definition submit_insert_error (e : Error) : Error :=
  if errors_Is e ErrDuplicateSubmission then e else wrap "submit: %w" e.

(** [UPDATE documents SET status = 'under_review' ... WHERE draft, revision]. *)
Definition submit_document (tenantID documentID : string) (revision : Z)
    : GUCs -> Time -> DB -> Result (Z * DB) :=
  update_documents
    (fun d => doc_is documentID tenantID d && doc_has_status StateDraft d &&
              doc_has_revision revision d)
    (set_status_bump StateUnderReview).

Section submit.
Context `{UnicodeNorm}.

(** Steps 1 and 2 of the method. *)
Definition submit_hash (req : SubmitRequest) : Result string :=
  match ValidateEventPayload (sr_ContentFormData req) with
  | inl e => inl e
  | inr _ =>
      match ComputeContentHash (mkContentHashInput (sr_TenantID req) (sr_DocumentID req)
              (sr_RevisionVersion req) (sr_ContentFormData req) "" "") with
      | inl e => inl (wrap "submit: content hash: %w" e)
      | inr h => inr h
      end
  end.

Definition SubmitRevisionForReview (req : SubmitRequest) : M SubmitResult :=
  let tenant := sr_TenantID req in
  contentHash ← lift (submit_hash req);
  ts ← Now;
  let idempotencyKey :=
    ComputeIdempotencyKey (mkIdempotencyInput (sr_SubmittedBy req) (sr_DocumentID req) "" "" ts) in
  map_err (wrap "submit: begin tx: %w") BeginTx ;;
  or_rollback (wrap "submit: %w") (setAuthzGUC tenant (sr_SubmittedBy req)) ;;
  areaCode ← or_rollback (wrap "submit: load document area: %w")
               (loadDocumentAreaCode tenant (sr_DocumentID req));
  or_rollback same (Require WithCapCache "doc.submit" areaCode) ;;
  route ← or_rollback (wrap "submit: load route: %w") (loadRoute tenant (sr_RouteID req));
  or_rollback (wrap "submit: invalid route: %w") (lift (Validate route)) ;;
  instanceID ← NewUUID;
  now ← Now;
  let inst := mkApprovalInstance instanceID tenant (sr_DocumentID req) (sr_RouteID req)
                (rt_Version route) InstanceInProgress (sr_SubmittedBy req) now None contentHash
                idempotencyKey (sr_RevisionVersion req) [] in
  or_rollback submit_insert_error (InsertInstance inst) ;;
  stageInstances ← build_stages instanceID now true (rt_Stages route);
  or_rollback (wrap "submit: %w") (InsertStageInstances stageInstances) ;;
  n ← or_rollback (wrap "submit: transition document to under_review: %w")
        (exec (submit_document tenant (sr_DocumentID req) (sr_RevisionVersion req)));
  if n =? 0 then rollback_return ErrStaleRevision
  else
    or_rollback (wrap "submit: emit event: %w")
      (Emit (mkGovernanceEvent tenant "approval_submitted" (sr_SubmittedBy req) "document"
               (sr_DocumentID req) ""
               [("instance_id", AStr instanceID); ("route_id", AStr (sr_RouteID req));
                ("content_hash", AStr contentHash)])) ;;
    map_err (wrap "submit: commit: %w") Commit ;;
    mret (mkSubmitResult instanceID).

End submit.

(** ** Facts *)

Lemma phases_loadRoute t r : phases Within (loadRoute t r) Within Within.
Proof. unfold loadRoute. phases_tac. Qed.
#[export] Hint Resolve phases_loadRoute : phases.

Lemma phases_build_stages i now first l : phases Within (build_stages i now first l) Within Before.
Proof. revert first. induction l; intros first; simpl; phases_tac. Qed.
#[export] Hint Resolve phases_build_stages : phases.

Lemma phases_submit `{UnicodeNorm} req : transactional (SubmitRevisionForReview req).
Proof. unfold SubmitRevisionForReview. phases_tac. Qed.

(** ** The effect of a successful submission *)

(** The stage rows for the identifiers [ids]. *)
Fixpoint pure_stages (instanceID : string) (now : Time) (first : bool) (ids : list string)
    (stages : list Stage) : list StageInstance :=
  match ids, stages with
  | id :: ids, st :: rest =>
      new_stage instanceID id first now st :: pure_stages instanceID now false ids rest
  | _, _ => []
  end.

Lemma build_stages_ok i now first l w r w' :
  build_stages i now first l w = (inr r, w') ->
  exists ids, length ids = length l /\ r = pure_stages i now first ids l /\
    w_tx w' = w_tx w /\ w_db w' = w_db w.
Proof.
  revert first w r w'. induction l as [|st l IH]; intros first w r w'; simpl; intros H; run_inv.
  - by exists [].
  - match goal with H : build_stages _ _ _ _ _ = _ |- _ => apply IH in H as (ids & ? & -> & ? & ?) end.
    eexists (_ :: ids). split_and!; [by simpl; f_equal|done|congruence|congruence].
Qed.

Lemma loadRoute_ok t r w route w' tx :
  loadRoute t r w = (inr route, w') -> w_tx w = Some tx ->
  rt_Stages route = route_stages r (tx_db tx) /\ w_tx w' = Some tx /\ w_db w' = w_db w.
Proof. unfold loadRoute. intros H Ht. run_inv. split_and!; [done|done|congruence]. Qed.

Ltac svc_hook ::=
  match goal with
  | H : loadRoute _ _ ?w = (inr _, _), Ht : w_tx ?w = Some _ |- _ =>
      apply (loadRoute_ok _ _ _ _ _ _ H) in Ht as (? & ? & ?); clear H; tx_trans
  | H : build_stages _ _ _ _ _ = (inr _, _) |- _ =>
      apply build_stages_ok in H as (? & ? & ? & ? & ?); tx_trans
  end.

Definition submit_cond (req : SubmitRequest) (d : Document) : bool :=
  doc_is (sr_DocumentID req) (sr_TenantID req) d && doc_has_status StateDraft d &&
  doc_has_revision (sr_RevisionVersion req) d.

(** One instance in progress and its stages are added, the document moves to
    [under_review]; [ids] and [now] are the fresh identifiers and the clock. *)
Definition submitted (req : SubmitRequest) (id : string) (db db' : DB) : Prop :=
  exists row ids now docs evs g,
    ai_id row = id /\ ai_tenant_id row = sr_TenantID req /\
    ai_document_v2_id row = sr_DocumentID req /\ ai_submitted_by row = sr_SubmittedBy req /\
    ai_status row = InstanceInProgress /\
    (forall x, x ∈ approval_instances db -> ai_id x <> id /\
       (ai_status x = InstanceInProgress -> ai_document_v2_id x <> sr_DocumentID req)) /\
    (exists route, rt_Stages route = route_stages (sr_RouteID req) db /\ route_ok route) /\
    length ids = length (route_stages (sr_RouteID req) db) /\
    Forall2 (doc_updated (submit_cond req) (set_status_bump StateUnderReview) g) (documents db) docs /\
    bcount (submit_cond req) (documents db) <> 0%nat /\
    documents db' = docs /\
    approval_instances db' = approval_instances db ++ [row] /\
    approval_stage_instances db' =
      approval_stage_instances db ++ (row_of_stage <$> pure_stages id now true ids (route_stages (sr_RouteID req) db)) /\
    approval_signoffs db' = approval_signoffs db /\
    governance_events db' = governance_events db ++ evs.

Lemma submit_ok `{UnicodeNorm} req w r w' :
  SubmitRevisionForReview req w = (inr r, w') ->
  submitted req (sres_InstanceID r) (w_db w) (w_db w') /\ w_tx w' = None.
Proof.
  unfold SubmitRevisionForReview, submit_document. intros Hrun. svc_inv. split; [|done]. db_norm.
  match goal with Hi : insert_instance ?r _ _ _ = _ |- _ =>
    apply insert_instance_ok in Hi as (evs & _ & -> & Hfresh); set (row := r) in * end.
  match goal with Hd : update_documents _ _ _ _ _ = _ |- _ =>
    destruct (update_documents_ok _ _ _ _ _ _ _ Hd) as (docs & -> & HF & ->); clear Hd end.
  match goal with Hv : Validate ?r = inr ?u |- _ => destruct u; apply Validate_ok in Hv as Hroute end.
  match goal with He : w_db w' = _ |- _ => rewrite He; clear He end.
  match goal with Hl : length ?ids = length _, Hs : rt_Stages _ = _ |- _ =>
    rename ids into ids0; rename Hl into Hids; rename Hs into Hstages end.
  simplify_eq. simpl in *.
  eexists row, ids0, _, docs, _, _. split_and!; try done.
  - intros y Hy. apply Hfresh in Hy as (Hy1 & _ & Hy2). split; [done|]. by apply Hy2.
  - match goal with Hr : route_ok ?r |- _ => exists r end. split; [exact Hstages|exact Hroute].
  - congruence.
  - match goal with Hn : (Z.of_nat ?n =? 0) = false |- _ => apply Z.eqb_neq in Hn end.
    unfold submit_cond. lia.
  - by rewrite Hstages.
  - simpl. by rewrite <- app_assoc.
Qed.
