(* ===== verification/Decision.v ===== *)
(** * Decisions

    [application/decision_service.go]: [RecordSignoff] records one vote on the
    active stage of an instance, evaluates the quorum, and closes the stage,
    the instance and the document in the same transaction. The two
    collaborators, [FreezeInvoker] and [PDFDispatchInvoker], are interfaces of
    the Go code: records of operations here, with the laws the service relies
    on in the classes [FreezeLaws] and [DispatchLaws]. *)
From S2P Require Import Prelude Tables ApprovalDomain ApprovalFacts Database Schema TxLogic Authz.
From S2P Require Import ApprovalRepo ContentHash.
Import DocStates Routes Signoffs Instances Quorums.
Local Open Scope Z_scope.

(** ** Collaborators *)

Record ApproverContext := mkApproverContext {
  ac_UserID : string;
  ac_Capabilities : list string
}.

Record FreezeInvoker := mkFreezeInvoker {
  Freeze : string -> string -> ApproverContext -> M unit
}.

Record PDFDispatchInvoker := mkPDFDispatchInvoker {
  Dispatch : string -> string -> M unit
}.

(** [noopFreezeInvoker] of [apps/api/cmd/metaldocs-api/main.go]. *)
Definition noopFreezeInvoker : FreezeInvoker := mkFreezeInvoker (fun _ _ _ => mret tt).

(** A freeze may fill in [values_frozen_at] (and the columns of the values
    and of the final file, which are not modelled) and nothing else. *)
Definition frozen (d d' : Document) : Prop :=
  d' = mkDocument (d_id d) (d_tenant_id d) (d_status d) (d_revision_version d) (d_created_by d)
         (d_process_area_code_snapshot d) (d_controlled_document_id d) (d_effective_from d)
         (d_snapshot d) (d_values_frozen_at d').

Definition db_frozen (db db' : DB) : Prop :=
  exists docs, db' = set_documents docs db /\ Forall2 frozen (documents db) docs.

Class FreezeLaws (f : FreezeInvoker) : Prop := {
  Freeze_in_tx t r a w tx :
    w_tx w = Some tx ->
    exists tx', w_tx (snd (Freeze f t r a w)) = Some tx' /\
      w_db (snd (Freeze f t r a w)) = w_db w /\
      db_frozen (tx_db tx) (tx_db tx') /\ tx_guc tx' = tx_guc tx;
  Freeze_no_tx t r a w :
    w_tx w = None ->
    w_tx (snd (Freeze f t r a w)) = None /\ w_db (snd (Freeze f t r a w)) = w_db w
}.

(** The PDF dispatcher runs after the commit, on its own connection. *)
Class DispatchLaws (p : PDFDispatchInvoker) : Prop := {
  Dispatch_outside t r w :
    w_tx (snd (Dispatch p t r w)) = w_tx w /\ w_db (snd (Dispatch p t r w)) = w_db w
}.

(** ** Requests *)

Record SignoffRequest := mkSignoffRequest {
  sg_TenantID : string;
  sg_InstanceID : string;
  sg_StageInstanceID : string;
  sg_ActorUserID : string;
  sg_Decision : string;
  sg_Comment : string;
  sg_SignatureMethod : string;
  sg_SignaturePayload : list (string * Any);
  sg_ContentFormData : list (string * Any);
  sg_Capabilities : list string
}.

Record SignoffResult := mkSignoffResult {
  StageCompleted_ : bool;
  InstanceApproved_ : bool;
  InstanceRejected_ : bool
}.

Definition empty_result : SignoffResult := mkSignoffResult false false false.

(** ** Signoff queries *)

Definition scanSignoffs (rows : list Signoff) : Result (list Signoff) :=
  foldr (fun row acc =>
    match NewSignoff row with
    | inl e => inl (Wrapf "scan signoff %s: %w" [AStr (so_ID row)] e)
    | inr s =>
        match acc with
        | inl e => inl e
        | inr l => inr (s :: l)
        end
    end) (inr []) rows.

Definition prior_rows (tenantID instanceID activeStageID : string) (db : DB) : list Signoff :=
  order_by so_SignedAt
    (bfilter (fun s =>
       str_eqb (so_ApprovalInstanceID s) instanceID &&
       negb (str_eqb (so_StageInstanceID s) activeStageID) &&
       str_eqb (so_ActorTenantID s) tenantID) (approval_signoffs db)).

Definition loadPriorSignoffs (tenantID instanceID activeStageID : string) : M (list Signoff) :=
  rows ← query (prior_rows tenantID instanceID activeStageID);
  lift (scanSignoffs rows).

Definition stage_rows (stageInstanceID : string) (db : DB) : list Signoff :=
  order_by so_SignedAt
    (bfilter (fun s => str_eqb (so_StageInstanceID s) stageInstanceID) (approval_signoffs db)).

Definition loadStageSignoffs (stageInstanceID : string) : M (list Signoff) :=
  rows ← query (stage_rows stageInstanceID);
  lift (scanSignoffs rows).

Definition decided (d : Decision) (s : Signoff) : bool := bool_decide (so_Decision s = d).

Definition splitSignoffs (all : list Signoff) : list Signoff * list Signoff :=
  (bfilter (decided DecisionApprove) all, bfilter (decided DecisionReject) all).

(** The denominator of step 10. *)
Definition decision_denominator (activeStage : StageInstance) : Z :=
  let d := ComputeEffectiveDenominator activeStage (si_EligibleActorIDs activeStage) in
  let d := if d =? 0 then Zlength (si_EligibleActorIDs activeStage) else d in
  if d =? 0 then 1 else d.

Definition decision_outcome (activeStage : StageInstance) (all : list Signoff) : QuorumOutcome :=
  let '(approvals, rejections) := splitSignoffs all in
  EvaluateQuorum activeStage approvals rejections (decision_denominator activeStage).

(** [UPDATE documents SET status = 'approved' ... WHERE under_review]. *)
Definition approve_document (tenantID documentID : string) : GUCs -> Time -> DB -> Result (Z * DB) :=
  update_documents (fun d => doc_is documentID tenantID d && doc_has_status StateUnderReview d)
    (set_status_bump StateApproved).

Definition decision_load_error (e : Error) : Error :=
  if errors_Is e ErrNoRows then wrap "recordSignoff: %w" ErrNoActiveInstance
  else wrap "recordSignoff: load instance: %w" e.

Definition decision_insert_error (e : Error) : Error :=
  if errors_Is e ApprovalRepo.ErrActorAlreadySigned then e
  else wrap "recordSignoff: insert signoff: %w" e.

Section decision.
Context `{UnicodeNorm} (freezeInvoker : option FreezeInvoker)
  (pdfDispatcher : option PDFDispatchInvoker).

(** Steps 1 and 2. *)
Definition signoff_hash (req : SignoffRequest) : Result string :=
  match ValidateEventPayload (sg_SignaturePayload req) with
  | inl e => inl e
  | inr _ =>
      match ComputeContentHash (mkContentHashInput (sg_TenantID req) (sg_InstanceID req) 0
              (sg_ContentFormData req) "" "") with
      | inl e => inl (wrap "recordSignoff: content hash: %w" e)
      | inr h => inr h
      end
  end.

(** The freeze of the approve path. *)
Definition invoke_freeze (tenantID documentID : string) (approver : ApproverContext) : M unit :=
  match freezeInvoker with
  | None => rollback_return (Errorf "recordSignoff: freezeInvoker not configured" [])
  | Some f => or_rollback (wrap "recordSignoff: freeze: %w") (Freeze f tenantID documentID approver)
  end.

(** The approve branch of step 11. *)
Definition stage_approved (req : SignoffRequest) (now advance_now : Time)
    (activeStage : StageInstance) (instance : ApprovalInstance) : M SignoffResult :=
  let tenant := sg_TenantID req in
  or_rollback (wrap "recordSignoff: complete stage: %w")
    (UpdateStageStatus tenant (si_ID activeStage) StageCompleted StageActive) ;;
  instance ← or_rollback (wrap "recordSignoff: advance stage: %w")
               (lift (AdvanceStage advance_now instance));
  if bool_decide (in_Status instance = InstanceApproved) then
    or_rollback (wrap "recordSignoff: complete instance: %w")
      (UpdateInstanceStatus tenant (sg_InstanceID req) InstanceApproved InstanceInProgress
         (Some now)) ;;
    invoke_freeze tenant (in_DocumentID instance)
      (mkApproverContext (sg_ActorUserID req) (sg_Capabilities req)) ;;
    or_rollback (wrap "recordSignoff: approve document: %w")
      (exec (approve_document tenant (in_DocumentID instance))) ;;
    mret (mkSignoffResult true true false)
  else
    match Active instance with
    | Some nextStage =>
        or_rollback (wrap "recordSignoff: activate next stage: %w")
          (UpdateStageStatus tenant (si_ID nextStage) StageActive StagePending)
    | None => mret tt
    end ;;
    mret (mkSignoffResult true false false).

(** The reject branch of step 11: the document is not touched. *)
Definition stage_rejected (req : SignoffRequest) (now : Time) (activeStage : StageInstance)
    : M SignoffResult :=
  let tenant := sg_TenantID req in
  or_rollback (wrap "recordSignoff: reject stage: %w")
    (UpdateStageStatus tenant (si_ID activeStage) StageRejectedHere StageActive) ;;
  or_rollback (wrap "recordSignoff: reject instance: %w")
    (UpdateInstanceStatus tenant (sg_InstanceID req) InstanceRejected InstanceInProgress
       (Some now)) ;;
  mret (mkSignoffResult false false true).

Definition signoff_event (req : SignoffRequest) (activeStage : StageInstance)
    (contentHash : string) : GovernanceEvent :=
  mkGovernanceEvent (sg_TenantID req) "signoff_recorded" (sg_ActorUserID req)
    "approval_instance" (sg_InstanceID req) ""
    [("instance_id", AStr (sg_InstanceID req)); ("stage_instance_id", AStr (si_ID activeStage));
     ("decision", AStr (sg_Decision req)); ("content_hash", AStr contentHash)].

(** Steps 9 to 13, after a fresh signoff was inserted. *)
Definition evaluate_stage (req : SignoffRequest) (contentHash : string) (now : Time)
    (activeStage : StageInstance) (instance : ApprovalInstance) : M SignoffResult :=
  all ← or_rollback (wrap "recordSignoff: load stage signoffs: %w")
          (loadStageSignoffs (si_ID activeStage));
  result ←
    match decision_outcome activeStage all with
    | QuorumApprovedStage =>
        advance_now ← Now;
        stage_approved req now advance_now activeStage instance
    | QuorumRejectedStage => stage_rejected req now activeStage
    | QuorumPending => mret empty_result
    end;
  or_rollback (wrap "recordSignoff: emit event: %w")
    (Emit (signoff_event req activeStage contentHash)) ;;
  map_err (wrap "recordSignoff: commit: %w") Commit ;;
  (if InstanceApproved_ result then
     match pdfDispatcher with
     | Some p => ignore_error (Dispatch p (sg_TenantID req) (in_DocumentID instance))
     | None => mret tt
     end
   else mret tt) ;;
  mret result.

(** [marshalSignaturePayload]; a nil or empty map is [{}]. *)
Definition marshalSignaturePayload (payload : list (string * Any)) : Result string :=
  match payload with
  | [] => inr "{}"
  | _ => json_Marshal (AnyMap payload)
  end.

Definition signoff_params (req : SignoffRequest) (id contentHash sigPayload : string) (now : Time)
    (activeStage : StageInstance) : Signoff :=
  mkSignoff id (sg_InstanceID req) (si_ID activeStage) (sg_ActorUserID req) (sg_TenantID req)
    (Decision_of (sg_Decision req)) (sg_Comment req) now (sg_SignatureMethod req)
    (Some sigPayload) contentHash.

Definition RecordSignoff (req : SignoffRequest) : M SignoffResult :=
  let tenant := sg_TenantID req in
  let actor := sg_ActorUserID req in
  contentHash ← lift (signoff_hash req);
  map_err (wrap "recordSignoff: begin tx: %w") BeginTx ;;
  or_rollback (wrap "recordSignoff: %w") (setAuthzGUC tenant actor) ;;
  instance ← or_rollback decision_load_error (LoadInstance tenant (sg_InstanceID req));
  if negb (bool_decide (in_Status instance = InstanceInProgress)) then
    rollback_return ErrInstanceCompleted
  else
  areaCode ← or_rollback (wrap "recordSignoff: load document area: %w")
               (loadDocumentAreaCode tenant (in_DocumentID instance));
  or_rollback same (Require None "doc.signoff" areaCode) ;;
  match Active instance with
  | None => rollback_return ErrNoActiveStage
  | Some activeStage =>
      if negb (str_eqb (sg_StageInstanceID req) "") &&
         negb (str_eqb (si_ID activeStage) (sg_StageInstanceID req))
      then rollback_return ErrStageNotActive
      else
      prior ← or_rollback (wrap "recordSignoff: load prior signoffs: %w")
                (loadPriorSignoffs tenant (sg_InstanceID req) (si_ID activeStage));
      or_rollback same (lift (CheckSoD (in_SubmittedBy instance) actor prior)) ;;
      sigPayload ← or_rollback (wrap "recordSignoff: marshal signature payload: %w")
                     (lift (marshalSignaturePayload (sg_SignaturePayload req)));
      now ← Now;
      id ← NewUUID;
      signoff ← or_rollback (wrap "recordSignoff: build signoff: %w")
                  (lift (NewSignoff (signoff_params req id contentHash sigPayload now activeStage)));
      insertResult ← or_rollback decision_insert_error (InsertSignoff signoff);
      if sir_WasReplay insertResult then
        map_err (wrap "recordSignoff: commit replay: %w") Commit ;;
        mret empty_result
      else evaluate_stage req contentHash now activeStage instance
  end.

End decision.

(** ** Facts *)

#[export] Instance noopFreeze_laws : FreezeLaws noopFreezeInvoker.
Proof.
  split; [|done]. intros t r a w tx H. exists tx. split_and!; try done.
  exists (documents (tx_db tx)). split; [by destruct (tx_db tx)|].
  induction (documents (tx_db tx)) as [|d l IH]; constructor; [by destruct d|done].
Qed.

Lemma phases_loadPriorSignoffs t i s : phases Within (loadPriorSignoffs t i s) Within Within.
Proof. unfold loadPriorSignoffs. phases_tac. Qed.
Lemma phases_loadStageSignoffs s : phases Within (loadStageSignoffs s) Within Within.
Proof. unfold loadStageSignoffs. phases_tac. Qed.
#[export] Hint Resolve phases_loadPriorSignoffs phases_loadStageSignoffs : phases.

Lemma phases_Freeze f `{!FreezeLaws f} t r a : phases Within (Freeze f t r a) Within Within.
Proof.
  intros db0 w [[tx Ht] Hd]. destruct (Freeze_in_tx t r a w tx Ht) as (tx' & H1 & H2 & _).
  destruct (Freeze f t r a w) as [[e|[]] w']; simpl in *; split; congruence || eauto.
Qed.

Lemma phases_Dispatch p `{!DispatchLaws p} t r : phases After (ignore_error (Dispatch p t r)) After Before.
Proof. intros db0 w Hw. simpl. by rewrite (proj1 (Dispatch_outside t r w)). Qed.

#[export] Hint Resolve phases_Freeze phases_Dispatch : phases.

(** Laws of the optional collaborators. *)
Definition freeze_lawful (o : option FreezeInvoker) : Prop :=
  match o with Some f => FreezeLaws f | None => True end.
Definition dispatch_lawful (o : option PDFDispatchInvoker) : Prop :=
  match o with Some p => DispatchLaws p | None => True end.

Section transactional.
Context `{UnicodeNorm} (fi : option FreezeInvoker) (pd : option PDFDispatchInvoker)
  (Hf : freeze_lawful fi) (Hp : dispatch_lawful pd).

Lemma phases_invoke_freeze t d a : phases Within (invoke_freeze fi t d a) Within Before.
Proof. unfold invoke_freeze. destruct fi; phases_tac. Qed.

Lemma phases_stage_approved req now adv s i :
  phases Within (stage_approved fi req now adv s i) Within Before.
Proof. unfold stage_approved. pose proof phases_invoke_freeze. phases_tac. Qed.

Lemma phases_evaluate_stage req h now s i :
  phases Within (evaluate_stage fi pd req h now s i) After Before.
Proof.
  unfold evaluate_stage, stage_rejected. pose proof phases_stage_approved.
  phases_tac; destruct pd; phases_tac.
Qed.

Lemma phases_RecordSignoff req : transactional (RecordSignoff fi pd req).
Proof. unfold RecordSignoff. pose proof phases_evaluate_stage. phases_tac. Qed.

End transactional.

(** ** Effects of a successful call *)

Lemma Freeze_ok f `{!FreezeLaws f} t r a u w w' tx :
  Freeze f t r a w = (inr u, w') -> w_tx w = Some tx ->
  exists tx', w_tx w' = Some tx' /\ w_db w' = w_db w /\ db_frozen (tx_db tx) (tx_db tx').
Proof.
  intros H Ht. destruct (Freeze_in_tx t r a w tx Ht) as (tx' & H1 & H2 & H3 & _).
  rewrite H in *. eauto.
Qed.

Definition approve_cond (t d : string) (x : Document) : bool :=
  doc_is d t x && doc_has_status StateUnderReview x.

(** The approve branch: the stage is completed; either it was the last one,
    and the instance and the document are approved, or the next one opens. *)
Definition stage_closed (req : SignoffRequest) (a : StageInstance) (inst : ApprovalInstance)
    (db db' : DB) (res : SignoffResult) : Prop :=
  exists now adv inst',
    let t := sg_TenantID req in
    let stages1 := mark_stage t (si_ID a) StageCompleted StageActive now db
                     <$> approval_stage_instances db in
    AdvanceStage adv inst = inr inst' /\
    approval_signoffs db' = approval_signoffs db /\
    governance_events db' = governance_events db /\
    ((in_Status inst' = InstanceApproved /\ res = mkSignoffResult true true false /\
      (exists done_at, approval_instances db' =
         (fun r => if instance_matches t (sg_InstanceID req) InstanceInProgress r
                   then ai_set_status InstanceApproved (Some done_at) r else r)
           <$> approval_instances db) /\
      approval_stage_instances db' = stages1 /\
      (exists docs1 g, Forall2 frozen (documents db) docs1 /\
         Forall2 (doc_updated (approve_cond t (in_DocumentID inst')) (set_status_bump StateApproved) g)
           docs1 (documents db'))) \/
     (in_Status inst' <> InstanceApproved /\ res = mkSignoffResult true false false /\
      approval_instances db' = approval_instances db /\ documents db' = documents db /\
      match Active inst' with
      | None => approval_stage_instances db' = stages1
      | Some next =>
          exists now', approval_stage_instances db' =
            mark_stage t (si_ID next) StageActive StagePending now' (set_stage_instances stages1 db)
              <$> stages1
      end)).

(** The reject branch: stage and instance are closed, documents untouched. *)
Definition stage_refused (req : SignoffRequest) (a : StageInstance) (db db' : DB)
    (res : SignoffResult) : Prop :=
  exists now done_at,
    let t := sg_TenantID req in
    res = mkSignoffResult false false true /\
    approval_signoffs db' = approval_signoffs db /\
    governance_events db' = governance_events db /\
    documents db' = documents db /\
    approval_instances db' =
      (fun r => if instance_matches t (sg_InstanceID req) InstanceInProgress r
                then ai_set_status InstanceRejected (Some done_at) r else r)
        <$> approval_instances db /\
    approval_stage_instances db' =
      mark_stage t (si_ID a) StageRejectedHere StageActive now db <$> approval_stage_instances db.

(** Steps 9 to 11, by the outcome of the quorum on the votes of the stage. *)
Definition stage_evaluated (req : SignoffRequest) (a : StageInstance) (inst : ApprovalInstance)
    (db db' : DB) (res : SignoffResult) : Prop :=
  exists votes, scanSignoffs (stage_rows (si_ID a) db) = inr votes /\
    match decision_outcome a votes with
    | QuorumApprovedStage => stage_closed req a inst db db' res
    | QuorumRejectedStage => stage_refused req a db db' res
    | QuorumPending => db' = db /\ res = empty_result
    end.

(** A vote was recorded: who may vote, what is stored, and what follows. *)
Definition vote_recorded (req : SignoffRequest) (row : InstanceRow) (a : StageInstance)
    (vote : Signoff) (db : DB) : Prop :=
  instance_row (sg_TenantID req) (sg_InstanceID req) db = Some row /\
  ai_status row = InstanceInProgress /\
  Active (instance_of_row row (stages_of (ai_id row) db)) = Some a /\
  sg_ActorUserID req <> ai_submitted_by row /\
  (exists prior, scanSignoffs (prior_rows (sg_TenantID req) (sg_InstanceID req) (si_ID a) db)
                   = inr prior /\ sg_ActorUserID req ∉ actors prior) /\
  signoff_ok vote /\ signoff_inserted vote db /\
  so_ApprovalInstanceID vote = sg_InstanceID req /\ so_StageInstanceID vote = si_ID a /\
  so_ActorUserID vote = sg_ActorUserID req /\ so_Decision vote = Decision_of (sg_Decision req) /\
  exists p, marshalSignaturePayload (sg_SignaturePayload req) = inr p /\
    so_SignaturePayload vote = Some p.

Definition recorded (req : SignoffRequest) (db db' : DB) (res : SignoffResult) : Prop :=
  exists row a vote evs db2,
    vote_recorded req row a vote db /\
    stage_evaluated req a (instance_of_row row (stages_of (ai_id row) db))
      (set_signoffs (approval_signoffs db ++ [vote]) (append_events evs db)) db2 res /\
    exists ev, db' = append_events [ev] db2.

(** Or the vote was already there, and nothing but an audit event is added. *)
Definition replayed (db db' : DB) (res : SignoffResult) : Prop :=
  res = empty_result /\ exists evs, db' = append_events evs db.

Section effects.
Context `{UN : UnicodeNorm} (fi : option FreezeInvoker) (pd : option PDFDispatchInvoker)
  (Hf : freeze_lawful fi) (Hp : dispatch_lawful pd).

Lemma invoke_freeze_ok t d a u w w' tx :
  invoke_freeze fi t d a w = (inr u, w') -> w_tx w = Some tx ->
  exists tx', w_tx w' = Some tx' /\ w_db w' = w_db w /\ db_frozen (tx_db tx) (tx_db tx').
Proof.
  unfold invoke_freeze. destruct fi as [f|]; [|done]. simpl in Hf. intros H Ht.
  apply or_rollback_ok in H. by eapply Freeze_ok.
Qed.

Lemma stage_approved_ok req now adv a i w res w' tx :
  stage_approved fi req now adv a i w = (inr res, w') -> w_tx w = Some tx ->
  exists tx', w_tx w' = Some tx' /\ w_db w' = w_db w /\
    stage_closed req a i (tx_db tx) (tx_db tx') res.
Proof.
  unfold stage_approved, approve_document. intros H Ht. svc_inv.
  - match goal with H : invoke_freeze _ _ _ _ ?w0 = _, Ht : w_tx ?w0 = Some _ |- _ =>
      apply (invoke_freeze_ok _ _ _ _ _ _ _ H) in Ht as (tx1 & Htx1 & ? & docs1 & Hdb1 & HF1) end.
    svc_inv.
    match goal with H : update_documents _ _ _ _ _ = _ |- _ =>
      destruct (update_documents_ok _ _ _ _ _ _ _ H) as (docs2 & -> & HF2 & _) end.
    eexists. split_and!; [eassumption|congruence|]. rewrite Hdb1 in *. simpl in *.
    eexists _, _, _. split_and!; [eassumption|done|done|]. left. bool_to_prop.
    split_and!; eauto.
  - bool_to_prop. eexists. split_and!; [eassumption|congruence|]. simpl.
    eexists _, _, _. split_and!; [eassumption|done|done|]. right.
    split_and!; try done.
    match goal with H : Active _ = _ |- _ => rewrite H end. eauto.
  - bool_to_prop. eexists. split_and!; [eassumption|congruence|]. simpl.
    eexists _, _, _. split_and!; [eassumption|done|done|]. right.
    split_and!; try done.
    by match goal with H : Active _ = _ |- _ => rewrite H end.
Qed.

Lemma stage_rejected_ok req now a w res w' tx :
  stage_rejected req now a w = (inr res, w') -> w_tx w = Some tx ->
  exists tx', w_tx w' = Some tx' /\ w_db w' = w_db w /\
    stage_refused req a (tx_db tx) (tx_db tx') res.
Proof.
  unfold stage_rejected. intros H Ht. svc_inv. eexists. split_and!; [eassumption|congruence|].
  simpl. eexists _, _. split_and!; done.
Qed.

Lemma loadStageSignoffs_ok s w l w' tx :
  loadStageSignoffs s w = (inr l, w') -> w_tx w = Some tx ->
  scanSignoffs (stage_rows s (tx_db tx)) = inr l /\ w_tx w' = Some tx /\ w_db w' = w_db w.
Proof. unfold loadStageSignoffs. intros H Ht. svc_inv. subst. split_and!; [done|done|congruence]. Qed.

Lemma loadPriorSignoffs_ok t i s w l w' tx :
  loadPriorSignoffs t i s w = (inr l, w') -> w_tx w = Some tx ->
  scanSignoffs (prior_rows t i s (tx_db tx)) = inr l /\ w_tx w' = Some tx /\ w_db w' = w_db w.
Proof. unfold loadPriorSignoffs. intros H Ht. svc_inv. subst. split_and!; [done|done|congruence]. Qed.

(** The end of the method leaves what was evaluated, plus the event. *)
Lemma finish_ok req h a i res w res' w' tx :
  (or_rollback (wrap "recordSignoff: emit event: %w") (Emit (signoff_event req a h)) ;;
   map_err (wrap "recordSignoff: commit: %w") Commit ;;
   (if InstanceApproved_ res then
      match pd with
      | Some p => ignore_error (Dispatch p (sg_TenantID req) (in_DocumentID i))
      | None => mret tt
      end
    else mret tt) ;;
   mret res) w = (inr res', w') -> w_tx w = Some tx ->
  res' = res /\ w_tx w' = None /\ exists ev, w_db w' = append_events [ev] (tx_db tx).
Proof.
  intros H Ht. svc_inv; try (split_and!; eauto; congruence).
  simpl in Hp.
  match goal with Hd : ignore_error (Dispatch _ ?t ?r) ?w0 = _ |- _ =>
    destruct (Dispatch_outside t r w0) as [E1 E2]; injection Hd as _ <- end.
  rewrite E1, E2. split_and!; eauto.
Qed.

Lemma evaluate_stage_ok req h now a i w res w' tx :
  evaluate_stage fi pd req h now a i w = (inr res, w') -> w_tx w = Some tx ->
  w_tx w' = None /\
  exists db2, stage_evaluated req a i (tx_db tx) db2 res /\
    exists ev, w_db w' = append_events [ev] db2.
Proof.
  unfold evaluate_stage. intros H Ht.
  apply bind_ok in H as (votes & w1 & H1 & H). apply or_rollback_ok in H1.
  apply (loadStageSignoffs_ok _ _ _ _ _ H1) in Ht as (Hv & Ht & _).
  apply bind_ok in H as (res1 & w2 & H2 & H).
  assert (Heval : exists tx2, w_tx w2 = Some tx2 /\
                    stage_evaluated req a i (tx_db tx) (tx_db tx2) res1).
  { unfold stage_evaluated. destruct (decision_outcome a votes) eqn:Ho.
    - apply ret_ok in H2 as [<- <-]. exists tx. split; [done|]. exists votes. by rewrite Ho.
    - apply bind_ok in H2 as (adv & w3 & H3 & H2). apply Now_ok in H3 as [H3 _].
      rewrite Ht in H3. apply (stage_approved_ok _ _ _ _ _ _ _ _ _ H2) in H3 as (tx2 & ? & _ & ?).
      exists tx2. split; [done|]. exists votes. by rewrite Ho.
    - apply (stage_rejected_ok _ _ _ _ _ _ _ H2) in Ht as (tx2 & ? & _ & ?).
      exists tx2. split; [done|]. exists votes. by rewrite Ho. }
  destruct Heval as (tx2 & Ht2 & Heval).
  apply (finish_ok _ _ _ _ _ _ _ _ _ H) in Ht2 as (-> & ? & ev & ?). eauto.
Qed.

End effects.

Ltac svc_hook ::=
  match goal with
  | H : loadPriorSignoffs _ _ _ ?w = (inr _, _), Ht : w_tx ?w = Some _ |- _ =>
      apply (loadPriorSignoffs_ok _ _ _ _ _ _ _ H) in Ht as (? & ? & ?); clear H; tx_trans
  end.

Section record.
Context `{UN : UnicodeNorm} (fi : option FreezeInvoker) (pd : option PDFDispatchInvoker)
  (Hf : freeze_lawful fi) (Hp : dispatch_lawful pd).

(** What a successful [RecordSignoff] did. *)
Lemma RecordSignoff_ok req w res w' :
  RecordSignoff fi pd req w = (inr res, w') ->
  w_tx w' = None /\
  (recorded req (w_db w) (w_db w') res \/ replayed (w_db w) (w_db w') res).
Proof.
  unfold RecordSignoff. intros H. svc_inv; db_norm;
    match goal with Hi : insert_signoff ?v _ _ _ = _, Hb : _ = bool_decide _ |- _ =>
      apply insert_signoff_ok in Hi as (evs & _ & Hi); rename Hi into Hins; rename Hb into Hreplay
    end.
  - (* replay *)
    match goal with Hb : sir_WasReplay _ = true |- _ => rewrite Hb in Hreplay end.
    symmetry in Hreplay. apply bool_decide_eq_true in Hreplay as ->.
    destruct Hins as [(_ & -> & _)|(? & _)]; [|done].
    split; [done|]. right. split; [done|]. eauto.
  - match goal with Hb : sir_WasReplay _ = false |- _ => rewrite Hb in Hreplay end.
    symmetry in Hreplay. apply bool_decide_eq_false in Hreplay.
    destruct Hins as [(? & _)|(-> & -> & Hins)]; [done|].
    match goal with He : evaluate_stage _ _ _ _ _ _ _ ?w0 = _, Ht : w_tx ?w0 = Some _ |- _ =>
      apply (evaluate_stage_ok _ _ Hf Hp _ _ _ _ _ _ _ _ _ He) in Ht as (Hend & db2 & Heval & ev & Hdb)
    end.
    split; [done|]. left. tx_simpl. 
    match goal with Hv : NewSignoff _ = inr ?v |- _ =>
      apply NewSignoff_inv in Hv as (Hok & V1 & V2 & V3 & V4 & V5 & V6 & V7); rename v into vote end.
    match goal with Hc : CheckSoD _ _ _ = inr ?u |- _ => destruct u; apply CheckSoD_ok in Hc as [C1 C2] end.
    simplify_eq. simpl in *. bool_to_prop.
    eexists _, _, (row_of_signoff vote), evs, db2. split; [|split; [exact Heval|by exists ev]].
    split_and!; try eassumption.
    + eexists. split; eassumption.
    + destruct Hok. by split.
    + eexists. split; [eassumption|]. simpl. by rewrite V7.
Qed.

End record.
