(* ===== verification/Cancel.v ===== *)
(** * Cancellation

    [application/cancel_service.go]: [CancelInstance] cancels an instance in
    progress and returns its document to [draft], authorising the
    [under_review -> draft] edge of the transition trigger by a
    transaction-local setting. *)
From S2P Require Import Prelude Tables ApprovalDomain Database Schema TxLogic Authz ApprovalRepo.
Import DocStates Instances.
Local Open Scope Z_scope.

Definition ErrReasonRequired : Error := Sentinel "application.ErrReasonRequired".

Record CancelInput := mkCancelInput {
  ci_TenantID : string;
  ci_InstanceID : string;
  ci_ExpectedRevisionVersion : Z;
  ci_ActorUserID : string;
  ci_Reason : string;
  ci_BypassAuthz : bool
}.

(** [SELECT process_area_code_snapshot ... FOR UPDATE], scanned in a string:
    a NULL area is an error, and so is a missing row. *)
Definition fetch_area_code (documentID tenantID : string) : M string :=
  v ← query_row (fun db => d_process_area_code_snapshot <$>
                   select_one (doc_is documentID tenantID) (documents db));
  scan_string v.

(** [UPDATE approval_stage_instances SET status = 'cancelled' ...]. *)
Definition is_open_stage (instanceID : string) (s : StageInstance) : bool :=
  str_eqb (si_ApprovalInstanceID s) instanceID && (is_active s || is_pending s).

Definition mark_cancelled (s : StageInstance) : StageInstance :=
  si_assign StageCancelled (si_OpenedAt s) (si_CompletedAt s) (si_SkipReason s) s.

Definition cancel_stages (instanceID : string) (g : GUCs) (now : Time) (db : DB) : Result (Z * DB) :=
  match update_where (is_open_stage instanceID) (fun s => inr (mark_cancelled s))
          (approval_stage_instances db) with
  | inl e => inl e
  | inr (n, rows) => inr (n, set_stage_instances rows db)
  end.

(** [UPDATE documents SET status = 'draft' ... WHERE under_review, revision]. *)
Definition revert_document (tenantID documentID : string) (revision : Z)
    : GUCs -> Time -> DB -> Result (Z * DB) :=
  update_documents
    (fun d => doc_is documentID tenantID d && doc_has_status StateUnderReview d &&
              doc_has_revision revision d)
    (set_status_bump StateDraft).

(** The caller's identity, or the bypass token of a system job. *)
Definition cancel_identity (inp : CancelInput) : M unit :=
  if ci_BypassAuthz inp then
    or_rollback (wrap "cancel: set bypass_authz GUC: %w") (set_config (with_bypass_authz "system"))
  else
    or_rollback (wrap "cancel: %w") (setAuthzGUC (ci_TenantID inp) (ci_ActorUserID inp)).

Definition CancelInstance (inp : CancelInput) : M string :=
  let tenant := ci_TenantID inp in
  let instanceID := ci_InstanceID inp in
  if str_eqb (ci_Reason inp) "" then throw ErrReasonRequired
  else
  map_err (wrap "cancel: begin tx: %w") BeginTx ;;
  inst ← or_rollback (wrap "cancel: load instance: %w") (LoadInstance tenant instanceID);
  if negb (bool_decide (in_Status inst = InstanceInProgress)) then
    rollback_return ErrInstanceCompleted
  else
  let docID := in_DocumentID inst in
  areaCode ← or_rollback (wrap "cancel: fetch area_code: %w") (fetch_area_code docID tenant);
  cancel_identity inp ;;
  or_rollback same (Require WithCapCache "workflow.instance.cancel" areaCode) ;;
  or_rollback (wrap "cancel: set cancel GUC: %w") (set_config (with_cancel_in_progress instanceID)) ;;
  now ← Now;
  or_rollback (wrap "cancel: update instance status: %w")
    (UpdateInstanceStatus tenant instanceID InstanceCancelled InstanceInProgress (Some now)) ;;
  or_rollback (wrap "cancel: cancel stages: %w") (exec (cancel_stages instanceID)) ;;
  rows ← or_rollback (wrap "cancel: revert doc to draft: %w")
           (exec (revert_document tenant docID (ci_ExpectedRevisionVersion inp)));
  if rows =? 0 then rollback_return ErrStaleRevision
  else
  or_rollback (wrap "cancel: emit event: %w")
    (Emit (mkGovernanceEvent tenant "approval.instance_cancelled" (ci_ActorUserID inp) "document"
             docID (ci_Reason inp)
             [("instance_id", AStr instanceID); ("reason", AStr (ci_Reason inp))])) ;;
  map_err (wrap "cancel: commit: %w") Commit ;;
  mret docID.

(** ** Facts *)

Lemma phases_fetch_area_code d t : phases Within (fetch_area_code d t) Within Within.
Proof. unfold fetch_area_code. phases_tac. Qed.
#[export] Hint Resolve phases_fetch_area_code : phases.

Lemma phases_cancel_identity inp : phases Within (cancel_identity inp) Within Before.
Proof. unfold cancel_identity. phases_tac. Qed.
#[export] Hint Resolve phases_cancel_identity : phases.

Lemma phases_CancelInstance inp : transactional (CancelInstance inp).
Proof. unfold CancelInstance. phases_tac. Qed.

(** ** The effect of a successful cancellation *)

Definition cancel_cond (inp : CancelInput) (docID : string) (d : Document) : bool :=
  doc_is docID (ci_TenantID inp) d && doc_has_status StateUnderReview d &&
  doc_has_revision (ci_ExpectedRevisionVersion inp) d.

Definition cancelled (inp : CancelInput) (docID : string) (db db' : DB) : Prop :=
  exists row done_at docs g evs,
    instance_row (ci_TenantID inp) (ci_InstanceID inp) db = Some row /\
    ai_status row = InstanceInProgress /\ docID = ai_document_v2_id row /\
    Forall2 (doc_updated (cancel_cond inp docID) (set_status_bump StateDraft) g) (documents db) docs /\
    bcount (cancel_cond inp docID) (documents db) <> 0%nat /\
    documents db' = docs /\
    approval_instances db' =
      (fun r => if instance_matches (ci_TenantID inp) (ci_InstanceID inp) InstanceInProgress r
                then ai_set_status InstanceCancelled (Some done_at) r else r)
        <$> approval_instances db /\
    approval_stage_instances db' =
      (fun s => if is_open_stage (ci_InstanceID inp) s then mark_cancelled s else s)
        <$> approval_stage_instances db /\
    approval_signoffs db' = approval_signoffs db /\
    governance_events db' = governance_events db ++ evs.

Lemma cancel_stages_ok i g now db n db' :
  cancel_stages i g now db = inr (n, db') ->
  db' = set_stage_instances ((fun s => if is_open_stage i s then mark_cancelled s else s)
          <$> approval_stage_instances db) db.
Proof.
  unfold cancel_stages. destruct (update_where _ _ _) as [e|[k rows]] eqn:Hu; [done|].
  intros [= <- <-]. apply update_where_ok in Hu as [HF _]. f_equal.
  induction HF as [|s s' l l' Hs _ IH]; [done|]. rewrite fmap_cons. f_equal; [|done].
  unfold updated in Hs. destruct (is_open_stage i s); congruence.
Qed.

Lemma fetch_area_code_ok d t w a w' tx :
  fetch_area_code d t w = (inr a, w') -> w_tx w = Some tx -> w_tx w' = Some tx /\ w_db w' = w_db w.
Proof. unfold fetch_area_code. intros H Ht. run_inv. split; [done|congruence]. Qed.

(** The identity only changes the settings. *)
Lemma cancel_identity_ok inp w u w' tx :
  cancel_identity inp w = (inr u, w') -> w_tx w = Some tx ->
  exists g, w_tx w' = Some (tx_set_guc g tx) /\ w_db w' = w_db w /\
    (ci_BypassAuthz inp = true -> g = with_bypass_authz "system" (tx_guc tx)).
Proof.
  unfold cancel_identity. intros H Ht. destruct (ci_BypassAuthz inp); svc_inv; eauto.
  eexists. split_and!; [eassumption|congruence|done].
Qed.

Ltac svc_hook ::=
  match goal with
  | H : fetch_area_code _ _ ?w = (inr _, _), Ht : w_tx ?w = Some _ |- _ =>
      apply (fetch_area_code_ok _ _ _ _ _ _ H) in Ht as (? & ?); clear H; tx_trans
  | H : cancel_identity _ ?w = (inr _, _), Ht : w_tx ?w = Some _ |- _ =>
      apply (cancel_identity_ok _ _ _ _ _ H) in Ht as (? & ? & ? & ?); clear H; tx_trans
  end.

Lemma cancel_ok inp w docID w' :
  CancelInstance inp w = (inr docID, w') ->
  cancelled inp docID (w_db w) (w_db w') /\ w_tx w' = None.
Proof.
  unfold CancelInstance, revert_document. intros Hrun. svc_inv. split; [|done]. db_norm.
  match goal with Hd : update_documents _ _ _ _ _ = _ |- _ =>
    destruct (update_documents_ok _ _ _ _ _ _ _ Hd) as (docs & -> & HF & ->); clear Hd end.
  match goal with Hs : cancel_stages _ _ _ _ = _ |- _ => apply cancel_stages_ok in Hs as -> end.
  match goal with He : w_db w' = _ |- _ => rewrite He; clear He end.
  match goal with Hn : (Z.of_nat ?n =? 0) = false |- _ => apply Z.eqb_neq in Hn end.
  simplify_eq. simpl in *. bool_to_prop.
  eexists _, _, docs, _, _. split_and!; try done; try eassumption. unfold cancel_cond. lia.
Qed.
