(* ===== verification/Publish.v ===== *)
(** * Publication, supersession, obsolescence, scheduled publication

    [application/publish_service.go], [supersede_service.go],
    [obsolete_service.go] and [scheduler_service.go]. *)
From S2P Require Import Prelude Tables ApprovalDomain Database Schema TxLogic Authz ApprovalRepo Evolve.
From S2P Require Import ContentHash.
Import DocStates Instances.
Local Open Scope Z_scope.

(** ** Publish *)

Definition ErrInstanceNotApproved : Error := Sentinel "application.ErrInstanceNotApproved".
Definition ErrEffectiveDateInPast : Error := Sentinel "application.ErrEffectiveDateInPast".

Record PublishRequest := mkPublishRequest {
  pr_TenantID : string;
  pr_InstanceID : string;
  pr_PublishedBy : string
}.

(** [UPDATE documents SET status = 'published' ... WHERE approved]. *)
Definition publish_document (tenantID documentID : string) : GUCs -> Time -> DB -> Result (Z * DB) :=
  update_documents (fun d => doc_is documentID tenantID d && doc_has_status StateApproved d)
    (set_status_bump StatePublished).

Definition publish_load_error (prefix : string) (e : Error) : Error :=
  if errors_Is e ErrNoRows then ErrNoActiveInstance else wrap prefix e.

(** Steps shared by the two methods: load the instance, check that it is
    approved, identify the caller and require [doc.publish]. *)
Definition load_publishable (fmtLoad fmtGUC fmtArea tenantID instanceID user : string)
    : M ApprovalInstance :=
  instance ← or_rollback (publish_load_error fmtLoad) (LoadInstance tenantID instanceID);
  if negb (bool_decide (in_Status instance = InstanceApproved)) then
    rollback_return ErrInstanceNotApproved
  else
  or_rollback (wrap fmtGUC) (setAuthzGUC tenantID user) ;;
  areaCode ← or_rollback (wrap fmtArea) (loadDocumentAreaCode tenantID (in_DocumentID instance));
  or_rollback same (Require None "doc.publish" areaCode) ;;
  mret instance.

Definition PublishApproved (req : PublishRequest) : M (string * string) :=
  let tenant := pr_TenantID req in
  map_err (wrap "publishApproved: begin tx: %w") BeginTx ;;
  instance ← load_publishable "publishApproved: load instance: %w" "publishApproved: %w"
               "publishApproved: load document area: %w" tenant (pr_InstanceID req)
               (pr_PublishedBy req);
  affected ← or_rollback (wrap "publishApproved: update document state: %w")
               (exec (publish_document tenant (in_DocumentID instance)));
  if affected =? 0 then rollback_return ErrStaleRevision
  else
  _ ← Now;
  or_rollback (wrap "publishApproved: emit event: %w")
    (Emit (mkGovernanceEvent tenant "document_published" (pr_PublishedBy req) "document"
             (in_DocumentID instance) ""
             [("instance_id", AStr (pr_InstanceID req));
              ("revision_version", AInt (in_RevisionVersion instance))])) ;;
  map_err (wrap "publishApproved: commit: %w") Commit ;;
  mret (in_DocumentID instance, "published").

Record SchedulePublishRequest := mkSchedulePublishRequest {
  sp_req_TenantID : string;
  sp_req_InstanceID : string;
  sp_req_EffectiveDate : Time;
  sp_req_ScheduledBy : string
}.

(** [UPDATE documents SET status = 'scheduled', effective_date = $1 ...]. No
    migration gives [documents] a column [effective_date]: the statement is
    rejected when it is parsed, whatever the rows. *)
Definition schedule_document (effectiveDate : Time) (documentID tenantID : string) (revision : Z)
    (g : GUCs) (now : Time) (db : DB) : Result (Z * DB) :=
  inl (undefined_column "column effective_date of relation documents does not exist").

Definition SchedulePublish (req : SchedulePublishRequest) : M (string * Time) :=
  let tenant := sp_req_TenantID req in
  clock ← Now;
  if negb (clock <? sp_req_EffectiveDate req) then throw ErrEffectiveDateInPast
  else
  map_err (wrap "schedulePublish: begin tx: %w") BeginTx ;;
  instance ← load_publishable "schedulePublish: load instance: %w" "schedulePublish: %w"
               "schedulePublish: load document area: %w" tenant (sp_req_InstanceID req)
               (sp_req_ScheduledBy req);
  affected ← or_rollback (wrap "schedulePublish: update document state: %w")
               (exec (schedule_document (sp_req_EffectiveDate req) (in_DocumentID instance) tenant
                        (in_RevisionVersion instance)));
  if affected =? 0 then rollback_return ErrStaleRevision
  else
  _ ← Now;
  or_rollback (wrap "schedulePublish: emit event: %w")
    (Emit (mkGovernanceEvent tenant "publish_scheduled" (sp_req_ScheduledBy req) "document"
             (in_DocumentID instance) ""
             [("effective_date", AStr (format_RFC3339 (sp_req_EffectiveDate req)))])) ;;
  map_err (wrap "schedulePublish: commit: %w") Commit ;;
  mret (in_DocumentID instance, sp_req_EffectiveDate req).

(** ** Supersede *)

Record SupersedeRequest := mkSupersedeRequest {
  su_TenantID : string;
  su_NewDocumentID : string;
  su_PriorDocumentID : string;
  su_SupersededBy : string;
  su_NewRevisionVersion : Z;
  su_PriorRevisionVersion : Z
}.

(** [UPDATE documents SET status = to ... WHERE status = from, revision]. *)
Definition occ_transition (from to : DocState) (tenantID documentID : string) (revision : Z)
    : GUCs -> Time -> DB -> Result (Z * DB) :=
  update_documents
    (fun d => doc_is documentID tenantID d && doc_has_status from d && doc_has_revision revision d)
    (set_status_bump to).

Definition PublishSuperseding (req : SupersedeRequest) : M (string * string) :=
  let tenant := su_TenantID req in
  map_err (wrap "publishSuperseding: begin tx: %w") BeginTx ;;
  or_rollback (wrap "publishSuperseding: %w") (setAuthzGUC tenant (su_SupersededBy req)) ;;
  areaCode ← or_rollback (wrap "publishSuperseding: load document area: %w")
               (loadDocumentAreaCode tenant (su_NewDocumentID req));
  or_rollback same (Require None "doc.supersede" areaCode) ;;
  newAffected ← or_rollback (wrap "publishSuperseding: update new document: %w")
                  (exec (occ_transition StateApproved StatePublished tenant (su_NewDocumentID req)
                           (su_NewRevisionVersion req)));
  if newAffected =? 0 then rollback_return ErrStaleRevision
  else
  priorAffected ← or_rollback (wrap "publishSuperseding: update prior document: %w")
                    (exec (occ_transition StatePublished StateSuperseded tenant
                             (su_PriorDocumentID req) (su_PriorRevisionVersion req)));
  if priorAffected =? 0 then rollback_return ErrStaleRevision
  else
  _ ← Now;
  or_rollback (wrap "publishSuperseding: emit event: %w")
    (Emit (mkGovernanceEvent tenant "document_superseded" (su_SupersededBy req) "document"
             (su_NewDocumentID req) ""
             [("new_document_id", AStr (su_NewDocumentID req));
              ("prior_document_id", AStr (su_PriorDocumentID req))])) ;;
  map_err (wrap "publishSuperseding: commit: %w") Commit ;;
  mret ("published", "superseded").

(** ** Obsolete *)

Definition ErrInvalidObsoleteSource : Error := Sentinel "application.ErrInvalidObsoleteSource".

Record MarkObsoleteRequest := mkMarkObsoleteRequest {
  ob_TenantID : string;
  ob_DocumentID : string;
  ob_MarkedBy : string;
  ob_RevisionVersion : Z;
  ob_Reason : string
}.

(** [SELECT status, revision_version, process_area_code_snapshot]. *)
Definition fetch_document (documentID tenantID : string) : M (DocState * Z * string) :=
  d ← query_row (fun db => select_one (doc_is documentID tenantID) (documents db));
  areaCode ← scan_string (d_process_area_code_snapshot d);
  mret (d_status d, d_revision_version d, areaCode).

(** [UPDATE approval_instances SET status = 'cancelled', completed_at = now()
    WHERE document_v2_id = $1 AND status = 'in_progress']: no tenant clause. *)
Definition cancel_instances_of (documentID : string) (g : GUCs) (now : Time) (db : DB)
    : Result (Z * DB) :=
  update_instances (fun i => str_eqb (ai_document_v2_id i) documentID &&
                             bool_decide (ai_status i = InstanceInProgress))
    InstanceCancelled (Some now) db.

Definition obsolete_load_error (e : Error) : Error :=
  if errors_Is e ErrNoRows then ErrNoActiveInstance else wrap "markObsolete: load document: %w" e.

Definition MarkObsolete (req : MarkObsoleteRequest) : M string :=
  let tenant := ob_TenantID req in
  map_err (wrap "markObsolete: begin tx: %w") BeginTx ;;
  row ← or_rollback obsolete_load_error (fetch_document (ob_DocumentID req) tenant);
  let '(priorStatus, currentRevision, areaCode) := row in
  if negb (bool_decide (priorStatus = StatePublished)) &&
     negb (bool_decide (priorStatus = StateSuperseded))
  then rollback_return ErrInvalidObsoleteSource
  else
  or_rollback (wrap "markObsolete: %w") (setAuthzGUC tenant (ob_MarkedBy req)) ;;
  or_rollback same (Require None "doc.obsolete" areaCode) ;;
  affected ← or_rollback (wrap "markObsolete: update document: %w")
               (exec (occ_transition priorStatus StateObsolete tenant (ob_DocumentID req)
                        (ob_RevisionVersion req)));
  if affected =? 0 then rollback_return ErrStaleRevision
  else
  or_rollback (wrap "markObsolete: cancel approval instance: %w")
    (exec (cancel_instances_of (ob_DocumentID req))) ;;
  _ ← Now;
  or_rollback (wrap "markObsolete: emit event: %w")
    (Emit (mkGovernanceEvent tenant "document_obsoleted" (ob_MarkedBy req) "document"
             (ob_DocumentID req) (ob_Reason req)
             [("reason", AStr (ob_Reason req));
              ("prior_status", AStr (DocState_String priorStatus))])) ;;
  map_err (wrap "markObsolete: commit: %w") Commit ;;
  mret (DocState_String priorStatus).

(** ** Scheduler *)

Definition schedulerBatchLimit : nat := 50.

(** [row.EffectiveFrom.Format("2006-01-02T15:04:05Z")], for an instant read
    back in UTC. *)
Definition published_event (row : ScheduledPublishRow) : GovernanceEvent :=
  mkGovernanceEvent (sp_TenantID row) "document_published" "scheduler" "document"
    (sp_DocumentID row) "scheduled publish"
    [("revision_version", AInt (wrap64 (sp_RevisionVersion row + 1)));
     ("effective_date", AStr (format_RFC3339 (sp_EffectiveFrom row)))].

Definition doc_err (fmt : string) (row : ScheduledPublishRow) (e : Error) : Error :=
  Wrapf fmt [AStr (sp_DocumentID row)] e.

Definition processRow (row : ScheduledPublishRow) : M bool :=
  map_err (doc_err "scheduler: begin publish tx for doc %s: %w" row) BeginTx ;;
  or_rollback (doc_err "scheduler: bypass authz for doc %s: %w" row) BypassSystem ;;
  affected ← or_rollback (doc_err "scheduler: update document %s: %w" row)
               (exec (occ_transition StateScheduled StatePublished (sp_TenantID row)
                        (sp_DocumentID row) (sp_RevisionVersion row)));
  if affected =? 0 then
    ignore_error Commit ;; mret false
  else
  or_rollback (doc_err "scheduler: emit event for doc %s: %w" row) (Emit (published_event row)) ;;
  or_rollback (doc_err "scheduler: commit publish tx for doc %s: %w" row) Commit ;;
  mret true.

Record RunDuePublishesResult := mkRunDuePublishesResult {
  rd_Processed : Z;
  rd_Errors : list Error
}.

(** The loop over the fetched rows: an error of one row is collected and the
    next row is tried. *)
Fixpoint process_rows (rows : list ScheduledPublishRow) (result : RunDuePublishesResult)
    : M RunDuePublishesResult :=
  match rows with
  | [] => mret result
  | row :: rest => fun w =>
      match processRow row w with
      | (inl procErr, w') =>
          process_rows rest
            (mkRunDuePublishesResult (rd_Processed result) (rd_Errors result ++ [procErr])) w'
      | (inr published, w') =>
          process_rows rest
            (mkRunDuePublishesResult
               (if published then rd_Processed result + 1 else rd_Processed result)
               (rd_Errors result)) w'
      end
  end.

Definition fetch_due : M (list ScheduledPublishRow) :=
  map_err (wrap "scheduler: begin fetch tx: %w") BeginTx ;;
  now ← Now;
  rows ← or_rollback (wrap "scheduler: fetch due publishes: %w")
           (ListScheduledDue now schedulerBatchLimit);
  map_err (wrap "scheduler: commit fetch tx: %w") Commit ;;
  mret rows.

Definition RunDuePublishes : M RunDuePublishesResult :=
  rows ← fetch_due;
  process_rows rows (mkRunDuePublishesResult 0 []).

(** ** Facts *)

Lemma phases_load_publishable a b c t i u :
  phases Within (load_publishable a b c t i u) Within Before.
Proof. unfold load_publishable. phases_tac. Qed.
#[export] Hint Resolve phases_load_publishable : phases.

Lemma phases_PublishApproved req : transactional (PublishApproved req).
Proof. unfold PublishApproved. phases_tac. Qed.

Lemma phases_SchedulePublish req : transactional (SchedulePublish req).
Proof. unfold SchedulePublish. phases_tac. Qed.

Lemma phases_PublishSuperseding req : transactional (PublishSuperseding req).
Proof. unfold PublishSuperseding. phases_tac. Qed.

Lemma phases_fetch_document d t : phases Within (fetch_document d t) Within Within.
Proof. unfold fetch_document. phases_tac. Qed.
#[export] Hint Resolve phases_fetch_document : phases.

Lemma phases_MarkObsolete req : transactional (MarkObsolete req).
Proof. unfold MarkObsolete. phases_tac. Qed.

Lemma phases_processRow row : transactional (processRow row).
Proof. unfold processRow. phases_tac. Qed.

(** ** Evolution

    Any preorder that does not look at events and admits the document
    statements is respected by the services of this file. *)
Section evolution.
Context (R : DB -> DB -> Prop) `{!PreOrder R, !EventBlind R}.

Lemma evolves_load_publishable a b c t i u : evolves R (load_publishable a b c t i u).
Proof. unfold load_publishable. evolves_tac. Qed.
Local Hint Resolve evolves_load_publishable : evolves.

Lemma evolves_PublishApproved req :
  (forall t d, stmt_evolves R (publish_document t d)) -> evolves R (PublishApproved req).
Proof. intros Hs. unfold PublishApproved. evolves_tac. Qed.

Lemma evolves_SchedulePublish req : evolves R (SchedulePublish req).
Proof. unfold SchedulePublish. evolves_tac. by intros g now db n db'. Qed.

Lemma evolves_PublishSuperseding req :
  (forall t d v, stmt_evolves R (occ_transition StateApproved StatePublished t d v)) ->
  (forall t d v, stmt_evolves R (occ_transition StatePublished StateSuperseded t d v)) ->
  evolves R (PublishSuperseding req).
Proof. intros H1 H2. unfold PublishSuperseding. evolves_tac. Qed.

Lemma evolves_fetch_document d t : evolves R (fetch_document d t).
Proof. unfold fetch_document. evolves_tac. Qed.
Local Hint Resolve evolves_fetch_document : evolves.

Lemma evolves_MarkObsolete req :
  (forall from t d v, from = StatePublished \/ from = StateSuperseded ->
     stmt_evolves R (occ_transition from StateObsolete t d v)) ->
  (forall d, stmt_evolves R (cancel_instances_of d)) ->
  evolves R (MarkObsolete req).
Proof.
  intros Hocc Hcancel.
  unfold MarkObsolete. apply evolves_bind; [tc_solve|evolves_tac|intros _].
  apply evolves_bind; [tc_solve|evolves_tac|intros [[prior rev] area]].
  destruct (negb (bool_decide (prior = StatePublished)) &&
            negb (bool_decide (prior = StateSuperseded))) eqn:Hs; [evolves_tac|].
  assert (Hprior : prior = StatePublished \/ prior = StateSuperseded).
  { apply andb_false_iff in Hs as [Hs|Hs]; apply negb_false_iff, bool_decide_eq_true in Hs; auto. }
  evolves_tac.
Qed.

Section scheduler.
Context (Hdue : forall t d v, stmt_evolves R (occ_transition StateScheduled StatePublished t d v)).

Lemma evolves_processRow row : evolves R (processRow row).
Proof. unfold processRow. evolves_tac. Qed.

Lemma evolves_process_rows rows result : evolves R (process_rows rows result).
Proof.
  revert result. induction rows as [|row rows IH]; intros result; simpl; [evolves_tac|].
  intros w Hw. destruct (evolves_processRow row w Hw) as [H1 H2].
  destruct (processRow row w) as [[e|b] w']; simpl in H1, H2.
  - destruct (IH (mkRunDuePublishesResult (rd_Processed result) (rd_Errors result ++ [e])) w' H2).
    split; [by etrans|done].
  - destruct (IH (mkRunDuePublishesResult
                    (if b then rd_Processed result + 1 else rd_Processed result)
                    (rd_Errors result)) w' H2).
    split; [by etrans|done].
Qed.

Lemma evolves_RunDuePublishes : evolves R RunDuePublishes.
Proof.
  unfold RunDuePublishes, fetch_due. pose proof evolves_process_rows. evolves_tac.
Qed.

End scheduler.

End evolution.
