(* ===== verification/RouteAdmin.v ===== *)
(** * Route administration, membership transactions, legacy cutover

    [application/route_admin_service.go] ([Create], [Update], [Deactivate]),
    [membership_tx.go] and [cutover_service.go]. *)
From S2P Require Import Prelude Tables ApprovalDomain ApprovalFacts Database Schema TxLogic Authz.
From S2P Require Import ApprovalRepo Evolve Submit.
Import DocStates Routes Instances.
Local Open Scope Z_scope.

Definition ErrRouteNotFound : Error := Sentinel "application.ErrRouteNotFound".

Record CreateRouteInput := mkCreateRouteInput {
  cr_TenantID : string;
  cr_ProfileCode : string;
  cr_Name : string;
  cr_ActorUserID : string;
  cr_Stages : list Stage
}.

Record UpdateRouteInput := mkUpdateRouteInput {
  ur_TenantID : string;
  ur_RouteID : string;
  ur_Name : string;
  ur_ActorUserID : string;
  ur_Stages : list Stage
}.

Definition lockRouteForUpdate (tenantID routeID : string) : M unit :=
  map_err (fun e => if errors_Is e ErrNoRows then ErrRouteNotFound
                    else wrap "route_admin: lock route: %w" e)
    (query_row (route_row tenantID routeID)) ;;
  mret tt.

Definition insert_stage_stmt (routeID : string) (st : Stage) (g : GUCs) (now : Time) (db : DB)
    : Result (unit * DB) :=
  match insert_route_stage routeID st db with
  | inl e => inl e
  | inr db' => inr (tt, db')
  end.

Fixpoint insertRouteStages (routeID : string) (stages : list Stage) : M unit :=
  match stages with
  | [] => mret tt
  | st :: rest =>
      map_err (fun e => Wrapf "route_admin: insert stage %d: %w" [AInt (st_Order st)]
                          (MapPgError "" e))
        (exec (insert_stage_stmt routeID st)) ;;
      insertRouteStages routeID rest
  end.

Definition stage_count (stages : list Stage) : FmtArg := AInt (Z.of_nat (length stages)).

(** The common opening: transaction, identity, capability [route.admin]. *)
Definition route_admin_begin (fmt tenantID actor : string) : M unit :=
  map_err (wrap "route_admin: begin tx: %w") BeginTx ;;
  or_rollback (wrap fmt) (setAuthzGUC tenantID actor) ;;
  or_rollback same (Require WithCapCache "route.admin" "tenant") ;;
  mret tt.

(** The common end: governance event and commit. *)
Definition route_admin_finish (ev : GovernanceEvent) : M unit :=
  _ ← Now;
  or_rollback (wrap "route_admin: emit event: %w") (Emit ev) ;;
  map_err (wrap "route_admin: commit: %w") Commit.

Definition Create (inp : CreateRouteInput) : M string :=
  let tenant := cr_TenantID inp in
  route_admin_begin "route_admin create: %w" tenant (cr_ActorUserID inp) ;;
  or_rollback same (lift (Validate (mkRoute "" tenant (cr_ProfileCode inp) 1 (cr_Stages inp)))) ;;
  id ← NewUUID;
  routeID ← or_rollback (fun e => wrap "route_admin: insert route: %w" (MapPgError "" e))
              (exec (insert_route (mkRouteRow id tenant (cr_ProfileCode inp) (cr_Name inp) 1
                                     (cr_ActorUserID inp) true)));
  or_rollback same (insertRouteStages routeID (cr_Stages inp)) ;;
  route_admin_finish
    (mkGovernanceEvent tenant "route.config.created" (cr_ActorUserID inp) "approval_route" routeID ""
       [("route_id", AStr routeID); ("profile_code", AStr (cr_ProfileCode inp));
        ("stage_count", stage_count (cr_Stages inp)); ("initial_state", AStr "active")]) ;;
  mret routeID.

(** [SET name = $1, version = version + 1 ... RETURNING version]. *)
Definition rename_route (name : string) (r : RouteRow) : Result RouteRow :=
  match bump_revision (ar_version r) with
  | inl e => inl e
  | inr v => inr (mkRouteRow (ar_id r) (ar_tenant_id r) (ar_profile_code r) name v
                    (ar_created_by r) (ar_active r))
  end.

Definition update_route_returning (name id tenant : string) (g : GUCs) (now : Time) (db : DB)
    : Result (option Z * DB) :=
  match update_routes id tenant (rename_route name) db with
  | inl e => inl e
  | inr (_, db') => inr (ar_version <$> route_row tenant id db', db')
  end.

(** Errors of the UPDATE: [ErrRouteInUse] passes through. *)
Definition route_update_error (fmt : string) (e : Error) : Error :=
  let mapped := MapPgError "" e in
  if errors_Is mapped ErrRouteInUse then mapped else wrap fmt mapped.

Definition update_route (name id tenant : string) : M Z :=
  r ← exec (update_route_returning name id tenant);
  match r with
  | Some v => mret v
  | None => throw ErrNoRows
  end.

Definition Update (inp : UpdateRouteInput) : M (string * Z) :=
  let tenant := ur_TenantID inp in
  let routeID := ur_RouteID inp in
  route_admin_begin "route_admin update: %w" tenant (ur_ActorUserID inp) ;;
  or_rollback same (lockRouteForUpdate tenant routeID) ;;
  or_rollback same (lift (Validate (mkRoute routeID tenant "" 0 (ur_Stages inp)))) ;;
  newVersion ← or_rollback (route_update_error "route_admin: update route: %w")
                 (update_route (ur_Name inp) routeID tenant);
  or_rollback (wrap "route_admin: delete stages: %w") (exec (delete_route_stages routeID)) ;;
  or_rollback same (insertRouteStages routeID (ur_Stages inp)) ;;
  route_admin_finish
    (mkGovernanceEvent tenant "route.config.updated" (ur_ActorUserID inp) "approval_route" routeID ""
       [("route_id", AStr routeID); ("new_version", AInt newVersion);
        ("stage_count", stage_count (ur_Stages inp))]) ;;
  mret (routeID, newVersion).

(** [SET active = FALSE]. *)
Definition deactivate_row (r : RouteRow) : Result RouteRow :=
  inr (mkRouteRow (ar_id r) (ar_tenant_id r) (ar_profile_code r) (ar_name r) (ar_version r)
         (ar_created_by r) false).

Definition Deactivate (tenant routeID actor : string) : M string :=
  route_admin_begin "route_admin deactivate: %w" tenant actor ;;
  or_rollback same (lockRouteForUpdate tenant routeID) ;;
  or_rollback (route_update_error "route_admin: deactivate route: %w")
    (exec (fun _ _ => update_routes routeID tenant deactivate_row)) ;;
  route_admin_finish
    (mkGovernanceEvent tenant "route.config.deactivated" actor "approval_route" routeID ""
       [("route_id", AStr routeID); ("active", ABool false)]) ;;
  mret routeID.

(** ** [WithMembershipContext]

    The three [SET LOCAL] statements name settings other than the modelled
    ones except [metaldocs.actor_id]; [fn] runs inside the transaction, and
    every error, its own included, rolls back. *)
Definition ErrNoActor : Error := Sentinel "application.ErrNoActor".

Definition WithMembershipContext (actorUserID capability : string) (fn : M unit) : M unit :=
  if str_eqb actorUserID "" then throw ErrNoActor
  else
  map_err (wrap "membership_tx: begin: %w") BeginTx ;;
  or_rollback (wrap "membership_tx: SET LOCAL ROLE: %w") (set_config same_gucs) ;;
  or_rollback (wrap "membership_tx: SET LOCAL actor_id: %w")
    (set_config (with_actor_id actorUserID)) ;;
  or_rollback (wrap "membership_tx: SET LOCAL capability: %w") (set_config same_gucs) ;;
  or_rollback same fn ;;
  or_rollback (wrap "membership_tx: commit: %w") Commit.

(** ** [ValidateLegacyCutoverReady]: one query on the pool, no transaction. *)
Definition ErrLegacyDocumentsRemain : Error := Sentinel "application.ErrLegacyDocumentsRemain".

Definition is_legacy (s : DocState) : bool :=
  match s with
  | StateOther t => str_eqb t "finalized" || str_eqb t "archived"
  | _ => false
  end.

Definition count_legacy (db : DB) : Z :=
  Z.of_nat (bcount (fun d => is_legacy (d_status d)) (documents db)).

Definition pool_query {A} (q : DB -> A) : M A := fun w =>
  match next_fault w with
  | Some e => (inl e, w_pop_fault w)
  | None => (inr (q (w_db w)), w_pop_fault w)
  end.

Definition ValidateLegacyCutoverReady : M unit :=
  count ← map_err (wrap "cutover: count legacy documents: %w") (pool_query count_legacy);
  if 0 <? count then throw (Wrapf "%w (count: %d)" [AInt count] ErrLegacyDocumentsRemain)
  else mret tt.

(** ** Facts *)

Lemma phases_lockRouteForUpdate t r : phases Within (lockRouteForUpdate t r) Within Within.
Proof. unfold lockRouteForUpdate. phases_tac. Qed.
Lemma phases_insertRouteStages r l : phases Within (insertRouteStages r l) Within Within.
Proof. induction l; simpl; phases_tac. Qed.
Lemma phases_route_admin_begin f t a : phases Before (route_admin_begin f t a) Within Before.
Proof. unfold route_admin_begin. phases_tac. Qed.
Lemma phases_route_admin_finish ev : phases Within (route_admin_finish ev) After Before.
Proof. unfold route_admin_finish. phases_tac. Qed.
Lemma phases_update_route n i t : phases Within (update_route n i t) Within Within.
Proof. unfold update_route. phases_tac. Qed.
#[export] Hint Resolve phases_lockRouteForUpdate phases_insertRouteStages
  phases_route_admin_begin phases_route_admin_finish phases_update_route : phases.

Lemma phases_Create inp : transactional (Create inp).
Proof. unfold Create. phases_tac. Qed.
Lemma phases_Update inp : transactional (Update inp).
Proof. unfold Update. phases_tac. Qed.
Lemma phases_Deactivate t r a : transactional (Deactivate t r a).
Proof. unfold Deactivate. phases_tac. Qed.

Lemma phases_WithMembershipContext a c fn :
  phases Within fn Within Within -> transactional (WithMembershipContext a c fn).
Proof. intros Hfn. unfold WithMembershipContext. phases_tac. Qed.

(** ** Evolution *)

Section evolution.
Context (R : DB -> DB -> Prop) `{!PreOrder R, !EventBlind R, !RouteBlind R}.

Lemma stmt_routes {A} (s : GUCs -> Time -> DB -> Result (A * DB)) :
  (forall g now db a db', s g now db = inr (a, db') ->
     exists rows stages, db' = set_routes rows stages db) -> stmt_evolves R s.
Proof. intros H g now db a db' (rows & stages & ->)%H. apply route_blind. Qed.

Lemma update_routes_ok id t upd db n db' :
  update_routes id t upd db = inr (n, db') ->
  exists rows, db' = set_routes rows (approval_route_stages db) db.
Proof. unfold update_routes. case_match; [done|]. case_match. intros [= <- <-]. eauto. Qed.

Lemma stmt_insert_route_stage r st : stmt_evolves R (insert_stage_stmt r st).
Proof.
  apply stmt_routes. intros g now db u db'. unfold insert_stage_stmt.
  destruct (insert_route_stage r st db) as [|db1] eqn:H; [done|]. intros [= _ <-].
  unfold insert_route_stage in H. bool_split H. injection H as <-. eauto.
Qed.

Lemma evolves_insertRouteStages r l : evolves R (insertRouteStages r l).
Proof. induction l as [|st l IH]; simpl; evolves_tac. apply stmt_insert_route_stage. Qed.

Lemma evolves_route_admin_begin f t a : evolves R (route_admin_begin f t a).
Proof. unfold route_admin_begin. evolves_tac. Qed.
Lemma evolves_route_admin_finish ev : evolves R (route_admin_finish ev).
Proof. unfold route_admin_finish. evolves_tac. Qed.
Lemma evolves_lockRouteForUpdate t r : evolves R (lockRouteForUpdate t r).
Proof. unfold lockRouteForUpdate. evolves_tac. Qed.
Local Hint Resolve evolves_insertRouteStages evolves_route_admin_begin evolves_route_admin_finish
  evolves_lockRouteForUpdate : evolves.

Lemma evolves_Create inp : evolves R (Create inp).
Proof.
  unfold Create. evolves_tac. apply stmt_routes. intros g now db u db' H. unfold insert_route in H.
  bool_split H. injection H as _ <-. eauto.
Qed.

Lemma evolves_Update inp : evolves R (Update inp).
Proof.
  unfold Update, update_route. evolves_tac; apply stmt_routes; intros g now db u db' H.
  - unfold update_route_returning in H. destruct (update_routes _ _ _ _) as [e|[k db1]] eqn:Hu; [done|].
    injection H as _ <-. apply update_routes_ok in Hu as [rows ->]. eauto.
  - injection H as _ <-. eauto.
Qed.

Lemma evolves_Deactivate t r a : evolves R (Deactivate t r a).
Proof.
  unfold Deactivate. evolves_tac. apply stmt_routes. intros g now db u db' H.
  apply update_routes_ok in H as [rows ->]. eauto.
Qed.

End evolution.
