(* ===== verification/Lifecycle.v ===== *)
(** * Every history of the approval services

    [call] is one call of a service of the approval module by some user or
    job, under any script of database faults; [history] is any finite sequence
    of calls, interleaved with what the rest of the system may do to the
    database ([environment]). The theorems of this file hold of every history:
    they are the guarantees of [db_step] and the all-or-nothing behaviour of
    each call. *)
From S2P Require Import Prelude Tables ApprovalDomain ApprovalFacts Database Schema TxLogic Authz.
From S2P Require Import ApprovalRepo Evolve ContentHash Submit Decision Cancel Publish RouteAdmin.
Import DocStates Routes Signoffs Instances.
Local Open Scope Z_scope.

(** ** Calls and histories *)

(** What the other modules do: edit documents without touching identity,
    author and lifecycle columns, add drafts, edit users, memberships and catalogues, add
    events. The approval tables are the approval module's own. *)
Record environment (db db' : DB) : Prop := {
  env_documents : exists docs new, documents db' = docs ++ new /\
    Forall2 same_lifecycle (documents db) docs /\ NoDup (d_id <$> documents db') /\
    Forall (fun d => d_status d = StateDraft) new;
  env_instances : approval_instances db' = approval_instances db;
  env_stages : approval_stage_instances db' = approval_stage_instances db;
  env_signoffs : approval_signoffs db' = approval_signoffs db;
  env_events : grows eq (governance_events db) (governance_events db')
}.

Section lifecycle.
Context {UN : UnicodeNorm} (fi : option FreezeInvoker) (pd : option PDFDispatchInvoker)
  (Hf : freeze_lawful fi) (Hp : dispatch_lawful pd).

(** One service method with its arguments. *)
Inductive Call :=
  | CallSubmit (req : SubmitRequest)
  | CallSignoff (req : SignoffRequest)
  | CallCancel (inp : CancelInput)
  | CallPublish (req : PublishRequest)
  | CallSchedulePublish (req : SchedulePublishRequest)
  | CallSupersede (req : SupersedeRequest)
  | CallObsolete (req : MarkObsoleteRequest)
  | CallRunDuePublishes
  | CallCreateRoute (inp : CreateRouteInput)
  | CallUpdateRoute (inp : UpdateRouteInput)
  | CallDeactivateRoute (tenant route actor : string).

Definition void {A} (m : M A) : M unit := m ;; mret tt.

Definition run_call (c : Call) : M unit :=
  match c with
  | CallSubmit req => void (SubmitRevisionForReview req)
  | CallSignoff req => void (RecordSignoff fi pd req)
  | CallCancel inp => void (CancelInstance inp)
  | CallPublish req => void (PublishApproved req)
  | CallSchedulePublish req => void (SchedulePublish req)
  | CallSupersede req => void (PublishSuperseding req)
  | CallObsolete req => void (MarkObsolete req)
  | CallRunDuePublishes => void RunDuePublishes
  | CallCreateRoute inp => void (Create inp)
  | CallUpdateRoute inp => void (Update inp)
  | CallDeactivateRoute t r a => void (Deactivate t r a)
  end.

(** One step of a history, between committed databases: a call in any world
    with no transaction open, or the environment. *)
Inductive history_step (db : DB) : DB -> Prop :=
  | step_call c w : w_db w = db -> w_tx w = None -> history_step db (w_db (snd (run_call c w)))
  | step_env db' : environment db db' -> history_step db db'.

Definition history : DB -> DB -> Prop := rtc history_step.

(** ** Every call is a transaction *)

Lemma phases_process_rows rows result :
  phases After (process_rows rows result) After Before.
Proof.
  revert result. induction rows as [|row rows IH]; intros result; simpl; [apply phases_ret|].
  intros db0 w Hw. simpl in Hw.
  assert (Hrow : w_tx (snd (processRow row w)) = None).
  { pose proof (phases_processRow row (w_db w) w (conj Hw eq_refl)) as Hrow.
    destruct (processRow row w) as [[e|b] w']; simpl in *; [apply Hrow|done]. }
  destruct (processRow row w) as [[e|b] w']; simpl in Hrow; by apply IH.
Qed.

Lemma phases_RunDuePublishes : transactional RunDuePublishes.
Proof.
  unfold RunDuePublishes, fetch_due. pose proof phases_process_rows. phases_tac.
Qed.

Lemma phases_void {A} (m : M A) : transactional m -> transactional (void m).
Proof. intros Hm. unfold void. phases_tac. Qed.

Lemma phases_run_call c : transactional (run_call c).
Proof.
  destruct c; apply phases_void; auto using phases_submit, phases_RecordSignoff,
    phases_CancelInstance, phases_PublishApproved, phases_SchedulePublish,
    phases_PublishSuperseding, phases_MarkObsolete, phases_RunDuePublishes, phases_Create,
    phases_Update, phases_Deactivate.
Qed.

(** ** Every call respects the contract *)

Lemma evolves_loadRoute t r : evolves db_step (loadRoute t r).
Proof. unfold loadRoute. evolves_tac. Qed.
Lemma evolves_build_stages i now first l : evolves db_step (build_stages i now first l).
Proof. revert first. induction l; intros first; simpl; evolves_tac. Qed.
Hint Resolve evolves_loadRoute evolves_build_stages : evolves.

(** The document statements of the services leave the state they test. *)
Ltac moves_document :=
  apply stmt_update_documents; let d := fresh "d" in let Hd := fresh "Hd" in
  intros d Hd; unfold doc_has_status in Hd; bool_to_prop; congruence.

Lemma evolves_submit req : evolves db_step (SubmitRevisionForReview req).
Proof. unfold SubmitRevisionForReview, submit_document. evolves_tac. moves_document. Qed.

Lemma frozen_steps d d' : frozen d d' -> rtc doc_step d d'.
Proof. intros ->. by apply rtc_once, doc_step_edit. Qed.

Lemma db_frozen_step db db' : db_frozen db db' -> db_step db db'.
Proof.
  intros (docs & -> & HF). apply db_step_documents.
  eapply Forall2_impl; [exact HF|]. apply frozen_steps.
Qed.

Lemma evolves_Freeze f `{!FreezeLaws f} t r a : evolves db_step (Freeze f t r a).
Proof.
  intros w Hw. destruct (w_tx w) as [tx|] eqn:Ht.
  - destruct (Freeze_in_tx t r a w tx Ht) as (tx' & H1 & H2 & H3 & _). rewrite H2.
    split; [reflexivity|]. intros tx'' H. rewrite H1 in H. injection H as <-. rewrite H2.
    etrans; [by apply Hw|by apply db_frozen_step].
  - destruct (Freeze_no_tx t r a w Ht) as [H1 H2]. rewrite H2. split; [reflexivity|].
    intros tx H. congruence.
Qed.

Lemma evolves_Dispatch p `{!DispatchLaws p} t r : evolves db_step (Dispatch p t r).
Proof.
  apply evolves_same; [tc_solve|]. intros w. destruct (Dispatch_outside t r w). auto.
Qed.

Lemma evolves_invoke_freeze t d a : evolves db_step (invoke_freeze fi t d a).
Proof.
  unfold invoke_freeze. destruct fi as [f|]; [|evolves_tac]. simpl in Hf.
  apply evolves_or_rollback. by apply evolves_Freeze.
Qed.

Lemma evolves_dispatch (b : bool) t d :
  evolves db_step
    (if b then match pd with
               | Some p => ignore_error (Dispatch p t d)
               | None => mret tt
               end
     else mret tt).
Proof.
  destruct b, pd as [p|]; evolves_tac. simpl in Hp. by apply evolves_Dispatch.
Qed.
Hint Resolve evolves_invoke_freeze evolves_dispatch : evolves.

Lemma evolves_stage_approved req now adv s i : evolves db_step (stage_approved fi req now adv s i).
Proof. unfold stage_approved, approve_document. evolves_tac. moves_document. Qed.
Hint Resolve evolves_stage_approved : evolves.

Lemma evolves_evaluate_stage req h now s i :
  evolves db_step (evaluate_stage fi pd req h now s i).
Proof. unfold evaluate_stage, stage_rejected, loadStageSignoffs. evolves_tac. Qed.
Hint Resolve evolves_evaluate_stage : evolves.

Lemma evolves_RecordSignoff req : evolves db_step (RecordSignoff fi pd req).
Proof. unfold RecordSignoff, loadPriorSignoffs. evolves_tac. Qed.

Lemma stmt_cancel_stages i : stmt_evolves db_step (cancel_stages i).
Proof.
  intros g now db n db'. unfold cancel_stages.
  destruct (update_where _ _ _) as [e|[k rows]] eqn:Hu; [done|]. intros [= <- <-].
  apply db_step_stages. eapply updated_Forall2_stage; [|exact Hu].
  intros s Hs. unfold is_open_stage, is_active, is_pending in Hs. unfold mark_cancelled.
  eexists _, _, _. split; [|reflexivity].
  apply andb_true_iff in Hs as [_ [H|H]%orb_true_iff]; bool_to_prop; by rewrite H.
Qed.

Lemma evolves_CancelInstance inp : evolves db_step (CancelInstance inp).
Proof.
  unfold CancelInstance, cancel_identity, fetch_area_code, revert_document. evolves_tac.
  - apply stmt_cancel_stages.
  - moves_document.
Qed.

Lemma stmt_occ_transition from to t d r :
  from <> to -> stmt_evolves db_step (occ_transition from to t d r).
Proof.
  intros H. apply stmt_update_documents. intros x Hx. unfold doc_has_status in Hx.
  bool_to_prop. congruence.
Qed.

Lemma stmt_publish_document t d : stmt_evolves db_step (publish_document t d).
Proof. unfold publish_document. moves_document. Qed.

Lemma stmt_cancel_instances_of d : stmt_evolves db_step (cancel_instances_of d).
Proof.
  apply (stmt_update_instances
           (fun i => str_eqb (ai_document_v2_id i) d && in_progress i) InstanceCancelled Some); [|done].
  intros r Hr. unfold in_progress in Hr. by bool_to_prop.
Qed.

Lemma evolves_void {A} (m : M A) : evolves db_step m -> evolves db_step (void m).
Proof. intros Hm. unfold void. evolves_tac. Qed.

Lemma evolves_run_call c : evolves db_step (run_call c).
Proof.
  destruct c; apply evolves_void;
    eauto using evolves_submit, evolves_RecordSignoff, evolves_CancelInstance, evolves_Create,
      evolves_Update, evolves_Deactivate, evolves_SchedulePublish with typeclass_instances.
  - apply evolves_PublishApproved; [tc_solve..|]. apply stmt_publish_document.
  - apply evolves_PublishSuperseding; [tc_solve..| |]; intros; by apply stmt_occ_transition.
  - apply evolves_MarkObsolete; [tc_solve..| |apply stmt_cancel_instances_of].
    intros from t d v [->| ->]; by apply stmt_occ_transition.
  - apply evolves_RunDuePublishes; [tc_solve..|]. intros. by apply stmt_occ_transition.
Qed.

Lemma environment_step db db' : environment db db' -> db_step db db'.
Proof.
  intros [(docs & new & Hd & HF & Hn & _) Hi Hs Hv He]. split; try done.
  - exists docs, new. split; [done|]. eapply Forall2_impl; [exact HF|].
    intros d d' Hd'. by apply rtc_once, doc_step_edit.
  - by rewrite Hi.
  - by rewrite Hs.
  - by rewrite Hv.
  - intros []. split; rewrite ?Hi, ?Hs, ?Hv; done.
Qed.

(** The contract holds of every history. *)
Lemma history_contract db db' : history db db' -> db_step db db'.
Proof.
  induction 1 as [db|db1 db2 db3 Hs _ IH]; [reflexivity|]. etrans; [|exact IH].
  destruct Hs as [c w <- Ht|db2 He]; [|by apply environment_step].
  apply evolves_run_call. intros tx Htx. congruence.
Qed.

End lifecycle.
