(* ===== verification/Scenario.v ===== *)
(** * A concrete history

    A small database and a run of the services on it, from draft to
    obsolete, evaluated by the kernel. The witnesses of the theorems about
    histories are steps of this run. *)
From S2P Require Import Prelude Tables ApprovalDomain ApprovalFacts Database Schema TxLogic Authz.
From S2P Require Import ApprovalRepo Evolve ContentHash Submit Decision Cancel Publish RouteAdmin.
From S2P Require Import Lifecycle.
Import DocStates Routes Signoffs Instances.
Local Open Scope Z_scope.

#[export] Existing Instance nfc_ascii.

Definition full_snapshot : DocSnapshot :=
  mkDocSnapshot (Some "schema") (Some "h1") (Some "comp") (Some "h2") (Some "s3://body") (Some "h3").

Definition demo_doc (id : string) : Document :=
  mkDocument id "acme" StateDraft 1 "ana" (Some "quality") None None full_snapshot None.

Definition demo_route : RouteRow := mkRouteRow "route" "acme" "sop" "SOP approval" 1 "root" true.

Definition demo_route_stage (order : Z) (name : string) (q : QuorumPolicy) (m : option Z) : Stage :=
  mkStage order name "approver" "doc.signoff" "quality" q m DriftKeepSnapshot.

Definition demo_member (user role : string) : UserProcessAreaRow :=
  mkUserProcessAreaRow user "acme" "quality" role None.

Definition demo_capabilities : list (string * string) :=
  [("author", "doc.submit"); ("approver", "doc.signoff"); ("manager", "doc.publish");
   ("manager", "doc.supersede"); ("manager", "doc.obsolete");
   ("manager", "workflow.instance.cancel"); ("manager", "route.admin")].

Definition demo_db (stages : list Stage) : DB :=
  mkDB [demo_doc "doc-1"; demo_doc "doc-2"] [] [demo_route]
    (mkRouteStageRow "route" <$> stages) [] [] [] []
    [demo_member "ana" "author"; demo_member "bob" "approver"; demo_member "eva" "approver";
     demo_member "max" "manager"]
    demo_capabilities
    [("acme", "ana"); ("acme", "bob"); ("acme", "eva"); ("acme", "max")]
    [("acme", "sop"); ("acme", "wi")].

Definition demo_world (db : DB) : World :=
  mkWorld db None [] (fun n => 1000000000 * (Z.of_nat n + 1)) 0
    (fun n => "uuid-" +:+ pretty.pretty n) 0.

Definition two_stages : list Stage :=
  [demo_route_stage 1 "review" QuorumAny1Of None; demo_route_stage 2 "release" QuorumAny1Of None].

Definition m_of_n_stage : list Stage := [demo_route_stage 1 "review" QuorumMofN (Some 2)].

Definition submit_req (doc : string) : SubmitRequest :=
  mkSubmitRequest "acme" doc "route" "ana" [("title", AnyString "Procedure")] 1.

(** The identifiers are drawn in order: instance, stages, signoffs. *)
Definition signoff_req (instance user decision : string) : SignoffRequest :=
  mkSignoffRequest "acme" instance "" user decision "" "password" [] [("title", AnyString "Procedure")] [].

Definition run_calls (cs : list Call) (w : World) : World :=
  fold_left (fun w c => snd (run_call (Some noopFreezeInvoker) None c w)) cs w.

Definition status_of (doc : string) (w : World) : option (DocState * Z) :=
  (fun d => (d_status d, d_revision_version d)) <$>
    select_one (fun d => str_eqb (d_id d) doc) (documents (w_db w)).

Definition w0 : World := demo_world (demo_db two_stages).
Definition w_submitted : World := run_calls [CallSubmit (submit_req "doc-1")] w0.
Definition w_reviewed : World :=
  run_calls [CallSignoff (signoff_req "uuid-0" "bob" "approve")] w_submitted.
Definition w_approved : World :=
  run_calls [CallSignoff (signoff_req "uuid-0" "eva" "approve")] w_reviewed.
Definition w_published : World :=
  run_calls [CallPublish (mkPublishRequest "acme" "uuid-0" "max")] w_approved.
Definition w_obsolete : World :=
  run_calls [CallObsolete (mkMarkObsoleteRequest "acme" "doc-1" "max" 4 "retired")] w_published.

Example scenario_submitted : status_of "doc-1" w_submitted = Some (StateUnderReview, 2).
Proof. vm_compute. reflexivity. Qed.
Example scenario_reviewed : status_of "doc-1" w_reviewed = Some (StateUnderReview, 2).
Proof. vm_compute. reflexivity. Qed.
Example scenario_approved : status_of "doc-1" w_approved = Some (StateApproved, 3).
Proof. vm_compute. reflexivity. Qed.
Example scenario_published : status_of "doc-1" w_published = Some (StatePublished, 4).
Proof. vm_compute. reflexivity. Qed.
Example scenario_obsolete : status_of "doc-1" w_obsolete = Some (StateObsolete, 5).
Proof. vm_compute. reflexivity. Qed.
