(* ===== verification/Consistency.v ===== *)
(** * Consistency of the approval tables

    [consistent db] relates the documents, the instances, their stages and the
    votes: what an instance in progress and an approved instance look like,
    who may have voted, and that no document is past review without an
    approved instance. Every history preserves it. *)
From S2P Require Import Prelude Tables ApprovalDomain ApprovalFacts Database Schema TxLogic Authz.
From S2P Require Import ApprovalRepo Evolve ContentHash Submit Decision Cancel Publish RouteAdmin.
From S2P Require Import Lifecycle.
Import DocStates Routes Signoffs Instances Quorums.
Local Open Scope Z_scope.

(** ** The invariant *)

Definition completed (s : StageInstance) : Prop := si_Status s = StageCompleted.

(** The document of an instance. *)
Definition doc_of (i : InstanceRow) (d : Document) : Prop :=
  d_id d = ai_document_v2_id i /\ d_tenant_id d = ai_tenant_id i.

(** Completed stages, the active one, the pending ones. *)
Definition running (stages : list StageInstance) : Prop :=
  exists done a todo, stages = done ++ a :: todo /\ Forall completed done /\
    si_Status a = StageActive /\ Forall pending todo.

(** States that lie past a completed approval. *)
Definition past_review (s : DocState) : bool :=
  match s with
  | StateApproved | StateScheduled | StatePublished | StateSuperseded | StateObsolete => true
  | _ => false
  end.

(** An approving vote on a stage. *)
Definition approved_by (v : Signoff) (s : StageInstance) : Prop :=
  so_StageInstanceID v = si_ID s /\ so_ApprovalInstanceID v = si_ApprovalInstanceID s /\
  so_Decision v = DecisionApprove.

Record consistent (db : DB) : Prop := {
  c_wf : db_wf db;
  c_fk i : i ∈ approval_instances db -> ai_document_v2_id i ∈ d_id <$> documents db;
  c_document i : i ∈ approval_instances db -> ai_status i = InstanceInProgress ->
    exists d, d ∈ documents db /\ doc_of i d /\ d_status d = StateUnderReview;
  c_running i : i ∈ approval_instances db -> ai_status i = InstanceInProgress ->
    running (stages_of (ai_id i) db);
  c_approved i : i ∈ approval_instances db -> ai_status i = InstanceApproved ->
    stages_of (ai_id i) db <> [] /\ Forall completed (stages_of (ai_id i) db);
  c_signed s : s ∈ approval_stage_instances db -> completed s ->
    exists v, v ∈ approval_signoffs db /\ approved_by v s;
  c_quorum s : s ∈ approval_stage_instances db -> si_QuorumSnapshot s = QuorumMofN ->
    exists m, si_QuorumMSnapshot s = Some m /\ 1 <= m;
  c_voter v : v ∈ approval_signoffs db -> signoff_ok v;
  c_submitter v i : v ∈ approval_signoffs db -> i ∈ approval_instances db ->
    ai_id i = so_ApprovalInstanceID v -> so_ActorUserID v <> ai_submitted_by i;
  c_author v i d : v ∈ approval_signoffs db -> i ∈ approval_instances db -> d ∈ documents db ->
    ai_id i = so_ApprovalInstanceID v -> d_id d = ai_document_v2_id i ->
    so_ActorUserID v <> d_created_by d;
  c_past_review d : d ∈ documents db -> past_review (d_status d) = true ->
    exists i, i ∈ approval_instances db /\ doc_of i d /\ ai_status i = InstanceApproved
}.

(** The statement-level preorder of the services that need no more. *)
Definition keeps (P : DB -> Prop) (db db' : DB) : Prop := P db -> P db'.

(** ** Facts: stages of an instance *)

#[export] Instance keeps_preorder P : PreOrder (keeps P).
Proof. unfold keeps. split; [by intros db|intros a b c; tauto]. Qed.

Lemma elem_of_stages_of id db s :
  s ∈ stages_of id db <-> s ∈ approval_stage_instances db /\ si_ApprovalInstanceID s = id.
Proof.
  unfold stages_of. rewrite elem_of_order_by, elem_of_bfilter, str_eqb_true. tauto.
Qed.

Lemma bfilter_map {A B} (p : A -> bool) (q : B -> bool) (h : A -> B) l :
  (forall x, q (h x) = p x) -> bfilter q (h <$> l) = h <$> bfilter p l.
Proof.
  intros Hq. induction l as [|x l IH]; [done|]. rewrite fmap_cons, !bfilter_cons, Hq, IH.
  by destruct (p x).
Qed.

(** Rewriting the stage rows without touching instance and order. *)
Lemma stages_of_map id h db rows :
  (forall s, si_ApprovalInstanceID (h s) = si_ApprovalInstanceID s) ->
  (forall s, si_StageOrder (h s) = si_StageOrder s) ->
  approval_stage_instances db = rows ->
  forall db', approval_stage_instances db' = h <$> rows ->
  stages_of id db' = h <$> stages_of id db.
Proof.
  intros H1 H2 Hr db' Hr'. unfold stages_of. rewrite Hr, Hr'.
  rewrite (bfilter_map (fun s => str_eqb (si_ApprovalInstanceID s) id)).
  - by apply order_by_map.
  - intros s. by rewrite H1.
Qed.

Lemma stages_of_eq id db db' :
  approval_stage_instances db' = approval_stage_instances db -> stages_of id db' = stages_of id db.
Proof. unfold stages_of. by intros ->. Qed.

Lemma stages_of_NoDup id db : db_wf db -> NoDup (si_ID <$> stages_of id db).
Proof.
  intros Hwf. unfold stages_of. rewrite order_by_Permutation.
  eapply sublist_NoDup; [apply (wf_stages _ Hwf)|]. apply fmap_sublist. unfold bfilter. apply sublist_filter.
Qed.

(** ** Events, routes, documents *)

Lemma consistent_tables db db' :
  documents db' = documents db -> approval_instances db' = approval_instances db ->
  approval_stage_instances db' = approval_stage_instances db ->
  approval_signoffs db' = approval_signoffs db -> consistent db -> consistent db'.
Proof.
  intros E1 E2 E3 E4 [[W1 W2 W3 W4 W5 W6 W7 W8] C0 C1 C2 C3 C4 C5 C6 C7 C8 C9].
  split; rewrite ?E1, ?E2, ?E3, ?E4; try done.
  - split; rewrite ?E1, ?E2, ?E3, ?E4; done.
  - intros i Hi Hs. rewrite (stages_of_eq _ _ _ E3). auto.
  - intros i Hi Hs. rewrite (stages_of_eq _ _ _ E3). auto.
Qed.

#[export] Instance consistent_event_blind : EventBlind (keeps consistent).
Proof. intros evs db Hc. by apply (consistent_tables db). Qed.
#[export] Instance consistent_route_blind : RouteBlind (keeps consistent).
Proof. intros rows stages db Hc. by apply (consistent_tables db). Qed.

(** Identity and author are kept, and the status either is kept, or moves
    between states past review. *)
Definition doc_safe (d d' : Document) : Prop :=
  d_id d' = d_id d /\ d_tenant_id d' = d_tenant_id d /\ d_created_by d' = d_created_by d /\
  (d_status d' = d_status d \/
   (past_review (d_status d) = true /\ past_review (d_status d') = true)).

Lemma past_review_not_running d : past_review (d_status d) = true -> d_status d <> StateUnderReview.
Proof. intros H E. by rewrite E in H. Qed.

Lemma consistent_documents docs new db db' :
  documents db' = docs ++ new -> Forall2 doc_safe (documents db) docs ->
  NoDup (d_id <$> documents db') -> Forall (fun d => d_status d = StateDraft) new ->
  approval_instances db' = approval_instances db ->
  approval_stage_instances db' = approval_stage_instances db ->
  approval_signoffs db' = approval_signoffs db -> consistent db -> consistent db'.
Proof.
  intros E1 HF Hnd Hnew E2 E3 E4 [[W1 W2 W3 W4 W5 W6 W7 W8] C0 C1 C2 C3 C4 C5 C6 C7 C8 C9].
  assert (Hback : forall d', d' ∈ docs -> exists d, d ∈ documents db /\ doc_safe d d').
  { intros d' [k Hk]%list_elem_of_lookup. destruct (Forall2_lookup_r _ _ _ _ _ HF Hk) as (d & Hd & Hs).
    exists d. split; [by eapply list_elem_of_lookup_2|done]. }
  assert (Hids : d_id <$> documents db' = (d_id <$> documents db) ++ (d_id <$> new)).
  { rewrite E1, fmap_app. f_equal.
    apply (Forall2_fmap_eq doc_safe); [by intros x y (? & _)|done]. }
  split; rewrite ?E2, ?E3, ?E4; try done.
  - split; rewrite ?E2, ?E3, ?E4; done.
  - intros i Hi. rewrite Hids. apply elem_of_app. left. auto.
  - intros i Hi Hs. destruct (C1 i Hi Hs) as (d & [k Hk]%list_elem_of_lookup & [D1 D2] & D3).
    destruct (Forall2_lookup_l _ _ _ _ _ HF Hk) as (d' & Hd' & S1 & S2 & S3 & S4).
    exists d'. split_and!.
    + rewrite E1. apply elem_of_app. left. by eapply list_elem_of_lookup_2.
    + split; congruence.
    + destruct S4 as [->|[S4 _]]; [done|]. by rewrite D3 in S4.
  - intros i Hi Hs. rewrite (stages_of_eq _ _ _ E3). auto.
  - intros i Hi Hs. rewrite (stages_of_eq _ _ _ E3). auto.
  - intros v i d Hv Hi Hd Hvi Hdi. rewrite E1 in Hd. apply elem_of_app in Hd as [Hd|Hd].
    + apply Hback in Hd as (d0 & Hd0 & S1 & S2 & S3 & _). rewrite S3.
      apply (C8 v i d0); congruence || done.
    + rewrite Hids in Hnd. apply NoDup_app in Hnd as (_ & Hdisj & _).
      destruct (Hdisj (d_id d)); [rewrite Hdi; auto|by apply list_elem_of_fmap_2].
  - intros d Hd Hp. rewrite E1 in Hd. apply elem_of_app in Hd as [Hd|Hd].
    + apply Hback in Hd as (d0 & Hd0 & S1 & S2 & S3 & S4).
      destruct (C9 d0 Hd0) as (i & Hi & [I1 I2] & I3).
      { destruct S4 as [<-|[S4 _]]; done. }
      exists i. split_and!; [done|split; congruence|done].
    + rewrite Forall_forall in Hnew. by rewrite (Hnew d Hd) in Hp.
Qed.

(** ** Rewriting instances, stages and documents together *)

Definition same_identity (d d' : Document) : Prop :=
  d_id d' = d_id d /\ d_tenant_id d' = d_tenant_id d /\ d_created_by d' = d_created_by d.

Definition same_instance (i i' : InstanceRow) : Prop :=
  ai_id i' = ai_id i /\ ai_document_v2_id i' = ai_document_v2_id i /\
  ai_tenant_id i' = ai_tenant_id i /\ ai_submitted_by i' = ai_submitted_by i.

Definition same_stage (s s' : StageInstance) : Prop :=
  si_ID s' = si_ID s /\ si_ApprovalInstanceID s' = si_ApprovalInstanceID s /\
  si_StageOrder s' = si_StageOrder s /\ si_QuorumSnapshot s' = si_QuorumSnapshot s /\
  si_QuorumMSnapshot s' = si_QuorumMSnapshot s.

Lemma doc_of_same i i' d : same_instance i i' -> doc_of i' d <-> doc_of i d.
Proof. intros (_ & H2 & H3 & _). unfold doc_of. by rewrite H2, H3. Qed.

Section update.
Context (f : InstanceRow -> InstanceRow) (h : StageInstance -> StageInstance) (db db' : DB).
Context (Hc : consistent db) (Hwf : db_wf db')
  (Hdocs : Forall2 same_identity (documents db) (documents db'))
  (Hinst : approval_instances db' = f <$> approval_instances db)
  (Hf : forall i, same_instance i (f i))
  (Hstages : approval_stage_instances db' = h <$> approval_stage_instances db)
  (Hh : forall s, same_stage s (h s))
  (Hvotes : approval_signoffs db' = approval_signoffs db).

Lemma stages_of_update id : stages_of id db' = h <$> stages_of id db.
Proof. by apply (stages_of_map id h db (approval_stage_instances db)); try done; apply Hh. Qed.

Lemma consistent_update :
  (forall i, i ∈ approval_instances db -> ai_status (f i) = InstanceInProgress ->
     (exists d, d ∈ documents db' /\ doc_of i d /\ d_status d = StateUnderReview) /\
     running (h <$> stages_of (ai_id i) db)) ->
  (forall i, i ∈ approval_instances db -> ai_status (f i) = InstanceApproved ->
     stages_of (ai_id i) db <> [] /\ Forall completed (h <$> stages_of (ai_id i) db)) ->
  (forall s, s ∈ approval_stage_instances db -> completed (h s) ->
     exists v, v ∈ approval_signoffs db /\ approved_by v s) ->
  (forall d, d ∈ documents db' -> past_review (d_status d) = true ->
     exists i, i ∈ approval_instances db /\ doc_of i d /\ ai_status (f i) = InstanceApproved) ->
  consistent db'.
Proof.
  intros HR HA HS HD. destruct Hc as [_ C0 C1 C2 C3 C4 C5 C6 C7 C8 C9].
  assert (Hids : d_id <$> documents db' = d_id <$> documents db).
  { apply (Forall2_fmap_eq same_identity); [by intros x y (? & _)|done]. }
  assert (Hback : forall i', i' ∈ approval_instances db' ->
            exists i, i ∈ approval_instances db /\ i' = f i /\ same_instance i i').
  { rewrite Hinst. intros i' (i & Hi & ->)%elem_of_map_inv. eauto. }
  assert (Hsback : forall s', s' ∈ approval_stage_instances db' ->
            exists s, s ∈ approval_stage_instances db /\ s' = h s /\ same_stage s s').
  { rewrite Hstages. intros s' (s & Hs & ->)%elem_of_map_inv. eauto. }
  split; rewrite ?Hvotes; try done.
  - intros i' (i & Hi & -> & _ & E & _)%Hback. rewrite E, Hids. auto.
  - intros i' (i & Hi & -> & E)%Hback Hp. destruct (HR i Hi Hp) as [(d & Hd & Hdo & Hds) _].
    exists d. by rewrite (doc_of_same i).
  - intros i' (i & Hi & -> & E)%Hback Hp. destruct E as (E & _).
    rewrite E, stages_of_update. by apply HR.
  - intros i' (i & Hi & -> & E)%Hback Hp. destruct E as (E & _).
    rewrite E, stages_of_update. destruct (HA i Hi Hp) as [H1 H2]. split; [|done].
    intros H0. apply H1. by apply fmap_nil_inv in H0.
  - intros s' (s & Hs & -> & E)%Hsback Hcs. destruct (HS s Hs Hcs) as (v & Hv & A1 & A2 & A3).
    destruct E as (E1 & E2 & _). exists v. split; [done|]. split_and!; congruence.
  - intros s' (s & Hs & -> & E)%Hsback. destruct E as (_ & _ & _ & E1 & E2). rewrite E1, E2. auto.
  - intros v i' Hv (i & Hi & -> & E)%Hback Hvi. destruct E as (E1 & _ & _ & E2).
    rewrite E2. apply C7; congruence.
  - intros v i' d' Hv (i & Hi & -> & E)%Hback [k Hk]%list_elem_of_lookup Hvi Hdi.
    destruct (Forall2_lookup_r _ _ _ _ _ Hdocs Hk) as (d & Hd & D1 & D2 & D3).
    destruct E as (E1 & E2 & _). rewrite D3. apply (C8 v i d); try congruence.
    by eapply list_elem_of_lookup_2.
  - intros d Hd Hp. destruct (HD d Hd Hp) as (i & Hi & Hdo & Hs). exists (f i).
    rewrite Hinst. split_and!; [by apply list_elem_of_fmap_2|by rewrite (doc_of_same i)|done].
Qed.

End update.

(** ** Votes *)

(** Rows are determined by their keys. *)
Lemma signoff_author_of db i d :
  db_wf db -> i ∈ approval_instances db -> d ∈ documents db -> d_id d = ai_document_v2_id i ->
  signoff_author db (ai_id i) = Some (d_created_by d).
Proof.
  intros Hwf Hi Hd E. unfold signoff_author.
  rewrite (select_one_unique ai_id (ai_id i) _ i) by (done || apply Hwf). simpl.
  by rewrite (select_one_unique d_id (ai_document_v2_id i) _ d) by (done || apply Hwf).
Qed.

Lemma wf_vote v db :
  db_wf db -> signoff_inserted v db -> db_wf (set_signoffs (approval_signoffs db ++ [v]) db).
Proof.
  intros [W1 W2 W3 W4 W5 W6 W7 W8] (_ & Hfresh & st & Hst & S1 & S2). split; simpl; try done.
  - apply NoDup_fmap_snoc; [done|]. intros y Hy. by apply Hfresh.
  - apply NoDup_fmap_snoc; [done|]. intros y Hy. by apply Hfresh.
  - intros x [Hx| ->%list_elem_of_singleton]%elem_of_app; [auto|]. rewrite <- S1, <- S2.
    by apply (list_elem_of_fmap_2 (fun s => (si_ID s, si_ApprovalInstanceID s))).
Qed.

(** A vote accepted by the triggers, by an actor other than the submitter. *)
Lemma consistent_vote v i db :
  consistent db -> signoff_ok v -> signoff_inserted v db ->
  i ∈ approval_instances db -> ai_id i = so_ApprovalInstanceID v ->
  so_ActorUserID v <> ai_submitted_by i ->
  consistent (set_signoffs (approval_signoffs db ++ [v]) db).
Proof.
  intros [W C0 C1 C2 C3 C4 C5 C6 C7 C8 C9] Hok Hins Hi Hid Hsub.
  pose proof (proj1 Hins) as Hauth.
  split; try done; simpl.
  - by apply wf_vote.
  - intros s Hs Hcs. destruct (C4 s Hs Hcs) as (x & Hx & Ha). exists x. split; [|done].
    apply elem_of_app. by left.
  - intros x [Hx| ->%list_elem_of_singleton]%elem_of_app; auto.
  - intros x j [Hx| ->%list_elem_of_singleton]%elem_of_app Hj Hxj; [by apply C7|].
    by rewrite (NoDup_fmap_inj ai_id (approval_instances db) j i) by (done || apply W || congruence).
  - intros x j d [Hx| ->%list_elem_of_singleton]%elem_of_app Hj Hd Hxj Hdj; [by apply (C8 x j d)|].
    intros E. apply Hauth. rewrite <- Hxj, (signoff_author_of db j d) by done. by rewrite E.
Qed.

(** ** Statements that keep the invariant by themselves *)

Lemma doc_updated_cases cond s g d d' :
  doc_updated cond (set_status_bump s) g d d' ->
  (cond d = false /\ d' = d) \/
  (cond d = true /\ d' = doc_set s (d_revision_version d + 1) d).
Proof.
  unfold doc_updated. destruct (cond d) eqn:Hd; [|by left].
  intros [[-> _]%set_status_bump_ok _]. by right.
Qed.

Lemma stmt_safe_move cond s :
  (forall d, cond d = true -> past_review (d_status d) = true) -> past_review s = true ->
  stmt_evolves (keeps consistent) (update_documents cond (set_status_bump s)).
Proof.
  intros Hcond Hs g now db n db' (docs & -> & HF & _)%update_documents_ok Hc.
  assert (Hsafe : Forall2 doc_safe (documents db) docs).
  { eapply Forall2_impl; [exact HF|]. intros d d' [[_ ->]|[Hd ->]]%doc_updated_cases.
    - split_and!; auto.
    - split_and!; auto. }
  apply (consistent_documents docs [] db); try done; simpl.
  - by rewrite app_nil_r.
  - rewrite (Forall2_fmap_eq doc_safe d_id (documents db) docs);
      [apply Hc|by intros x y (? & _)|done].
Qed.

Lemma safe_transition from to t d v :
  past_review from = true -> past_review to = true ->
  stmt_evolves (keeps consistent) (occ_transition from to t d v).
Proof.
  intros H1 H2. apply stmt_safe_move; [|done]. intros x Hx. unfold doc_has_status in Hx.
  bool_to_prop. congruence.
Qed.

Lemma safe_publish t d : stmt_evolves (keeps consistent) (publish_document t d).
Proof.
  apply stmt_safe_move; [|done]. intros x Hx. unfold doc_has_status in Hx. bool_to_prop.
  by match goal with H : d_status _ = _ |- _ => rewrite H end.
Qed.

Lemma Forall2_diag {A} (R : A -> A -> Prop) l : (forall x, R x x) -> Forall2 R l l.
Proof. intros H. induction l; constructor; auto. Qed.

Lemma safe_cancel_instances d : stmt_evolves (keeps consistent) (cancel_instances_of d).
Proof.
  intros g now db n db' Hu Hc.
  pose proof (stmt_cancel_instances_of d g now db n db' Hu) as Hstep.
  apply update_instances_ok in Hu as [-> _].
  set (f := fun r => if _ : bool then _ else _) in *.
  assert (Hf : forall i, same_instance i (f i)) by (intros i; unfold f; by destruct (_ && _)).
  assert (Hst : forall i s, ai_status (f i) = s -> s <> InstanceCancelled -> f i = i).
  { intros i s. unfold f. destruct (_ && _); [simpl; congruence|done]. }
  apply (consistent_update f (fun s => s) db); try done.
  - apply (step_wf _ _ Hstep), Hc.
  - by apply Forall2_diag.
  - simpl. by rewrite list_fmap_id.
  - intros i Hi Hs. rewrite (Hst i InstanceInProgress Hs) in Hs by done. rewrite list_fmap_id.
    split; by apply Hc.
  - intros i Hi Hs. rewrite (Hst i InstanceApproved Hs) in Hs by done. rewrite list_fmap_id.
    by apply Hc.
  - apply Hc.
  - intros x Hx Hp. destruct (c_past_review _ Hc x Hx Hp) as (i & Hi & Hd & Hs). exists i.
    split_and!; [done..|]. unfold f. rewrite Hs.
    rewrite (bool_decide_eq_false_2 (InstanceApproved = InstanceInProgress)) by done.
    by rewrite andb_false_r.
Qed.

Section services.
Context {UN : UnicodeNorm} (fi : option FreezeInvoker) (pd : option PDFDispatchInvoker)
  (Hf : freeze_lawful fi) (Hp : dispatch_lawful pd).

Lemma keeps_PublishApproved req : evolves (keeps consistent) (PublishApproved req).
Proof. apply evolves_PublishApproved; [tc_solve..|apply safe_publish]. Qed.

Lemma keeps_PublishSuperseding req : evolves (keeps consistent) (PublishSuperseding req).
Proof. apply evolves_PublishSuperseding; [tc_solve..| |]; intros; by apply safe_transition. Qed.

Lemma keeps_MarkObsolete req : evolves (keeps consistent) (MarkObsolete req).
Proof.
  apply evolves_MarkObsolete; [tc_solve..| |apply safe_cancel_instances].
  intros from t d v [->| ->]; by apply safe_transition.
Qed.

Lemma keeps_RunDuePublishes : evolves (keeps consistent) RunDuePublishes.
Proof. apply evolves_RunDuePublishes; [tc_solve..|]. intros; by apply safe_transition. Qed.

End services.

(** ** Closing an instance without approval *)

Lemma active_unique db i j :
  db_wf db -> i ∈ approval_instances db -> j ∈ approval_instances db ->
  ai_status i = InstanceInProgress -> ai_status j = InstanceInProgress ->
  ai_document_v2_id i = ai_document_v2_id j -> i = j.
Proof.
  intros Hwf Hi Hj Si Sj. apply NoDup_fmap_inj with (l := bfilter in_progress (approval_instances db)).
  - apply Hwf.
  - apply elem_of_bfilter. split; [by apply bool_decide_eq_true|done].
  - apply elem_of_bfilter. split; [by apply bool_decide_eq_true|done].
Qed.

Lemma instance_row_ok t id db row :
  instance_row t id db = Some row ->
  row ∈ approval_instances db /\ ai_id row = id /\ ai_tenant_id row = t.
Proof.
  unfold instance_row, select_one. intros H%head_Some_elem_of.
  apply elem_of_bfilter in H as [Hb Hrow]. by bool_to_prop.
Qed.

(** The UPDATE of one instance by its key. *)
Lemma instance_update_cases t id db row s c :
  db_wf db -> instance_row t id db = Some row -> ai_status row = InstanceInProgress ->
  let f := fun r => if instance_matches t id InstanceInProgress r then ai_set_status s c r else r in
  f row = ai_set_status s c row /\
  (forall i, i ∈ approval_instances db -> i <> row -> f i = i) /\
  (forall i, same_instance i (f i)).
Proof.
  intros Hwf (Hrow & Hid & Ht)%instance_row_ok Hs f. unfold f, instance_matches. split_and!.
  - by rewrite Hid, Ht, !str_eqb_refl, bool_decide_eq_true_2.
  - intros i Hi Hne. destruct (str_eqb (ai_id i) id) eqn:E; [|done]. bool_to_prop.
    destruct Hne. apply (NoDup_fmap_inj ai_id (approval_instances db)); [apply Hwf|done..|congruence].
  - intros i. by destruct (_ && _).
Qed.

Lemma map_id_on {A} (h : A -> A) (l : list A) : (forall x, x ∈ l -> h x = x) -> h <$> l = l.
Proof.
  intros H. induction l as [|x l IH]; [done|]. rewrite fmap_cons. f_equal; [apply H; left|].
  apply IH. intros y Hy. apply H. by right.
Qed.

Lemma instance_dec (i j : InstanceRow) : {i = j} + {i <> j}.
Proof. repeat decide equality. Qed.

Section close.
Context (f : InstanceRow -> InstanceRow) (h : StageInstance -> StageInstance) (db db' : DB)
  (row : InstanceRow) (new : InstanceStatus) (c : option Time).
Context (Hc : consistent db) (Hwf : db_wf db')
  (Hrow : row ∈ approval_instances db) (Hprog : ai_status row = InstanceInProgress)
  (Hinst : approval_instances db' = f <$> approval_instances db)
  (Hfrow : f row = ai_set_status new c row)
  (Hfother : forall i, i ∈ approval_instances db -> i <> row -> f i = i)
  (Hf : forall i, same_instance i (f i))
  (Hstages : approval_stage_instances db' = h <$> approval_stage_instances db)
  (Hh : forall s, same_stage s (h s))
  (Hhother : forall s, s ∈ approval_stage_instances db ->
     si_ApprovalInstanceID s <> ai_id row -> h s = s)
  (Hvotes : approval_signoffs db' = approval_signoffs db).

(** The stages of the other instances are as they were. *)
Lemma other_stages i : i ∈ approval_instances db -> i <> row ->
  h <$> stages_of (ai_id i) db = stages_of (ai_id i) db.
Proof.
  intros Hi Hne. apply map_id_on. intros s [Hs E]%elem_of_stages_of. apply Hhother; [done|].
  rewrite E. intros E'. apply Hne. 
  apply (NoDup_fmap_inj ai_id (approval_instances db)); [apply Hc|done..].
Qed.

Lemma consistent_close :
  new <> InstanceInProgress -> new <> InstanceApproved ->
  (forall s, s ∈ approval_stage_instances db -> completed (h s) -> completed s) ->
  Forall2 (fun d d' => d' = d \/ (d_id d = ai_document_v2_id row /\
             exists v, d' = doc_set StateDraft v d)) (documents db) (documents db') ->
  consistent db'.
Proof.
  intros Hn1 Hn2 Hcomp Hdocs.
  assert (Hne : forall i s, ai_status (f i) = s -> s <> new -> i <> row).
  { intros i s Hs Hne ->. rewrite Hfrow in Hs. simpl in Hs. congruence. }
  apply (consistent_update f h db); try done.
  - eapply Forall2_impl; [exact Hdocs|]. by intros d d' [->|(_ & v & ->)].
  - intros i Hi Hs. pose proof (Hne i _ Hs (not_eq_sym Hn1)) as Hir.
    rewrite (Hfother i Hi Hir) in Hs. rewrite other_stages by done. split; [|by apply Hc].
    destruct (c_document _ Hc i Hi Hs) as (d & [k Hk]%list_elem_of_lookup & [D1 D2] & D3).
    destruct (Forall2_lookup_l _ _ _ _ _ Hdocs Hk) as (d' & Hd' & [->|(E & _)]).
    + exists d. split; [by eapply list_elem_of_lookup_2|done].
    + destruct Hir. apply (active_unique db); try done; [apply Hc|congruence].
  - intros i Hi Hs. pose proof (Hne i _ Hs (not_eq_sym Hn2)) as Hir.
    rewrite (Hfother i Hi Hir) in Hs. rewrite other_stages by done. by apply Hc.
  - intros s Hs Hcs. apply Hc; auto.
  - intros d' [k Hk]%list_elem_of_lookup Hpr.
    destruct (Forall2_lookup_r _ _ _ _ _ Hdocs Hk) as (d & Hd & [->|(_ & v & ->)]); [|done].
    destruct (c_past_review _ Hc d) as (i & Hi & Hdo & Hs); [by eapply list_elem_of_lookup_2|done|].
    exists i. split_and!; [done..|]. rewrite Hfother; [done..|congruence].
Qed.

End close.

Lemma consistent_cancelled inp docID db db' :
  consistent db -> db_wf db' -> cancelled inp docID db db' -> consistent db'.
Proof.
  intros Hc Hwf (row & c & docs & g & evs & Hr & Hs & -> & HF & _ & E1 & E2 & E3 & E4 & _).
  destruct (instance_update_cases _ _ db row InstanceCancelled (Some c) (c_wf _ Hc) Hr Hs) as (F1 & F2 & F3).
  apply instance_row_ok in Hr as (Hrow & Hid & Ht).
  eapply (consistent_close _ _ db db' row InstanceCancelled (Some c) Hc Hwf Hrow Hs E2 F1 F2 F3 E3);
    try done.
  - intros s. by destruct (is_open_stage _ s).
  - intros s _ Hne. unfold is_open_stage. rewrite <- Hid.
    by rewrite (proj2 (str_eqb_false _ _) Hne).
  - intros s _. by destruct (is_open_stage _ s).
  - rewrite E1. eapply Forall2_impl; [exact HF|].
    intros d d' [[_ ->]|[Hd ->]]%doc_updated_cases; [by left|right].
    unfold cancel_cond, doc_is in Hd. bool_to_prop. eauto.
Qed.

(** ** Marking one stage *)

Lemma mark_stage_same t id new old now db s : same_stage s (mark_stage t id new old now db s).
Proof. unfold mark_stage. by destruct (stage_matches _ _ _ _ _). Qed.

Lemma mark_stage_other t id new old now db s :
  si_ID s <> id -> mark_stage t id new old now db s = s.
Proof.
  intros H. unfold mark_stage, stage_matches. by rewrite (proj2 (str_eqb_false _ _) H).
Qed.

Lemma mark_stage_hit t new old now db a i :
  i ∈ approval_instances db -> ai_id i = si_ApprovalInstanceID a -> ai_tenant_id i = t ->
  si_Status a = old -> mark_stage t (si_ID a) new old now db a = stage_set_status new now a.
Proof.
  intros Hi Hid Ht Hs. unfold mark_stage, stage_matches.
  rewrite str_eqb_refl, (bool_decide_eq_true_2 _ Hs). simpl.
  replace (existsb _ _) with true; [done|]. symmetry. apply existsb_exists. exists i.
  split; [by apply list_elem_of_In|]. by rewrite Hid, Ht, !str_eqb_refl.
Qed.

(** In the stages of one instance exactly the marked one changes. *)
Lemma mark_stage_middle t new old now db i done a todo stages :
  NoDup (si_ID <$> stages) -> stages = done ++ a :: todo ->
  i ∈ approval_instances db -> ai_id i = si_ApprovalInstanceID a -> ai_tenant_id i = t ->
  si_Status a = old ->
  mark_stage t (si_ID a) new old now db <$> stages = done ++ stage_set_status new now a :: todo.
Proof.
  intros Hnd -> Hi Hid Ht Hs. rewrite fmap_app, fmap_cons in Hnd.
  apply NoDup_app in Hnd as (_ & Hd & [Ha _]%NoDup_cons).
  rewrite fmap_app, fmap_cons, (mark_stage_hit t new old now db a i) by done.
  f_equal; [|f_equal]; apply map_id_on; intros s Hin; apply mark_stage_other; intros E.
  - apply (Hd (si_ID s)); [by apply list_elem_of_fmap_2|]. rewrite E. left.
  - apply Ha. rewrite <- E. by apply list_elem_of_fmap_2.
Qed.

Lemma running_in_sequence stages :
  running stages -> exists done a todo, in_sequence done a todo stages /\ Forall completed done.
Proof.
  intros (done & a & todo & E & Hd & Ha & Ht). exists done, a, todo. split; [|done].
  split_and!; try done. eapply Forall_impl; [exact Hd|]. intros s Hs. by left.
Qed.

(** ** Quorum met means somebody approved *)

Lemma scanSignoffs_ok rows : Forall signoff_ok rows -> scanSignoffs rows = inr rows.
Proof.
  induction 1 as [|v rows Hv _ IH]; [done|].
  unfold scanSignoffs in *. simpl. by rewrite NewSignoff_fix, IH.
Qed.

Lemma count_signoffs_le stage l : count_signoffs stage l <= Zlength l.
Proof. unfold count_signoffs. destruct (Nat.eqb _ 0); [lia|apply Zcount_nonneg]. Qed.

Lemma decision_denominator_pos a : 1 <= decision_denominator a.
Proof.
  unfold decision_denominator, ComputeEffectiveDenominator, Zlength, Zcount.
  repeat match goal with |- context [if ?b then _ else _] => destruct b eqn:? end; lia.
Qed.

Lemma approved_has_vote a votes :
  (si_QuorumSnapshot a = QuorumMofN -> exists m, si_QuorumMSnapshot a = Some m /\ 1 <= m) ->
  decision_outcome a votes = QuorumApprovedStage ->
  exists v, v ∈ votes /\ so_Decision v = DecisionApprove.
Proof.
  intros Hm. unfold decision_outcome, splitSignoffs, EvaluateQuorum.
  pose proof (decision_denominator_pos a) as Hd.
  pose proof (count_signoffs_le a (bfilter (decided DecisionApprove) votes)) as Hle.
  destruct (decision_denominator a =? 0) eqn:E0; [lia|]. intros Ho.
  assert (H1 : 1 <= count_signoffs a (bfilter (decided DecisionApprove) votes)).
  { destruct (si_QuorumSnapshot a).
    - destruct (Z.leb_spec 1 (count_signoffs a (bfilter (decided DecisionApprove) votes))); [done|].
      by destruct (1 <=? _).
    - destruct (1 <=? _); [done|]. 
      destruct (Z.leb_spec (decision_denominator a)
                  (count_signoffs a (bfilter (decided DecisionApprove) votes))); [lia|done].
    - destruct Hm as (m & Hq & Hm); [done|]. rewrite Hq in Ho. simpl in Ho.
      destruct (Z.leb_spec m (count_signoffs a (bfilter (decided DecisionApprove) votes))); [lia|].
      by destruct (_ <? _).
    - done. }
  destruct (bfilter (decided DecisionApprove) votes) as [|v l] eqn:Hb; [unfold Zlength in Hle; simpl in Hle; lia|].
  exists v. assert (v ∈ bfilter (decided DecisionApprove) votes) as Hv by (rewrite Hb; left).
  apply elem_of_bfilter in Hv as [Hv1 Hv2]. split; [done|]. by apply bool_decide_eq_true in Hv1.
Qed.

(** The approving vote behind an approved stage, in a consistent database. *)
Lemma quorum_signed db a votes :
  consistent db -> a ∈ approval_stage_instances db ->
  scanSignoffs (stage_rows (si_ID a) db) = inr votes ->
  decision_outcome a votes = QuorumApprovedStage ->
  exists v, v ∈ approval_signoffs db /\ approved_by v a.
Proof.
  intros Hc Ha Hscan Ho.
  assert (Hrows : forall v, v ∈ stage_rows (si_ID a) db <->
            v ∈ approval_signoffs db /\ so_StageInstanceID v = si_ID a).
  { intros v. unfold stage_rows. rewrite elem_of_order_by, elem_of_bfilter, str_eqb_true. tauto. }
  rewrite scanSignoffs_ok in Hscan.
  2: { apply Forall_forall. intros v [Hv _]%Hrows. by apply Hc. }
  injection Hscan as <-.
  destruct (approved_has_vote a _ (c_quorum _ Hc a Ha) Ho) as (v & [Hv Hst]%Hrows & Hdec).
  exists v. split; [done|]. split_and!; [done| |done].
  pose proof (wf_signoff_stage _ (c_wf _ Hc) v Hv) as Hin.
  apply list_elem_of_fmap in Hin as (s & [= E1 E2] & Hs).
  rewrite E2. f_equal. symmetry.
  apply (NoDup_fmap_inj si_ID (approval_stage_instances db)); [apply Hc|done..|congruence].
Qed.

(** ** A decision *)

Section decision.
Context (req : SignoffRequest) (row : InstanceRow) (a : StageInstance) (db db' : DB)
  (res : SignoffResult).
Context (Hc : consistent db) (Hwf : db_wf db')
  (Hrow : instance_row (sg_TenantID req) (sg_InstanceID req) db = Some row)
  (Hprog : ai_status row = InstanceInProgress)
  (Hactive : Active (instance_of_row row (stages_of (ai_id row) db)) = Some a).

Lemma active_middle :
  exists done todo, in_sequence done a todo (stages_of (ai_id row) db) /\ Forall completed done.
Proof.
  pose proof (instance_row_ok _ _ _ _ Hrow) as (Hin & _).
  destruct (running_in_sequence _ (c_running _ Hc row Hin Hprog)) as (done & a' & todo & Hseq & Hd).
  rewrite (Active_in_sequence done a' todo) in Hactive by done. injection Hactive as <-. eauto.
Qed.

Lemma active_stage :
  a ∈ approval_stage_instances db /\ si_ApprovalInstanceID a = ai_id row /\
  si_Status a = StageActive.
Proof.
  destruct active_middle as (done & todo & (E & _ & Hs & _) & _).
  assert (a ∈ stages_of (ai_id row) db) as Ha.
  { rewrite E. apply elem_of_app. right. left. }
  apply elem_of_stages_of in Ha as [H1 H2]. done.
Qed.

(** A stage of another instance has another identifier. *)
Lemma other_instance_stage s :
  s ∈ approval_stage_instances db -> si_ApprovalInstanceID s <> ai_id row -> si_ID s <> si_ID a.
Proof.
  intros Hs Hne E. destruct active_stage as (Ha & Hi & _). apply Hne. rewrite <- Hi. f_equal.
  apply (NoDup_fmap_inj si_ID (approval_stage_instances db)); [apply Hc|done..].
Qed.

Lemma consistent_refused : stage_refused req a db db' res -> consistent db'.
Proof.
  intros (now & c & _ & E4 & _ & E1 & E2 & E3).
  destruct (instance_update_cases _ _ db row InstanceRejected (Some c) (c_wf _ Hc) Hrow Hprog)
    as (F1 & F2 & F3).
  pose proof (instance_row_ok _ _ _ _ Hrow) as (Hin & Hid & Ht).
  eapply (consistent_close _ _ db db' row InstanceRejected (Some c) Hc Hwf Hin Hprog E2 F1 F2 F3 E3);
    try done.
  - intros s. apply mark_stage_same.
  - intros s Hs Hne. apply mark_stage_other. by apply other_instance_stage.
  - intros s _. unfold mark_stage. by destruct (stage_matches _ _ _ _ _).
  - rewrite E1. apply Forall2_diag. by left.
Qed.

(** After the active stage is completed, with an approving vote on it. *)
Definition completed_now (now : Time) : StageInstance -> StageInstance :=
  mark_stage (sg_TenantID req) (si_ID a) StageCompleted StageActive now db.

Lemma completed_now_middle now done todo :
  in_sequence done a todo (stages_of (ai_id row) db) ->
  completed_now now <$> stages_of (ai_id row) db =
    done ++ stage_set_status StageCompleted now a :: todo.
Proof.
  intros (E & _ & Hs & _). pose proof (instance_row_ok _ _ _ _ Hrow) as (Hin & Hid & Ht).
  apply (mark_stage_middle _ _ _ _ _ row); try done; [by apply stages_of_NoDup, Hc|].
  symmetry. apply active_stage.
Qed.

Context (Hsigned : exists v, v ∈ approval_signoffs db /\ approved_by v a).

Lemma completed_now_signed now s :
  s ∈ approval_stage_instances db -> completed (completed_now now s) ->
  exists v, v ∈ approval_signoffs db /\ approved_by v s.
Proof.
  intros Hs Hcomp. unfold completed_now, mark_stage in Hcomp.
  destruct (stage_matches _ _ _ _ _) eqn:Hm; [|by apply Hc].
  unfold stage_matches in Hm. bool_to_prop.
  replace s with a; [done|]. apply (NoDup_fmap_inj si_ID (approval_stage_instances db)).
  - apply Hc.
  - apply active_stage.
  - done.
  - done.
Qed.

End decision.

Section closing.
Context (req : SignoffRequest) (row : InstanceRow) (a : StageInstance) (db db' : DB)
  (res : SignoffResult).
Context (Hc : consistent db) (Hwf : db_wf db')
  (Hrow : instance_row (sg_TenantID req) (sg_InstanceID req) db = Some row)
  (Hprog : ai_status row = InstanceInProgress)
  (Hactive : Active (instance_of_row row (stages_of (ai_id row) db)) = Some a)
  (Hsigned : exists v, v ∈ approval_signoffs db /\ approved_by v a)
  (Hvotes : approval_signoffs db' = approval_signoffs db).

Let t := sg_TenantID req.
Let h1 (now : Time) := completed_now req a db now.

Lemma h1_other now s :
  s ∈ approval_stage_instances db -> si_ApprovalInstanceID s <> ai_id row -> h1 now s = s.
Proof.
  intros Hs Hne. apply mark_stage_other. by apply (other_instance_stage req row a db).
Qed.

Lemma completed_set now s : completed (stage_set_status StageCompleted now s).
Proof. done. Qed.

(** The last stage: the instance and the document are approved. *)
Lemma consistent_approved now done_at done docs1 g :
  in_sequence done a [] (stages_of (ai_id row) db) -> Forall completed done ->
  approval_instances db' =
    (fun r => if instance_matches t (sg_InstanceID req) InstanceInProgress r
              then ai_set_status InstanceApproved (Some done_at) r else r) <$> approval_instances db ->
  approval_stage_instances db' = h1 now <$> approval_stage_instances db ->
  Forall2 frozen (documents db) docs1 ->
  Forall2 (doc_updated (approve_cond t (ai_document_v2_id row)) (set_status_bump StateApproved) g)
    docs1 (documents db') ->
  consistent db'.
Proof.
  intros Hseq Hdone E2 E3 HF1 HF2.
  set (f := fun r => if instance_matches _ _ _ r then _ else r) in E2.
  assert (Hf : f row = ai_set_status InstanceApproved (Some done_at) row /\
            (forall i, i ∈ approval_instances db -> i <> row -> f i = i) /\
            (forall i, same_instance i (f i)))
    by exact (instance_update_cases _ _ db row InstanceApproved (Some done_at) (c_wf _ Hc) Hrow Hprog).
  clearbody f. destruct Hf as (F1 & F2 & F3).
  pose proof (instance_row_ok _ _ _ _ Hrow) as (Hin & Hid & Ht).
  assert (HF : Forall2 (fun d d' => same_identity d d' /\
            (d_status d' = d_status d \/
             (d_id d = ai_document_v2_id row /\ d_tenant_id d = t /\ d_status d' = StateApproved)))
            (documents db) (documents db')).
  { eapply Forall2_trans; [|exact HF1|exact HF2].
    intros d d1 d' -> [[_ ->]|[Hd ->]]%doc_updated_cases; simpl; (split; [done|]); [by left|right].
    unfold approve_cond, doc_is in Hd. bool_to_prop. done. }
  assert (Hother := other_stages (h1 now) db row Hc Hin (h1_other now)).
  apply (consistent_update f (h1 now) db db' Hc Hwf); try done.
  - eapply Forall2_impl; [exact HF|]. by intros d d' [H _].
  - intros s. apply mark_stage_same.
  - intros i Hi Hs. destruct (instance_dec i row) as [->|Hne]; [by rewrite F1 in Hs|].
    rewrite (F2 i Hi Hne) in Hs. rewrite Hother by done. split; [|by apply Hc].
    destruct (c_document _ Hc i Hi Hs) as (d & Hd & [D1 D2] & D3).
    destruct (updated_forall _ _ _ HF d Hd) as (d' & Hd' & (S1 & S2 & S3) & [S4|(S4 & _)]).
    + exists d'. split_and!; [done|split; congruence|congruence].
    + destruct Hne. apply (active_unique db); try done; [apply Hc|congruence].
  - intros i Hi Hs. destruct (instance_dec i row) as [->|Hne].
    + split; [|].
      * destruct Hseq as (-> & _). by destruct done.
      * unfold h1. rewrite (completed_now_middle req row a db Hc Hrow Hprog Hactive now done []) by done.
        apply Forall_app. split; [done|]. by constructor.
    + rewrite (F2 i Hi Hne) in Hs. rewrite Hother by done. by apply Hc.
  - intros s Hs. by apply (completed_now_signed req row a db).
  - intros d' [k Hk]%list_elem_of_lookup Hpr.
    destruct (Forall2_lookup_r _ _ _ _ _ HF Hk) as (d & Hd & (S1 & S2 & S3) & [S4|(S4 & S5 & _)]).
    + destruct (c_past_review _ Hc d) as (i & Hi & [I1 I2] & Hs);
        [by eapply list_elem_of_lookup_2|congruence|].
      exists i. split_and!; [done|split; congruence|].
      rewrite F2; [done..|]. intros ->. congruence.
    + exists row. split_and!; [done|split; unfold t in *; congruence|]. by rewrite F1.
Qed.

(** Another stage follows: it is opened. *)
Lemma consistent_advanced now now' done p todo :
  in_sequence done a (p :: todo) (stages_of (ai_id row) db) -> Forall completed done ->
  approval_instances db' = approval_instances db -> documents db' = documents db ->
  approval_stage_instances db' =
    mark_stage t (si_ID p) StageActive StagePending now'
      (set_stage_instances (h1 now <$> approval_stage_instances db) db)
      <$> (h1 now <$> approval_stage_instances db) ->
  consistent db'.
Proof.
  intros Hseq Hdone E2 E1 E3.
  pose proof (instance_row_ok _ _ _ _ Hrow) as (Hin & Hid & Ht).
  set (db1 := set_stage_instances (h1 now <$> approval_stage_instances db) db) in *.
  set (h2 := mark_stage t (si_ID p) StageActive StagePending now' db1) in *.
  pose proof (completed_now_middle req row a db Hc Hrow Hprog Hactive now done (p :: todo) Hseq) as Hmid.
  assert (Hp : p ∈ approval_stage_instances db /\ si_ApprovalInstanceID p = ai_id row /\
               si_Status p = StagePending).
  { destruct Hseq as (Es & _ & _ & [Hpp _]%Forall_cons).
    assert (p ∈ stages_of (ai_id row) db) as Hpin.
    { rewrite Es. apply elem_of_app. right. right. left. }
    apply elem_of_stages_of in Hpin as [? ?]. done. }
  destruct Hp as (Hp1 & Hp2 & Hp3).
  assert (Hh2 : h2 <$> (h1 now <$> stages_of (ai_id row) db) =
            (done ++ [stage_set_status StageCompleted now a]) ++
            stage_set_status StageActive now' p :: todo).
  { unfold h2. apply (mark_stage_middle _ _ _ _ _ row); try done.
    - rewrite (Forall2_fmap_eq same_stage si_ID (stages_of (ai_id row) db)).
      + by apply stages_of_NoDup, Hc.
      + by intros x y (? & _).
      + apply Forall2_fmap_r, Forall2_diag. intros s. apply mark_stage_same.
    - unfold h1. by rewrite Hmid, <- app_assoc. }
  assert (Hoth : forall s, s ∈ approval_stage_instances db ->
            si_ApprovalInstanceID s <> ai_id row -> h2 (h1 now s) = s).
  { intros s Hs Hne. rewrite h1_other by done. apply mark_stage_other. intros E. apply Hne.
    rewrite <- Hp2. f_equal. by apply (NoDup_fmap_inj si_ID (approval_stage_instances db)); [apply Hc|..]. }
  assert (Hother := other_stages (fun s => h2 (h1 now s)) db row Hc Hin Hoth).
  assert (Hfold : forall l : list StageInstance, (fun s => h2 (h1 now s)) <$> l = h2 <$> (h1 now <$> l)).
  { intros l. by rewrite <- list_fmap_compose. }
  apply (consistent_update (fun i => i) (fun s => h2 (h1 now s)) db db' Hc Hwf); try done.
  - rewrite E1. by apply Forall2_diag.
  - by rewrite list_fmap_id.
  - by rewrite Hfold.
  - intros s. destruct (mark_stage_same t (si_ID p) StageActive StagePending now' db1 (h1 now s))
      as (A1 & A2 & A3 & A4 & A5).
    destruct (mark_stage_same t (si_ID a) StageCompleted StageActive now db s) as (B1 & B2 & B3 & B4 & B5).
    split_and!; etrans; eassumption.
  - intros i Hi Hs. rewrite E1. split; [by apply Hc|].
    destruct (instance_dec i row) as [->|Hne].
    + rewrite Hfold, Hh2. destruct Hseq as (_ & _ & _ & [_ Htodo]%Forall_cons).
      eexists _, _, _. split_and!; [done| |done|done]. apply Forall_app. split; [done|]. by constructor.
    + rewrite Hother by done. by apply Hc.
  - intros i Hi Hs. rewrite Hother; [by apply Hc|done|]. intros ->. congruence.
  - intros s Hs Hcomp. apply (completed_now_signed req row a db Hc Hrow Hprog Hactive Hsigned now s Hs).
    unfold h2, mark_stage at 1 in Hcomp. by destruct (stage_matches _ _ _ _ _).
  - intros d Hd Hpr. rewrite E1 in Hd. by apply Hc.
Qed.

End closing.

Lemma consistent_closed req row a db db' res :
  consistent db -> db_wf db' ->
  instance_row (sg_TenantID req) (sg_InstanceID req) db = Some row ->
  ai_status row = InstanceInProgress ->
  Active (instance_of_row row (stages_of (ai_id row) db)) = Some a ->
  (exists v, v ∈ approval_signoffs db /\ approved_by v a) ->
  stage_closed req a (instance_of_row row (stages_of (ai_id row) db)) db db' res ->
  consistent db'.
Proof.
  intros Hc Hwf Hrow Hprog Hactive Hsigned (now & adv & inst' & Hadv & E4 & _ & Hcase).
  destruct (active_middle req row a db Hc Hrow Hprog Hactive) as (done & todo & Hseq & Hdone).
  rewrite (AdvanceStage_in_sequence adv done a todo) in Hadv by done. injection Hadv as <-.
  destruct todo as [|p todo];
    destruct Hcase as [(Hs & _ & (c & E2) & E3 & docs1 & g & HF1 & HF2)|(Hs & _ & E2 & E1 & E3)].
  - by eapply (consistent_approved req row a db db'); eauto.
  - by destruct Hs.
  - simpl in Hs. congruence.
  - assert (Hnext : Active (set_stages (done ++ mark_completed adv a :: mark_active adv p :: todo)
                     (instance_of_row row (stages_of (ai_id row) db))) = Some (mark_active adv p)).
    { destruct Hseq as (_ & Hcl & _ & [Hp Ht]%Forall_cons).
      apply (Active_in_sequence (done ++ [mark_completed adv a]) _ todo). by apply in_sequence_step. }
    rewrite Hnext in E3. destruct E3 as [now' E3].
    by eapply (consistent_advanced req row a db db'); eauto.
Qed.

Lemma consistent_events evs db : consistent (append_events evs db) <-> consistent db.
Proof. split; by apply consistent_tables. Qed.

Lemma consistent_recorded req db db' res :
  consistent db -> db_wf db' -> recorded req db db' res -> consistent db'.
Proof.
  intros Hc Hwf (row & a & vote & evs & db2 & Hv & Heval & ev & ->).
  apply consistent_events.
  assert (Hwf2 : db_wf db2) by (destruct Hwf; by split). clear Hwf.
  destruct Hv as (Hrow & Hprog & Hactive & Hsub & _ & Hok & Hins & V1 & V2 & V3 & _).
  pose proof (instance_row_ok _ _ _ _ Hrow) as (Hin & Hid & Ht).
  set (db1 := set_signoffs _ (append_events evs db)) in *.
  assert (Hc1 : consistent db1).
  { assert (Hc0 : consistent (set_signoffs (approval_signoffs db ++ [vote]) db))
      by (apply (consistent_vote vote row); congruence || done).
    by apply (consistent_tables (set_signoffs (approval_signoffs db ++ [vote]) db)). }
  destruct Heval as (votes & Hscan & Heval).
  destruct (decision_outcome a votes) eqn:Ho.
  - by destruct Heval as [-> _].
  - apply (consistent_closed req row a db1 db2 res); try done.
    apply (quorum_signed db1 a votes); try done.
    apply (active_stage req row a db1); try done.
  - by apply (consistent_refused req row a db1 db2 res).
Qed.

(** ** A submission *)

Lemma pure_stages_fields id now first ids l s :
  s ∈ pure_stages id now first ids l ->
  si_ApprovalInstanceID s = id /\ ~ completed s /\
  exists st, st ∈ l /\ si_QuorumSnapshot s = st_Quorum st /\ si_QuorumMSnapshot s = st_QuorumM st.
Proof.
  revert first ids. induction l as [|st l IH]; intros first [|i ids]; simpl;
    try (by intros ?%not_elem_of_nil).
  intros [->|Hs]%elem_of_cons.
  - split_and!; [done|by destruct first|]. exists st. split; [left|done].
  - destruct (IH _ _ Hs) as (H1 & H2 & st' & H3 & H4). split_and!; [done..|].
    exists st'. split; [by right|done].
Qed.

Lemma pure_stages_pending id now ids l : Forall pending (pure_stages id now false ids l).
Proof. revert ids. induction l as [|st l IH]; intros [|i ids]; simpl; constructor; done. Qed.

Lemma pure_stages_running id now ids l :
  l <> [] -> length ids = length l -> running (row_of_stage <$> pure_stages id now true ids l).
Proof.
  destruct l as [|st l], ids as [|i ids]; simpl; try done. intros _ Hlen.
  eexists [], _, _. split_and!; [done|constructor|done|].
  apply Forall_fmap. eapply Forall_impl; [apply pure_stages_pending|]. done.
Qed.

(** Orders are dense, so the stages are read back in the order of the route. *)
Lemma pure_stages_sorted id now first ids l k :
  (forall i s, l !! i = Some s -> st_Order s = Z.of_nat i + k) ->
  StronglySorted (fun x y => si_StageOrder x < si_StageOrder y)
    (row_of_stage <$> pure_stages id now first ids l).
Proof.
  revert first ids k. induction l as [|st l IH]; intros first [|i ids] k Hk; simpl; try constructor.
  - apply (IH false ids (k + 1)). intros j s Hj. rewrite (Hk (S j)) by done. lia.
  - apply Forall_fmap. assert (Hk' : forall j s, l !! j = Some s -> k < st_Order s).
    { intros j s Hj. rewrite (Hk (S j)) by done. lia. }
    apply Forall_impl with (P := fun s => k < si_StageOrder s).
    2: { intros s Hs. simpl. rewrite (Hk 0%nat st) by done. simpl. lia. }
    clear IH Hk. revert ids Hk'. generalize false.
    induction l as [|st' l IH]; intros b [|i' ids] Hk'; simpl; constructor.
    + simpl. by apply (Hk' 0%nat st').
    + apply IH. intros j s Hj. by apply (Hk' (S j)).
Qed.

Section submission.
Context (req : SubmitRequest) (id : string) (db db' : DB) (Hc : consistent db) (Hwf : db_wf db').
Context (row : InstanceRow) (ids : list string) (now : Time) (docs : list Document) (g : GUCs).
Let route := route_stages (sr_RouteID req) db.
Let new := row_of_stage <$> pure_stages id now true ids route.
Context (Hid : ai_id row = id) (Htenant : ai_tenant_id row = sr_TenantID req)
  (Hdoc : ai_document_v2_id row = sr_DocumentID req) (Hprog : ai_status row = InstanceInProgress)
  (Hfresh : forall x, x ∈ approval_instances db -> ai_id x <> id /\
     (ai_status x = InstanceInProgress -> ai_document_v2_id x <> sr_DocumentID req))
  (Hroute : exists r, rt_Stages r = route /\ route_ok r)
  (Hlen : length ids = length route)
  (HF : Forall2 (doc_updated (submit_cond req) (set_status_bump StateUnderReview) g)
          (documents db) docs)
  (Hcount : bcount (submit_cond req) (documents db) <> 0%nat)
  (E1 : documents db' = docs)
  (E2 : approval_instances db' = approval_instances db ++ [row])
  (E3 : approval_stage_instances db' = approval_stage_instances db ++ new)
  (E4 : approval_signoffs db' = approval_signoffs db).

Lemma new_fields s : s ∈ new ->
  si_ApprovalInstanceID s = id /\ ~ completed s /\
  exists st, st ∈ route /\ si_QuorumSnapshot s = st_Quorum st /\ si_QuorumMSnapshot s = st_QuorumM st.
Proof.
  intros (s0 & Hs & ->)%elem_of_map_inv. by apply pure_stages_fields in Hs.
Qed.

Lemma old_stage_instance s : s ∈ approval_stage_instances db -> si_ApprovalInstanceID s <> id.
Proof.
  intros Hs E. pose proof (wf_stage_instance _ (c_wf _ Hc) s Hs) as Hin.
  apply elem_of_map_inv in Hin as (i & Hi & E'). apply Hfresh in Hi as [Hi _]. congruence.
Qed.

Lemma stages_of_old i : i ∈ approval_instances db -> stages_of (ai_id i) db' = stages_of (ai_id i) db.
Proof.
  intros Hi. apply Hfresh in Hi as [Hne _]. unfold stages_of. f_equal.
  rewrite E3, bfilter_app, (bfilter_none _ new), app_nil_r; [done|].
  intros s (Hs & _)%new_fields. apply str_eqb_false. congruence.
Qed.

Lemma stages_of_new : stages_of id db' = new.
Proof.
  unfold stages_of. rewrite E3, bfilter_app, (bfilter_none _ (approval_stage_instances db)).
  2: { intros s Hs. apply str_eqb_false. by apply old_stage_instance. }
  rewrite (bfilter_all _ new). 2: { intros s (Hs & _)%new_fields. by apply str_eqb_true. }
  simpl. apply order_by_sorted. destruct Hroute as (r & Er & Hr).
  apply (pure_stages_sorted _ _ _ _ _ 1). intros i s. rewrite <- Er. apply (route_dense _ Hr).
Qed.

Lemma consistent_submission : consistent db'.
Proof.
  destruct Hroute as (r & Er & Hr).
  assert (Hids : d_id <$> docs = d_id <$> documents db).
  { eapply (Forall2_fmap_eq _ d_id); [|exact HF].
    by intros x y [[_ ->]|[_ ->]]%doc_updated_cases. }
  assert (Hback : forall d', d' ∈ docs -> exists d, d ∈ documents db /\ same_identity d d' /\
            (d' = d \/ d_status d' = StateUnderReview)).
  { intros d' [k Hk]%list_elem_of_lookup. destruct (Forall2_lookup_r _ _ _ _ _ HF Hk) as (d & Hd & Hu).
    exists d. split; [by eapply list_elem_of_lookup_2|].
    apply doc_updated_cases in Hu as [[_ ->]|[_ ->]]; (split; [done|auto]). }
  destruct (bcount_exists _ _ Hcount) as (dsub & Hdsub & Hcond).
  assert (Hds : d_id dsub = sr_DocumentID req /\ d_tenant_id dsub = sr_TenantID req).
  { unfold submit_cond, doc_is in Hcond. by bool_to_prop. }
  destruct Hds as [Hds1 Hds2].
  split; rewrite ?E1, ?E4; try done.
  - intros i. rewrite E2, Hids. intros [Hi| ->%list_elem_of_singleton]%elem_of_app; [by apply Hc|].
    rewrite Hdoc, <- Hds1. by apply list_elem_of_fmap_2.
  - intros i. rewrite E2. intros [Hi| ->%list_elem_of_singleton]%elem_of_app Hs.
    + destruct (c_document _ Hc i Hi Hs) as (d & Hd & Hdo & Hst).
      destruct (updated_forall _ _ _ HF d Hd) as (d' & Hd' & [[_ ->]|[Hcd _]]%doc_updated_cases).
      * by exists d.
      * unfold submit_cond, doc_has_status in Hcd. bool_to_prop. congruence.
    + destruct (updated_forall _ _ _ HF dsub Hdsub) as (d' & Hd' & [[Hcd _]|[_ ->]]%doc_updated_cases);
        [congruence|]. eexists. split_and!; [exact Hd'|split; simpl; congruence|done].
  - intros i. rewrite E2. intros [Hi| ->%list_elem_of_singleton]%elem_of_app Hs.
    + rewrite stages_of_old by done. by apply Hc.
    + rewrite Hid, stages_of_new. apply pure_stages_running; [|done].
      rewrite <- Er. apply (route_nonempty _ Hr).
  - intros i. rewrite E2. intros [Hi| ->%list_elem_of_singleton]%elem_of_app Hs; [|congruence].
    rewrite stages_of_old by done. by apply Hc.
  - intros s. rewrite E3. intros [Hs|Hs]%elem_of_app Hcs; [by apply Hc|].
    by apply new_fields in Hs as (_ & Hs & _).
  - intros s. rewrite E3. intros [Hs|Hs]%elem_of_app Hq; [by apply Hc|].
    apply new_fields in Hs as (_ & _ & st & Hst & Q1 & Q2).
    pose proof (route_quorum _ Hr) as Hquo. rewrite Er, Forall_forall in Hquo.
    specialize (Hquo st Hst). unfold stage_quorum_ok in Hquo. rewrite <- Q1, Hq, <- Q2 in Hquo.
    destruct (si_QuorumMSnapshot s); [eauto|done].
  - apply Hc.
  - intros v i Hv. rewrite E2. intros [Hi| ->%list_elem_of_singleton]%elem_of_app Hvi; [by apply Hc|].
    exfalso. pose proof (wf_signoff_stage _ (c_wf _ Hc) v Hv) as Hin.
    apply elem_of_map_inv in Hin as (s & Hs & [= _ E]). apply (old_stage_instance s Hs). congruence.
  - intros v i d' Hv. rewrite E2. intros [Hi| ->%list_elem_of_singleton]%elem_of_app Hd' Hvi Hdi.
    + destruct (Hback d' Hd') as (d & Hd & (S1 & S2 & S3) & _). rewrite S3.
      apply (c_author _ Hc v i d); congruence || done.
    + exfalso. pose proof (wf_signoff_stage _ (c_wf _ Hc) v Hv) as Hin.
      apply elem_of_map_inv in Hin as (s & Hs & [= _ E]). apply (old_stage_instance s Hs). congruence.
  - intros d' Hd' Hp. destruct (Hback d' Hd') as (d & Hd & _ & [->|E]); [|by rewrite E in Hp].
    destruct (c_past_review _ Hc d Hd Hp) as (i & Hi & Hdo & Hs). exists i. rewrite E2.
    split_and!; [apply elem_of_app; by left|done..].
Qed.

End submission.

Lemma consistent_submitted req id db db' :
  consistent db -> db_wf db' -> submitted req id db db' -> consistent db'.
Proof.
  intros Hc Hwf (row & ids & now & docs & evs & g & H1 & H2 & H3 & H4 & H5 & H6 & H7 & H8 & H9 &
    H10 & H11 & H12 & H13 & H14 & H15).
  by eapply (consistent_submission req id db db' Hc Hwf row ids now docs g).
Qed.

(** ** Every call, every history *)

Section histories.
Context {UN : UnicodeNorm} (fi : option FreezeInvoker) (pd : option PDFDispatchInvoker)
  (Hf : freeze_lawful fi) (Hp : dispatch_lawful pd).

Lemma failed_call_keeps c w e w' :
  w_tx w = None -> run_call fi pd c w = (inl e, w') -> w_db w' = w_db w.
Proof.
  intros Ht Hr. pose proof (phases_run_call fi pd Hf Hp c (w_db w) w (conj Ht eq_refl)) as H.
  rewrite Hr in H. apply H.
Qed.

Lemma void_ok {A} (m : M A) w u w' : void m w = (inr u, w') -> exists a, m w = (inr a, w').
Proof. unfold void. intros H. run_inv. eauto. Qed.

Lemma evolves_keeps (m : M unit) w :
  evolves (keeps consistent) m -> w_tx w = None -> consistent (w_db w) ->
  consistent (w_db (snd (m w))).
Proof. intros Hm Ht Hc. apply Hm; [|done]. intros tx Htx. congruence. Qed.

Lemma evolves_keeps_void {A} (m : M A) : evolves (keeps consistent) m -> evolves (keeps consistent) (void m).
Proof. intros Hm. unfold void. evolves_tac. Qed.

Lemma keeps_blind_call c :
  match c with CallSubmit _ | CallSignoff _ | CallCancel _ => True
  | _ => evolves (keeps consistent) (run_call fi pd c) end.
Proof.
  destruct c; try exact I; apply evolves_keeps_void;
    eauto using keeps_PublishApproved, keeps_PublishSuperseding, keeps_MarkObsolete,
      keeps_RunDuePublishes, evolves_SchedulePublish, evolves_Create, evolves_Update,
      evolves_Deactivate with typeclass_instances.
Qed.

Lemma consistent_call c w :
  w_tx w = None -> consistent (w_db w) -> consistent (w_db (snd (run_call fi pd c w))).
Proof.
  intros Ht Hc.
  assert (Hwf : db_wf (w_db (snd (run_call fi pd c w)))).
  { apply (evolves_run_call fi pd Hf Hp c w); [|apply Hc]. intros tx Htx. congruence. }
  pose proof (keeps_blind_call c) as Hblind.
  destruct c; try (by apply evolves_keeps); clear Hblind;
    match goal with |- consistent (w_db (snd (run_call _ _ ?c _))) =>
      destruct (run_call fi pd c w) as [[e|u] w'] eqn:Hr; simpl in *;
        [by rewrite (failed_call_keeps c w e w')|]
    end; apply void_ok in Hr as [res Hr].
  - apply submit_ok in Hr as [Hr _]. by eapply consistent_submitted.
  - apply (RecordSignoff_ok fi pd Hf Hp) in Hr as [_ [Hr|[_ [evs Hr]]]].
    + by eapply consistent_recorded.
    + rewrite Hr. by apply consistent_events.
  - apply cancel_ok in Hr as [Hr _]. by eapply consistent_cancelled.
Qed.

Lemma environment_keeps db db' : environment db db' -> consistent db -> consistent db'.
Proof.
  intros [(docs & new & E1 & HF & Hnd & Hnew) E2 E3 E4 _] Hc.
  apply (consistent_documents docs new db db'); try done.
  eapply Forall2_impl; [exact HF|]. intros d d' (S1 & S2 & S3 & S4 & _). split_and!; auto.
Qed.

Lemma history_keeps db db' : history fi pd db db' -> consistent db -> consistent db'.
Proof.
  induction 1 as [db|db1 db2 db3 Hs _ IH]; [done|]. intros Hc. apply IH.
  destruct Hs as [c w <- Ht|db2 He]; [by apply consistent_call|by eapply environment_keeps].
Qed.

End histories.
