(* ===== verification/Guarantees.v ===== *)
(** * What the approval module guarantees

    The theorems about every history of calls: no release without a
    completed approval, atomicity, the lifecycle of documents, votes,
    instances, and the agreement of the database triggers with the domain. *)
From S2P Require Import Prelude Tables ApprovalDomain ApprovalFacts Database Schema TxLogic Authz.
From S2P Require Import ApprovalRepo Evolve ContentHash Submit Decision Cancel Publish RouteAdmin.
From S2P Require Import Lifecycle Consistency Scenario.
Import DocStates Routes Signoffs Instances.
Local Open Scope Z_scope.

(** ** Lemmas *)

(** The collaborators of a deployment: an optional freeze and an optional
    PDF dispatch, both lawful. *)
Definition lawful (fi : option FreezeInvoker) (pd : option PDFDispatchInvoker) : Prop :=
  freeze_lawful fi /\ dispatch_lawful pd.

Lemma history_step_db `{UnicodeNorm} fi pd db db' :
  lawful fi pd -> history fi pd db db' -> db_step db db'.
Proof. intros [Hf Hp]. by apply history_contract. Qed.

(** One move per revision number. *)
Lemma doc_steps_moves d d' :
  rtc doc_step d d' ->
  exists n : nat, nsteps lifecycle_move n (d_status d) (d_status d') /\
    d_revision_version d' = d_revision_version d + Z.of_nat n.
Proof.
  induction 1 as [d|d1 d2 d3 Hs _ (n & Hn & Hv)]; [exists 0%nat; split; [constructor|lia]|].
  destruct Hs as [d s Hm Hmax|d d2 (_ & _ & _ & E1 & E2)].
  - exists (S n). split; [by econstructor|]. simpl in Hv. lia.
  - exists n. rewrite <- E1, <- E2. done.
Qed.

Lemma lifecycle_move_released a b : lifecycle_move a b -> released a -> released b.
Proof.
  intros [H|[-> ->]]; [by apply legal_step_released|]. intros [?|[?|?]]; done.
Qed.

Lemma moves_released n a b : nsteps lifecycle_move n a b -> released a -> released b.
Proof. induction 1; eauto using lifecycle_move_released. Qed.

Lemma grows_elem {A} (R : A -> A -> Prop) (l l' : list A) x :
  grows R l l' -> x ∈ l -> exists y, y ∈ l' /\ R x y.
Proof.
  intros (l1 & new & -> & HF) Hx. destruct (updated_forall _ _ _ HF x Hx) as (y & Hy & HR).
  exists y. split; [apply elem_of_app; by left|done].
Qed.

(** A database whose approval tables are empty. *)
Lemma fresh_consistent db :
  approval_instances db = [] -> approval_stage_instances db = [] -> approval_signoffs db = [] ->
  NoDup (d_id <$> documents db) ->
  Forall (fun d => past_review (d_status d) = false) (documents db) -> consistent db.
Proof.
  intros E1 E2 E3 Hnd Hd.
  split; try (rewrite ?E1, ?E2, ?E3; intros; by match goal with H : _ ∈ [] |- _ =>
    apply not_elem_of_nil in H end).
  - split; rewrite ?E1, ?E2, ?E3; try done; try constructor;
      intros; by match goal with H : _ ∈ [] |- _ => apply not_elem_of_nil in H end.
  - intros d Hin Hp. rewrite Forall_forall in Hd. by rewrite (Hd d Hin) in Hp.
Qed.

Lemma demo_consistent stages : consistent (demo_db stages).
Proof.
  apply fresh_consistent; try done.
  - apply (bool_decide_unpack _). vm_compute. done.
  - repeat constructor.
Qed.

(** ** The theorems *)

Section guarantees.
Context {UN : UnicodeNorm} (fi : option FreezeInvoker) (pd : option PDFDispatchInvoker).

(** C1 No document gets past review without a completed approval: in every
    history from a consistent database, under any faults, a document that is
    approved, scheduled, published, superseded or obsolete has an approved
    instance, with at least one stage, and every stage of it was completed and
    approved by somebody who is neither the submitter nor the author. *)
Theorem no_release_without_approval db0 db d
  (Hlaws : lawful fi pd) (Hc : consistent db0) (Hh : history fi pd db0 db)
  (Hd : d ∈ documents db) (Hs : past_review (d_status d) = true) :
  exists i, i ∈ approval_instances db /\ doc_of i d /\ ai_status i = InstanceApproved /\
    stages_of (ai_id i) db <> [] /\
    forall s, s ∈ stages_of (ai_id i) db ->
      completed s /\
      exists v, v ∈ approval_signoffs db /\ approved_by v s /\
        so_ActorUserID v <> ai_submitted_by i /\ so_ActorUserID v <> d_created_by d.
Proof.
  destruct Hlaws as [Hf Hp]. pose proof (history_keeps fi pd Hf Hp db0 db Hh Hc) as Hc'.
  destruct (c_past_review _ Hc' d Hd Hs) as (i & Hi & Hdo & Hst).
  destruct (c_approved _ Hc' i Hi Hst) as [Hne Hall]. exists i. split_and!; [done..|].
  intros s Hin. rewrite Forall_forall in Hall. split; [by apply Hall|].
  pose proof (proj1 (elem_of_stages_of _ _ _) Hin) as [Hs1 Hs2].
  destruct (c_signed _ Hc' s Hs1 (Hall s Hin)) as (v & Hv & A1 & A2 & A3).
  exists v. split_and!; [done|done| |].
  - apply (c_submitter _ Hc'); [done..|congruence].
  - destruct Hdo as [D1 D2]. apply (c_author _ Hc' v i d); congruence || done.
Qed.



(** Publication cannot be undone: once published, superseded or obsolete,
    a document is published, superseded or obsolete for ever. *)
Theorem publication_is_irreversible db0 db d
  (Hlaws : lawful fi pd) (Hh : history fi pd db0 db) (Hd : d ∈ documents db0)
  (Hr : released (d_status d)) :
  exists d', d' ∈ documents db /\ d_id d' = d_id d /\ released (d_status d').
Proof.
  apply (history_step_db fi pd) in Hh as Hstep; [|done].
  destruct (grows_elem _ _ _ _ (step_documents _ _ Hstep) Hd) as (d' & Hd' & Hsteps).
  destruct (doc_steps_moves _ _ Hsteps) as (n & Hn & _).
  exists d'. split_and!; [done|by apply doc_steps_id|by eapply moves_released].
Qed.

(** C36 The votes are append-only, and a user has at most one vote per
    approval instance, in every history; so are the governance events. *)
Theorem votes_are_final db0 db
  (Hlaws : lawful fi pd) (Hwf : db_wf db0) (Hh : history fi pd db0 db) :
  (exists new, approval_signoffs db = approval_signoffs db0 ++ new) /\
  (exists new, governance_events db = governance_events db0 ++ new) /\
  NoDup (vote_key <$> approval_signoffs db).
Proof.
  apply (history_step_db fi pd) in Hh as Hstep; [|done].
  assert (Heq : forall A (l l' : list A), grows eq l l' -> exists new, l' = l ++ new).
  { intros A l l' (l1 & new & -> & HF). exists new. f_equal. by apply list_eq_Forall2. }
  split_and!.
  - apply Heq, Hstep.
  - apply Heq, Hstep.
  - apply (step_wf _ _ Hstep Hwf).
Qed.

(** C38 At any time a document has at most one approval in progress, and an
    approval that was approved, rejected or cancelled stays as it is. *)
Theorem closed_instances_are_final db0 db i
  (Hlaws : lawful fi pd) (Hwf : db_wf db0) (Hh : history fi pd db0 db)
  (Hi : i ∈ approval_instances db0) :
  NoDup (ai_document_v2_id <$> bfilter in_progress (approval_instances db)) /\
  exists i', i' ∈ approval_instances db /\ ai_id i' = ai_id i /\
    (ai_status i <> InstanceInProgress -> i' = i).
Proof.
  apply (history_step_db fi pd) in Hh as Hstep; [|done].
  split; [apply (step_wf _ _ Hstep Hwf)|].
  destruct (grows_elem _ _ _ _ (step_instances _ _ Hstep) Hi) as (i' & Hi' & Hs).
  exists i'. split_and!; [done|by apply (instance_step_id _ _ Hs)|].
  intros Hne. by destruct Hs as [->|[? _]].
Qed.

End guarantees.

(** The transition trigger of the database agrees with
    [IsLegalTransition] of the domain, but for the one edge that a cancellation
    authorises by its transaction-local setting. *)
Theorem transition_trigger_agrees_with_domain g a b :
  enforce_document_transition g a b = inr tt <->
  a = b \/ IsLegalTransition a b = true \/
  (a = StateUnderReview /\ b = StateDraft /\
   exists i, guc_cancel_in_progress g = Some i /\ i <> "").
Proof.
  unfold enforce_document_transition. case_bool_decide as H1; [split; auto|].
  case_bool_decide as H2; [case_bool_decide as H3|]; simpl.
  - subst. destruct (guc_cancel_in_progress g) as [i|].
    + rewrite constraint_ok, negb_true_iff, str_eqb_false. split.
      * intros Hi. right. right. eauto.
      * intros [?|[?|(_ & _ & j & [= <-] & Hj)]]; done.
    + split; [done|]. intros [?|[?|(_ & _ & j & ? & _)]]; done.
  - rewrite constraint_ok, sql_transition_allowed_edges. split; [auto|].
    intros [?|[?|(_ & ? & _)]]; done.
  - rewrite constraint_ok, sql_transition_allowed_edges. split; [auto|].
    intros [?|[?|(? & _)]]; done.
Qed.

(** ** Witnesses: the run of [Scenario] *)

Lemma run_calls_history cs w :
  w_tx w = None ->
  history (Some noopFreezeInvoker) None (w_db w) (w_db (run_calls cs w)) /\
  w_tx (run_calls cs w) = None.
Proof.
  revert w. induction cs as [|c cs IH]; intros w Ht; [by split; [apply rtc_refl|]|]. simpl.
  pose proof (phases_run_call (Some noopFreezeInvoker) None noopFreeze_laws I c (w_db w) w (conj Ht eq_refl)) as H.
  assert (Ht' : w_tx (snd (run_call (Some noopFreezeInvoker) None c w)) = None).
  { destruct (run_call _ _ c w) as [[e|u] w']; [apply H|done]. }
  destruct (IH _ Ht') as [H1 H2]. split; [|done].
  eapply rtc_l; [by apply step_call|done].
Qed.

Lemma demo_lawful : lawful (Some noopFreezeInvoker) None.
Proof. split; [apply noopFreeze_laws|done]. Qed.

Definition demo_calls : list Call :=
  [CallSubmit (submit_req "doc-1"); CallSignoff (signoff_req "uuid-0" "bob" "approve");
   CallSignoff (signoff_req "uuid-0" "eva" "approve");
   CallPublish (mkPublishRequest "acme" "uuid-0" "max")].

Definition demo_final : DB := w_db (run_calls demo_calls w0).

Lemma demo_history : history (Some noopFreezeInvoker) None (demo_db two_stages) demo_final.
Proof. by apply (run_calls_history demo_calls w0). Qed.

Definition demo_published_doc : Document := doc_set StatePublished 4 (demo_doc "doc-1").

Lemma no_release_without_approval_witness :
  exists i, i ∈ approval_instances demo_final /\ doc_of i demo_published_doc /\
    ai_status i = InstanceApproved /\ stages_of (ai_id i) demo_final <> [] /\
    forall s, s ∈ stages_of (ai_id i) demo_final ->
      completed s /\
      exists v, v ∈ approval_signoffs demo_final /\ approved_by v s /\
        so_ActorUserID v <> ai_submitted_by i /\
        so_ActorUserID v <> d_created_by demo_published_doc.
Proof.
  apply (no_release_without_approval (Some noopFreezeInvoker) None (demo_db two_stages)).
  - apply demo_lawful.
  - apply demo_consistent.
  - apply demo_history.
  - vm_compute. left.
  - reflexivity.
Defined.



Definition demo_retired : DB :=
  w_db (run_calls [CallObsolete (mkMarkObsoleteRequest "acme" "doc-1" "max" 4 "retired")]
          (run_calls demo_calls w0)).

Lemma publication_is_irreversible_witness :
  exists d', d' ∈ documents demo_retired /\ d_id d' = "doc-1" /\ released (d_status d').
Proof.
  apply (publication_is_irreversible (Some noopFreezeInvoker) None demo_final demo_retired
           demo_published_doc).
  - apply demo_lawful.
  - apply run_calls_history. by apply (run_calls_history demo_calls w0).
  - vm_compute. left.
  - by left.
Defined.

Lemma votes_are_final_witness :
  (exists new, approval_signoffs demo_final = approval_signoffs (demo_db two_stages) ++ new) /\
  (exists new, governance_events demo_final = governance_events (demo_db two_stages) ++ new) /\
  NoDup (vote_key <$> approval_signoffs demo_final).
Proof.
  apply (votes_are_final (Some noopFreezeInvoker) None).
  - apply demo_lawful.
  - apply demo_consistent.
  - apply demo_history.
Defined.

(** The instance of the run, once submitted. *)
Definition demo_submitted_row : InstanceRow :=
  default (mkInstanceRow "" "" "" "" 0 InstanceCancelled "" 0 None "" "")
    (head (approval_instances (w_db w_submitted))).

Lemma closed_instances_are_final_witness :
  NoDup (ai_document_v2_id <$> bfilter in_progress (approval_instances (w_db w_reviewed))) /\
  exists i', i' ∈ approval_instances (w_db w_reviewed) /\ ai_id i' = ai_id demo_submitted_row /\
    (ai_status demo_submitted_row <> InstanceInProgress -> i' = demo_submitted_row).
Proof.
  apply (closed_instances_are_final (Some noopFreezeInvoker) None (w_db w_submitted)).
  - apply demo_lawful.
  - eapply c_wf, (history_keeps (Some noopFreezeInvoker) None); [apply demo_lawful..| |].
    + by apply run_calls_history.
    + apply demo_consistent.
  - apply run_calls_history. by apply run_calls_history.
  - vm_compute. left.
Defined.
