(* ===== verification/Behaviour.v ===== *)
(** * What each service may and may not do

    Authorisation, optimistic concurrency, repeated calls, routes in use, the
    scheduler; and the calls that can never succeed or whose outcome differs
    from what the code means to do. *)
From S2P Require Import Prelude Tables ApprovalDomain ApprovalFacts Database Schema TxLogic Authz.
From S2P Require Import ApprovalRepo Evolve ContentHash Submit Decision Cancel Publish RouteAdmin.
From S2P Require Import Lifecycle Consistency Scenario Guarantees.
Import DocStates Routes Signoffs Instances Quorums.
Local Open Scope Z_scope.

(** ** Authorisation *)

Definition doc_area (db : DB) (docID tenant : string) : option string :=
  select_one (doc_is docID tenant) (documents db) ≫= d_process_area_code_snapshot.

(** The capability a successful call must have been granted, on the
    committed data it started from. The scheduler acts for the system. *)
Definition call_authorised (db : DB) (c : Call) : Prop :=
  match c with
  | CallSubmit r =>
      role_grants db (sr_TenantID r) (sr_SubmittedBy r) "doc.submit"
        (area_code db (sr_TenantID r) (sr_DocumentID r)) = true
  | CallSignoff r =>
      exists row, instance_row (sg_TenantID r) (sg_InstanceID r) db = Some row /\
        role_grants db (sg_TenantID r) (sg_ActorUserID r) "doc.signoff"
          (area_code db (sg_TenantID r) (ai_document_v2_id row)) = true
  | CallCancel r =>
      exists row area, instance_row (ci_TenantID r) (ci_InstanceID r) db = Some row /\
        doc_area db (ai_document_v2_id row) (ci_TenantID r) = Some area /\
        role_grants db (ci_TenantID r) (ci_ActorUserID r) "workflow.instance.cancel" area = true
  | CallPublish r =>
      exists row, instance_row (pr_TenantID r) (pr_InstanceID r) db = Some row /\
        role_grants db (pr_TenantID r) (pr_PublishedBy r) "doc.publish"
          (area_code db (pr_TenantID r) (ai_document_v2_id row)) = true
  | CallSchedulePublish r => False
  | CallSupersede r =>
      role_grants db (su_TenantID r) (su_SupersededBy r) "doc.supersede"
        (area_code db (su_TenantID r) (su_NewDocumentID r)) = true
  | CallObsolete r =>
      exists area, doc_area db (ob_DocumentID r) (ob_TenantID r) = Some area /\
        role_grants db (ob_TenantID r) (ob_MarkedBy r) "doc.obsolete" area = true
  | CallRunDuePublishes => True
  | CallCreateRoute r =>
      role_grants db (cr_TenantID r) (cr_ActorUserID r) "route.admin" "tenant" = true
  | CallUpdateRoute r =>
      role_grants db (ur_TenantID r) (ur_ActorUserID r) "route.admin" "tenant" = true
  | CallDeactivateRoute tenant _ actor => role_grants db tenant actor "route.admin" "tenant" = true
  end.

(** A granted [Require] with an empty cache comes from the tables. *)
Ltac granted :=
  match goal with
  | H : cacheGranted _ _ _ = true \/ _ |- _ =>
      destruct H as [Hcache|(? & ? & Htenant & Hactor & Hrole)];
      [by vm_compute in Hcache|]; simpl in Htenant, Hactor; simplify_eq
  end.

Lemma submit_authorised `{UnicodeNorm} req w r w' :
  SubmitRevisionForReview req w = (inr r, w') -> call_authorised (w_db w) (CallSubmit req).
Proof. unfold SubmitRevisionForReview. intros Hrun. svc_inv. db_norm. granted. done. Qed.

Section signoff.
Context `{UN : UnicodeNorm} (fi : option FreezeInvoker) (pd : option PDFDispatchInvoker).

Lemma signoff_authorised req w r w' :
  RecordSignoff fi pd req w = (inr r, w') -> call_authorised (w_db w) (CallSignoff req).
Proof.
  unfold RecordSignoff. intros Hrun. svc_inv; db_norm; granted; simpl; eauto.
Qed.
End signoff.

(** Only the caller's own identity can be granted: a bypass call has none. *)
Lemma cancel_identity_user inp w u w' tx :
  cancel_identity inp w = (inr u, w') -> w_tx w = Some tx -> tx_guc tx = no_gucs ->
  exists g, w_tx w' = Some (tx_set_guc g tx) /\ w_db w' = w_db w /\
    forall t a, guc_tenant_id g = Some t -> guc_actor_id g = Some a ->
      ci_BypassAuthz inp = false /\ t = ci_TenantID inp /\ a = ci_ActorUserID inp.
Proof.
  unfold cancel_identity. intros H Ht Hg. destruct (ci_BypassAuthz inp); svc_inv;
    (eexists; split_and!; [eassumption|congruence|]); rewrite Hg; simpl; intros t a;
    [done|by intros [= ->] [= ->]].
Qed.

Lemma fetch_area_code_value d t w a w' tx :
  fetch_area_code d t w = (inr a, w') -> w_tx w = Some tx ->
  doc_area (tx_db tx) d t = Some a /\ w_tx w' = Some tx /\ w_db w' = w_db w.
Proof.
  unfold fetch_area_code, doc_area. intros H Ht. run_inv.
  match goal with H : _ <$> ?o = _ |- _ => destruct o as [doc|] end; simplify_eq/=.
  split_and!; [done|done|congruence].
Qed.

Ltac svc_hook ::=
  match goal with
  | H : fetch_area_code _ _ ?w = (inr _, _), Ht : w_tx ?w = Some _ |- _ =>
      apply (fetch_area_code_value _ _ _ _ _ _ H) in Ht as (? & ? & ?); clear H; tx_trans
  | H : cancel_identity _ ?w = (inr _, _), Ht : w_tx ?w = Some _ |- _ =>
      apply (cancel_identity_user _ _ _ _ _ H) in Ht as (? & ? & ? & Hid);
        [clear H; tx_trans|reflexivity]
  end.

Lemma cancel_authorised inp w r w' :
  CancelInstance inp w = (inr r, w') ->
  ci_BypassAuthz inp = false /\ call_authorised (w_db w) (CallCancel inp).
Proof.
  unfold CancelInstance. intros Hrun. svc_inv. db_norm.
  match goal with
  | H : cacheGranted _ _ _ = true \/ _ |- _ =>
      destruct H as [Hcache|(? & ? & Htenant & Hactor & Hrole)]; [by vm_compute in Hcache|]
  end.
  destruct (Hid _ _ Htenant Hactor) as (Hb & -> & ->). simplify_eq/=. split; [done|]. eauto.
Qed.

Lemma load_publishable_ok a b c t i u w inst w' db now :
  load_publishable a b c t i u w = (inr inst, w') -> w_tx w = Some (mkTx db no_gucs now false) ->
  exists row tx, instance_row t i db = Some row /\ in_Status inst = InstanceApproved /\
    inst = instance_of_row row (stages_of (ai_id row) db) /\
    role_grants db t u "doc.publish" (area_code db t (ai_document_v2_id row)) = true /\
    w_tx w' = Some tx /\ tx_db tx = db /\ w_db w' = w_db w.
Proof.
  unfold load_publishable. intros H Ht. svc_inv. granted. bool_to_prop.
  eexists _, _. split_and!; try done; congruence.
Qed.

Lemma route_admin_begin_ok f t a w u w' :
  route_admin_begin f t a w = (inr u, w') ->
  role_grants (w_db w) t a "route.admin" "tenant" = true /\
  exists tx, w_tx w' = Some tx /\ tx_db tx = w_db w /\ w_db w' = w_db w.
Proof.
  unfold route_admin_begin. intros H. svc_inv. granted. split; [done|].
  eexists. split_and!; [eassumption|done|congruence].
Qed.

Ltac svc_hook ::=
  match goal with
  | H : load_publishable _ _ _ _ _ _ ?w = (inr _, _), Ht : w_tx ?w = Some _ |- _ =>
      apply (load_publishable_ok _ _ _ _ _ _ _ _ _ _ _ H) in Ht as (? & ? & ? & ? & ? & ? & ? & ? & ?);
      clear H
  | H : route_admin_begin _ _ _ _ = (inr _, _) |- _ =>
      apply route_admin_begin_ok in H as (? & ? & ? & ? & ?)
  | H : fetch_document _ _ _ = (inr _, _) |- _ => unfold fetch_document in H
  end.

Lemma publish_authorised req w r w' :
  PublishApproved req w = (inr r, w') -> call_authorised (w_db w) (CallPublish req).
Proof. unfold PublishApproved. intros Hrun. svc_inv. simpl. eauto. Qed.

Lemma schedule_never_succeeds req w r w' : SchedulePublish req w = (inr r, w') -> False.
Proof. unfold SchedulePublish. intros Hrun. svc_inv. done. Qed.

Lemma supersede_authorised req w r w' :
  PublishSuperseding req w = (inr r, w') -> call_authorised (w_db w) (CallSupersede req).
Proof. unfold PublishSuperseding. intros Hrun. svc_inv. db_norm. granted. done. Qed.

Lemma obsolete_authorised req w r w' :
  MarkObsolete req w = (inr r, w') -> call_authorised (w_db w) (CallObsolete req).
Proof.
  unfold MarkObsolete. intros Hrun. svc_inv. db_norm. simplify_eq. granted. simpl.
  eexists. split; [|eassumption]. unfold doc_area.
  match goal with H : select_one _ _ = Some _ |- _ => rewrite H end. done.
Qed.

Lemma create_authorised inp w r w' :
  Create inp w = (inr r, w') -> call_authorised (w_db w) (CallCreateRoute inp).
Proof. unfold Create. intros Hrun. run_inv_step. svc_hook. done. Qed.

Lemma update_authorised inp w r w' :
  Update inp w = (inr r, w') -> call_authorised (w_db w) (CallUpdateRoute inp).
Proof. unfold Update. intros Hrun. run_inv_step. svc_hook. done. Qed.

Lemma deactivate_authorised t id a w r w' :
  Deactivate t id a w = (inr r, w') -> call_authorised (w_db w) (CallDeactivateRoute t id a).
Proof. unfold Deactivate. intros Hrun. run_inv_step. svc_hook. done. Qed.



(** ** Calls that cannot succeed *)

(** [SchedulePublish] never succeeds: its UPDATE names the column
    [effective_date], which [documents] does not have. Whatever the request and
    the state, the call fails and changes nothing; hence no document is ever
    scheduled and the scheduler has nothing to publish. *)
Theorem schedule_publish_always_fails req w (Hidle : w_tx w = None) :
  exists e w', SchedulePublish req w = (inl e, w') /\ w_db w' = w_db w /\ w_tx w' = None.
Proof.
  pose proof (phases_SchedulePublish req (w_db w) w (conj Hidle eq_refl)) as Hphase.
  destruct (SchedulePublish req w) as [[e|r] w'] eqn:Hr; [|by apply schedule_never_succeeds in Hr].
  destruct Hphase. by exists e, w'.
Qed.

Definition demo_schedule : SchedulePublishRequest :=
  mkSchedulePublishRequest "acme" "uuid-0" 1000000000000000 "max".

Lemma schedule_publish_always_fails_witness :
  exists e w', SchedulePublish demo_schedule w_approved = (inl e, w') /\
    w_db w' = w_db w_approved /\ w_tx w' = None.
Proof. apply schedule_publish_always_fails. vm_compute. reflexivity. Defined.

(** On an approved document the error is the one of the missing column. *)
Example schedule_publish_missing_column :
  errors_As_PgError (match fst (SchedulePublish demo_schedule w_approved) with
                     | inl e => e | inr _ => Errorf "" [] end) =
  Some ("42703", "", "column effective_date of relation documents does not exist").
Proof. vm_compute. reflexivity. Qed.

(** A cancellation that asks to bypass authorisation (the stuck-instance
    watchdog) never succeeds: [Require] does not look at the bypass setting and
    the caller's identity is not set. *)
Theorem bypass_cancellation_always_fails inp w
  (Hbypass : ci_BypassAuthz inp = true) (Hidle : w_tx w = None) :
  exists e w', CancelInstance inp w = (inl e, w') /\ w_db w' = w_db w /\ w_tx w' = None.
Proof.
  pose proof (phases_CancelInstance inp (w_db w) w (conj Hidle eq_refl)) as Hphase.
  destruct (CancelInstance inp w) as [[e|r] w'] eqn:Hr.
  - destruct Hphase. by exists e, w'.
  - apply cancel_authorised in Hr as [Hr _]. congruence.
Qed.

Lemma bypass_cancellation_always_fails_witness :
  exists e w', CancelInstance (mkCancelInput "acme" "uuid-0" 2 "system:watchdog" "stuck" true)
                 w_submitted = (inl e, w') /\
    w_db w' = w_db w_submitted /\ w_tx w' = None.
Proof. apply bypass_cancellation_always_fails; vm_compute; reflexivity. Defined.

(** ** Submission *)

(** A document under review cannot be submitted again: while it has an
    approval in progress, or is not a draft at the revision the caller read,
    [SubmitRevisionForReview] fails and changes nothing. *)
Theorem submission_needs_a_current_draft `{UnicodeNorm} req w
  (Hidle : w_tx w = None)
  (Hbusy : (exists i, i ∈ approval_instances (w_db w) /\ ai_status i = InstanceInProgress /\
              ai_document_v2_id i = sr_DocumentID req) \/
           (forall d, d ∈ documents (w_db w) -> d_id d = sr_DocumentID req ->
              d_status d <> StateDraft \/ d_revision_version d <> sr_RevisionVersion req)) :
  exists e w', SubmitRevisionForReview req w = (inl e, w') /\ w_db w' = w_db w /\ w_tx w' = None.
Proof.
  pose proof (phases_submit req (w_db w) w (conj Hidle eq_refl)) as Hphase.
  destruct (SubmitRevisionForReview req w) as [[e|r] w'] eqn:Hr.
  { destruct Hphase. by exists e, w'. }
  exfalso. apply submit_ok in Hr as [(row & ids & now & docs & evs & g & _ & _ & _ & _ & _ & Hfresh &
    _ & _ & _ & Hcount & _) _].
  destruct Hbusy as [(i & Hi & Hs & Hd)|Hdocs].
  - by apply Hfresh in Hi as [_ Hi]; apply Hi.
  - apply bcount_exists in Hcount as (d & Hd & Hcond).
    unfold submit_cond, doc_is, doc_has_status, doc_has_revision in Hcond. bool_to_prop.
    match goal with H : (_ =? _) = true |- _ => apply Z.eqb_eq in H end.
    by destruct (Hdocs d Hd).
Qed.

Lemma submission_needs_a_current_draft_witness :
  exists e w', SubmitRevisionForReview (submit_req "doc-1") w_submitted = (inl e, w') /\
    w_db w' = w_db w_submitted /\ w_tx w' = None.
Proof.
  apply submission_needs_a_current_draft; [vm_compute; reflexivity|]. left.
  exists demo_submitted_row. split_and!; [vm_compute; left|reflexivity|reflexivity].
Defined.

(** The error is the sentinel the HTTP layer maps to a conflict. *)
Example double_submission_error :
  fst (SubmitRevisionForReview (submit_req "doc-1") w_submitted) = inl ErrDuplicateSubmission.
Proof. vm_compute. reflexivity. Qed.
