(* ===== verification/Outcomes.v ===== *)
(** * Outcomes of decisions, routes in use, scheduled publication

    What a recorded vote does, what the quorum of a stage created by a
    submission can do, documents left without an approval, route changes and
    the scheduler. *)
From S2P Require Import Prelude Tables ApprovalDomain ApprovalFacts Database Schema TxLogic Authz.
From S2P Require Import ApprovalRepo Evolve Sha256 ContentHash Submit Decision Cancel Publish.
From S2P Require Import RouteAdmin Lifecycle Consistency Scenario Guarantees.
Import DocStates Routes Signoffs Instances Quorums.
Local Open Scope Z_scope.

(** ** Votes *)

Section votes.
Context {UN : UnicodeNorm} (fi : option FreezeInvoker) (pd : option PDFDispatchInvoker).

(** Whatever the quorum decides, evaluating a stage leaves the votes alone. *)
Lemma stage_evaluated_signoffs req a inst db db' res :
  stage_evaluated req a inst db db' res -> approval_signoffs db' = approval_signoffs db.
Proof.
  intros (votes & _ & He). destruct (decision_outcome a votes).
  - by destruct He as [-> _].
  - by destruct He as (? & ? & ? & _ & -> & _).
  - by destruct He as (? & ? & _ & -> & _).
Qed.


(** A second vote of the same user on the same approval changes nothing: if
    the call succeeds at all it is the replay of the first. *)
Theorem second_vote_changes_nothing req w res w'
  (Hlaws : lawful fi pd) (Hok : RecordSignoff fi pd req w = (inr res, w'))
  (Hvoted : (sg_InstanceID req, sg_ActorUserID req) ∈ vote_key <$> approval_signoffs (w_db w)) :
  res = empty_result /\ exists evs, w_db w' = append_events evs (w_db w).
Proof.
  destruct Hlaws as [Hf Hp]. apply (RecordSignoff_ok fi pd Hf Hp) in Hok as [_ [Hr|Hr]]; [|done].
  exfalso. destruct Hr as (row & a & v & evs & db2 & (_ & _ & _ & _ & _ & _ & Hins & V1 & _ &
    V3 & _) & _). destruct Hins as (_ & Hfresh & _).
  apply list_elem_of_fmap in Hvoted as (x & E & Hx). apply Hfresh in Hx as [_ Hx]. apply Hx.
  unfold vote_key in E. by rewrite V1, V3.
Qed.

End votes.


(** A stage that does have eligible actors, as the tables allow: two of them
    must approve, Bob does, and then calls again. *)
Definition all_of_stage : list Stage := [demo_route_stage 1 "review" QuorumAllOf None].

Definition with_eligible (ids : list string) (s : StageInstance) : StageInstance :=
  mkStageInstance (si_ID s) (si_ApprovalInstanceID s) (si_StageOrder s) (si_NameSnapshot s)
    (si_RequiredRoleSnapshot s) (si_RequiredCapabilitySnapshot s) (si_AreaCodeSnapshot s)
    (si_QuorumSnapshot s) (si_QuorumMSnapshot s) (si_OnEligibilityDriftSnapshot s) ids
    (si_EffectiveDenominator s) (si_Status s) (si_OpenedAt s) (si_CompletedAt s) (si_SkipReason s).

Definition w_pending : World :=
  let w := run_calls [CallSubmit (submit_req "doc-1")] (demo_world (demo_db all_of_stage)) in
  run_calls [CallSignoff (signoff_req "uuid-0" "bob" "approve")]
    (w_set_db (set_stage_instances
       (with_eligible ["bob"; "eva"] <$> approval_stage_instances (w_db w)) (w_db w)) w).

Definition bob_again := RecordSignoff (Some noopFreezeInvoker) None
  (signoff_req "uuid-0" "bob" "approve") w_pending.

Lemma second_vote_changes_nothing_witness :
  empty_result = empty_result /\
  exists evs, w_db (snd bob_again) = append_events evs (w_db w_pending).
Proof.
  apply (second_vote_changes_nothing (Some noopFreezeInvoker) None
           (signoff_req "uuid-0" "bob" "approve") w_pending empty_result (snd bob_again)).
  - apply demo_lawful.
  - vm_compute. reflexivity.
  - vm_compute. left.
Defined.

(** ** The quorum of a submitted stage *)

(** Every stage a submission creates has an empty set of eligible actors. *)
Lemma submitted_stages_have_no_eligible_actors id now first ids l s :
  s ∈ pure_stages id now first ids l -> si_EligibleActorIDs s = [].
Proof.
  revert first ids. induction l as [|st l IH]; intros first [|i ids]; simpl;
    try (by intros ?%not_elem_of_nil).
  intros [->|Hs]%elem_of_cons; [done|by eapply IH].
Qed.

(** A stage whose quorum needs at least two approvals of several actors. *)
Definition needs_several (s : StageInstance) : bool :=
  match si_QuorumSnapshot s, si_QuorumMSnapshot s with
  | QuorumMofN, Some m => 2 <=? m
  | _, _ => false
  end.

(** C5 The first vote always decides a stage created by a submission: no
    eligible actors are stored and the denominator falls back to 1. So an
    all_of stage is approved by a single approval, and an m_of_n stage with m
    at least 2 can never be approved: its first vote rejects it, even when that
    vote is an approval. *)
Theorem first_vote_decides_submitted_stage id now first ids stages s v
  (Hstages : Forall stage_quorum_ok stages)
  (Hknown : Forall (fun st => quorum_text_ok (st_Quorum st) = true) stages)
  (Hs : s ∈ pure_stages id now first ids stages) (Hv : signoff_ok v) :
  decision_outcome s [v] =
    if decided DecisionApprove v && negb (needs_several s)
    then QuorumApprovedStage else QuorumRejectedStage.
Proof.
  apply submitted_stages_have_no_eligible_actors in Hs as He.
  apply pure_stages_fields in Hs as (_ & _ & st & Hst & Q1 & Q2).
  rewrite Forall_forall in Hstages, Hknown. specialize (Hstages st Hst). specialize (Hknown st Hst).
  unfold stage_quorum_ok in Hstages. rewrite <- Q1, <- Q2 in Hstages. rewrite <- Q1 in Hknown.
  unfold decision_outcome, splitSignoffs, EvaluateQuorum, decision_denominator,
    ComputeEffectiveDenominator, count_signoffs, needs_several, Zlength, decided. rewrite He. simpl.
  rewrite !bfilter_cons.
  destruct (so_decided _ Hv) as [-> | ->]; simpl;
    destruct (si_QuorumSnapshot s); try done; destruct (si_QuorumMSnapshot s) as [m|]; try done; simpl;
    repeat match goal with
    | |- context [?a <=? ?b] => destruct (Z.leb_spec a b)
    | |- context [?a <? ?b] => destruct (Z.ltb_spec a b)
    end; simpl; lia || done.
Qed.

Definition demo_vote : Signoff :=
  mkSignoff "v" "i" "s" "bob" "acme" DecisionApprove "" 5 "password" (Some "{}") (sha256_hex "").

Lemma first_vote_decides_submitted_stage_witness :
  let s := new_stage "i" "s" true 1 (demo_route_stage 1 "review" QuorumMofN (Some 2)) in
  decision_outcome s [demo_vote] =
    if decided DecisionApprove demo_vote && negb (needs_several s)
    then QuorumApprovedStage else QuorumRejectedStage.
Proof.
  apply (first_vote_decides_submitted_stage "i" 1 true ["s"] m_of_n_stage).
  - constructor; [unfold stage_quorum_ok; simpl; lia|constructor].
  - repeat constructor.
  - by left.
  - split; simpl; try done. by left.
Defined.

(** The whole run: one approval out of two rejects the approval instance and
    leaves the document under review. *)
Definition w_m_of_n : World :=
  run_calls [CallSubmit (submit_req "doc-1"); CallSignoff (signoff_req "uuid-0" "bob" "approve")]
    (demo_world (demo_db m_of_n_stage)).

Example m_of_n_run :
  (status_of "doc-1" w_m_of_n, ai_status <$> approval_instances (w_db w_m_of_n)) =
  (Some (StateUnderReview, 2), [InstanceRejected]).
Proof. vm_compute. reflexivity. Qed.

(** ** A rejected document stays under review *)

(** The document [id] is under review at revision [v], without an approval in
    progress: the state in which a rejection leaves it. *)
Definition stranded (id : string) (v : Z) (db : DB) : Prop :=
  db_wf db /\
  (exists d, d ∈ documents db /\ d_id d = id /\ d_status d = StateUnderReview /\
     d_revision_version d = v) /\
  (forall i, i ∈ approval_instances db -> ai_document_v2_id i = id ->
     ai_status i <> InstanceInProgress).

(** What may change around it. *)
Lemma stranded_change id v db db' :
  stranded id v db -> db_wf db' ->
  (forall d, d ∈ documents db -> d_id d = id ->
     d_status d = StateUnderReview -> exists d', d' ∈ documents db' /\ d_id d' = id /\
       d_status d' = d_status d /\ d_revision_version d' = d_revision_version d) ->
  (forall i', i' ∈ approval_instances db' -> ai_document_v2_id i' = id ->
     ai_status i' = InstanceInProgress ->
     exists i, i ∈ approval_instances db /\ ai_document_v2_id i = id /\
       ai_status i = InstanceInProgress) ->
  stranded id v db'.
Proof.
  intros (_ & (d & Hd & E1 & E2 & E3) & Hi) Hwf Hdocs Hinst. split_and!; [done| |].
  - destruct (Hdocs d Hd E1 E2) as (d' & Hd' & F1 & F2 & F3). exists d'. split_and!; congruence || done.
  - intros i' Hi' Ei Hs. destruct (Hinst i' Hi' Ei Hs) as (i & Hin & Ed & Est). by apply (Hi i).
Qed.

Lemma stranded_tables id v db db' :
  documents db' = documents db -> approval_instances db' = approval_instances db ->
  db_wf db' -> stranded id v db -> stranded id v db'.
Proof.
  intros E1 E2 Hwf H. apply (stranded_change id v db); try done.
  - rewrite E1. eauto 10.
  - rewrite E2. eauto.
Qed.

#[export] Instance stranded_event_blind id v : EventBlind (keeps (stranded id v)).
Proof.
  intros evs db H. apply (stranded_tables id v db); try done.
  apply (step_wf _ _ (db_step_events evs db)), H.
Qed.
#[export] Instance stranded_route_blind id v : RouteBlind (keeps (stranded id v)).
Proof.
  intros rows stages db H. apply (stranded_tables id v db); try done.
  apply (step_wf _ _ (db_step_routes rows stages db)), H.
Qed.

(** Documents updated by a statement whose condition spares this one. *)
Lemma spared_documents cond s g id docs docs' :
  (forall d, cond d = true -> d_id d = id -> d_status d <> StateUnderReview) ->
  Forall2 (doc_updated cond (set_status_bump s) g) docs docs' ->
  forall d, d ∈ docs -> d_id d = id -> d_status d = StateUnderReview -> d ∈ docs'.
Proof.
  intros Hcond HF d Hd E1 E2.
  destruct (updated_forall _ _ _ HF d Hd) as (d' & Hd' & [[_ ->]|[Hc _]]%doc_updated_cases); [done|].
  by apply Hcond in Hc.
Qed.

Lemma stranded_move id v cond s :
  (forall d, cond d = true -> d_status d <> StateUnderReview /\ d_status d <> s) ->
  stmt_evolves (keeps (stranded id v)) (update_documents cond (set_status_bump s)).
Proof.
  intros Hcond g now db n db' Hu H.
  assert (Hwf : db_wf db').
  { apply (step_wf db db'); [|apply H]. eapply stmt_update_documents; [|exact Hu].
    intros d Hd. by apply Hcond. }
  destruct (update_documents_ok _ _ _ _ _ _ _ Hu) as (docs & -> & HF & _).
  apply (stranded_change id v db); try done.
  - simpl. intros d Hd E1 E2. exists d. split_and!; try done.
    eapply (spared_documents _ _ _ id); [|exact HF|done..]. intros x Hx _. by apply Hcond.
  - simpl. eauto.
Qed.

Lemma stranded_transition id v from to t d r :
  from <> StateUnderReview -> from <> to ->
  stmt_evolves (keeps (stranded id v)) (occ_transition from to t d r).
Proof.
  intros H1 H2. apply stranded_move. intros x Hx. unfold doc_has_status in Hx. bool_to_prop.
  split; congruence.
Qed.

Lemma stranded_cancel_instances id v d :
  stmt_evolves (keeps (stranded id v)) (cancel_instances_of d).
Proof.
  intros g now db n db' Hu H.
  assert (Hwf : db_wf db') by (eapply step_wf; [by eapply stmt_cancel_instances_of|apply H]).
  apply update_instances_ok in Hu as [-> _]. apply (stranded_change id v db); try done.
  - simpl. eauto 10.
  - simpl. intros i' (i & Hi & ->)%elem_of_map_inv E Hs. exists i. revert E Hs.
    destruct (_ && _); simpl; [done|]. eauto.
Qed.

(** A closed or opened stage does not revive it either. *)
Lemma AdvanceStage_document now inst inst' :
  AdvanceStage now inst = inr inst' -> in_DocumentID inst' = in_DocumentID inst.
Proof.
  unfold AdvanceStage. destruct (find_index _ _) as [k|]; [|done].
  destruct (find_index_from _ _ _); by intros [= <-].
Qed.

Lemma frozen_same d d' : frozen d d' -> same_lifecycle d d'.
Proof. intros H. unfold same_lifecycle. by rewrite H. Qed.

Lemma closing_instances t id s c (insts : list InstanceRow) i' :
  s <> InstanceInProgress ->
  i' ∈ (fun r => if instance_matches t id InstanceInProgress r then ai_set_status s c r else r) <$> insts ->
  ai_status i' = InstanceInProgress -> i' ∈ insts.
Proof. intros Hs (i & Hi & ->)%elem_of_map_inv. by destruct (instance_matches _ _ _ _). Qed.

Lemma stranded_evaluated id v req a row stages db db' res :
  stranded id v db -> db_wf db' -> ai_document_v2_id row <> id ->
  stage_evaluated req a (instance_of_row row stages) db db' res -> stranded id v db'.
Proof.
  intros H Hwf Hne (votes & _ & Heval). destruct (decision_outcome a votes).
  - by destruct Heval as [-> _].
  - destruct Heval as (now & adv & inst' & Hadv & _ & _ &
      [(_ & _ & (c & E2) & _ & docs1 & g & HF1 & HF2)|(_ & _ & E2 & E1 & _)]).
    + apply AdvanceStage_document in Hadv. simpl in Hadv. rewrite Hadv in HF2.
      apply (stranded_change id v db); try done.
      * intros d Hd F1 F2.
        destruct (updated_forall _ _ _ HF1 d Hd) as (d1 & Hd1 & (G1 & _ & _ & G4 & G5)%frozen_same).
        exists d1. split_and!; [|congruence..].
        eapply (spared_documents _ _ _ id); [|exact HF2|exact Hd1|congruence|congruence].
        intros x Hx Ex. unfold approve_cond, doc_is in Hx. bool_to_prop. congruence.
      * rewrite E2. intros i' Hi' E Hs. apply closing_instances in Hi'; try done; eauto.
    + by apply (stranded_tables id v db).
  - destruct Heval as (now & c & _ & _ & _ & E1 & E2 & _). apply (stranded_change id v db); try done.
    + rewrite E1. eauto 10.
    + rewrite E2. intros i' Hi' E Hs. apply closing_instances in Hi'; try done; eauto.
Qed.

Section stranded.
Context {UN : UnicodeNorm} (fi : option FreezeInvoker) (pd : option PDFDispatchInvoker)
  (Hf : freeze_lawful fi) (Hp : dispatch_lawful pd).

Lemma stranded_blind_call id v c :
  match c with CallSubmit _ | CallSignoff _ | CallCancel _ => True
  | _ => evolves (keeps (stranded id v)) (run_call fi pd c) end.
Proof.
  destruct c; try exact I; (apply evolves_bind; [tc_solve| |intros; apply evolves_ret; tc_solve]);
    eauto using evolves_SchedulePublish, evolves_Create, evolves_Update,
      evolves_Deactivate with typeclass_instances.
  - apply evolves_PublishApproved; [tc_solve..|]. intros t d. apply stranded_move.
    intros x Hx. unfold doc_has_status in Hx. bool_to_prop. split; congruence.
  - apply evolves_PublishSuperseding; [tc_solve..| |]; intros; by apply stranded_transition.
  - apply evolves_MarkObsolete; [tc_solve..| |apply stranded_cancel_instances].
    intros from t d w [->| ->]; by apply stranded_transition.
  - apply evolves_RunDuePublishes; [tc_solve..|]. intros; by apply stranded_transition.
Qed.

Lemma stranded_unique id v db d :
  stranded id v db -> d ∈ documents db -> d_id d = id -> d_status d = StateUnderReview.
Proof.
  intros (Hwf & (d0 & Hd0 & E1 & E2 & _) & _) Hd E.
  replace d with d0; [done|]. apply (NoDup_fmap_inj d_id (documents db)); [apply Hwf|done..|congruence].
Qed.

Lemma stranded_call id v c w :
  w_tx w = None -> stranded id v (w_db w) -> stranded id v (w_db (snd (run_call fi pd c w))).
Proof.
  intros Ht H.
  assert (Hwf : db_wf (w_db (snd (run_call fi pd c w)))).
  { apply (evolves_run_call fi pd Hf Hp c w); [|apply H]. intros tx Htx. congruence. }
  pose proof (stranded_blind_call id v c) as Hblind.
  assert (Hblind' : evolves (keeps (stranded id v)) (run_call fi pd c) ->
            stranded id v (w_db (snd (run_call fi pd c w)))).
  { intros He. apply He; [|done]. intros tx Htx. congruence. }
  destruct c; try (by apply Hblind'); clear Hblind Hblind';
    match goal with |- stranded _ _ (w_db (snd (run_call _ _ ?c _))) =>
      destruct (run_call fi pd c w) as [[e|u] w'] eqn:Hr; simpl in *;
        [by rewrite (failed_call_keeps fi pd Hf Hp c w e w')|]
    end; apply void_ok in Hr as [res Hr].
  - apply submit_ok in Hr as [(row & ids & now & docs & evs & g & H1 & H2 & H3 & H4 & H5 & H6 & H7 &
      H8 & HF & Hcount & E1 & E2 & _) _].
    apply bcount_exists in Hcount as (d & Hd & Hcond).
    assert (Hne : sr_DocumentID req <> id).
    { intros E. unfold submit_cond, doc_is, doc_has_status in Hcond. bool_to_prop.
      assert (d_status d = StateUnderReview) by (eapply stranded_unique; [done..|congruence]).
      congruence. }
    apply (stranded_change id v (w_db w)); try done.
    + rewrite E1. intros d' Hd' F1 F2. exists d'. split_and!; try done.
      eapply (spared_documents _ _ _ id); [|exact HF|done..]. intros x Hx Ex.
      unfold submit_cond, doc_has_status in Hx. bool_to_prop. congruence.
    + rewrite E2. intros i' [Hi'| ->%list_elem_of_singleton]%elem_of_app E Hs; [eauto|congruence].
  - apply (RecordSignoff_ok fi pd Hf Hp) in Hr as [_ [Hr|[_ [evs Hr]]]].
    + destruct Hr as (row & a & vote & evs & db2 & (Hrow & Hprog & _ & _ & _ & _ & Hins & _) & Heval & ev & Hdb).
      apply instance_row_ok in Hrow as (Hin & _ & _).
      assert (Hne : ai_document_v2_id row <> id).
      { intros E. by apply (proj2 (proj2 H) row Hin E). }
      rewrite Hdb in *. assert (Hwf2 : db_wf db2) by (destruct Hwf; by split).
      apply (stranded_tables id v db2); try done.
      eapply (stranded_evaluated id v req a row); [|done..|exact Heval].
      apply (stranded_tables id v (w_db w)); try done.
      assert (W := wf_vote _ _ (proj1 H) Hins). destruct W. by split.
    + rewrite Hr in *. by apply (stranded_tables id v (w_db w)).
  - apply cancel_ok in Hr as [(row & c & docs & g & evs & Hrow & Hprog & -> & HF & _ & E1 & E2 & _) _].
    apply instance_row_ok in Hrow as (Hin & _ & _).
    apply (stranded_change id v (w_db w)); try done.
    + rewrite E1. intros d' Hd' F1 F2. exists d'. split_and!; try done.
      eapply (spared_documents _ _ _ id); [|exact HF|done..]. intros x Hx Ex.
      unfold cancel_cond, doc_is in Hx. bool_to_prop.
      exfalso. apply (proj2 (proj2 H) row Hin); congruence.
    + rewrite E2. intros i' Hi' E Hs. apply closing_instances in Hi'; try done; eauto.
Qed.

Lemma environment_stranded id v db db' :
  environment db db' -> stranded id v db -> stranded id v db'.
Proof.
  intros He H. pose proof (environment_step db db' He) as Hstep.
  destruct He as [(docs & new & E1 & HF & _) E2 _ _ _].
  apply (stranded_change id v db); [done|apply Hstep, H| |rewrite E2; eauto].
  intros d Hd F1 F2. destruct (updated_forall _ _ _ HF d Hd) as (d' & Hd' & (G1 & _ & _ & G4 & G5)).
  exists d'. split_and!; [rewrite E1; apply elem_of_app; by left|congruence..].
Qed.

Lemma stranded_history id v db db' :
  history fi pd db db' -> stranded id v db -> stranded id v db'.
Proof.
  induction 1 as [db|db1 db2 db3 Hs _ IH]; [done|]. intros H. apply IH.
  destruct Hs as [c w <- Ht|db2 He]; [by apply stranded_call|by eapply environment_stranded].
Qed.

(** A rejection leaves its document stranded. *)
Lemma refused_stranded req row a db db' res :
  consistent db -> db_wf db' ->
  instance_row (sg_TenantID req) (sg_InstanceID req) db = Some row ->
  ai_status row = InstanceInProgress ->
  stage_refused req a db db' res ->
  exists v, stranded (ai_document_v2_id row) v db'.
Proof.
  intros Hc Hwf Hrow Hprog (now & c & _ & _ & _ & E1 & E2 & _).
  pose proof (instance_row_ok _ _ _ _ Hrow) as (Hin & _).
  destruct (c_document _ Hc row Hin Hprog) as (d & Hd & [D1 _] & D3).
  exists (d_revision_version d). split_and!; [done|rewrite E1; by exists d|].
  destruct (instance_update_cases _ _ db row InstanceRejected (Some c) (c_wf _ Hc) Hrow Hprog) as (F1 & F2 & F3).
  rewrite E2. intros i' (i & Hi & ->)%elem_of_map_inv Edoc Hs.
  destruct (instance_dec i row) as [->|Hne].
  - cbn beta in F1. rewrite F1 in Hs. done.
  - specialize (F2 i Hi Hne). cbn beta in F2. rewrite F2 in *. apply Hne.
    apply (active_unique db); try done; apply Hc.
Qed.

End stranded.

Section rejection.
Context {UN : UnicodeNorm} (fi : option FreezeInvoker) (pd : option PDFDispatchInvoker).

(** A rejection strands its document: the document of a rejected approval
    stays under review, without an approval in progress, in every later
    history; it can neither be resubmitted, cancelled, approved nor published. *)
Theorem rejection_strands_document req w res w' db
  (Hlaws : lawful fi pd) (Hidle : w_tx w = None) (Hc : consistent (w_db w))
  (Hok : RecordSignoff fi pd req w = (inr res, w')) (Hrej : InstanceRejected_ res = true)
  (Hh : history fi pd (w_db w') db) :
  exists row d,
    instance_row (sg_TenantID req) (sg_InstanceID req) (w_db w) = Some row /\
    d ∈ documents db /\ d_id d = ai_document_v2_id row /\ d_status d = StateUnderReview /\
    forall i, i ∈ approval_instances db -> ai_document_v2_id i = d_id d ->
      ai_status i <> InstanceInProgress.
Proof.
  destruct Hlaws as [Hf Hp].
  assert (Hwf : db_wf (w_db w')).
  { assert (Hidle' : tx_respects db_step w) by (intros tx Htx; congruence).
    destruct (evolves_RecordSignoff fi pd Hf Hp req w Hidle') as [Hstep _].
    rewrite Hok in Hstep. apply Hstep, Hc. }
  apply (RecordSignoff_ok fi pd Hf Hp) in Hok as [_ [Hr|[-> _]]]; [|done].
  destruct Hr as (row & a & vote & evs & db2 & (Hrow & Hprog & Hact & Hsub & _ & Hok & Hins &
    V1 & V2 & V3 & _) & (votes & _ & Heval) & ev & Hdb).
  pose proof (instance_row_ok _ _ _ _ Hrow) as (Hin & Hid & _).
  assert (Hc1 : consistent (set_signoffs (approval_signoffs (w_db w) ++ [vote])
                              (append_events evs (w_db w)))).
  { apply (consistent_tables (set_signoffs (approval_signoffs (w_db w) ++ [vote]) (w_db w))); try done.
    apply (consistent_vote vote row); congruence || done. }
  assert (Href : exists v, stranded (ai_document_v2_id row) v db2).
  { rewrite Hdb in Hwf. assert (Hwf2 : db_wf db2) by (destruct Hwf; by split).
    destruct (decision_outcome a votes).
    - by destruct Heval as [_ ->].
    - by destruct Heval as (? & ? & ? & _ & _ & _ & [(_ & -> & _)|(_ & -> & _)]).
    - exact (refused_stranded req row a _ db2 res Hc1 Hwf2 Hrow Hprog Heval). }
  destruct Href as (v & Href).
  assert (Hlast : stranded (ai_document_v2_id row) v db).
  { apply (stranded_history fi pd Hf Hp _ _ (w_db w')); [done|].
    apply (stranded_tables _ _ db2); rewrite ?Hdb; try done. by rewrite Hdb in Hwf. }
  destruct Hlast as (_ & (d & Hd & E1 & E2 & _) & Hi). exists row, d.
  split_and!; try done. intros i Hi' E. apply Hi; [done|congruence].
Qed.

End rejection.

Definition w_rejected : World :=
  run_calls [CallSignoff (signoff_req "uuid-0" "bob" "reject")] w_submitted.

Lemma rejection_strands_document_witness :
  exists row d,
    instance_row "acme" "uuid-0" (w_db w_submitted) = Some row /\
    d ∈ documents (w_db (run_calls [CallSubmit (submit_req "doc-1")] w_rejected)) /\
    d_id d = ai_document_v2_id row /\ d_status d = StateUnderReview /\
    forall i, i ∈ approval_instances (w_db (run_calls [CallSubmit (submit_req "doc-1")] w_rejected)) ->
      ai_document_v2_id i = d_id d -> ai_status i <> InstanceInProgress.
Proof.
  apply (rejection_strands_document (Some noopFreezeInvoker) None
           (signoff_req "uuid-0" "bob" "reject") w_submitted (mkSignoffResult false false true)
           w_rejected).
  - apply demo_lawful.
  - vm_compute. reflexivity.
  - apply (history_keeps (Some noopFreezeInvoker) None noopFreeze_laws I (demo_db two_stages)).
    + by apply (run_calls_history [CallSubmit (submit_req "doc-1")] w0).
    + apply demo_consistent.
  - vm_compute. reflexivity.
  - reflexivity.
  - apply run_calls_history. vm_compute. reflexivity.
Defined.
