(* ===== verification/JobScheduler.v ===== *)
(** * The job scheduler

    [internal/modules/jobs/scheduler]: the lease table shared by the API
    processes (migrations 0148 and 0149), the back-pressure probe, one tick of
    a job loop, and the interleaving of several processes as a step relation.

    Every lease function is one SQL statement: it reads [now()], the start of
    its transaction, and takes effect atomically, possibly later. A step of
    the system below therefore carries the instant [t] the statement read,
    between the end of the run's previous statement and the present. *)
From S2P Require Import Prelude Tables.
Local Open Scope Z_scope.

(** ** Leases *)

Module Leases.

Record Lease := mkLease {
  l_leader_id : string;
  l_lease_epoch : Z;
  l_acquired_at : Time;
  l_heartbeat_at : Time;
  l_expires_at : Time
}.

(** [metaldocs.job_leases], by [job_name]. *)
Abbreviation Table := (gmap string Lease).

Definition second : Z := 1000000000.
Definition minute : Z := 60 * second.

(** [interval '5 minutes'], in [acquireLease] and in [heartbeat_lease]. *)
Definition lease_ttl : Z := 5 * minute.

(** Largest value of a [BIGINT] column. *)
Definition int8_max : Z := 9223372036854775807.

Definition bigint_out_of_range : Error := PgError "22003" "" "bigint out of range".

(** [acquire_lease]; [locked] when another transaction holds the row, which
    [SKIP LOCKED] then hides. *)
Definition acquire_lease (job leader : string) (ttl : Z) (locked : bool) (now : Time) (t : Table)
    : Result ((bool * Z) * Table) :=
  match t !! job with
  | None => inr ((true, 1), <[job := mkLease leader 1 now now (now + ttl)]> t)
  | Some l =>
      if locked then inr ((false, -1), t)
      else if l_expires_at l <? now then
        if int8_max <? l_lease_epoch l + 1 then inl bigint_out_of_range
        else inr ((true, l_lease_epoch l + 1),
                  <[job := mkLease leader (l_lease_epoch l + 1) now now (now + ttl)]> t)
      else if str_eqb (l_leader_id l) leader then
        inr ((true, l_lease_epoch l),
             <[job := mkLease (l_leader_id l) (l_lease_epoch l) (l_acquired_at l) now (now + ttl)]> t)
      else inr ((false, -1), t)
  end.

(** [WHERE job_name = _job AND leader_id = _leader AND lease_epoch = _epoch]. *)
Definition is_held (leader : string) (epoch : Z) (l : Lease) : bool :=
  str_eqb (l_leader_id l) leader && (l_lease_epoch l =? epoch).

Definition heartbeat_lease (job leader : string) (epoch : Z) (now : Time) (t : Table)
    : bool * Table :=
  match t !! job with
  | Some l =>
      if is_held leader epoch l
      then (true, <[job := mkLease leader epoch (l_acquired_at l) now (now + lease_ttl)]> t)
      else (false, t)
  | None => (false, t)
  end.

(** [release_lease], as redefined by migration 0149: the row stays, expired. *)
Definition release_lease (job leader : string) (epoch : Z) (now : Time) (t : Table) : Table :=
  match t !! job with
  | Some l =>
      if is_held leader epoch l
      then <[job := mkLease leader epoch (l_acquired_at l) (l_heartbeat_at l) (now - second)]> t
      else t
  | None => t
  end.

(** [assert_lease_epoch]: the fence a job can put before its writes. *)
Definition assert_lease_epoch (job : string) (epoch : Z) (t : Table) : Result unit :=
  match t !! job with
  | Some l =>
      if l_lease_epoch l =? epoch then inr tt
      else inl (PgError "P0001" "" "ErrLeaseEpochStale: no longer current")
  | None => inl (PgError "P0001" "" "ErrLeaseEpochStale: no longer current")
  end.

(** [RunLeaseReaper]: the rows its DELETE removes, and the event inserted for
    each of them. [governance_events] (migration 0125) has no column
    [occurred_at], and its [tenant_id] is a UUID: the INSERT is refused when
    it is analysed, and the deferred [Rollback] puts the rows back. *)
Definition reapable (now : Time) (l : Lease) : bool := l_expires_at l <? now - 10 * minute.

Definition reaped (now : Time) (t : Table) : list (string * Lease) :=
  bfilter (fun r => reapable now (snd r)) (map_to_list t).

Definition insert_reaped_event (r : string * Lease) : Result unit :=
  inl (PgError "42703" "" "column occurred_at of relation governance_events does not exist").

Fixpoint insert_reaped_events (rows : list (string * Lease)) : Result Z :=
  match rows with
  | [] => inr 0
  | r :: rest =>
      match insert_reaped_event r with
      | inl e => inl e
      | inr _ =>
          match insert_reaped_events rest with
          | inl e => inl e
          | inr n => inr (n + 1)
          end
      end
  end.

Definition RunLeaseReaper (now : Time) (t : Table) : Result unit * Table :=
  match insert_reaped_events (reaped now t) with
  | inl e => (inl e, t)
  | inr _ => (inr tt, filter (fun r => reapable now (snd r) = false) t)
  end.

End Leases.

(** ** Back-pressure *)

Module Backpressure.

(** The fields of [Scheduler] the probe guards with its mutex. *)
Record Pressure := mkPressure {
  pressureCount : Z;
  inPressure : bool;
  quietCount : Z
}.

Definition idle : Pressure := mkPressure 0 false 0.

(** The ratio test on the two counts. Both are integers far below [2^40] held
    in float64: their quotient differs from 0.70 and 0.60 by more than a
    rounding error unless it is equal to them, so that the comparison of the
    exact quotients is the comparison of the rounded ones. *)
Inductive Load := High | Mid | Low.

Definition load_of (active maxConn : Z) : Load :=
  let m := if maxConn <=? 0 then 1 else maxConn in
  if 70 * m <? 100 * active then High
  else if 100 * active <? 60 * m then Low
  else Mid.

(** [probePressure]; [None] when the query fails. *)
Definition probePressure (sample : option (Z * Z)) (s : Pressure) : Pressure :=
  match sample with
  | None => s
  | Some (active, maxConn) =>
      match load_of active maxConn with
      | High =>
          let n := pressureCount s + 1 in
          if negb (inPressure s) && (3 <=? n) then mkPressure 0 true 0
          else mkPressure n (inPressure s) 0
      | Low =>
          let n := quietCount s + 1 in
          if inPressure s && (3 <=? n) then mkPressure 0 false 0
          else mkPressure 0 (inPressure s) n
      | Mid => mkPressure 0 (inPressure s) 0
      end
  end.

Definition probes (samples : list (option (Z * Z))) : Pressure :=
  fold_left (fun s x => probePressure x s) samples idle.

End Backpressure.

(** ** One tick of a job loop *)

Module Loop.
Import Leases Backpressure.

Inductive BackpressurePolicy := SkipOnPressure | DegradeOnPressure.

Record LoopState := mkLoopState { skipNext : bool; skipStreak : Z }.

Definition loop_start : LoopState := mkLoopState false 0.

(** [Metrics] of one job. *)
Record JobMetrics := mkJobMetrics { RunsTotal : Z; ErrorsTotal : Z; SkipsTotal : Z }.

Definition newMetrics : JobMetrics := mkJobMetrics 0 0 0.

Definition incRun (m : JobMetrics) : JobMetrics :=
  mkJobMetrics (RunsTotal m + 1) (ErrorsTotal m) (SkipsTotal m).
Definition incError (m : JobMetrics) : JobMetrics :=
  mkJobMetrics (RunsTotal m) (ErrorsTotal m + 1) (SkipsTotal m).
Definition incSkip (m : JobMetrics) : JobMetrics :=
  mkJobMetrics (RunsTotal m) (ErrorsTotal m) (SkipsTotal m + 1).

(** The decision taken under back-pressure: skip this tick? *)
Definition shouldSkip (policy : BackpressurePolicy) (pressed : bool) (s : LoopState)
    : bool * LoopState :=
  if negb pressed then (false, mkLoopState false 0)
  else
    match policy with
    | SkipOnPressure => (true, mkLoopState (skipNext s) (skipStreak s + 1))
    | DegradeOnPressure =>
        if skipNext s then (true, mkLoopState false (skipStreak s + 1))
        else (false, mkLoopState true (skipStreak s))
    end.

(** What the database and the job answered during a tick. *)
Record TickEnv := mkTickEnv {
  te_sample : option (Z * Z);
  te_acquire : Result (bool * Z);
  te_job : Z -> Result unit
}.

(** The body of the loop: the epoch the job ran with, if it ran. *)
Definition tick (policy : BackpressurePolicy) (env : TickEnv)
    (st : Pressure * LoopState * JobMetrics) : option Z * (Pressure * LoopState * JobMetrics) :=
  let '(p, s, m) := st in
  let p' := probePressure (te_sample env) p in
  let '(skip, s') := shouldSkip policy (inPressure p') s in
  if skip then (None, (p', s', incSkip m))
  else
    match te_acquire env with
    | inl _ => (None, (p', s', m))
    | inr (false, _) => (None, (p', s', m))
    | inr (true, epoch) =>
        let m1 := match te_job env epoch with inl _ => incError m | inr _ => m end in
        (Some epoch, (p', s', incRun m1))
    end.

Fixpoint ticks (policy : BackpressurePolicy) (envs : list TickEnv)
    (st : Pressure * LoopState * JobMetrics)
    : list (option Z) * (Pressure * LoopState * JobMetrics) :=
  match envs with
  | [] => ([], st)
  | env :: rest =>
      let '(r, st1) := tick policy env st in
      let '(rs, st2) := ticks policy rest st1 in
      (r :: rs, st2)
  end.

(** [Start] leaves out a job with no name, no interval or no function. *)
Definition valid_config (name : string) (interval : Z) (has_fn : bool) : bool :=
  negb (str_eqb name "" || (interval <=? 0) || negb has_fn).

End Loop.

(** ** Several processes *)

Module Cluster.
Import Leases.

(** A job being executed by a process; [run_cancelled] is the state of its
    context. *)
Record Run := mkRun { run_epoch : Z; run_cancelled : bool }.

(** [leases] is shared. [runs] gathers the in-flight job of every process
    (named by its leader id) and job: a loop starts a job when the previous
    one is over. [lasts] is the instant the last lease statement of a loop
    ended. *)
Record Sys := mkSys {
  now : Time;
  leases : Table;
  runs : gmap (string * string) Run;
  lasts : gmap (string * string) Time
}.

Definition start : Sys := mkSys 0 ∅ ∅ ∅.

Definition last_of (s : Sys) (k : string * string) : Time := default 0 (lasts s !! k).

(** The instants [t] a statement of loop [k] can have read. *)
Definition reads (s : Sys) (k : string * string) (t : Time) : Prop := last_of s k <= t <= now s.

(** A statement of loop [k] has ended. *)
Definition ended (s : Sys) (k : string * string) (tbl : Table)
    (rs : gmap (string * string) Run) : Sys :=
  mkSys (now s) tbl rs (<[k := now s]> (lasts s)).

Inductive event := Silent | Released (leader job : string).

Inductive step : Sys -> event -> Sys -> Prop :=
  | Elapse s d : 0 <= d -> step s Silent (mkSys (now s + d) (leases s) (runs s) (lasts s))
  (** [acquireLease] succeeds and the job starts. *)
  | Acquire s leader job locked t e tbl :
      runs s !! (leader, job) = None -> reads s (leader, job) t ->
      acquire_lease job leader lease_ttl locked t (leases s) = inr ((true, e), tbl) ->
      step s Silent (ended s (leader, job) tbl (<[(leader, job) := mkRun e false]> (runs s)))
  (** It is refused. *)
  | NotAcquired s leader job locked t e tbl :
      runs s !! (leader, job) = None -> reads s (leader, job) t ->
      acquire_lease job leader lease_ttl locked t (leases s) = inr ((false, e), tbl) ->
      step s Silent (ended s (leader, job) tbl (runs s))
  (** One iteration of [heartbeatLoop]: a lease lost cancels the job. *)
  | Heartbeat s leader job r t ok tbl :
      runs s !! (leader, job) = Some r -> run_cancelled r = false -> reads s (leader, job) t ->
      heartbeat_lease job leader (run_epoch r) t (leases s) = (ok, tbl) ->
      step s Silent (ended s (leader, job) tbl
                       (<[(leader, job) := mkRun (run_epoch r) (negb ok)]> (runs s)))
  (** The job returned; its lease is released, or [releaseLease] fails. *)
  | Finish s leader job r t :
      runs s !! (leader, job) = Some r -> reads s (leader, job) t ->
      step s (Released leader job)
        (ended s (leader, job) (release_lease job leader (run_epoch r) t (leases s))
           (delete (leader, job) (runs s)))
  | FinishUnreleased s leader job r :
      runs s !! (leader, job) = Some r ->
      step s Silent (ended s (leader, job) (leases s) (delete (leader, job) (runs s)))
  (** [drain]: the context of a job still in flight is cancelled, then its
      lease is released while it goes on. *)
  | CancelRun s leader job r :
      runs s !! (leader, job) = Some r ->
      step s Silent (mkSys (now s) (leases s)
                       (<[(leader, job) := mkRun (run_epoch r) true]> (runs s)) (lasts s))
  | ForceRelease s leader job r t :
      runs s !! (leader, job) = Some r -> reads s (leader, job) t ->
      step s (Released leader job)
        (ended s (leader, job) (release_lease job leader (run_epoch r) t (leases s)) (runs s))
  (** A process dies. *)
  | Crash s leader :
      step s Silent (mkSys (now s) (leases s)
                       (filter (fun x => fst (fst x) <> leader) (runs s)) (lasts s))
  (** [RunLeaseReaper] runs as a job of some process. *)
  | Reap s t :
      t <= now s ->
      step s Silent (mkSys (now s) (snd (RunLeaseReaper t (leases s))) (runs s) (lasts s)).

Inductive trace : Sys -> list event -> Sys -> Prop :=
  | trace_nil s : trace s [] s
  | trace_cons s e s1 es s2 : step s e s1 -> trace s1 es s2 -> trace s (e :: es) s2.

Definition reachable (s : Sys) : Prop := exists es, trace start es s.

End Cluster.

(** ** Facts *)

Import Leases Backpressure Loop Cluster.

Lemma reaper_table t tbl : snd (RunLeaseReaper t tbl) = tbl.
Proof.
  unfold RunLeaseReaper. destruct (reaped t tbl) as [|r rest] eqn:E; simpl; [|done].
  apply map_filter_id. intros job l Hl. simpl.
  destruct (reapable t l) eqn:Hr; [|done]. exfalso.
  assert ((job, l) ∈ reaped t tbl) as Hin.
  { unfold reaped. apply elem_of_bfilter. split; [done|]. by apply elem_of_map_to_list. }
  rewrite E in Hin. by apply not_elem_of_nil in Hin.
Qed.

(** What one statement of loop [k] at [t] does to the lease of a job. *)
Definition lease_move (t : Time) (k : string * string) (l l' : Lease) : Prop :=
  (l_leader_id l = fst k /\ l_leader_id l' = fst k /\ l_lease_epoch l' = l_lease_epoch l /\
     l_expires_at l' = t + lease_ttl) \/
  (l_expires_at l < t /\ l_leader_id l' = fst k /\ l_lease_epoch l' = l_lease_epoch l + 1 /\
     l_expires_at l' = t + lease_ttl).

Lemma acquire_cases job leader locked t tbl a e tbl' :
  acquire_lease job leader lease_ttl locked t tbl = inr ((a, e), tbl') ->
  if a then
    exists l', tbl' = <[job := l']> tbl /\ l_lease_epoch l' = e /\ l_leader_id l' = leader /\
      l_expires_at l' = t + lease_ttl /\
      match tbl !! job with
      | None => True
      | Some l => lease_move t (leader, job) l l'
      end
  else tbl' = tbl.
Proof.
  unfold acquire_lease, lease_move. destruct (tbl !! job) as [l|] eqn:Hl.
  - destruct locked; [by intros [= <- <- <-]|]. destruct (_ <? t) eqn:Hx.
    + destruct (int8_max <? _); [by intros [=]|]. intros [= <- <- <-]. eexists. split_and!; try done.
      right. apply Z.ltb_lt in Hx. by split_and!.
    + destruct (str_eqb _ leader) eqn:Hs; intros [= <- <- <-]; [|done]. bool_to_prop.
      eexists. split_and!; try done. left. by split_and!.
  - intros [= <- <- <-]. by eexists.
Qed.

Lemma is_held_true leader e l :
  is_held leader e l = true <-> l_leader_id l = leader /\ l_lease_epoch l = e.
Proof. unfold is_held. by rewrite andb_true_iff, str_eqb_true, Z.eqb_eq. Qed.

Lemma heartbeat_cases job leader e t tbl ok tbl' :
  heartbeat_lease job leader e t tbl = (ok, tbl') ->
  if ok then
    exists l l', tbl !! job = Some l /\ tbl' = <[job := l']> tbl /\ l_lease_epoch l = e /\
      lease_move t (leader, job) l l'
  else tbl' = tbl.
Proof.
  unfold heartbeat_lease, lease_move. destruct (tbl !! job) as [l|] eqn:Hl; [|by intros [= <- <-]].
  destruct (is_held _ _ _) eqn:Hh; intros [= <- <-]; [|done].
  apply is_held_true in Hh as [? ?]. exists l. eexists. split_and!; try done. left.
  split_and!; simpl; congruence.
Qed.

Lemma release_cases job leader e t tbl :
  release_lease job leader e t tbl = tbl \/
  exists l l', tbl !! job = Some l /\ release_lease job leader e t tbl = <[job := l']> tbl /\
    l_leader_id l = leader /\ l_leader_id l' = leader /\ l_lease_epoch l' = l_lease_epoch l /\
    l_expires_at l' = t - second.
Proof.
  unfold release_lease. destruct (tbl !! job) as [l|] eqn:Hl; [|by left].
  destruct (is_held _ _ _) eqn:Hh; [|by left]. apply is_held_true in Hh as [? ?].
  right. exists l. eexists. split_and!; try done; simpl; congruence.
Qed.

(** What a step can do to the leases: nothing, a first lease, a statement of
    some loop on a lease, or a release. *)
Inductive lease_effect (s s' : Sys) : event -> Prop :=
  | effect_none e : leases s' = leases s -> lease_effect s s' e
  | effect_new k t l' :
      reads s k t -> leases s !! snd k = None -> leases s' = <[snd k := l']> (leases s) ->
      l_leader_id l' = fst k -> l_expires_at l' = t + lease_ttl -> last_of s' k = now s' ->
      lease_effect s s' Silent
  | effect_move k t l l' :
      reads s k t -> leases s !! snd k = Some l -> leases s' = <[snd k := l']> (leases s) ->
      lease_move t k l l' -> last_of s' k = now s' -> lease_effect s s' Silent
  | effect_release k t l l' :
      reads s k t -> leases s !! snd k = Some l -> leases s' = <[snd k := l']> (leases s) ->
      l_leader_id l = fst k -> l_leader_id l' = fst k -> l_lease_epoch l' = l_lease_epoch l ->
      l_expires_at l' = t - second -> last_of s' k = now s' ->
      lease_effect s s' (Released (fst k) (snd k)).

Lemma last_of_ended s k tbl rs : last_of (ended s k tbl rs) k = now s.
Proof. unfold last_of, ended. simpl. by rewrite lookup_insert_eq. Qed.

Lemma step_effect s e s' : step s e s' -> lease_effect s s' e.
Proof.
  destruct 1; try (by apply effect_none).
  - destruct (acquire_cases _ _ _ _ _ _ _ _ H1) as (l' & -> & _ & Hl & Hx & Hm).
    destruct (leases s !! job) as [l|] eqn:El.
    + by apply (effect_move _ _ (leader, job) t l l'); rewrite ?last_of_ended.
    + by apply (effect_new _ _ (leader, job) t l'); rewrite ?last_of_ended.
  - apply effect_none. exact (acquire_cases _ _ _ _ _ _ _ _ H1).
  - apply heartbeat_cases in H2. destruct ok.
    + destruct H2 as (l & l' & Hl & -> & _ & Hm).
      by apply (effect_move _ _ (leader, job) t l l'); rewrite ?last_of_ended.
    + by apply effect_none.
  - destruct (release_cases job leader (run_epoch r) t (leases s))
      as [->|(l & l' & Hl & -> & ? & ? & ? & ?)]; [by apply effect_none|].
    by apply (effect_release _ _ (leader, job) t l l'); rewrite ?last_of_ended.
  - destruct (release_cases job leader (run_epoch r) t (leases s))
      as [->|(l & l' & Hl & -> & ? & ? & ? & ?)]; [by apply effect_none|].
    by apply (effect_release _ _ (leader, job) t l l'); rewrite ?last_of_ended.
  - apply effect_none. apply reaper_table.
Qed.

Lemma step_now s e s' : step s e s' -> now s <= now s'.
Proof. destruct 1; simpl; lia. Qed.

(** [last_of] never goes back nor runs ahead of the clock. *)
Lemma step_lasts s e s' k :
  step s e s' -> last_of s k <= now s -> last_of s k <= last_of s' k <= now s'.
Proof.
  intros Hs Hk. assert (Hb : last_of s' k = last_of s k \/ last_of s' k = now s /\ now s' = now s).
  { destruct Hs; unfold last_of, ended; simpl; auto;
      (destruct (decide ((leader, job) = k)) as [<-|?];
       [rewrite lookup_insert_eq; auto|rewrite lookup_insert_ne by done; auto]). }
  pose proof (step_now _ _ _ Hs). lia.
Qed.

(** A lease row evolves: the epoch never decreases, and names one leader. *)
Definition lease_evolves (tbl tbl' : Table) : Prop :=
  forall job l, tbl !! job = Some l -> exists l', tbl' !! job = Some l' /\
    l_lease_epoch l <= l_lease_epoch l' /\
    (l_lease_epoch l = l_lease_epoch l' -> l_leader_id l = l_leader_id l').

#[export] Instance lease_evolves_preorder : PreOrder lease_evolves.
Proof.
  split.
  - intros tbl job l Hl. exists l. split_and!; [done|lia|done].
  - intros t1 t2 t3 H1 H2 job l Hl. destruct (H1 _ _ Hl) as (l2 & Hl2 & ? & E1).
    destruct (H2 _ _ Hl2) as (l3 & Hl3 & ? & E2). exists l3. split_and!; [done|lia|].
    intros E. rewrite E1 by lia. apply E2. lia.
Qed.

Lemma insert_evolves tbl job l l' :
  tbl !! job = Some l -> l_lease_epoch l <= l_lease_epoch l' ->
  (l_lease_epoch l = l_lease_epoch l' -> l_leader_id l = l_leader_id l') ->
  lease_evolves tbl (<[job := l']> tbl).
Proof.
  intros Hl He Hi j x Hx. destruct (decide (job = j)) as [<-|Hne].
  - exists l'. rewrite lookup_insert_eq. replace x with l by congruence. done.
  - exists x. rewrite lookup_insert_ne by done. split_and!; [done|lia|done].
Qed.

Lemma effect_evolves s e s' : lease_effect s s' e -> lease_evolves (leases s) (leases s').
Proof.
  destruct 1 as [e E|k t l' _ Hl E|k t l l' _ Hl E Hm|k t l l' _ Hl E H1 H2 H3]; rewrite E.
  - done.
  - intros j x Hx. exists x. rewrite lookup_insert_ne by congruence. split_and!; [done|lia|done].
  - apply (insert_evolves _ _ l); [done|..];
      destruct Hm as [(? & ? & ? & _)|(? & ? & ? & _)]; [lia|lia|congruence|lia].
  - apply (insert_evolves _ _ l); [done|lia|congruence].
Qed.

Lemma trace_evolves s es s' : trace s es s' -> lease_evolves (leases s) (leases s').
Proof.
  induction 1 as [|s e s1 es s2 Hs _ IH]; [done|].
  etrans; [|exact IH]. by eapply effect_evolves, step_effect.
Qed.

(** Every job in flight was granted an epoch its lease has not gone below. *)
Definition runs_granted (s : Sys) : Prop :=
  forall leader job r, runs s !! (leader, job) = Some r -> exists l,
    leases s !! job = Some l /\ run_epoch r <= l_lease_epoch l /\
    (run_epoch r = l_lease_epoch l -> l_leader_id l = leader).

(** A step keeps the epoch of the jobs in flight; a new one has the epoch of
    its lease. *)
Lemma step_runs s e s' leader job r :
  step s e s' -> runs s' !! (leader, job) = Some r ->
  (exists r0, runs s !! (leader, job) = Some r0 /\ run_epoch r0 = run_epoch r) \/
  exists l, leases s' !! job = Some l /\ run_epoch r = l_lease_epoch l /\ l_leader_id l = leader.
Proof.
  destruct 1; simpl; intros Hr; try (left; by eauto);
    try (destruct (decide ((leader0, job0) = (leader, job))) as [[= -> ->]|Hne];
         [|rewrite ?lookup_insert_ne, ?lookup_delete_ne in Hr by done; left; by eauto];
         rewrite ?lookup_insert_eq, ?lookup_delete_eq in Hr).
  - injection Hr as <-. right.
    destruct (acquire_cases _ _ _ _ _ _ _ _ H1) as (l' & -> & He & Hl & _ & _).
    exists l'. by rewrite lookup_insert_eq.
  - injection Hr as <-. left. by eauto.
  - done.
  - done.
  - injection Hr as <-. left. by eauto.
  - apply map_lookup_filter_Some in Hr as [Hr _]. left. by eauto.
Qed.

Lemma runs_granted_step s e s' : step s e s' -> runs_granted s -> runs_granted s'.
Proof.
  intros Hs Hg leader job r Hr.
  destruct (step_runs _ _ _ _ _ _ Hs Hr) as [(r0 & Hr0 & <-)|(l & Hl & He & ?)].
  - destruct (Hg _ _ _ Hr0) as (l & Hl & Hle & Heq).
    destruct (effect_evolves _ _ _ (step_effect _ _ _ Hs) _ _ Hl) as (l' & Hl' & ? & E).
    exists l'. split_and!; [done|lia|]. intros Ee. rewrite <- E by lia. apply Heq. lia.
  - exists l. split_and!; [done|lia|done].
Qed.

Lemma runs_granted_reachable s : reachable s -> runs_granted s.
Proof.
  intros [es Ht]. assert (H0 : runs_granted start) by (intros ? ? ? Hr; simpl in Hr; by rewrite lookup_empty in Hr).
  revert H0. induction Ht; [done|]. intros H0. apply IHHt. by eapply runs_granted_step.
Qed.

(** The lease of a loop expires at most [lease_ttl] after its last statement. *)
Definition leases_bounded (s : Sys) : Prop :=
  forall job l, leases s !! job = Some l ->
    l_expires_at l <= last_of s (l_leader_id l, job) + lease_ttl.

(** The clock is ahead of every loop. *)
Definition lasts_bounded (s : Sys) : Prop := forall k, last_of s k <= now s.

Lemma lasts_bounded_step s e s' : step s e s' -> lasts_bounded s -> lasts_bounded s'.
Proof. intros Hs Hb k. by apply (step_lasts s e s' k). Qed.

Lemma leases_bounded_step s e s' :
  step s e s' -> lasts_bounded s -> leases_bounded s -> leases_bounded s'.
Proof.
  intros Hs Hn Hb job l. pose proof (fun k => step_lasts _ _ _ k Hs (Hn k)) as Hl.
  pose proof (step_now _ _ _ Hs) as Hnow.
  assert (Hold : forall job l, leases s !! job = Some l ->
            l_expires_at l <= last_of s' (l_leader_id l, job) + lease_ttl).
  { intros j x Hx. specialize (Hb _ _ Hx). specialize (Hl (l_leader_id x, j)). lia. }
  destruct (step_effect _ _ _ Hs) as [e E|[a j] t l' Hr _ E Hi Hx La|[a j] t l0 l' Hr _ E Hm La
    |[a j] t l0 l' Hr _ E _ Hi _ Hx La]; rewrite E; simpl in *; [apply Hold|..];
    (destruct (decide (j = job)) as [->|Hne];
     [rewrite lookup_insert_eq|rewrite lookup_insert_ne by done; apply Hold]);
    intros [= <-]; unfold reads in Hr.
  - rewrite Hi, La. lia.
  - destruct Hm as [(_ & -> & _ & ->)|(_ & -> & _ & ->)]; simpl; rewrite La; lia.
  - rewrite Hi, La. unfold lease_ttl, minute, second in *. lia.
Qed.

(** A loop holds its lease at least until [until]. *)
Definition holds (k : string * string) (epoch until : Z) (s : Sys) : Prop :=
  exists l, leases s !! snd k = Some l /\ l_leader_id l = fst k /\ l_lease_epoch l = epoch /\
    until <= l_expires_at l.

Lemma holds_step s e s' k epoch until :
  step s e s' -> lasts_bounded s -> leases_bounded s ->
  e <> Released (fst k) (snd k) -> now s' <= until ->
  holds k epoch until s -> holds k epoch until s'.
Proof.
  intros Hs Hn Hb Hne Hu (l & Hl & Hi & He & Hx). pose proof (step_now _ _ _ Hs).
  destruct (step_effect _ _ _ Hs) as [e E|k' t l' Hr Hnone E|k' t l0 l' Hr Hl0 E Hm
    |k' t l0 l' Hr Hl0 E Hi0 Hi' He' Hx']; unfold holds, reads in *; rewrite E.
  - by exists l.
  - exists l. rewrite lookup_insert_ne by congruence. done.
  - destruct (decide (snd k' = snd k)) as [Ek|Hk]; [|exists l; by rewrite lookup_insert_ne].
    rewrite Ek in *. assert (l0 = l) as -> by congruence. exists l'. rewrite lookup_insert_eq.
    destruct Hm as [(Ei & -> & -> & ->)|(? & _)]; [|lia]. split_and!; [done|congruence|done|].
    specialize (Hb _ _ Hl). rewrite Ei, <- Ek, <- surjective_pairing in Hb. lia.
  - destruct (decide (snd k' = snd k)) as [Ek|Hk]; [|exists l; by rewrite lookup_insert_ne].
    exfalso. apply Hne. f_equal; [|done]. rewrite Ek in Hl0. congruence.
Qed.

(** ** Fencing and exclusion *)


(** Of all the executions of a job in flight, in all processes, those that
    pass the fence belong to one leader. *)
Theorem one_leader_passes_the_fence s job a b ra rb
  (Hreach : reachable s)
  (Ha : runs s !! (a, job) = Some ra) (Hb : runs s !! (b, job) = Some rb)
  (Fa : assert_lease_epoch job (run_epoch ra) (leases s) = inr tt)
  (Fb : assert_lease_epoch job (run_epoch rb) (leases s) = inr tt) :
  a = b.
Proof.
  pose proof (runs_granted_reachable _ Hreach) as Hg.
  destruct (Hg _ _ _ Ha) as (l & Hl & _ & Ea), (Hg _ _ _ Hb) as (l' & Hl' & _ & Eb).
  assert (l' = l) as -> by congruence. unfold assert_lease_epoch in *. rewrite Hl in *.
  destruct (_ =? run_epoch ra) eqn:E1; [|done]. destruct (_ =? run_epoch rb) eqn:E2; [|done].
  apply Z.eqb_eq in E1, E2. rewrite <- Ea, <- Eb; congruence.
Qed.

(** An unexpired lease is exclusive: as long as its holder does not
    release it, nobody else gets the job before the expiry recorded when the
    holder last wrote it, however the heartbeats, crashes and attempts of all
    the processes interleave. *)
Theorem unexpired_lease_is_exclusive s es s' leader job epoch until
  (Hreach : reachable s) (Ht : trace s es s')
  (Hheld : holds (leader, job) epoch until s)
  (Hkeep : Released leader job ∉ es) (Huntil : now s' <= until) :
  holds (leader, job) epoch until s'.
Proof.
  destruct Hreach as [es0 Ht0].
  assert (Hinv : lasts_bounded s /\ leases_bounded s).
  { assert (H0 : lasts_bounded start /\ leases_bounded start).
    { split; [intros k; done|intros j l Hl; simpl in Hl; by rewrite lookup_empty in Hl]. }
    clear -Ht0 H0. induction Ht0 as [|s e s1 es s2 Hs _ IH]; [done|]. apply IH.
    destruct H0. split; [by eapply lasts_bounded_step|by eapply leases_bounded_step]. }
  clear Ht0 es0. induction Ht as [|s e s1 es s2 Hs Ht IH]; [done|].
  apply not_elem_of_cons in Hkeep as [Hne Hkeep]. destruct Hinv as [Hn Hb].
  assert (now s1 <= now s2) by (clear -Ht; induction Ht; [done|];
    pose proof (step_now _ _ _ H); lia).
  apply IH; [|done|done|].
  - by apply (holds_step s e s1); [done..|intros ->|lia|].
  - split; [by eapply lasts_bounded_step|by eapply leases_bounded_step].
Qed.

(** The lease reaper never reaps: it succeeds only when there is nothing
    to reclaim, and leaves the lease table as it was in every case. *)
Theorem lease_reaper_never_reaps t tbl :
  snd (RunLeaseReaper t tbl) = tbl /\
  (fst (RunLeaseReaper t tbl) = inr tt <-> forall job l, tbl !! job = Some l -> reapable t l = false).
Proof.
  split; [apply reaper_table|]. unfold RunLeaseReaper.
  destruct (reaped t tbl) as [|r rest] eqn:E; simpl.
  - split; [|done]. intros _ job l Hl. destruct (reapable t l) eqn:Hr; [|done].
    assert ((job, l) ∈ reaped t tbl) as Hin
      by (apply elem_of_bfilter; split; [done|by apply elem_of_map_to_list]).
    rewrite E in Hin. by apply not_elem_of_nil in Hin.
  - split; [done|]. intros Hall. exfalso. destruct r as [job l].
    assert ((job, l) ∈ reaped t tbl) as [Hr Hl]%elem_of_bfilter by (rewrite E; left).
    apply elem_of_map_to_list in Hl. simpl in Hr. by rewrite (Hall _ _ Hl) in Hr.
Qed.

(** ** Hysteresis *)

(** The loads measured, most recent first; a failed probe measures nothing. *)
Definition measured (samples : list (option (Z * Z))) : list Load :=
  rev (omap (fun x => (fun am => load_of (fst am) (snd am)) <$> x) samples).

(** Number of leading [x]. *)
Fixpoint leading (x : Load) (h : list Load) : Z :=
  match h, x with
  | High :: h', High | Low :: h', Low => 1 + leading x h'
  | _, _ => 0
  end.

(** The reference: pressure is what the last three equal decisive
    measurements in a row say. *)
Fixpoint verdict (h : list Load) : bool :=
  match h with
  | [] => false
  | _ :: h' =>
      if 3 <=? leading High h then true else if 3 <=? leading Low h then false else verdict h'
  end.

Lemma leading_pos x h : 0 <= leading x h.
Proof. induction h as [|[] h IH]; destruct x; simpl; lia. Qed.

Definition pressure_inv (h : list Load) (p : Pressure) : Prop :=
  inPressure p = verdict h /\
  (if inPressure p then quietCount p = leading Low h else pressureCount p = leading High h).

Lemma measured_snoc samples a m :
  measured (samples ++ [Some (a, m)]) = load_of a m :: measured samples.
Proof. unfold measured. rewrite omap_app, rev_app_distr. done. Qed.

Lemma probe_inv samples : pressure_inv (measured samples) (probes samples).
Proof.
  induction samples as [|x samples IH] using rev_ind; [done|].
  unfold probes. rewrite fold_left_app. simpl. fold (probes samples).
  destruct x as [[a m]|]; simpl.
  - rewrite measured_snoc. destruct IH as [IHv IHc]. set (h := measured samples) in *.
    pose proof (leading_pos High h). pose proof (leading_pos Low h).
    destruct (probes samples) as [pc ip qc]; simpl in *.
    unfold pressure_inv. destruct (load_of a m), ip; simpl;
      repeat case_match; simpl in *; rewrite ?Z.leb_le, ?Z.leb_gt, <- ?IHv in *;
      split; try done; try congruence; lia.
  - unfold measured. rewrite omap_app. simpl. by rewrite app_nil_r.
Qed.

(** Back-pressure has hysteresis: whatever the sequence of probes, the
    scheduler is under pressure exactly when the last three consecutive
    decisive measurements were above 70% of the connections; measurements
    between 60% and 70%, isolated peaks and failed probes change nothing. *)
Theorem backpressure_hysteresis samples :
  inPressure (probes samples) = verdict (measured samples).
Proof. apply probe_inv. Qed.

(** ** Degraded operation *)

(** A tick under lasting pressure with the lease available. *)
Definition sustained (env : TickEnv) : Prop :=
  match te_sample env with None => True | Some (a, m) => load_of a m = High end /\
  exists e, te_acquire env = inr (true, e).

Lemma sustained_pressure env p :
  sustained env -> inPressure p = true -> inPressure (probePressure (te_sample env) p) = true.
Proof.
  intros [Hs _] Hp. destruct (te_sample env) as [[a m]|]; simpl; [|done].
  rewrite Hs, Hp. done.
Qed.

Lemma ticks_sustained policy envs p s m :
  Forall sustained envs -> inPressure p = true ->
  forall i r, fst (ticks policy envs (p, s, m)) !! i = Some r ->
    (r = None <-> policy = SkipOnPressure \/ Nat.odd i = negb (skipNext s)).
Proof.
  intros Hs. revert p s m. induction Hs as [|env envs He _ IH]; intros p s m Hp i r; [done|].
  pose proof (sustained_pressure _ _ He Hp) as Hp'. destruct He as [_ [e Ha]].
  simpl. rewrite Hp', Ha. unfold shouldSkip. simpl.
  destruct policy; [|destruct (skipNext s) eqn:Hn]; simpl;
    (match goal with |- context [ticks _ envs (?p', ?s', ?m')] =>
       specialize (IH p' s' m' Hp'); destruct (ticks _ envs (p', s', m')) as [rs st] end);
    destruct i as [|i]; simpl in *.
  - intros [= <-]. split; auto.
  - intros Hr. apply IH in Hr. rewrite Hr. split; auto.
  - intros [= <-]. split; auto.
  - intros Hr. apply IH in Hr. rewrite Hr. clear.
    rewrite Nat.odd_succ, <- Nat.negb_odd. by rewrite negb_false_iff.
  - intros [= <-]. split; [done|]. by intros [?|?].
  - intros Hr. apply IH in Hr. rewrite Hr. clear.
    rewrite Nat.odd_succ, <- Nat.negb_odd. by rewrite negb_true_iff.
Qed.

(** Under lasting pressure a job with the skip policy does not run at all,
    and a job with the degrade policy runs on every other tick, beginning with
    the first. *)
Theorem degraded_jobs_run_every_other_tick policy envs p m
  (Hs : Forall sustained envs) (Hp : inPressure p = true) :
  forall i r, fst (ticks policy envs (p, loop_start, m)) !! i = Some r ->
    (r = None <-> policy = SkipOnPressure \/ Nat.odd i = true).
Proof. exact (ticks_sustained policy envs p loop_start m Hs Hp). Qed.

(** ** Two processes competing for a job *)

Definition demo_sys : Sys :=
  mkSys 0 {["publisher" := mkLease "host:1" 1 0 0 lease_ttl]}
    {[("host:1", "publisher") := mkRun 1 false]} {[("host:1", "publisher") := 0]}.

Lemma demo_acquired : step start Silent demo_sys.
Proof.
  assert (Heq : demo_sys = ended start ("host:1", "publisher")
                  (<["publisher" := mkLease "host:1" 1 0 0 (0 + lease_ttl)]> ∅)
                  (<[("host:1", "publisher") := mkRun 1 false]> ∅)) by (vm_compute; reflexivity).
  rewrite Heq. by apply (Acquire start "host:1" "publisher" false 0 1).
Qed.

(** Six minutes later: the lease has expired and a second process takes it. *)
Definition demo_late : Sys := mkSys (6 * minute) (leases demo_sys) (runs demo_sys) (lasts demo_sys).

Definition demo_stolen : Sys :=
  ended demo_late ("host:2", "publisher")
    (<["publisher" := mkLease "host:2" 2 (6 * minute) (6 * minute) (11 * minute)]> (leases demo_sys))
    (<[("host:2", "publisher") := mkRun 2 false]> (runs demo_sys)).

Lemma demo_steals : trace demo_sys [Silent; Silent] demo_stolen.
Proof.
  apply trace_cons with demo_late; [exact (Elapse demo_sys (6 * minute) ltac:(done))|].
  apply trace_cons with demo_stolen; [|constructor].
  apply (Acquire demo_late "host:2" "publisher" false (6 * minute) 2);
    [vm_compute; reflexivity|vm_compute; split; discriminate|vm_compute; reflexivity].
Qed.

Lemma demo_stolen_reachable : reachable demo_stolen.
Proof. eexists. eapply trace_cons; [apply demo_acquired|apply demo_steals]. Qed.


Lemma one_leader_passes_the_fence_witness :
  assert_lease_epoch "publisher" 1 (leases demo_stolen) <> inr tt /\ "host:2" = "host:2".
Proof.
  split; [vm_compute; discriminate|]. apply (one_leader_passes_the_fence demo_stolen "publisher" "host:2" "host:2"
           (mkRun 2 false) (mkRun 2 false) demo_stolen_reachable);
    vm_compute; reflexivity.
Defined.

Lemma unexpired_lease_is_exclusive_witness :
  holds ("host:1", "publisher") 1 (5 * minute)
    (mkSys (4 * minute) (leases demo_sys) (runs demo_sys) (lasts demo_sys)).
Proof.
  apply (unexpired_lease_is_exclusive demo_sys [Silent]).
  - exists [Silent]. eapply trace_cons; [apply demo_acquired|constructor].
  - eapply trace_cons; [exact (Elapse demo_sys (4 * minute) ltac:(done))|constructor].
  - exists (mkLease "host:1" 1 0 0 lease_ttl). split_and!; vm_compute; done.
  - by intros [=]%list_elem_of_singleton.
  - vm_compute. done.
Defined.

Definition demo_tick : TickEnv := mkTickEnv (Some (80, 100)) (inr (true, 1)) (fun _ => inr tt).

Lemma degraded_jobs_run_every_other_tick_witness :
  fst (ticks DegradeOnPressure [demo_tick; demo_tick] (mkPressure 0 true 0, loop_start, newMetrics))
    = [Some 1; None] /\
  ((None : option Z) = None <-> DegradeOnPressure = SkipOnPressure \/ Nat.odd 1 = true).
Proof.
  split; [reflexivity|].
  apply (degraded_jobs_run_every_other_tick DegradeOnPressure [demo_tick; demo_tick]
           (mkPressure 0 true 0) newMetrics); [|reflexivity|reflexivity].
  assert (sustained demo_tick) as Hd
    by (split; [reflexivity|by exists 1]).
  exact (Forall_cons_2 _ _ _ Hd (Forall_cons_2 _ _ _ Hd (Forall_nil_2 _))).
Defined.
