(* ===== verification/Jobs.v ===== *)
(** * The scheduled jobs

    [internal/modules/jobs]: the effective-date publisher, the stuck-instance
    watchdog and the idempotency janitor, the functions the scheduler runs
    under a lease. *)
From S2P Require Import Prelude Tables ApprovalDomain ApprovalFacts Database Schema TxLogic Authz.
From S2P Require Import ApprovalRepo Evolve ContentHash Submit Decision Cancel Publish RouteAdmin.
From S2P Require Import Lifecycle Consistency Scenario Guarantees Behaviour.
Import DocStates Routes Signoffs Instances.
Local Open Scope Z_scope.

(** ** Effective-date publisher *)

Definition DefaultBatchSize : Z := 100.

(** [effective_date_publisher.New]: whether the backlog warning was logged. *)
Definition effective_date_publisher : M bool :=
  result ← RunDuePublishes;
  mret (DefaultBatchSize <=? rd_Processed result).

(** ** Stuck-instance watchdog *)

Definition SystemActor : string := "system:watchdog".
Definition BypassGUC : string := "watchdog".

Record StuckInstance := mkStuckInstance {
  sk_ID : string;
  sk_TenantID : string;
  sk_DocumentID : string;
  sk_SubmittedBy : string;
  sk_DriftPolicy : string
}.

(** The query reads [ar.on_eligibility_drift]; that column belongs to
    [approval_route_stages], not to [approval_routes] (migrations 0134 and
    0146): PostgreSQL refuses the statement when it analyses it. *)
Definition stuck_query (g : GUCs) (db : DB) : Result (list StuckInstance) :=
  inl (undefined_column "column ar.on_eligibility_drift does not exist").

Definition listStuckInstances : M (list StuckInstance) :=
  BeginTx ;;
  or_rollback same (set_config (with_bypass_authz BypassGUC)) ;;
  out ← or_rollback same (query_tx stuck_query);
  or_rollback same Commit ;;
  mret out.

Definition stuck_alert (inst : StuckInstance) : GovernanceEvent :=
  mkGovernanceEvent (sk_TenantID inst) "approval.instance.stuck_alert" SystemActor
    "approval_instance" (sk_ID inst) "stuck_watchdog_alert"
    [("instance_id", AStr (sk_ID inst)); ("document_id", AStr (sk_DocumentID inst));
     ("submitted_by", AStr (sk_SubmittedBy inst)); ("drift_policy", AStr (sk_DriftPolicy inst));
     ("watchdog_rule", AStr "stuck_instance_7d")].

Definition emitStuckAlert (inst : StuckInstance) : M unit :=
  BeginTx ;;
  or_rollback same (set_config (with_bypass_authz BypassGUC)) ;;
  or_rollback same (Emit (stuck_alert inst)) ;;
  or_rollback same Commit.

Definition auto_cancel_input (inst : StuckInstance) : CancelInput :=
  mkCancelInput (sk_TenantID inst) (sk_ID inst) 0 SystemActor "stuck_watchdog_auto_cancel" true.

(** The loop over the stuck instances: an error is logged and the next one is
    tried. The result counts the instances cancelled and the alerts. *)
Fixpoint handle_stuck (stuck : list StuckInstance) (counts : Z * Z) : M (Z * Z) :=
  match stuck with
  | [] => mret counts
  | inst :: rest => fun w =>
      if str_eqb (sk_DriftPolicy inst) "auto_cancel" then
        match CancelInstance (auto_cancel_input inst) w with
        | (inl _, w') => handle_stuck rest counts w'
        | (inr _, w') => handle_stuck rest (fst counts + 1, snd counts) w'
        end
      else
        match emitStuckAlert inst w with
        | (inl _, w') => handle_stuck rest counts w'
        | (inr _, w') => handle_stuck rest (fst counts, snd counts + 1) w'
        end
  end.

(** [stuck_instance_watchdog.New]: an error of the listing is logged, and the
    job reports success. *)
Definition stuck_instance_watchdog : M (Z * Z) := fun w =>
  match listStuckInstances w with
  | (inl _, w') => (inr (0, 0), w')
  | (inr stuck, w') => handle_stuck stuck (0, 0) w'
  end.

(** ** Idempotency janitor *)

Record IdempotencyKey := mkIdempotencyKey { ik_status : string; ik_expires_at : Time }.

Definition JanitorBatchSize : nat := 5000.
Definition MaxIterations : nat := 10.

Definition is_stale_key (now : Time) (k : IdempotencyKey) : bool :=
  (ik_expires_at k <? now) && str_eqb (ik_status k) "completed".

(** [DELETE ... WHERE ctid IN (SELECT ctid ... LIMIT n)]: rows affected. *)
Fixpoint delete_stale (now : Time) (limit : nat) (keys : list IdempotencyKey)
    : nat * list IdempotencyKey :=
  match keys with
  | [] => (0%nat, [])
  | k :: rest =>
      match limit with
      | O => (0%nat, keys)
      | S limit' =>
          if is_stale_key now k
          then let '(n, rest') := delete_stale now limit' rest in (S n, rest')
          else let '(n, rest') := delete_stale now limit rest in (n, k :: rest')
      end
  end.

(** The loop of [idempotency_janitor.New]; [clock i] is [now()] of the i-th
    DELETE. *)
Fixpoint janitor_loop (fuel : nat) (clock : nat -> Time) (keys : list IdempotencyKey)
    (totalDeleted : nat) : nat * list IdempotencyKey :=
  match fuel with
  | O => (totalDeleted, keys)
  | S fuel' =>
      let '(n, keys') := delete_stale (clock (MaxIterations - fuel)%nat) JanitorBatchSize keys in
      if Nat.eqb n 0 then (totalDeleted, keys') else janitor_loop fuel' clock keys' (totalDeleted + n)
  end.

Definition idempotency_janitor (clock : nat -> Time) (keys : list IdempotencyKey)
    : nat * list IdempotencyKey :=
  janitor_loop MaxIterations clock keys 0.

(** ** Facts: the publisher *)

(** One row of the batch may publish its own document, if it is still
    scheduled at the revision that was read. *)
Definition row_document (row : ScheduledPublishRow) (d : Document) : Prop :=
  d_id d = sp_DocumentID row /\ d_tenant_id d = sp_TenantID row /\
  d_status d = StateScheduled /\ d_revision_version d = sp_RevisionVersion row.

Definition published (d : Document) : Document :=
  doc_set StatePublished (d_revision_version d + 1) d.

Definition publishes (P : Document -> Prop) (d d' : Document) : Prop :=
  d' = d \/ (P d /\ d' = published d).

Record only_publishes (P : Document -> Prop) (db db' : DB) : Prop := {
  op_documents : Forall2 (publishes P) (documents db) (documents db');
  op_instances : approval_instances db' = approval_instances db;
  op_stages : approval_stage_instances db' = approval_stage_instances db;
  op_signoffs : approval_signoffs db' = approval_signoffs db
}.

(** [P] only holds of scheduled documents. *)
Class Scheduled (P : Document -> Prop) : Prop :=
  scheduled_only d : P d -> d_status d = StateScheduled.

#[export] Instance only_publishes_preorder P `{!Scheduled P} : PreOrder (only_publishes P).
Proof.
  split.
  - intros db. split; try done. apply Forall2_same_length_lookup_2; [done|].
    intros i d d' H1 H2. left. congruence.
  - intros a b c [D1 I1 S1 V1] [D2 I2 S2 V2]. split; try congruence.
    eapply Forall2_trans; [|exact D1|exact D2].
    intros x y z [->|[Hx ->]] Hz; [done|]. destruct Hz as [->|[Hy _]]; [by right|].
    apply scheduled_only in Hy. done.
Qed.

#[export] Instance only_publishes_event_blind P `{!Scheduled P} :
  EventBlind (only_publishes P).
Proof.
  intros evs db. split; try done. simpl. apply Forall2_same_length_lookup_2; [done|].
  intros i d d' H1 H2. left. congruence.
Qed.

#[export] Instance row_document_scheduled row : Scheduled (row_document row).
Proof. by intros d (_ & _ & ? & _). Qed.

Lemma stmt_row_publishes row :
  stmt_evolves (only_publishes (row_document row))
    (occ_transition StateScheduled StatePublished (sp_TenantID row) (sp_DocumentID row)
       (sp_RevisionVersion row)).
Proof.
  intros g now db n db' Hd. destruct (update_documents_ok _ _ _ _ _ _ _ Hd) as (docs & -> & HF & _).
  split; try done.
  eapply Forall2_impl; [exact HF|]. intros d d' H. unfold doc_updated in H.
  destruct (_ && _) eqn:Hc; [|by left]. right.
  unfold doc_is, doc_has_status, doc_has_revision in Hc. bool_to_prop.
  match goal with H : (_ =? _) = true |- _ => apply Z.eqb_eq in H end.
  destruct H as [H _].
  apply set_status_bump_ok in H as [-> _]. by repeat split.
Qed.

Lemma evolves_row row : evolves (only_publishes (row_document row)) (processRow row).
Proof. unfold processRow. pose proof (stmt_row_publishes row). evolves_tac. Qed.

Lemma only_publishes_mono (P Q : Document -> Prop) db db' :
  (forall d, d ∈ documents db -> P d -> Q d) -> only_publishes P db db' -> only_publishes Q db db'.
Proof.
  intros HPQ [D I S V]. split; [|done..].
  apply Forall2_same_length_lookup_2; [by apply Forall2_length in D|].
  intros i d d' Hd Hd'. destruct (Forall2_lookup_lr _ _ _ _ _ _ D Hd Hd') as [->|[HP ->]]; [by left|].
  right. split; [|done]. apply HPQ; [|done]. by apply list_elem_of_lookup_2 in Hd.
Qed.

(** The documents a batch of rows may publish. *)
Definition batch_document (rows : list ScheduledPublishRow) (d : Document) : Prop :=
  exists row, row ∈ rows /\ row_document row d.

#[export] Instance batch_document_scheduled rows : Scheduled (batch_document rows).
Proof. by intros d (row & _ & _ & _ & ? & _). Qed.

Lemma process_rows_publishes rows result w r w' :
  w_tx w = None -> process_rows rows result w = (inr r, w') ->
  only_publishes (batch_document rows) (w_db w) (w_db w') /\
  rd_Processed r <= rd_Processed result + Z.of_nat (length rows).
Proof.
  revert result w. induction rows as [|row rows IH]; intros result w Hidle; simpl.
  { intros [-> ->]%ret_ok. split; [reflexivity|lia]. }
  assert (Hw : tx_respects (only_publishes (row_document row)) w) by (intros tx Htx; congruence).
  destruct (evolves_row row w Hw) as [Hstep _].
  pose proof (phases_processRow row (w_db w) w (conj Hidle eq_refl)) as Hphase.
  assert (Hfirst : only_publishes (batch_document (row :: rows)) (w_db w)
                     (w_db (snd (processRow row w)))).
  { eapply only_publishes_mono; [|exact Hstep]. intros d _ Hd. exists row. split; [left|done]. }
  destruct (processRow row w) as [[e|b] w1]; simpl in *; intros Hrun.
  all: apply IH in Hrun as [Hrest Hle]; [|by destruct Hphase || done].
  all: split; [|simpl in Hle; repeat case_match; lia].
  all: etransitivity; [exact Hfirst|]; eapply only_publishes_mono; [|exact Hrest];
    intros d _ (row' & ? & ?); exists row'; split; [by right|done].
Qed.

(** The instant the publisher compares effective dates with: the clock of
    [fetch_due], read inside its transaction. *)
Definition publish_instant (w : World) : Time := w_clock w (S (w_ticks w)).

Lemma fetch_due_ok w rows w' :
  fetch_due w = (inr rows, w') ->
  rows = scheduled_due (publish_instant w) schedulerBatchLimit (w_db w) /\
  w_tx w' = None /\ w_db w' = w_db w.
Proof.
  unfold fetch_due. intros H.
  apply bind_ok in H as (u & w1 & Hb%map_err_ok & H).
  assert (E : w_tx w1 = Some (mkTx (w_db w) no_gucs (w_clock w (w_ticks w)) false) /\
              w_db w1 = w_db w /\ w_clock w1 (w_ticks w1) = publish_instant w).
  { revert Hb. unfold BeginTx. destruct (w_tx w); [done|]. destruct (next_fault w); [done|].
    by intros [= <- <-]. }
  destruct E as (Ht & Hd & Hc). apply bind_ok in H as (now & w2 & Hn & H).
  assert (now = publish_instant w) as -> by (unfold Now in Hn; congruence).
  unfold ListScheduledDue in H. run_inv. simpl in *. split_and!; congruence.
Qed.

Lemma RunDuePublishes_ok w r w' :
  RunDuePublishes w = (inr r, w') ->
  only_publishes (batch_document (scheduled_due (publish_instant w) schedulerBatchLimit (w_db w)))
    (w_db w) (w_db w') /\ rd_Processed r <= Z.of_nat schedulerBatchLimit.
Proof.
  unfold RunDuePublishes. intros H.
  apply bind_ok in H as (rows & w1 & (-> & Ht & Hd)%fetch_due_ok & H).
  destruct (process_rows_publishes _ _ _ _ _ Ht H) as [Hp Hle]. rewrite Hd in Hp.
  split; [done|]. simpl in Hle. etransitivity; [exact Hle|].
  unfold scheduled_due. rewrite length_take. lia.
Qed.

Lemma batch_is_due now limit db d :
  NoDup (d_id <$> documents db) -> d ∈ documents db ->
  batch_document (scheduled_due now limit db) d -> is_due now d = true.
Proof.
  intros Hnd Hd (row & Hrow & Hid & _). unfold scheduled_due in Hrow.
  apply elem_of_take in Hrow as (i & Hrow & _). apply list_elem_of_lookup_2 in Hrow.
  apply elem_of_order_by, list_elem_of_fmap in Hrow as (d0 & -> & [Hdue Hd0]%elem_of_bfilter).
  assert (d = d0) as -> by (by apply (NoDup_fmap_inj d_id (documents db))). done.
Qed.

(** The scheduler publishes what is due and nothing else: after a
    successful [RunDuePublishes] every document is as it was, or was scheduled
    with an effective date that had passed and is now published one revision
    later; no approval row changes; at most [schedulerBatchLimit] rows are
    reported, so that the backlog warning of the effective-date publisher,
    which waits for [DefaultBatchSize], is never logged. *)
Theorem scheduler_publishes_only_due_documents w
  (Hidle : w_tx w = None) (Hwf : NoDup (d_id <$> documents (w_db w))) :
  (forall r w', RunDuePublishes w = (inr r, w') ->
     only_publishes (fun d => is_due (publish_instant w) d = true) (w_db w) (w_db w') /\
     rd_Processed r <= Z.of_nat schedulerBatchLimit) /\
  (forall warned w', effective_date_publisher w = (inr warned, w') -> warned = false).
Proof.
  split.
  - intros r w' [Hp Hle]%RunDuePublishes_ok. split; [|done].
    eapply only_publishes_mono; [|exact Hp]. intros d Hd. by apply batch_is_due.
  - unfold effective_date_publisher. intros warned w' H.
    apply bind_ok in H as (r & w1 & [_ Hle]%RunDuePublishes_ok & H).
    apply ret_ok in H as [H _]. subst warned. apply Z.leb_gt. unfold DefaultBatchSize. unfold schedulerBatchLimit in Hle. lia.
Qed.

(** A scheduled document whose date has come, and one whose date has not. *)
Definition scheduled_doc (id : string) (from : Time) : Document :=
  mkDocument id "acme" StateScheduled 5 "ana" (Some "quality") None (Some from) full_snapshot None.

Definition demo_scheduled : World :=
  demo_world (set_documents [scheduled_doc "due" 1; scheduled_doc "later" 1000000000000]
                (demo_db two_stages)).

Lemma scheduler_publishes_only_due_documents_witness :
  ((fun d => (d_id d, d_status d)) <$> documents (w_db (snd (RunDuePublishes demo_scheduled))))
    = [("due", StatePublished); ("later", StateScheduled)] /\
  (forall r w', RunDuePublishes demo_scheduled = (inr r, w') ->
     only_publishes (fun d => is_due (publish_instant demo_scheduled) d = true)
       (w_db demo_scheduled) (w_db w') /\ rd_Processed r <= Z.of_nat schedulerBatchLimit).
Proof.
  split; [vm_compute; reflexivity|].
  apply (scheduler_publishes_only_due_documents demo_scheduled); [reflexivity|].
  apply (bool_decide_unpack _). vm_compute. exact I.
Defined.

(** ** Facts: the watchdog *)

Lemma phases_listStuckInstances : transactional listStuckInstances.
Proof. unfold listStuckInstances. phases_tac. Qed.

Lemma listStuckInstances_fails w out w' : listStuckInstances w = (inr out, w') -> False.
Proof. unfold listStuckInstances. intros H. run_inv. done. Qed.

Lemma phases_emitStuckAlert inst : transactional (emitStuckAlert inst).
Proof. unfold emitStuckAlert, Emit. phases_tac. Qed.

(** The watchdog never acts: whatever approvals are stuck, a run of the job
    reports success, having cancelled nothing, alerted about nothing and
    changed nothing. Were its query repaired, an automatic cancellation would
    still fail for every instance. *)
Theorem stuck_instance_watchdog_never_acts w (Hidle : w_tx w = None) :
  (exists w', stuck_instance_watchdog w = (inr (0, 0), w') /\ w_db w' = w_db w /\ w_tx w' = None) /\
  (forall stuck, (forall inst, inst ∈ stuck -> sk_DriftPolicy inst = "auto_cancel") ->
     exists w', handle_stuck stuck (0, 0) w = (inr (0, 0), w') /\ w_db w' = w_db w).
Proof.
  split.
  - unfold stuck_instance_watchdog.
    pose proof (phases_listStuckInstances (w_db w) w (conj Hidle eq_refl)) as Hphase.
    destruct (listStuckInstances w) as [[e|out] w'] eqn:Hl;
      [|by apply listStuckInstances_fails in Hl].
    destruct Hphase. by exists w'.
  - intros stuck. revert w Hidle. induction stuck as [|inst stuck IH]; intros w Hidle Hall.
    { by exists w. }
    simpl. rewrite (Hall inst) by left. simpl.
    pose proof (phases_CancelInstance (auto_cancel_input inst) (w_db w) w (conj Hidle eq_refl)) as Hp.
    destruct (CancelInstance (auto_cancel_input inst) w) as [[e|r] w1] eqn:Hc.
    + destruct Hp as [Ht Hd]. rewrite <- Hd. apply IH; [done|]. intros i Hi. apply Hall. by right.
    + by apply cancel_authorised in Hc as [Hb _].
Qed.

Lemma stuck_instance_watchdog_never_acts_witness :
  exists w', stuck_instance_watchdog w_submitted = (inr (0, 0), w') /\
    w_db w' = w_db w_submitted /\ w_tx w' = None.
Proof. apply stuck_instance_watchdog_never_acts. vm_compute. reflexivity. Defined.
