(* ===== verification/HttpErrors.v ===== *)
(** * Errors of the HTTP layer

    Error texts ([Error()]) with the verbs of [fmt] the code uses, and
    [approval/http/errors.go]: [MapErrorToResponse], from an error to a status,
    a code and a message. *)
From S2P Require Import Prelude Text Tables ApprovalDomain Database Schema ApprovalRepo Authz Sha256.
From S2P Require Import ContentHash Cancel Publish RouteAdmin.
From Stdlib Require Import Ascii.
Local Open Scope Z_scope.

(** ** Error texts *)

(** [%q] on a string: printable characters other than the quote and the
    backslash are kept (bytes above 127 are taken as printable runes). *)
Definition quote_ascii (c : Ascii.ascii) : string :=
  let n := Ascii.nat_of_ascii c in
  let esc (k : nat) := bytes_string [92%nat; k] in
  if (Nat.eqb n 34 || Nat.eqb n 92)%bool then esc n
  else if Nat.eqb n 7 then esc 97%nat else if Nat.eqb n 8 then esc 98%nat
  else if Nat.eqb n 9 then esc 116%nat else if Nat.eqb n 10 then esc 110%nat
  else if Nat.eqb n 11 then esc 118%nat else if Nat.eqb n 12 then esc 102%nat
  else if Nat.eqb n 13 then esc 114%nat
  else if (Nat.ltb n 32 || Nat.eqb n 127)%bool then
    esc 120%nat +:+ String (Sha256.hex_char (Z.of_nat n / 16)) (String (Sha256.hex_char (Z.of_nat n mod 16)) "")
  else String c "".

Fixpoint quote_body (s : string) : string :=
  match s with
  | EmptyString => ""
  | String c s' => quote_ascii c +:+ quote_body s'
  end.

Definition Quote (s : string) : string := quote_char +:+ quote_body s +:+ quote_char.

Definition arg_text (verb : Ascii.ascii) (a : FmtArg) : string :=
  match a with
  | AStr s => if Ascii.eqb verb "q"%char then Quote s else s
  | AInt z => Itoa z
  | ABool b => if b then "true" else "false"
  end.

(** [fmt.Sprintf] on the verbs [%s], [%d], [%q], [%v]; [%w] prints the wrapped
    error, which is not in [args]. *)
Fixpoint Sprintf (format : string) (args : list FmtArg) (wrapped : string) : string :=
  match format with
  | EmptyString => ""
  | String c tail =>
      match tail with
      | EmptyString => format
      | String v rest =>
          if Ascii.eqb c "%"%char then
            if Ascii.eqb v "w"%char then wrapped +:+ Sprintf rest args wrapped
            else
              match args with
              | a :: args' => arg_text v a +:+ Sprintf rest args' wrapped
              | [] => "%!" +:+ String v "(MISSING)" +:+ Sprintf rest [] wrapped
              end
          else String c (Sprintf tail args wrapped)
      end
  end.

(** The texts given to [errors.New] by the approval code, and those of the
    standard-library sentinels. *)
Definition sentinel_texts : list (string * string) :=
  [("domain.ErrNoActiveStage", "no active stage in instance");
   ("domain.ErrCannotSkipLastStage", "cannot skip last stage: no successor exists");
   ("domain.ErrRevisionRegression", "revision_version cannot decrease");
   ("domain.ErrInstanceTerminal", "instance is already in a terminal state");
   ("domain.ErrAuthorCannotSign", "SoD: document author cannot sign their own revision");
   ("domain.ErrActorAlreadySigned", "SoD: actor has already signed in a prior stage of this instance");
   ("domain.ErrLegacyStateRejected",
    "legacy document state is not valid in the Spec 2 approval graph");
   ("application.ErrNoActor", "membership_tx: actorUserID must not be empty");
   ("application.ErrFloatInPayload",
    "event payload must not contain float64 values; use string or int");
   ("application.ErrRouteNotFound", "route_admin: route not found");
   ("application.ErrFloatInFormData", "content hash: float64 values are not allowed in form_data");
   ("application.ErrInvalidObsoleteSource",
    "approval: document must be in 'published' or 'superseded' state to mark obsolete");
   ("application.ErrInstanceNotApproved", "approval: instance is not in approved state");
   ("application.ErrEffectiveDateInPast", "approval: effective_date must be in the future");
   ("application.ErrLegacyDocumentsRemain",
    "cutover: legacy documents remain with status 'finalized' or 'archived'");
   ("application.ErrReasonRequired", "cancel: reason must not be empty");
   ("repository.ErrStaleRevision", "approval: stale revision — concurrent modification detected");
   ("repository.ErrNoActiveInstance", "approval: no active approval instance for document");
   ("repository.ErrDuplicateSubmission", "approval: duplicate submission idempotency key");
   ("repository.ErrActorAlreadySigned", "approval: actor already signed this instance");
   ("repository.ErrInstanceCompleted", "approval: instance is already terminal");
   ("repository.ErrStageNotActive", "approval: stage is not in expected status");
   ("repository.ErrFKViolation", "approval: foreign key violation");
   ("repository.ErrCheckViolation", "approval: check constraint violation");
   ("repository.ErrInsufficientPrivilege",
    "approval: insufficient privilege — GUC context missing");
   ("repository.ErrUnknownDB", "approval: unknown database error");
   ("repository.ErrRouteInUse",
    "approval: route is referenced by one or more instances and cannot be modified");
   ("repository.ErrDuplicateRouteProfile",
    "approval: a route already exists for this tenant+profile combination");
   ("http.ErrIfMatchRequired", "precondition: If-Match header required");
   ("http.ErrIfMatchMalformed",
    "precondition: If-Match header malformed; expected " +:+ Quote "v<N>" +:+ " or " +:+ Quote "*");
   ("http.ErrIdempotencyRequired",
    "idempotency: Idempotency-Key header required on mutating requests");
   ("http.ErrContentHashMismatch", "approval: content hash mismatch");
   ("contracts.ErrContentType", "content-type must be application/json");
   ("contracts.ErrBodyTooLarge", "request body too large (max 64 KB)");
   ("contracts.ErrEmptyBody", "request body must not be empty");
   ("contracts.ErrDuplicateKey", "request body contains duplicate JSON keys");
   ("signature.ErrInvalidCredentials", "signature: invalid credentials");
   ("signature.ErrRateLimited", "signature: too many failed attempts, try again later");
   ("sql.ErrNoRows", "sql: no rows in result set");
   ("sql.ErrTxDone", "sql: transaction has already been committed or rolled back");
   ("context.DeadlineExceeded", "context deadline exceeded");
   ("context.Canceled", "context canceled");
   ("io.EOF", "EOF");
   ("io.ErrUnexpectedEOF", "unexpected EOF")].

Definition sentinel_text (var : string) : string :=
  match List.find (fun p => str_eqb (fst p) var) sentinel_texts with
  | Some (_, t) => t
  | None => ""
  end.

(** [err.Error()]. The text of a [pgconn.PgError] is the driver's. *)
Class PgErrorText := pg_error_text : string -> string -> string -> string.

Fixpoint error_text `{PgErrorText} (e : Error) : string :=
  match e with
  | Sentinel var => sentinel_text var
  | Errorf fmt args => Sprintf fmt args ""
  | Wrapf fmt args e' => Sprintf fmt args (error_text e')
  | PgError code constraint message => pg_error_text code constraint message
  | ErrCapabilityDenied capability area actor =>
      Sprintf "authz: capability %q denied for actor %q in area %q"
        [AStr capability; AStr actor; AStr area] ""
  end.

(** ** [MapErrorToResponse] *)

Definition ErrIfMatchRequired : Error := Sentinel "http.ErrIfMatchRequired".
Definition ErrIfMatchMalformed : Error := Sentinel "http.ErrIfMatchMalformed".
Definition ErrIdempotencyRequired : Error := Sentinel "http.ErrIdempotencyRequired".
Definition ErrContentHashMismatch : Error := Sentinel "http.ErrContentHashMismatch".
Definition ErrContentType : Error := Sentinel "contracts.ErrContentType".
Definition ErrBodyTooLarge : Error := Sentinel "contracts.ErrBodyTooLarge".
Definition ErrEmptyBody : Error := Sentinel "contracts.ErrEmptyBody".
Definition ErrDuplicateKey : Error := Sentinel "contracts.ErrDuplicateKey".
Definition ErrInvalidCredentials : Error := Sentinel "signature.ErrInvalidCredentials".
Definition ErrRateLimited : Error := Sentinel "signature.ErrRateLimited".

(** Errors of [encoding/json] with a type of their own: the text, wrapping a
    mark of the type ([errors.As] on the type is [errors.Is] on the mark). *)
Definition JsonSyntaxError (text : string) : Error :=
  Wrapf "%s" [AStr text] (Sentinel "json.SyntaxError").

Definition StatusBadRequest : Z := 400.
Definition StatusUnauthorized : Z := 401.
Definition StatusForbidden : Z := 403.
Definition StatusNotFound : Z := 404.
Definition StatusConflict : Z := 409.
Definition StatusPreconditionFailed : Z := 412.
Definition StatusRequestEntityTooLarge : Z := 413.
Definition StatusUnsupportedMediaType : Z := 415.
Definition StatusUnprocessableEntity : Z := 422.
Definition StatusPreconditionRequired : Z := 428.
Definition StatusTooManyRequests : Z := 429.
Definition StatusInternalServerError : Z := 500.
Definition StatusGatewayTimeout : Z := 504.

(** The cases of the first switch, in order. *)
Definition sentinel_cases : list (Error * (Z * string)) :=
  [(ErrStaleRevision, (StatusConflict, "conflict.stale_revision"));
   (ErrNoActiveInstance, (StatusNotFound, "not_found.instance"));
   (ErrDuplicateSubmission, (StatusConflict, "conflict.duplicate_submission"));
   (ErrActorAlreadySigned, (StatusConflict, "signoff.duplicate"));
   (ErrInstanceCompleted, (StatusConflict, "state.instance_completed"));
   (ErrRouteInUse, (StatusConflict, "route.in_use"));
   (ErrDuplicateRouteProfile, (StatusConflict, "route.duplicate_profile"));
   (Signoffs.ErrAuthorCannotSign, (StatusForbidden, "sod.submitter_cannot_sign"));
   (Signoffs.ErrActorAlreadySigned, (StatusForbidden, "sod.cross_stage_duplicate"));
   (ErrFKViolation, (StatusUnprocessableEntity, "db.fk_violation"));
   (ErrCheckViolation, (StatusUnprocessableEntity, "db.check_violation"));
   (ErrIfMatchRequired, (StatusPreconditionRequired, "precondition.if_match_required"));
   (ErrIfMatchMalformed, (StatusBadRequest, "validation.if_match_malformed"));
   (ErrIdempotencyRequired, (StatusBadRequest, "idempotency.key_required"));
   (ErrContentHashMismatch, (StatusPreconditionFailed, "precondition.content_hash_mismatch"));
   (ErrInvalidCredentials, (StatusUnauthorized, "authn.signature_invalid"));
   (ErrRateLimited, (StatusTooManyRequests, "authn.signature_rate_limited"));
   (ErrInsufficientPrivilege, (StatusInternalServerError, "internal.db_privilege_missing"));
   (ErrUnknownDB, (StatusInternalServerError, "internal.db_unknown"))].

(** The cases of the default branch after the capability test, in order. *)
Definition default_cases : list (Error * (Z * string)) :=
  [(ErrReasonRequired, (StatusBadRequest, "validation.reason_required"));
   (ErrRouteNotFound, (StatusNotFound, "not_found.route"));
   (Sentinel "context.DeadlineExceeded", (StatusGatewayTimeout, "timeout"));
   (Sentinel "context.Canceled", (StatusGatewayTimeout, "timeout"));
   (Sentinel "json.SyntaxError", (StatusBadRequest, "validation.json_decode"));
   (Sentinel "io.ErrUnexpectedEOF", (StatusBadRequest, "validation.json_decode"));
   (Sentinel "json.UnmarshalTypeError", (StatusBadRequest, "validation.json_type_error"));
   (Sentinel "io.EOF", (StatusBadRequest, "validation.empty_body"));
   (ErrContentType, (StatusUnsupportedMediaType, "validation.content_type"));
   (ErrBodyTooLarge, (StatusRequestEntityTooLarge, "validation.body_too_large"));
   (ErrEmptyBody, (StatusBadRequest, "validation.empty_body"));
   (ErrDuplicateKey, (StatusBadRequest, "validation.duplicate_key"))].

(** The first case the error's chain contains. *)
Definition first_case (err : Error) (cases : list (Error * (Z * string))) : option (Z * string) :=
  snd <$> List.find (fun c => errors_Is err (fst c)) cases.

Section mapping.
Context `{PgErrorText}.

Definition looksLikeValidationError (err : Error) : bool :=
  let msg := error_text err in
  Contains msg " is required" || Contains msg " must be " || Contains msg " must not be ".

Definition internalErrorMessage : string := "internal error".

Definition responseMessage (err : Error) (statusCode : Z) : string :=
  if StatusInternalServerError <=? statusCode then internalErrorMessage else error_text err.

Definition error_case (err : Error) : Z * string :=
  match first_case err sentinel_cases with
  | Some c => c
  | None =>
      match errors_As_CapabilityDenied err with
      | Some _ => (StatusForbidden, "authz.capability_denied")
      | None =>
          match first_case err default_cases with
          | Some c => c
          | None =>
              if looksLikeValidationError err then (StatusBadRequest, "validation.request_invalid")
              else (StatusInternalServerError, "internal.unknown")
          end
      end
  end.

(** Status, code and message. *)
Definition MapErrorToResponse (err : Error) : Z * string * string :=
  let '(statusCode, code) := error_case err in
  (statusCode, code, responseMessage err statusCode).

End mapping.
