(* ===== verification/ApprovalHttp.v ===== *)
(** * The HTTP API of the approval module

    [documents_v2/approval/http] and [http/contracts]: strict decoding and
    validation of request bodies, [If-Match] and pagination parameters, the
    read service, and the handlers, from request to response. The services are
    the programs of the previous files, held in a [Handler] as optional
    functions, the way the Go struct holds interfaces that may be nil.

    Left out: the request id (a header echoed back, or the clock),
    [SchedulePublishHandler] and [ListRoutesHandler]. *)
From S2P Require Import Prelude Text Tables ApprovalDomain ApprovalFacts Database Schema TxLogic Authz.
From S2P Require Import ApprovalRepo ContentHash Submit Decision Cancel Publish RouteAdmin.
From S2P Require Import HttpErrors.
Import DocStates Routes Signoffs Instances.
Local Open Scope Z_scope.

(** ** Requests and responses *)

(** A body, as [mime.ParseMediaType], [io.ReadAll] and the JSON decoder see
    it: its media type, its size, whether it is blank, the JSON values read
    from it in order and the error that ends them ([io.EOF] when nothing
    follows the last value). *)
Record HttpBody := mkHttpBody {
  hb_MediaType : option string;
  hb_ReadError : option Error;
  hb_Size : Z;
  hb_Blank : bool;
  hb_Values : list Any;
  hb_End : Error
}.

Record Request := mkRequest {
  rq_Header : string -> string;
  rq_PathValue : string -> string;
  rq_Query : string -> string;
  rq_UserID : string;
  rq_Body : HttpBody
}.

Record InboxItem := mkInboxItem {
  ib_InstanceID : string;
  ib_DocumentID : string;
  ib_SubmittedBy : string;
  ib_SubmittedAt : string;
  ib_StageLabel : string;
  ib_AreaCode : string
}.

Record StageView := mkStageView {
  sv_ID : string;
  sv_StageIndex : Z;
  sv_Label : string;
  sv_Status : string
}.

Record InstanceView := mkInstanceView {
  iv_ID : string;
  iv_DocumentID : string;
  iv_RouteID : string;
  iv_TenantID : string;
  iv_Status : string;
  iv_SubmittedBy : string;
  iv_SubmittedAt : string;
  iv_CompletedAt : option string;
  iv_Stages : list StageView
}.

Inductive Body :=
  | BodyError (code message : string)
  | BodyFields (fields : list (string * FmtArg))
  | BodyInstance (v : InstanceView)
  | BodyInbox (items : list InboxItem).

Record Response := mkResponse { rs_Status : Z; rs_ETag : option string; rs_Body : Body }.

Definition StatusOK : Z := 200.
Definition StatusCreated : Z := 201.

(** ** [contracts/strictjson.go] *)

Definition maxRequestBodyBytes : Z := 64 * 1024.

Section decode.
Context {T : Type}.

Abbreviation Field := (string * (Any -> T -> Result T))%type.

(** The members in order; the first error is remembered and decoding goes on. *)
Fixpoint decode_members (fields : list Field) (m : list (string * Any)) (x : T)
    (saved : option Error) : Result T :=
  match m with
  | [] => match saved with Some e => inl e | None => inr x end
  | (k, v) :: rest =>
      let save e := match saved with Some _ => saved | None => Some e end in
      match find_field fields k with
      | None => decode_members fields rest x (save (Errorf "json: unknown field %q" [AStr k]))
      | Some (_, set) =>
          match set v x with
          | inl e => decode_members fields rest x (save e)
          | inr x' => decode_members fields rest x' saved
          end
      end
  end.

Definition decode_struct (fields : list Field) (zero : T) (v : Any) : Result T :=
  match v with
  | AnyNil => inr zero
  | AnyMap m => decode_members fields m zero None
  | _ => inl (type_error "struct")
  end.

(** [contracts.Decode]. *)
Definition Decode (fields : list Field) (zero : T) (b : HttpBody) : Result T :=
  if negb (bool_decide (hb_MediaType b = Some "application/json")) then inl ErrContentType
  else
    match hb_ReadError b with
    | Some e => inl (wrap "read request body: %w" e)
    | None =>
        if maxRequestBodyBytes <? hb_Size b then inl ErrBodyTooLarge
        else if hb_Blank b then inl ErrEmptyBody
        else
          match hb_Values b with
          | [] => inl (hb_End b)
          | v :: rest =>
              match decode_struct fields zero v with
              | inl e => inl e
              | inr x =>
                  match rest with
                  | [] =>
                      if bool_decide (hb_End b = Sentinel "io.EOF") then inr x else inl (hb_End b)
                  | AnyNil :: _ | AnyMap [] :: _ =>
                      inl (Errorf "request body must contain a single JSON value" [])
                  | AnyMap ((k, _) :: _) :: _ => inl (Errorf "json: unknown field %q" [AStr k])
                  | _ :: _ => inl (type_error "struct")
                  end
              end
          end
    end.

(** A field the handlers never read ([IdempotencyKey], [IfMatchVersion]). *)
Definition ignored_string : Any -> T -> Result T := string_field (fun _ x => x).
Definition ignored_int : Any -> T -> Result T := int_field (fun _ x => x).

End decode.

(** ** Contracts *)

Module Contracts.

Definition validateRequired (field value : string) : Result unit :=
  if str_eqb (TrimSpace value) "" then inl (Errorf "%s is required" [AStr field]) else inr tt.

(** [(?i)^[0-9a-f]{8}-[0-9a-f]{4}-[0-9a-f]{4}-[0-9a-f]{4}-[0-9a-f]{12}$]. *)
Fixpoint uuid_chars (i : nat) (s : string) : bool :=
  match s with
  | EmptyString => Nat.eqb i 36
  | String c s' =>
      (if existsb (Nat.eqb i) [8; 13; 18; 23]%nat
       then Ascii.eqb c (char_of 45)
       else is_hex_digit (ascii_lower c)) && uuid_chars (S i) s'
  end.

Definition validateUUID (field value : string) : Result unit :=
  if str_eqb (TrimSpace value) "" then inl (Errorf "%s is required" [AStr field])
  else if uuid_chars 0 value then inr tt
  else inl (Errorf "%s must be a valid UUID" [AStr field]).

(** [(?i)^[0-9a-f]{64}$]. *)
Definition validateSHA256Hex (field value : string) : Result unit :=
  if str_eqb (TrimSpace value) "" then inl (Errorf "%s is required" [AStr field])
  else if Nat.eqb (String.length value) 64 && all_chars (fun c => is_hex_digit (ascii_lower c)) value
  then inr tt
  else inl (Errorf "%s must be 64 hex characters" [AStr field]).

Record SubmitBody := mkSubmitBody { sb_RouteID : string; sb_ContentHash : string }.

Definition submit_fields : list (string * (Any -> SubmitBody -> Result SubmitBody)) :=
  [("route_id", string_field (fun s x => mkSubmitBody s (sb_ContentHash x)));
   ("IdempotencyKey", ignored_string);
   ("content_hash", string_field (fun s x => mkSubmitBody (sb_RouteID x) s))].

Definition SubmitRequest_Validate (r : SubmitBody) : Result unit :=
  check! validateUUID "route_id" (sb_RouteID r);
  validateSHA256Hex "content_hash" (sb_ContentHash r).

Record SignoffBody := mkSignoffBody {
  gb_Decision : string;
  gb_Reason : string;
  gb_Password : string;
  gb_ContentHash : string
}.

Definition zero_signoff : SignoffBody := mkSignoffBody "" "" "" "".

Definition signoff_members (password : string)
    : list (string * (Any -> SignoffBody -> Result SignoffBody)) :=
  [("decision", string_field (fun s x => mkSignoffBody s (gb_Reason x) (gb_Password x) (gb_ContentHash x)));
   ("reason", string_field (fun s x => mkSignoffBody (gb_Decision x) s (gb_Password x) (gb_ContentHash x)));
   (password, string_field (fun s x => mkSignoffBody (gb_Decision x) (gb_Reason x) s (gb_ContentHash x)));
   ("content_hash", string_field (fun s x => mkSignoffBody (gb_Decision x) (gb_Reason x) (gb_Password x) s))].

(** [contracts.SignoffRequest] and [docSignoffRequest]. *)
Definition signoff_fields := signoff_members "password_token" ++ [("IdempotencyKey", ignored_string)].
Definition doc_signoff_fields := signoff_members "password".

Definition is_decision (s : string) : bool := str_eqb s "approve" || str_eqb s "reject".

Definition SignoffRequest_Validate (r : SignoffBody) : Result unit :=
  if negb (is_decision (gb_Decision r)) then
    inl (Errorf "decision must be one of: approve, reject" [])
  else
    check! (if str_eqb (gb_Decision r) "reject" then validateRequired "reason" (gb_Reason r)
            else inr tt);
    check! validateRequired "password_token" (gb_Password r);
    validateSHA256Hex "content_hash" (gb_ContentHash r).

(** The checks of [SignoffByDocumentHandler]. *)
Definition doc_signoff_check (r : SignoffBody) : Result unit :=
  if negb (is_decision (gb_Decision r)) then
    inl (Errorf "decision must be one of: approve, reject" [])
  else if str_eqb (gb_Decision r) "reject" && str_eqb (TrimSpace (gb_Reason r)) "" then
    inl (Errorf "reason is required for reject" [])
  else if str_eqb (TrimSpace (gb_Password r)) "" then inl (Errorf "password is required" [])
  else inr tt.

(** [CancelRequest] and [ObsoleteRequest]: a reason. *)
Definition reason_fields : list (string * (Any -> string -> Result string)) :=
  [("reason", string_field (fun s _ => s)); ("IdempotencyKey", ignored_string);
   ("IfMatchVersion", ignored_int)].

Definition reason_Validate (reason : string) : Result unit := validateRequired "reason" reason.

(** [SupersedeRequest]: the superseded document. *)
Definition supersede_fields : list (string * (Any -> string -> Result string)) :=
  [("superseded_document_id", string_field (fun s _ => s)); ("IdempotencyKey", ignored_string);
   ("IfMatchVersion", ignored_int)].

Definition SupersedeRequest_Validate (id : string) : Result unit :=
  validateUUID "superseded_document_id" id.

(** *** Routes *)

Record StageRequest := mkStageRequest {
  sq_Order : Z;
  sq_Name : string;
  sq_RequiredRole : string;
  sq_RequiredCapability : string;
  sq_AreaCode : string;
  sq_Quorum : string;
  sq_QuorumM : option Z;
  sq_DriftPolicy : string
}.

Definition zero_stage : StageRequest := mkStageRequest 0 "" "" "" "" "" None "".

Definition stage_fields : list (string * (Any -> StageRequest -> Result StageRequest)) :=
  [("order", int_field (fun z x => mkStageRequest z (sq_Name x) (sq_RequiredRole x)
      (sq_RequiredCapability x) (sq_AreaCode x) (sq_Quorum x) (sq_QuorumM x) (sq_DriftPolicy x)));
   ("name", string_field (fun s x => mkStageRequest (sq_Order x) s (sq_RequiredRole x)
      (sq_RequiredCapability x) (sq_AreaCode x) (sq_Quorum x) (sq_QuorumM x) (sq_DriftPolicy x)));
   ("required_role", string_field (fun s x => mkStageRequest (sq_Order x) (sq_Name x) s
      (sq_RequiredCapability x) (sq_AreaCode x) (sq_Quorum x) (sq_QuorumM x) (sq_DriftPolicy x)));
   ("required_capability", string_field (fun s x => mkStageRequest (sq_Order x) (sq_Name x)
      (sq_RequiredRole x) s (sq_AreaCode x) (sq_Quorum x) (sq_QuorumM x) (sq_DriftPolicy x)));
   ("area_code", string_field (fun s x => mkStageRequest (sq_Order x) (sq_Name x)
      (sq_RequiredRole x) (sq_RequiredCapability x) s (sq_Quorum x) (sq_QuorumM x) (sq_DriftPolicy x)));
   ("quorum", string_field (fun s x => mkStageRequest (sq_Order x) (sq_Name x)
      (sq_RequiredRole x) (sq_RequiredCapability x) (sq_AreaCode x) s (sq_QuorumM x) (sq_DriftPolicy x)));
   ("quorum_m", int_ptr_field (fun m x => mkStageRequest (sq_Order x) (sq_Name x)
      (sq_RequiredRole x) (sq_RequiredCapability x) (sq_AreaCode x) (sq_Quorum x) m (sq_DriftPolicy x)));
   ("drift_policy", string_field (fun s x => mkStageRequest (sq_Order x) (sq_Name x)
      (sq_RequiredRole x) (sq_RequiredCapability x) (sq_AreaCode x) (sq_Quorum x) (sq_QuorumM x) s))].

Record RouteBody := mkRouteBody {
  rb_ProfileCode : string;
  rb_Name : string;
  rb_Stages : list StageRequest
}.

Definition zero_route : RouteBody := mkRouteBody "" "" [].

(** The elements of a slice, with the first error. *)
Fixpoint decode_stages (l : list Any) (saved : option Error) : Result (list StageRequest) :=
  match l with
  | [] => match saved with Some e => inl e | None => inr [] end
  | v :: rest =>
      match decode_struct stage_fields zero_stage v with
      | inl e => decode_stages rest (match saved with Some _ => saved | None => Some e end)
      | inr s =>
          match decode_stages rest saved with
          | inl e => inl e
          | inr ss => inr (s :: ss)
          end
      end
  end.

Definition stages_field (v : Any) (x : RouteBody) : Result RouteBody :=
  match v with
  | AnyNil => inr (mkRouteBody (rb_ProfileCode x) (rb_Name x) [])
  | AnySlice l =>
      match decode_stages l None with
      | inl e => inl e
      | inr ss => inr (mkRouteBody (rb_ProfileCode x) (rb_Name x) ss)
      end
  | _ => inl (type_error "[]contracts.StageRequest")
  end.

Definition update_route_fields : list (string * (Any -> RouteBody -> Result RouteBody)) :=
  [("name", string_field (fun s x => mkRouteBody (rb_ProfileCode x) s (rb_Stages x)));
   ("stages", stages_field); ("IdempotencyKey", ignored_string)].

Definition create_route_fields : list (string * (Any -> RouteBody -> Result RouteBody)) :=
  ("profile_code", string_field (fun s x => mkRouteBody s (rb_Name x) (rb_Stages x))) ::
  update_route_fields.

Definition stage_field (i : Z) (name : string) : string :=
  "stages[" +:+ Itoa i +:+ "]." +:+ name.

Definition validate_stage_quorum (i : Z) (s : StageRequest) : Result unit :=
  if str_eqb (sq_Quorum s) "any_1_of" || str_eqb (sq_Quorum s) "all_of" then
    match sq_QuorumM s with
    | Some _ => inl (Errorf "stages[%d].quorum_m must be omitted unless quorum is m_of_n" [AInt i])
    | None => inr tt
    end
  else if str_eqb (sq_Quorum s) "m_of_n" then
    match sq_QuorumM s with
    | None => inl (Errorf "stages[%d].quorum_m is required when quorum is m_of_n" [AInt i])
    | Some m => if m <? 1 then inl (Errorf "stages[%d].quorum_m must be >= 1" [AInt i]) else inr tt
    end
  else inl (Errorf "stages[%d].quorum must be one of: any_1_of, all_of, m_of_n" [AInt i]).

Definition is_drift_policy (s : string) : bool :=
  str_eqb s "reduce_quorum" || str_eqb s "fail_stage" || str_eqb s "keep_snapshot".

(** The loop of [validateStages] from index [i]. *)
Fixpoint validate_stages_from (i : Z) (seenNames : gset string) (stages : list StageRequest)
    : Result unit :=
  match stages with
  | [] => inr tt
  | s :: rest =>
      if negb (sq_Order s =? i + 1) then
        inl (Errorf "stages[%d].order must be %d" [AInt i; AInt (i + 1)])
      else
      check! validateRequired (stage_field i "name") (sq_Name s);
      if bool_decide (sq_Name s ∈ seenNames) then
        inl (Errorf "stages[%d].name duplicates an earlier stage" [AInt i])
      else
      check! validateRequired (stage_field i "required_role") (sq_RequiredRole s);
      check! validateRequired (stage_field i "required_capability") (sq_RequiredCapability s);
      check! validateRequired (stage_field i "area_code") (sq_AreaCode s);
      check! validate_stage_quorum i s;
      if is_drift_policy (sq_DriftPolicy s)
      then validate_stages_from (i + 1) ({[sq_Name s]} ∪ seenNames) rest
      else inl (Errorf
        "stages[%d].drift_policy must be one of: reduce_quorum, fail_stage, keep_snapshot" [AInt i])
  end.

Definition validateStages (stages : list StageRequest) : Result unit :=
  match stages with
  | [] => inl (Errorf "stages must contain at least one stage" [])
  | _ => validate_stages_from 0 ∅ stages
  end.

Definition CreateRouteRequest_Validate (r : RouteBody) : Result unit :=
  check! validateRequired "profile_code" (rb_ProfileCode r);
  check! validateRequired "name" (rb_Name r);
  validateStages (rb_Stages r).

Definition UpdateRouteRequest_Validate (r : RouteBody) : Result unit :=
  check! validateRequired "name" (rb_Name r);
  validateStages (rb_Stages r).

(** [mapStageRequests]. *)
Definition mapStageRequest (s : StageRequest) : Stage :=
  mkStage (sq_Order s) (sq_Name s) (sq_RequiredRole s) (sq_RequiredCapability s) (sq_AreaCode s)
    (QuorumPolicy_of (sq_Quorum s)) (sq_QuorumM s) (DriftPolicy_of (sq_DriftPolicy s)).

Definition mapStageRequests (stages : list StageRequest) : list Stage := mapStageRequest <$> stages.

End Contracts.

(** ** Parameters *)

(** [parseIfMatch]: the revision the client read; ["*"] is revision 0. *)
Definition parseIfMatch (header : string) : Result Z :=
  let value := TrimSpace header in
  if str_eqb value "" then inl ErrIfMatchRequired
  else if str_eqb value "*" then inr 0
  else
    let value := TrimQuotes value in
    if negb (HasPrefix value "v") then inl ErrIfMatchMalformed
    else
      match Atoi (TrimPrefix value "v") with
      | Some version => if version <? 0 then inl ErrIfMatchMalformed else inr version
      | None => inl ErrIfMatchMalformed
      end.

(** The entity tag of a revision. *)
Definition etag (version : Z) : string := quote_char +:+ "v" +:+ Itoa version +:+ quote_char.

Definition devTenantID : string := "ffffffff-ffff-ffff-ffff-ffffffffffff".

Definition tenantIDFromReq (r : Request) : string :=
  let t := TrimSpace (rq_Header r "X-Tenant-ID") in
  if str_eqb t "" then devTenantID else t.

Definition parseInboxLimit (raw : string) : Result Z :=
  if str_eqb (TrimSpace raw) "" then inr 25
  else
    match Atoi raw with
    | None => inl (Errorf "limit must be an integer" [])
    | Some v =>
        if (v <=? 0) || (100 <? v) then inl (Errorf "limit must be between 1 and 100" []) else inr v
    end.

Definition parseInboxOffset (raw : string) : Result Z :=
  if str_eqb (TrimSpace raw) "" then inr 0
  else
    match Atoi raw with
    | None => inl (Errorf "offset must be an integer" [])
    | Some v => if v <? 0 then inl (Errorf "offset must be >= 0" []) else inr v
    end.

(** ** The read service ([application/read_service.go]) *)

Module Read.

(** An error becomes [ErrNoActiveInstance] when it is [sql.ErrNoRows]. *)
Definition read_error (e : Error) : Error :=
  if errors_Is e ErrNoRows then ErrNoActiveInstance else e.

Definition LoadInstance (tenantID actorID instanceID : string) : M ApprovalInstance :=
  map_err (wrap "read load instance: begin tx: %w") BeginTx ;;
  inst ← or_rollback read_error (ApprovalRepo.LoadInstance tenantID instanceID);
  map_err (wrap "read load instance: commit tx: %w") Commit ;;
  mret inst.

Definition LoadActiveInstanceByDocument (tenantID documentID : string) : M ApprovalInstance :=
  map_err (wrap "read load instance by document: begin tx: %w") BeginTx ;;
  inst ← or_rollback read_error (ApprovalRepo.LoadActiveInstanceByDocument tenantID documentID);
  map_err (wrap "read load instance by document: commit tx: %w") Commit ;;
  mret inst.

(** The inbox query: instances in progress with an active stage the actor is
    eligible for ([eligible_actor_ids @> '[actor]']), in the area asked for. *)
Definition awaits (actorID areaCode instanceID : string) (s : StageInstance) : bool :=
  str_eqb (si_ApprovalInstanceID s) instanceID && is_active s &&
  existsb (str_eqb actorID) (si_EligibleActorIDs s) &&
  (str_eqb areaCode "" || str_eqb (si_AreaCodeSnapshot s) areaCode).

Definition pending_ids (tenantID actorID areaCode : string) (limit offset : Z) (db : DB)
    : list string :=
  take (Z.to_nat limit) (drop (Z.to_nat offset)
    (merge_sort stdpp.strings.String.le
       (ai_id <$> bfilter (fun i =>
          str_eqb (ai_tenant_id i) tenantID && bool_decide (ai_status i = InstanceInProgress) &&
          existsb (awaits actorID areaCode (ai_id i)) (approval_stage_instances db))
          (approval_instances db)))).

Fixpoint load_all (tenantID : string) (ids : list string) : M (list ApprovalInstance) :=
  match ids with
  | [] => mret []
  | id :: rest =>
      inst ← map_err (Wrapf "list pending: load instance %s: %w" [AStr id])
               (ApprovalRepo.LoadInstance tenantID id);
      others ← load_all tenantID rest;
      mret (inst :: others)
  end.

Definition ListPendingForActor (tenantID actorID areaCode : string) (limit offset : Z)
    : M (list ApprovalInstance) :=
  let limit := if limit <=? 0 then 25 else limit in
  map_err (wrap "list pending: begin tx: %w") BeginTx ;;
  ids ← or_rollback (wrap "list pending: query: %w")
          (query (pending_ids tenantID actorID areaCode limit offset));
  out ← or_rollback same (load_all tenantID ids);
  map_err (wrap "list pending: commit: %w") Commit ;;
  mret out.

End Read.

(** ** Handlers *)

(** The services a handler calls; [None] is a nil interface. *)
Record Handler := mkHandler {
  h_submitSvc : option (SubmitRequest -> M SubmitResult);
  h_decisionSvc : option (SignoffRequest -> M SignoffResult);
  h_readSvc : bool;
  h_routeCreate : option (CreateRouteInput -> M string);
  h_routeUpdate : option (UpdateRouteInput -> M (string * Z));
  h_routeDeactivate : option (string -> string -> string -> M string);
  h_cancel : option (CancelInput -> M string);
  h_publish : option (PublishRequest -> M (string * string));
  h_supersede : option (SupersedeRequest -> M (string * string));
  h_obsolete : option (MarkObsoleteRequest -> M string)
}.

(** [NewHandler] on a complete [Services]. *)
Definition NewHandler `{UnicodeNorm} (fi : option FreezeInvoker) (pd : option PDFDispatchInvoker)
    : Handler :=
  mkHandler (Some SubmitRevisionForReview) (Some (RecordSignoff fi pd)) true (Some Create)
    (Some Update) (Some Deactivate) (Some CancelInstance) (Some PublishApproved)
    (Some PublishSuperseding) (Some MarkObsolete).

Section handlers.
Context `{PgErrorText} (h : Handler).

Definition WriteError (err : Error) : Response :=
  let '(status, code, message) := MapErrorToResponse err in
  mkResponse status None (BodyError code message).

(** [x, err := m; if err != nil { WriteError; return }; k]. *)
Definition try {A} (m : M A) (k : A -> M Response) : M Response := fun w =>
  match m w with
  | (inl e, w') => (inr (WriteError e), w')
  | (inr a, w') => k a w'
  end.

Definition try_lift {A} (r : Result A) (k : A -> M Response) : M Response := try (lift r) k.

Definition fail (e : Error) : M Response := mret (WriteError e).

(** A service that may be missing. *)
Definition configured {A} (name : string) (svc : option A) (k : A -> M Response) : M Response :=
  match svc with
  | None => fail (Errorf (name +:+ " not configured") [])
  | Some f => k f
  end.

Definition require_idempotency_key (r : Request) (k : M Response) : M Response :=
  if str_eqb (TrimSpace (rq_Header r "Idempotency-Key")) "" then fail ErrIdempotencyRequired else k.

Definition SubmitHandler (r : Request) : M Response :=
  require_idempotency_key r (
  try_lift (parseIfMatch (rq_Header r "If-Match")) (fun expectedRevisionVersion =>
  try_lift (Decode Contracts.submit_fields (Contracts.mkSubmitBody "" "") (rq_Body r)) (fun body =>
  try_lift (Contracts.SubmitRequest_Validate body) (fun _ =>
  configured "submit service" (h_submitSvc h) (fun svc =>
  try (svc (mkSubmitRequest (tenantIDFromReq r) (rq_PathValue r "id") (Contracts.sb_RouteID body)
              (rq_UserID r) [("_content_hash", AnyString (Contracts.sb_ContentHash body))]
              expectedRevisionVersion)) (fun result =>
  let newETag := etag (wrap64 (expectedRevisionVersion + 1)) in
  mret (mkResponse StatusCreated (Some newETag)
          (BodyFields [("instance_id", AStr (sres_InstanceID result)); ("was_replay", ABool false);
                       ("etag", AStr newETag)])))))))).

Definition signoffOutcome (result : SignoffResult) : string :=
  if InstanceApproved_ result then "approved"
  else if InstanceRejected_ result then "rejected"
  else if StageCompleted_ result then "stage_completed"
  else "pending".

Definition signoff_request (r : Request) (instanceID stageID : string) (body : Contracts.SignoffBody)
    : SignoffRequest :=
  mkSignoffRequest (tenantIDFromReq r) instanceID stageID (rq_UserID r)
    (Contracts.gb_Decision body) (Contracts.gb_Reason body) "password_reauth"
    [("password_token", AnyString (Contracts.gb_Password body))]
    [("_content_hash", AnyString (Contracts.gb_ContentHash body))] [].

Definition signoff_response (result : SignoffResult) : Response :=
  mkResponse StatusOK None
    (BodyFields [("signoff_id", AStr ""); ("was_replay", ABool false);
                 ("outcome", AStr (signoffOutcome result))]).

Definition SignoffHandler (r : Request) : M Response :=
  require_idempotency_key r (
  try_lift (parseIfMatch (rq_Header r "If-Match")) (fun _ =>
  configured "decision service" (h_decisionSvc h) (fun svc =>
  try_lift (Decode Contracts.signoff_fields Contracts.zero_signoff (rq_Body r)) (fun body =>
  try_lift (Contracts.SignoffRequest_Validate body) (fun _ =>
  try (svc (signoff_request r (rq_PathValue r "instance_id") (rq_PathValue r "stage_id") body))
    (fun result => mret (signoff_response result))))))).

(** The read service as the handlers call it: [ErrNoActiveInstance] loses
    what wraps it. *)
Definition load_active (r : Request) (k : ApprovalInstance -> M Response) : M Response :=
  try (map_err (fun e => if errors_Is e ErrNoActiveInstance then ErrNoActiveInstance else e)
         (Read.LoadActiveInstanceByDocument (tenantIDFromReq r) (rq_PathValue r "id"))) k.

Definition SignoffByDocumentHandler (r : Request) : M Response :=
  require_idempotency_key r (
  configured "services" (if h_readSvc h then h_decisionSvc h else None) (fun svc =>
  try_lift (Decode Contracts.doc_signoff_fields Contracts.zero_signoff (rq_Body r)) (fun body =>
  try_lift (Contracts.doc_signoff_check body) (fun _ =>
  load_active r (fun inst =>
  match Active inst with
  | None => fail (Errorf "no active stage in this approval instance" [])
  | Some activeStage =>
      try (svc (signoff_request r (in_ID inst) (si_ID activeStage) body))
        (fun result => mret (signoff_response result))
  end))))).

Definition document_response (documentID : string) : Response :=
  mkResponse StatusOK None (BodyFields [("document_id", AStr documentID)]).

Definition CancelHandler (r : Request) : M Response :=
  require_idempotency_key r (
  try_lift (parseIfMatch (rq_Header r "If-Match")) (fun expectedRevisionVersion =>
  try_lift (Decode Contracts.reason_fields "" (rq_Body r)) (fun reason =>
  try_lift (Contracts.reason_Validate reason) (fun _ =>
  configured "cancel service" (h_cancel h) (fun svc =>
  try (svc (mkCancelInput (tenantIDFromReq r) (rq_PathValue r "instance_id")
              expectedRevisionVersion (rq_UserID r) reason false))
    (fun documentID => mret (document_response documentID))))))).

(** The expected revision is always 0. *)
Definition CancelByDocumentHandler (r : Request) : M Response :=
  require_idempotency_key r (
  configured "read service" (if h_readSvc h then Some tt else None) (fun _ =>
  try_lift (Decode Contracts.reason_fields "" (rq_Body r)) (fun reason =>
  try_lift (Contracts.reason_Validate reason) (fun _ =>
  load_active r (fun inst =>
  configured "cancel service" (h_cancel h) (fun svc =>
  try (svc (mkCancelInput (tenantIDFromReq r) (in_ID inst) 0 (rq_UserID r) reason false))
    (fun documentID => mret (document_response documentID)))))))).

Definition PublishHandler (r : Request) : M Response :=
  require_idempotency_key r (
  try_lift (parseIfMatch (rq_Header r "If-Match")) (fun _ =>
  try (Read.LoadActiveInstanceByDocument (tenantIDFromReq r) (rq_PathValue r "id")) (fun inst =>
  configured "publish service" (h_publish h) (fun svc =>
  try (svc (mkPublishRequest (tenantIDFromReq r) (in_ID inst) (rq_UserID r))) (fun result =>
  mret (mkResponse StatusOK None
          (BodyFields [("document_id", AStr (fst result)); ("new_status", AStr "published")]))))))).

(** [SELECT revision_version ...] on the pool, then the service. *)
Definition prior_revision (documentID tenantID : string) : M Z :=
  v ← pool_query (fun db => d_revision_version <$>
        select_one (doc_is documentID tenantID) (documents db));
  match v with Some z => mret z | None => throw ErrNoRows end.

Definition SupersedeHandler (r : Request) : M Response :=
  let tenantID := tenantIDFromReq r in
  require_idempotency_key r (
  try_lift (parseIfMatch (rq_Header r "If-Match")) (fun expectedRevisionVersion =>
  try_lift (Decode Contracts.supersede_fields "" (rq_Body r)) (fun supersededID =>
  try_lift (Contracts.SupersedeRequest_Validate supersededID) (fun _ =>
  try (prior_revision supersededID tenantID) (fun priorRevisionVersion =>
  configured "supersede service" (h_supersede h) (fun svc =>
  try (svc (mkSupersedeRequest tenantID (rq_PathValue r "id") supersededID (rq_UserID r)
              expectedRevisionVersion priorRevisionVersion)) (fun _ =>
  mret (mkResponse StatusOK None
          (BodyFields [("document_id", AStr (rq_PathValue r "id"));
                       ("superseded_id", AStr supersededID)]))))))))).

Definition ObsoleteHandler (r : Request) : M Response :=
  require_idempotency_key r (
  try_lift (parseIfMatch (rq_Header r "If-Match")) (fun expectedRevisionVersion =>
  try_lift (Decode Contracts.reason_fields "" (rq_Body r)) (fun reason =>
  try_lift (Contracts.reason_Validate reason) (fun _ =>
  configured "obsolete service" (h_obsolete h) (fun svc =>
  try (svc (mkMarkObsoleteRequest (tenantIDFromReq r) (rq_PathValue r "id") (rq_UserID r)
              expectedRevisionVersion reason))
    (fun _ => mret (document_response (rq_PathValue r "id")))))))).

(** *** Route administration *)

Definition CreateRouteHandler (r : Request) : M Response :=
  require_idempotency_key r (
  try_lift (Decode Contracts.create_route_fields Contracts.zero_route (rq_Body r)) (fun body =>
  try_lift (Contracts.CreateRouteRequest_Validate body) (fun _ =>
  configured "route admin service" (h_routeCreate h) (fun svc =>
  try (svc (mkCreateRouteInput (tenantIDFromReq r) (Contracts.rb_ProfileCode body)
              (Contracts.rb_Name body) (rq_UserID r)
              (Contracts.mapStageRequests (Contracts.rb_Stages body)))) (fun routeID =>
  mret (mkResponse StatusCreated None (BodyFields [("route_id", AStr routeID)]))))))).

Definition UpdateRouteHandler (r : Request) : M Response :=
  require_idempotency_key r (
  try_lift (parseIfMatch (rq_Header r "If-Match")) (fun _ =>
  try_lift (Decode Contracts.update_route_fields Contracts.zero_route (rq_Body r)) (fun body =>
  try_lift (Contracts.UpdateRouteRequest_Validate body) (fun _ =>
  configured "route admin service" (h_routeUpdate h) (fun svc =>
  try (svc (mkUpdateRouteInput (tenantIDFromReq r) (rq_PathValue r "id") (Contracts.rb_Name body)
              (rq_UserID r) (Contracts.mapStageRequests (Contracts.rb_Stages body)))) (fun result =>
  mret (mkResponse StatusOK None
          (BodyFields [("route_id", AStr (fst result)); ("new_version", AInt (snd result))])))))))).

Definition DeactivateRouteHandler (r : Request) : M Response :=
  require_idempotency_key r (
  try_lift (parseIfMatch (rq_Header r "If-Match")) (fun _ =>
  configured "route admin service" (h_routeDeactivate h) (fun svc =>
  try (svc (tenantIDFromReq r) (rq_PathValue r "id") (rq_UserID r)) (fun routeID =>
  mret (mkResponse StatusOK None (BodyFields [("route_id", AStr routeID)])))))).

(** *** Reads *)

Definition mapStageStatus (s : StageStatus) : string :=
  match s with
  | StageCompleted => "passed"
  | StageRejectedHere => "failed"
  | StageSkipped => "cancelled"
  | StagePending => "pending"
  | StageActive => "active"
  | StageCancelled => "cancelled"
  end.

Definition instance_status_text (s : InstanceStatus) : string :=
  match s with
  | InstanceInProgress => "in_progress"
  | InstanceApproved => "approved"
  | InstanceRejected => "rejected"
  | InstanceCancelled => "cancelled"
  end.

Definition mapInstanceResponse (inst : ApprovalInstance) : InstanceView :=
  mkInstanceView (in_ID inst) (in_DocumentID inst) (in_RouteID inst) (in_TenantID inst)
    (instance_status_text (in_Status inst)) (in_SubmittedBy inst)
    (format_RFC3339 (in_SubmittedAt inst)) (format_RFC3339 <$> in_CompletedAt inst)
    ((fun s => mkStageView (si_ID s) (si_StageOrder s) (si_NameSnapshot s)
                 (mapStageStatus (si_Status s))) <$> in_Stages inst).

Definition instance_response (inst : ApprovalInstance) : Response :=
  mkResponse StatusOK (Some (etag 1)) (BodyInstance (mapInstanceResponse inst)).

Definition GetInstanceHandler (r : Request) : M Response :=
  configured "read service" (if h_readSvc h then Some tt else None) (fun _ =>
  try (map_err (fun e => if errors_Is e ErrNoActiveInstance then ErrNoActiveInstance else e)
         (Read.LoadInstance (tenantIDFromReq r) (rq_UserID r) (rq_PathValue r "instance_id")))
    (fun inst => mret (instance_response inst))).

Definition GetInstanceByDocumentHandler (r : Request) : M Response :=
  configured "read service" (if h_readSvc h then Some tt else None) (fun _ =>
  load_active r (fun inst => mret (instance_response inst))).

Definition mapInboxItem (inst : ApprovalInstance) : InboxItem :=
  mkInboxItem (in_ID inst) (in_DocumentID inst) (in_SubmittedBy inst)
    (format_RFC3339 (in_SubmittedAt inst))
    (match Active inst with Some s => si_NameSnapshot s | None => "" end)
    (match Active inst with Some s => si_AreaCodeSnapshot s | None => "" end).

Definition InboxHandler (r : Request) : M Response :=
  try_lift (parseInboxLimit (rq_Query r "limit")) (fun limit =>
  try_lift (parseInboxOffset (rq_Query r "offset")) (fun offset =>
  configured "read service" (if h_readSvc h then Some tt else None) (fun _ =>
  try (Read.ListPendingForActor (tenantIDFromReq r) (rq_UserID r)
         (TrimSpace (rq_Query r "area_code")) limit offset) (fun items =>
  mret (mkResponse StatusOK None (BodyInbox (mapInboxItem <$> items))))))).

(** [RegisterRoutes], but for the two endpoints that are not modelled. *)
Inductive Endpoint :=
  | EpSubmit | EpSignoff | EpPublish | EpSupersede | EpObsolete | EpCancel
  | EpGetInstance | EpGetInstanceByDocument | EpInbox
  | EpSignoffByDocument | EpCancelByDocument
  | EpCreateRoute | EpUpdateRoute | EpDeactivateRoute.

Definition serve (ep : Endpoint) : Request -> M Response :=
  match ep with
  | EpSubmit => SubmitHandler
  | EpSignoff => SignoffHandler
  | EpPublish => PublishHandler
  | EpSupersede => SupersedeHandler
  | EpObsolete => ObsoleteHandler
  | EpCancel => CancelHandler
  | EpGetInstance => GetInstanceHandler
  | EpGetInstanceByDocument => GetInstanceByDocumentHandler
  | EpInbox => InboxHandler
  | EpSignoffByDocument => SignoffByDocumentHandler
  | EpCancelByDocument => CancelByDocumentHandler
  | EpCreateRoute => CreateRouteHandler
  | EpUpdateRoute => UpdateRouteHandler
  | EpDeactivateRoute => DeactivateRouteHandler
  end.

End handlers.
