(* ===== verification/HttpContracts.v ===== *)
(** * What the request contracts accept

    [http/contracts]: the routes the API accepts are exactly the valid routes
    of the domain whose fields are filled in and whose policies are known, and
    their stages meet the constraints of the database; entity tags round-trip
    through [If-Match]. *)
From S2P Require Import Prelude Text Tables ApprovalDomain ApprovalFacts Database Schema TxLogic Authz.
From S2P Require Import ApprovalRepo ContentHash RouteAdmin Scenario HttpErrors ApprovalHttp.
Import Routes Contracts.
Local Open Scope Z_scope.

(** ** Routes *)

(** [validateRequired] accepts the field. *)
Definition required (s : string) : Prop := TrimSpace s <> "".

(** What the contract asks of a stage on its own. *)
Record stage_filled (s : StageRequest) : Prop := {
  filled_name : required (sq_Name s);
  filled_role : required (sq_RequiredRole s);
  filled_capability : required (sq_RequiredCapability s);
  filled_area : required (sq_AreaCode s);
  known_quorum : sq_Quorum s ∈ ["any_1_of"; "all_of"; "m_of_n"];
  known_drift : sq_DriftPolicy s ∈ ["reduce_quorum"; "fail_stage"; "keep_snapshot"]
}.

Lemma validateRequired_ok f v : validateRequired f v = inr tt <-> required v.
Proof.
  unfold validateRequired, required. destruct (str_eqb (TrimSpace v) "") eqn:E.
  - apply str_eqb_true in E. naive_solver.
  - apply str_eqb_false in E. naive_solver.
Qed.

Lemma is_drift_policy_ok s :
  is_drift_policy s = true <-> s ∈ ["reduce_quorum"; "fail_stage"; "keep_snapshot"].
Proof. unfold is_drift_policy. rewrite !orb_true_iff, !str_eqb_true. set_solver. Qed.

Lemma quorum_known s :
  quorum_text_ok (QuorumPolicy_of s) = true <-> s ∈ ["any_1_of"; "all_of"; "m_of_n"].
Proof.
  unfold QuorumPolicy_of.
  repeat match goal with |- context [str_eqb s ?t] => destruct (str_eqb s t) eqn:? end; simpl;
    rewrite ?str_eqb_true, ?str_eqb_false in *; set_solver.
Qed.

Lemma drift_known s :
  drift_text_ok (DriftPolicy_of s) = true <->
  s ∈ ["reduce_quorum"; "fail_stage"; "keep_snapshot"].
Proof.
  unfold DriftPolicy_of.
  repeat match goal with |- context [str_eqb s ?t] => destruct (str_eqb s t) eqn:? end; simpl;
    rewrite ?str_eqb_true, ?str_eqb_false in *; set_solver.
Qed.

Lemma validate_stage_quorum_ok i s :
  validate_stage_quorum i s = inr tt <->
  check_quorum_m (mapStageRequest s) = inr tt /\ sq_Quorum s ∈ ["any_1_of"; "all_of"; "m_of_n"].
Proof.
  rewrite <- quorum_known, check_quorum_m_ok.
  unfold validate_stage_quorum, stage_quorum_ok, mapStageRequest, QuorumPolicy_of. simpl.
  destruct (str_eqb (sq_Quorum s) "any_1_of"); [by destruct (sq_QuorumM s); naive_solver|].
  destruct (str_eqb (sq_Quorum s) "all_of"); [by destruct (sq_QuorumM s); naive_solver|].
  destruct (str_eqb (sq_Quorum s) "m_of_n"); simpl; [|naive_solver].
  destruct (sq_QuorumM s) as [m|]; [|naive_solver]. destruct (Z.ltb_spec m 1); split; naive_solver lia.
Qed.

Lemma check_ok {A} (r : Result unit) (k : Result A) x :
  (check! r; k) = inr x <-> r = inr tt /\ k = inr x.
Proof. destruct r as [e|[]]; naive_solver. Qed.

Lemma refuse_ok {A} (b : bool) e (k : Result A) x :
  (if b then inl e else k) = inr x <-> b = false /\ k = inr x.
Proof. destruct b; naive_solver. Qed.

Lemma accept_ok {A} (b : bool) e (k : Result A) x :
  (if b then k else inl e) = inr x <-> b = true /\ k = inr x.
Proof. destruct b; naive_solver. Qed.

Lemma stage_filled_iff s :
  stage_filled s <->
  required (sq_Name s) /\ required (sq_RequiredRole s) /\ required (sq_RequiredCapability s) /\
  required (sq_AreaCode s) /\ sq_Quorum s ∈ ["any_1_of"; "all_of"; "m_of_n"] /\
  sq_DriftPolicy s ∈ ["reduce_quorum"; "fail_stage"; "keep_snapshot"].
Proof. split; [by intros []|by intros (?&?&?&?&?&?)]. Qed.

Lemma validate_from_cons i names s rest :
  validate_from i names (s :: rest) = inr tt <->
  (st_Order s =? i + 1) = true /\ check_quorum_m s = inr tt /\
  bool_decide (st_Name s ∈ names) = false /\
  validate_from (i + 1) ({[st_Name s]} ∪ names) rest = inr tt.
Proof.
  simpl. destruct (_ =? _); simpl; [|naive_solver].
  destruct (check_quorum_m s) as [e|[]]; [naive_solver|]. case_bool_decide; naive_solver.
Qed.

Lemma validate_stages_from_ok i names stages :
  validate_stages_from i names stages = inr tt <->
  validate_from i names (mapStageRequests stages) = inr tt /\ Forall stage_filled stages.
Proof.
  revert i names. induction stages as [|s stages IH]; intros i names.
  { split; [by repeat constructor|done]. }
  change (mapStageRequests (s :: stages)) with (mapStageRequest s :: mapStageRequests stages).
  rewrite validate_from_cons, Forall_cons, stage_filled_iff.
  cbn [validate_stages_from]. simpl st_Order. simpl st_Name.
  rewrite refuse_ok, check_ok, refuse_ok, !check_ok, accept_ok, IH, !validateRequired_ok,
    is_drift_policy_ok, validate_stage_quorum_ok, negb_false_iff.
  tauto.
Qed.

(** The routes the API accepts are the valid routes of the domain: the
    validation of [CreateRouteRequest] succeeds exactly when profile, name and
    every field of every stage are filled in, every policy is one the domain
    knows, and [Route.Validate] accepts the route the handler builds. *)
Theorem accepted_routes_are_domain_routes body id tenant :
  CreateRouteRequest_Validate body = inr tt <->
  required (rb_ProfileCode body) /\ required (rb_Name body) /\
  Forall stage_filled (rb_Stages body) /\
  Validate (mkRoute id tenant (rb_ProfileCode body) 1 (mapStageRequests (rb_Stages body))) = inr tt.
Proof.
  unfold CreateRouteRequest_Validate. rewrite !check_ok, !validateRequired_ok.
  unfold validateStages, Validate. simpl.
  destruct (rb_Stages body) as [|s l]; [naive_solver|]. simpl mapStageRequests.
  rewrite validate_stages_from_ok. simpl mapStageRequests. tauto.
Qed.

(** *** Storing the stages *)

(** The statements of [insertRouteStages], one after the other. *)
Fixpoint store_stages (id : string) (stages : list Stage) (db : DB) : Result DB :=
  match stages with
  | [] => inr db
  | st :: rest =>
      match insert_route_stage id st db with
      | inl e => inl e
      | inr db' => store_stages id rest db'
      end
  end.

(** The numbers fit the INT columns. *)
Definition fits_int4 (s : StageRequest) : Prop :=
  sq_Order s <= int4_max /\ default 0 (sq_QuorumM s) <= int4_max.

(** No stage of the route stands at order [i] or above. *)
Definition free_from (id : string) (i : Z) (db : DB) : Prop :=
  Forall (fun x => ars_route_id x = id -> st_Order (ars_stage x) < i) (approval_route_stages db).

Lemma insert_accepted_stage id i names s rest db :
  validate_from i names (mapStageRequest s :: mapStageRequests rest) = inr tt ->
  stage_filled s -> fits_int4 s -> 0 <= i -> free_from id (i + 1) db ->
  existsb (fun x => str_eqb (ar_id x) id) (approval_routes db) = true ->
  insert_route_stage id (mapStageRequest s) db =
    inr (set_routes (approval_routes db)
           (approval_route_stages db ++ [mkRouteStageRow id (mapStageRequest s)]) db).
Proof.
  intros (Ho & Hq & _ & _)%validate_from_cons Hfill [Hn1 Hn2] Hi Hfree Hroute.
  apply Z.eqb_eq in Ho. simpl in Ho. apply check_quorum_m_ok in Hq. unfold stage_quorum_ok in Hq.
  pose proof (proj2 (quorum_known _) (known_quorum _ Hfill)) as Hk1.
  pose proof (proj2 (drift_known _) (known_drift _ Hfill)) as Hk2.
  unfold insert_route_stage, constraint. simpl in *. rewrite Hk1, Hk2, Hroute.
  destruct (Z.leb_spec (sq_Order s) int4_max); [|lia].
  destruct (Z.leb_spec (default 0 (sq_QuorumM s)) int4_max); [|lia].
  destruct (Z.leb_spec 1 (sq_Order s)); [|lia]. simpl.
  assert (existsb (fun x => str_eqb (ars_route_id x) id && (st_Order (ars_stage x) =? sq_Order s))
            (approval_route_stages db) = false) as ->.
  { apply not_true_iff_false. intros (x & Hin & Hx)%existsb_true_elem.
    apply andb_true_iff in Hx as [Hid%str_eqb_true Heq%Z.eqb_eq].
    unfold free_from in Hfree. rewrite Forall_forall in Hfree. specialize (Hfree x Hin Hid). lia. }
  destruct (QuorumPolicy_of (sq_Quorum s)), (sq_QuorumM s) as [m|]; try done.
  by destruct (Z.leb_spec 1 m); [|lia].
Qed.

Lemma store_accepted_stages id i names stages db :
  validate_from i names (mapStageRequests stages) = inr tt -> Forall stage_filled stages ->
  Forall fits_int4 stages -> 0 <= i -> free_from id (i + 1) db ->
  existsb (fun x => str_eqb (ar_id x) id) (approval_routes db) = true ->
  exists db', store_stages id (mapStageRequests stages) db = inr db' /\
    approval_route_stages db' =
      approval_route_stages db ++ (mkRouteStageRow id <$> mapStageRequests stages).
Proof.
  revert i names db. induction stages as [|s stages IH]; intros i names db Hv Hf Hn Hi Hfree Hr.
  { exists db. split; [done|]. by rewrite app_nil_r. }
  inversion Hf as [|?? Hf1 Hf2]; inversion Hn as [|?? Hn1 Hn2]; subst.
  simpl store_stages. erewrite insert_accepted_stage by eauto.
  apply validate_from_cons in Hv as (Ho & _ & _ & Hv). apply Z.eqb_eq in Ho. simpl in Ho.
  edestruct (IH (i + 1) ({[sq_Name s]} ∪ names) (set_routes (approval_routes db)
      (approval_route_stages db ++ [mkRouteStageRow id (mapStageRequest s)]) db))
    as (db' & Hs & Hrows); [exact Hv|done..|lia| |done|].
  - apply Forall_app. split; [|repeat constructor; simpl; lia].
    eapply Forall_impl; [exact Hfree|]. simpl. intros x Hx Heq. specialize (Hx Heq). lia.
  - exists db'. split; [done|]. rewrite Hrows. simpl. by rewrite <- app_assoc.
Qed.

(** What the API accepts the database stores: the stages of an accepted
    route, inserted one after the other under a new route, violate no
    constraint and appear as they were sent, provided their numbers fit an
    INT column (the contract does not check that). *)
Theorem accepted_stages_are_stored body id db
  (Haccepted : UpdateRouteRequest_Validate body = inr tt)
  (Hint : Forall fits_int4 (rb_Stages body))
  (Hroute : existsb (fun x => str_eqb (ar_id x) id) (approval_routes db) = true)
  (Hnew : Forall (fun x => ars_route_id x <> id) (approval_route_stages db)) :
  exists db', store_stages id (mapStageRequests (rb_Stages body)) db = inr db' /\
    approval_route_stages db' =
      approval_route_stages db ++ (mkRouteStageRow id <$> mapStageRequests (rb_Stages body)).
Proof.
  unfold UpdateRouteRequest_Validate in Haccepted. apply check_ok in Haccepted as [_ H].
  unfold validateStages in H. destruct (rb_Stages body) as [|s l] eqn:E; [done|].
  rewrite <- E in *. apply validate_stages_from_ok in H as [H1 H2].
  apply (store_accepted_stages id 0 ∅); try done.
  eapply Forall_impl; [exact Hnew|]. simpl. congruence.
Qed.

Definition demo_stage_request (order : Z) (name quorum : string) (m : option Z) : StageRequest :=
  mkStageRequest order name "approver" "doc.signoff" "quality" quorum m "keep_snapshot".

Definition demo_route_body : RouteBody :=
  mkRouteBody "sop" "SOP approval"
    [demo_stage_request 1 "review" "all_of" None; demo_stage_request 2 "release" "m_of_n" (Some 2)].

Lemma accepted_stages_are_stored_witness :
  exists db', store_stages "route" (mapStageRequests (rb_Stages demo_route_body)) (demo_db []) = inr db' /\
    approval_route_stages db' =
      approval_route_stages (demo_db []) ++
      (mkRouteStageRow "route" <$> mapStageRequests (rb_Stages demo_route_body)).
Proof.
  apply accepted_stages_are_stored; [vm_compute; reflexivity| |reflexivity|by constructor].
  apply Forall_forall. intros s Hs. unfold fits_int4, int4_max.
  apply list_elem_of_In in Hs as [<-|[<-|[]]]; simpl; lia.
Defined.

(** ** Entity tags *)

Definition etag_inner (v : Z) : string := "v" +:+ Itoa v.

Lemma last_digit z : 0 <= z -> exists d s, is_digit d /\ rev_string (Itoa z) = String d s.
Proof.
  intros Hz. destruct (Itoa_digits z Hz) as (_ & Hd & Hne).
  destruct (rev_string (Itoa z)) as [|d s] eqn:E.
  { destruct Hne. by rewrite <- (rev_string_involutive (Itoa z)), E. }
  exists d, s. split; [|done].
  assert (d ∈ String.list_ascii_of_string (rev_string (Itoa z))) as Hin by (rewrite E; left).
  unfold rev_string in Hin. rewrite String.list_ascii_of_string_of_list_ascii in Hin.
  rewrite Forall_forall in Hd. apply Hd. apply list_elem_of_In, in_rev. by apply list_elem_of_In.
Qed.

Lemma TrimSpace_etag v : 0 <= v -> TrimSpace (etag v) = etag v.
Proof.
  intros Hv. unfold TrimSpace, trim. rewrite (strip_left_stop _ spaces) by done.
  rewrite strip_left_stop; [apply rev_string_involutive|].
  unfold etag. by rewrite !rev_string_app.
Qed.

Lemma TrimQuotes_etag v : 0 <= v -> TrimQuotes (etag v) = etag_inner v.
Proof.
  intros Hv. unfold TrimQuotes, trim.
  assert (strip_left (String.length (etag v)) [quote_char] (etag v) =
          "v" +:+ Itoa v +:+ quote_char) as -> by done.
  rewrite !rev_string_app. destruct (last_digit v Hv) as (d & s & Hd & Hs).
  simpl String.length. cbn [strip_left]. rewrite Hs. simpl List.find. cbv iota.
  rewrite strip_left_stop.
  - simpl drop_chars.
    change ("" +:+ String d s) with (String d s). rewrite <- Hs, <- rev_string_app.
    apply rev_string_involutive.
  - change (rev_string quote_char) with (String (char_of 34) "").
    change (drop_chars _ _) with (String d (s +:+ rev_string "v")). cbn [List.find fmap list_fmap].
    change (rev_string quote_char) with (String (char_of 34) "").
    rewrite prefix_other; [done|]. intros <-. by destruct (is_digit_not (char_of 34) (char_of 34)).
Qed.

(** C40 Entity tags round-trip: the tag a response carries, sent back in
    [If-Match], is read as the revision it was made from. *)
Theorem if_match_reads_etag v (Hv : 0 <= v < 2 ^ 63) : parseIfMatch (etag v) = inr v.
Proof.
  unfold parseIfMatch. rewrite TrimSpace_etag, TrimQuotes_etag by lia.
  assert (str_eqb (etag v) "" = false) as -> by done.
  assert (str_eqb (etag v) "*" = false) as -> by done.
  assert (TrimPrefix (etag_inner v) "v" = Itoa v) as -> by (unfold etag_inner; by destruct (Itoa v)).
  assert (HasPrefix (etag_inner v) "v" = true) as -> by (unfold etag_inner; by destruct (Itoa v)).
  simpl. rewrite Atoi_Itoa by done. by destruct (Z.ltb_spec v 0); [lia|].
Qed.

Lemma if_match_reads_etag_witness : parseIfMatch (etag 42) = inr 42.
Proof. apply (if_match_reads_etag 42). lia. Defined.
