(* ===== verification/HttpFacts.v ===== *)
(** * What the HTTP API of the approval module guarantees

    Responses tell the truth about the database, entity tags round-trip,
    validated routes are valid; and what the endpoints cannot do. *)
From S2P Require Import Prelude Text Tables ApprovalDomain ApprovalFacts Database Schema TxLogic Authz.
From S2P Require Import ApprovalRepo Evolve Sha256 ContentHash Submit Decision Cancel Publish RouteAdmin Lifecycle.
From S2P Require Import Scenario Consistency Guarantees Outcomes HttpErrors ApprovalHttp HttpContracts.
From stdpp Require Import pretty.

Import DocStates Routes Signoffs Instances Contracts.
Local Open Scope Z_scope.

(** ** Statuses of errors *)

Lemma first_case_status err cases s c :
  Forall (fun x => 400 <= fst (snd x)) cases -> first_case err cases = Some (s, c) -> 400 <= s.
Proof.
  unfold first_case. intros HF H. apply fmap_Some in H as ([e [s' c']] & Hf & [= -> ->]).
  apply List.find_some in Hf as [Hin _]. apply list_elem_of_In in Hin.
  rewrite Forall_forall in HF. by apply (HF _ Hin).
Qed.

Lemma error_case_status `{PgErrorText} err : 400 <= fst (error_case err).
Proof.
  unfold error_case. destruct (first_case err sentinel_cases) as [[s c]|] eqn:E1.
  { eapply first_case_status; [|exact E1].
    apply (bool_decide_unpack _). vm_compute. exact I. }
  destruct (errors_As_CapabilityDenied err); [simpl; unfold StatusForbidden; lia|].
  destruct (first_case err default_cases) as [[s c]|] eqn:E2.
  { eapply first_case_status; [|exact E2].
    apply (bool_decide_unpack _). vm_compute. exact I. }
  destruct (looksLikeValidationError err); simpl;
    unfold StatusBadRequest, StatusInternalServerError; lia.
Qed.

Lemma WriteError_status `{PgErrorText} err : 400 <= rs_Status (WriteError err).
Proof.
  unfold WriteError, MapErrorToResponse. pose proof (error_case_status err) as H0.
  by destruct (error_case err).
Qed.

(** ** A logic of handlers

    A handler always answers and leaves no transaction open. Its answer is
    either a success, or an error, and then nothing has changed and an internal
    error says nothing of its cause. *)
Definition succeeds (resp : Response) : Prop := rs_Status resp = 200 \/ rs_Status resp = 201.

Definition refuses (resp : Response) : Prop :=
  400 <= rs_Status resp /\
  exists code message, rs_Body resp = BodyError code message /\
    (500 <= rs_Status resp -> message = internalErrorMessage).

Definition answers (m : M Response) : Prop :=
  forall w, w_tx w = None ->
    exists resp w', m w = (inr resp, w') /\ w_tx w' = None /\
      (succeeds resp \/ refuses resp /\ w_db w' = w_db w).

Lemma WriteError_refuses `{PgErrorText} err : refuses (WriteError err).
Proof.
  split; [apply WriteError_status|]. unfold WriteError, MapErrorToResponse.
  destruct (error_case err) as [s c]. eexists _, _. split; [done|]. simpl. intros Hs.
  unfold responseMessage, StatusInternalServerError. destruct (Z.leb_spec 500 s); [done|lia].
Qed.

Definition read_only {A} (m : M A) : Prop :=
  forall w, w_tx w = None -> w_tx (snd (m w)) = None /\ w_db (snd (m w)) = w_db w.

Section rules.
Context `{PgErrorText}.

Lemma answers_ret resp : succeeds resp -> answers (mret resp).
Proof. intros Hs w Ht. exists resp, w. auto. Qed.

Lemma answers_fail e : answers (fail e).
Proof. intros w Ht. exists (WriteError e), w. auto using WriteError_refuses. Qed.

(** A service that writes is the last one called. *)
Lemma answers_try_last {A} (m : M A) (k : A -> Response) :
  transactional m -> (forall a, succeeds (k a)) -> answers (try m (fun a => mret (k a))).
Proof.
  intros Hm Hk w Ht. unfold try. specialize (Hm (w_db w) w (conj Ht eq_refl)).
  destruct (m w) as [[e|a] w']; simpl in Hm.
  - destruct Hm as [H1 H2]. eexists _, w'. auto using WriteError_refuses.
  - exists (k a), w'. auto.
Qed.

Lemma answers_try_read {A} (m : M A) k :
  read_only m -> (forall a, answers (k a)) -> answers (try m k).
Proof.
  intros Hm Hk w Ht. unfold try. specialize (Hm w Ht).
  destruct (m w) as [[e|a] w']; simpl in Hm; destruct Hm as [H1 H2].
  - eexists _, w'. auto using WriteError_refuses.
  - destruct (Hk a w' H1) as (resp & w2 & E & H3 & H4). exists resp, w2.
    split_and!; [done|done|]. rewrite <- H2. auto.
Qed.

Lemma answers_try_lift {A} (r : Result A) k :
  (forall a, r = inr a -> answers (k a)) -> answers (try_lift r k).
Proof.
  intros Hk w Ht. unfold try_lift, try, lift. destruct r as [e|a]; [|by apply Hk].
  by apply (answers_fail e).
Qed.

Lemma answers_configured {A} name (svc : option A) k :
  (forall a, svc = Some a -> answers (k a)) -> answers (configured name svc k).
Proof. intros Hk. destruct svc as [a|]; simpl; [by apply Hk|apply answers_fail]. Qed.

Lemma answers_idempotency r k : answers k -> answers (require_idempotency_key r k).
Proof. intros Hk. unfold require_idempotency_key. case_match; [apply answers_fail|done]. Qed.

End rules.

(** ** The read service writes nothing *)

Lemma read_only_of {A} (m : M A) :
  evolves eq m -> (forall w, w_tx w = None -> w_tx (snd (m w)) = None) -> read_only m.
Proof.
  intros He Ht w Hw. split; [by apply Ht|]. symmetry. apply He. intros tx Htx. congruence.
Qed.

Lemma transactional_idle {A} (m : M A) :
  transactional m -> forall w, w_tx w = None -> w_tx (snd (m w)) = None.
Proof.
  intros Hm w Hw. specialize (Hm (w_db w) w (conj Hw eq_refl)).
  destruct (m w) as [[e|a] w']; [apply Hm|done].
Qed.

Lemma phases_LoadActive t d : phases Within (ApprovalRepo.LoadActiveInstanceByDocument t d) Within Within.
Proof. unfold ApprovalRepo.LoadActiveInstanceByDocument. phases_tac. Qed.
Lemma phases_load_all t ids : phases Within (Read.load_all t ids) Within Within.
Proof. induction ids; simpl; phases_tac. Qed.
#[export] Hint Resolve phases_LoadActive phases_load_all : phases.

Lemma transactional_read_LoadInstance t a i : transactional (Read.LoadInstance t a i).
Proof. unfold Read.LoadInstance. phases_tac. Qed.
Lemma transactional_read_LoadActive t d : transactional (Read.LoadActiveInstanceByDocument t d).
Proof. unfold Read.LoadActiveInstanceByDocument. phases_tac. Qed.
Lemma transactional_ListPending t a c l o : transactional (Read.ListPendingForActor t a c l o).
Proof. unfold Read.ListPendingForActor. phases_tac. Qed.

Lemma eq_LoadInstance t i : evolves eq (ApprovalRepo.LoadInstance t i).
Proof. unfold ApprovalRepo.LoadInstance, loadStageInstances. evolves_tac. Qed.
Lemma eq_LoadActive t d : evolves eq (ApprovalRepo.LoadActiveInstanceByDocument t d).
Proof. unfold ApprovalRepo.LoadActiveInstanceByDocument, loadStageInstances. evolves_tac. Qed.
#[export] Hint Resolve eq_LoadInstance eq_LoadActive : evolves.
Lemma eq_load_all t ids : evolves eq (Read.load_all t ids).
Proof. induction ids; simpl; evolves_tac. Qed.
#[export] Hint Resolve eq_load_all : evolves.

Lemma read_only_LoadInstance t a i : read_only (Read.LoadInstance t a i).
Proof.
  apply read_only_of; [unfold Read.LoadInstance; evolves_tac|].
  apply transactional_idle, transactional_read_LoadInstance.
Qed.
Lemma read_only_LoadActive t d : read_only (Read.LoadActiveInstanceByDocument t d).
Proof.
  apply read_only_of; [unfold Read.LoadActiveInstanceByDocument; evolves_tac|].
  apply transactional_idle, transactional_read_LoadActive.
Qed.
Lemma read_only_ListPending t a c l o : read_only (Read.ListPendingForActor t a c l o).
Proof.
  apply read_only_of; [unfold Read.ListPendingForActor; evolves_tac|].
  apply transactional_idle, transactional_ListPending.
Qed.

Lemma read_only_map_err {A} f (m : M A) : read_only m -> read_only (map_err f m).
Proof. intros Hm w Hw. specialize (Hm w Hw). unfold map_err. by destruct (m w) as [[e|a] w']. Qed.

Lemma read_only_prior_revision d t : read_only (prior_revision d t).
Proof.
  intros w Hw. unfold prior_revision, mbind, M_bind, pool_query. destruct (next_fault w); [done|].
  by destruct (_ <$> _).
Qed.

#[export] Hint Resolve read_only_LoadInstance read_only_LoadActive read_only_ListPending
  read_only_map_err read_only_prior_revision : metaldocs.

(** ** Responses tell the truth *)

Create HintDb answers.
#[export] Hint Resolve answers_ret answers_fail answers_idempotency : answers.
#[export] Hint Resolve phases_submit phases_CancelInstance phases_PublishApproved
  phases_PublishSuperseding phases_MarkObsolete phases_Create phases_Update phases_Deactivate
  : answers.

(** Peels a handler: validation, the read service, then the last service. *)
Ltac answers_tac :=
  repeat first
    [ apply answers_idempotency
    | apply answers_try_lift; intros
    | apply answers_configured; intros ? ?; simplify_eq/=
    | match goal with |- answers (match ?x with _ => _ end) => destruct x end
    | apply answers_fail
    | apply answers_try_last; [solve [eauto with answers phases]|intros; solve [left + right; done]]
    | apply answers_try_read; [solve [auto with metaldocs]|intros]
    | apply answers_ret; solve [left + right; done] ].

Section truth.
Context `{PgErrorText} `{UnicodeNorm} (fi : option FreezeInvoker) (pd : option PDFDispatchInvoker).

Lemma serve_answers ep r : lawful fi pd -> answers (serve (NewHandler fi pd) ep r).
Proof.
  intros [Hf Hp]. pose proof (phases_RecordSignoff fi pd Hf Hp) as Hsign.
  destruct ep; simpl;
    unfold SubmitHandler, SignoffHandler, PublishHandler, SupersedeHandler, ObsoleteHandler,
      CancelHandler, GetInstanceHandler, GetInstanceByDocumentHandler, InboxHandler,
      SignoffByDocumentHandler, CancelByDocumentHandler, CreateRouteHandler, UpdateRouteHandler,
      DeactivateRouteHandler, load_active; simpl; answers_tac.
Qed.


End truth.

(** ** What a successful response tells *)

Section success.
Context `{PgErrorText}.

Lemma WriteError_not_success err : ~ succeeds (WriteError err).
Proof. pose proof (WriteError_status err). unfold succeeds. lia. Qed.

Lemma fail_success e w resp w' : fail e w = (inr resp, w') -> succeeds resp -> False.
Proof. intros [= <- <-] Hs. by apply WriteError_not_success in Hs. Qed.

Lemma try_success {A} (m : M A) k w resp w' :
  try m k w = (inr resp, w') -> succeeds resp ->
  exists a w1, m w = (inr a, w1) /\ k a w1 = (inr resp, w').
Proof.
  unfold try. destruct (m w) as [[e|a] w1]; intros Hk Hs; [|eauto].
  injection Hk as <- <-. by apply WriteError_not_success in Hs.
Qed.

Lemma try_lift_success {A} (r : Result A) k w resp w' :
  try_lift r k w = (inr resp, w') -> succeeds resp ->
  exists a, r = inr a /\ k a w = (inr resp, w').
Proof.
  intros Hr Hs. apply try_success in Hr as (a & w1 & Hl & Hk); [|done].
  apply lift_ok in Hl as [-> ->]. eauto.
Qed.

Lemma configured_success {A} name (svc : option A) k w resp w' :
  configured name svc k w = (inr resp, w') -> succeeds resp ->
  exists a, svc = Some a /\ k a w = (inr resp, w').
Proof. intros Hc Hs. destruct svc as [a|]; [eauto|]. by apply fail_success in Hc. Qed.

Lemma idempotency_success r k w resp w' :
  require_idempotency_key r k w = (inr resp, w') -> succeeds resp -> k w = (inr resp, w').
Proof. unfold require_idempotency_key. case_match; [|done]. intros Hf Hs. by apply fail_success in Hf. Qed.

End success.

(** Takes a successful handler apart, step by step. *)
Ltac success_inv Hs :=
  repeat match goal with
  | H : require_idempotency_key _ _ _ = (inr _, _) |- _ => apply idempotency_success in H; [|exact Hs]
  | H : try_lift _ _ _ = (inr _, _) |- _ =>
      apply try_lift_success in H as (? & ? & H); [|exact Hs]
  | H : configured _ _ _ _ = (inr _, _) |- _ =>
      apply configured_success in H as (? & ? & H); [|exact Hs]
  | H : load_active _ _ _ = (inr _, _) |- _ => unfold load_active in H
  | H : try _ _ _ = (inr _, _) |- _ =>
      apply try_success in H as (? & ? & ? & H); [|exact Hs]
  end.

(** The read service leaves the world as the handler found it. *)
Lemma read_ok {A} (m : M A) w a w' :
  read_only m -> w_tx w = None -> m w = (inr a, w') -> w_tx w' = None /\ w_db w' = w_db w.
Proof. intros Hm Ht E. specialize (Hm w Ht). by rewrite E in Hm. Qed.

Section limits.
Context `{PgErrorText} `{UnicodeNorm} (fi : option FreezeInvoker) (pd : option PDFDispatchInvoker).

Lemma cancel_by_document_success r w resp w' :
  w_tx w = None ->
  CancelByDocumentHandler (NewHandler fi pd) r w = (inr resp, w') -> succeeds resp ->
  exists d, d ∈ documents (w_db w) /\ d_status d = StateUnderReview /\ d_revision_version d = 0.
Proof.
  unfold CancelByDocumentHandler. intros Ht Hh Hs. success_inv Hs. simplify_eq/=.
  match goal with Hr : map_err _ _ w = _ |- _ => apply read_ok in Hr as [Ht1 Hdb]; auto with metaldocs end.
  match goal with Hi : CancelInstance _ _ = _ |- _ => apply cancel_ok in Hi as [Hc _] end.
  destruct Hc as (row & at_ & docs & g & evs & _ & _ & _ & _ & Hn & _).
  rewrite Hdb in Hn. apply bcount_exists in Hn as (d & Hd & Hcond). exists d.
  unfold cancel_cond, doc_has_status, doc_has_revision in Hcond. simpl in Hcond.
  bool_to_prop. split_and!; [done..|]. by apply Z.eqb_eq.
Qed.

(** The endpoint that cancels by document never cancels: it expects
    revision 0, and no document under review has that revision. Every request
    to it is refused and changes nothing. *)
Theorem cancel_by_document_never_cancels r w
  (Hlaws : lawful fi pd) (Hidle : w_tx w = None)
  (Hrev : forall d, d ∈ documents (w_db w) -> d_status d = StateUnderReview ->
            d_revision_version d <> 0) :
  exists resp w', serve (NewHandler fi pd) EpCancelByDocument r w = (inr resp, w') /\
    refuses resp /\ w_db w' = w_db w.
Proof.
  destruct (serve_answers fi pd EpCancelByDocument r Hlaws w Hidle) as (resp & w' & E & _ & [Hs|Hf]).
  - destruct (cancel_by_document_success r w resp w' Hidle E Hs) as (d & Hd & H1 & H2).
    by destruct (Hrev d Hd H1).
  - by exists resp, w'.
Qed.

(** The JSON text of the payload both sign-off endpoints build. *)
Definition password_payload (password : string) : string :=
  "{" +:+ json_string "password_token" +:+ ":" +:+ json_string password +:+ "}".

(** The body the two sign-off endpoints read. *)
Definition signoff_body (ep : Endpoint) (r : Request) : Result SignoffBody :=
  Decode (match ep with EpSignoff => signoff_fields | _ => doc_signoff_fields end)
    zero_signoff (rq_Body r).

Lemma marshal_password s : marshalSignaturePayload [("password_token", AnyString s)] =
  inr (password_payload s).
Proof.
  unfold marshalSignaturePayload, password_payload. simpl. unfold NFC_String.
  by rewrite string_app_nil, !string_app_assoc.
Qed.

(** A recorded vote of a request an endpoint built. *)
Definition vote_with_password (r : Request) (body : SignoffBody) (db db' : DB) : Prop :=
  exists vote, approval_signoffs db' = approval_signoffs db ++ [vote] /\
    so_ActorUserID vote = rq_UserID r /\ so_Decision vote = Decision_of (gb_Decision body) /\
    so_SignaturePayload vote = Some (password_payload (gb_Password body)).

Lemma signoff_with_password r i s body w res w' :
  lawful fi pd -> RecordSignoff fi pd (signoff_request r i s body) w = (inr res, w') ->
  vote_with_password r body (w_db w) (w_db w') \/
  approval_signoffs (w_db w') = approval_signoffs (w_db w).
Proof.
  intros [Hf Hp] Hr. apply (RecordSignoff_ok fi pd Hf Hp) in Hr as [_ [Hr|[_ [evs ->]]]]; [|by right].
  left. destruct Hr as (row & a & v & evs & db2 & (_ & _ & _ & _ & _ & _ & _ & _ & _ & V3 & V4 & p &
    Hm & Hpay) & Hv%stage_evaluated_signoffs & ev & ->).
  exists v. split_and!; [done..|]. rewrite Hpay. f_equal.
  cbn [signoff_request sg_SignaturePayload] in Hm. rewrite marshal_password in Hm. congruence.
Qed.

(** Signing off stores the password: a successful sign-off, through either
    endpoint, either adds no vote or adds one vote of the caller whose stored
    signature is the password of the request in clear. *)
Theorem signoff_endpoints_store_the_password ep r w resp w'
  (Hlaws : lawful fi pd) (Hidle : w_tx w = None)
  (Hep : ep = EpSignoff \/ ep = EpSignoffByDocument)
  (Hserve : serve (NewHandler fi pd) ep r w = (inr resp, w')) (Hs : succeeds resp) :
  exists body, signoff_body ep r = inr body /\
    (vote_with_password r body (w_db w) (w_db w') \/
     approval_signoffs (w_db w') = approval_signoffs (w_db w)).
Proof.
  destruct Hep as [-> | ->]; simpl in Hserve.
  - unfold SignoffHandler in Hserve. success_inv Hs. simplify_eq/=.
    match goal with Hr : RecordSignoff _ _ _ _ = _ |- _ =>
      apply signoff_with_password in Hr; [|done] end.
    apply ret_ok in Hserve as [_ <-]. eauto.
  - unfold SignoffByDocumentHandler in Hserve. success_inv Hs. case_match; [|by apply fail_success in Hserve].
    success_inv Hs. simplify_eq/=.
    match goal with Hr : map_err _ _ w = _ |- _ =>
      apply read_ok in Hr as [_ Hdb]; auto with metaldocs end.
    match goal with Hr : RecordSignoff _ _ _ _ = _ |- _ =>
      apply signoff_with_password in Hr; [|done]; rewrite Hdb in Hr end.
    apply ret_ok in Hserve as [_ <-]. eauto.
Qed.

End limits.

(** ** Requests on the scenario *)

#[local] Instance demo_pg_text : PgErrorText := fun code constraint message => message.

Definition json_body (members : list (string * Any)) : HttpBody :=
  mkHttpBody (Some "application/json") None 200 false [AnyMap members] (Sentinel "io.EOF").

(** A request of [user] of tenant acme, with a path value for every name. *)
Definition demo_request (user path ifMatch : string) (body : HttpBody) : Request :=
  mkRequest
    (fun k => if str_eqb k "X-Tenant-ID" then "acme"
              else if str_eqb k "Idempotency-Key" then "key-1"
              else if str_eqb k "If-Match" then ifMatch else "")
    (fun name => if str_eqb name "stage_id" then "" else path)
    (fun _ => "") user body.

Definition demo_endpoint (ep : Endpoint) (r : Request) (w : World) : option Z * World :=
  match serve (NewHandler (Some noopFreezeInvoker) None) ep r w with
  | (inr resp, w') => (Some (rs_Status resp), w')
  | (inl _, w') => (None, w')
  end.

Definition demo_hash : string := sha256_hex "Procedure".

Definition demo_signoff : Request :=
  demo_request "bob" "uuid-0" "*"
    (json_body [("decision", AnyString "approve"); ("reason", AnyString "");
                ("password_token", AnyString "s3cret"); ("content_hash", AnyString demo_hash)]).

Example http_signoff :
  fst (demo_endpoint EpSignoff demo_signoff w_submitted) = Some 200.
Proof. vm_compute. reflexivity. Qed.


Lemma cancel_by_document_never_cancels_witness :
  let r := demo_request "max" "doc-1" "" (json_body [("reason", AnyString "mistake")]) in
  exists resp w',
    serve (NewHandler (Some noopFreezeInvoker) None) EpCancelByDocument r w_submitted = (inr resp, w') /\
    refuses resp /\ w_db w' = w_db w_submitted.
Proof.
  intros r. apply (cancel_by_document_never_cancels (Some noopFreezeInvoker) None);
    [apply demo_lawful|vm_compute; reflexivity|].
  apply (proj1 (Forall_forall (fun d => d_status d = StateUnderReview -> d_revision_version d <> 0) _)).
  apply (bool_decide_unpack _). vm_compute. exact I.
Defined.

Lemma signoff_endpoints_store_the_password_witness :
  exists body, signoff_body EpSignoff demo_signoff = inr body /\
    (vote_with_password demo_signoff body (w_db w_submitted)
       (w_db (snd (demo_endpoint EpSignoff demo_signoff w_submitted))) \/
     approval_signoffs (w_db (snd (demo_endpoint EpSignoff demo_signoff w_submitted))) =
     approval_signoffs (w_db w_submitted)).
Proof.
  destruct (serve (NewHandler (Some noopFreezeInvoker) None) EpSignoff demo_signoff w_submitted)
    as [[e|resp] w'] eqn:E; [vm_compute in E; discriminate E|].
  apply (signoff_endpoints_store_the_password (Some noopFreezeInvoker) None EpSignoff demo_signoff
           w_submitted resp).
  - apply demo_lawful.
  - vm_compute. reflexivity.
  - by left.
  - unfold demo_endpoint. by rewrite E.
  - vm_compute in E. injection E as <- _. left. reflexivity.
Defined.

(** * The inbox

    The inbox lists the approvals waiting for a user by the list of eligible
    actors of their active stage. Submission stores an empty list and nothing
    fills it later: over every history the inbox of every user is empty. *)

Import DocStates Routes Signoffs Instances.
Local Open Scope Z_scope.

(** No stage of any approval has an eligible actor. *)
Definition unassigned (db : DB) : Prop :=
  Forall (fun s => si_EligibleActorIDs s = []) (approval_stage_instances db).

Lemma unassigned_tables db db' :
  approval_stage_instances db' = approval_stage_instances db -> unassigned db -> unassigned db'.
Proof. unfold unassigned. by intros ->. Qed.

Lemma unassigned_map f db db' :
  (forall s, si_EligibleActorIDs (f s) = si_EligibleActorIDs s) ->
  approval_stage_instances db' = f <$> approval_stage_instances db ->
  unassigned db -> unassigned db'.
Proof.
  unfold unassigned. intros Hf -> H. apply Forall_fmap. eapply Forall_impl; [exact H|].
  intros s Hs. simpl. by rewrite Hf.
Qed.

Lemma mark_stage_eligible t i new old now db s :
  si_EligibleActorIDs (mark_stage t i new old now db s) = si_EligibleActorIDs s.
Proof. unfold mark_stage. by destruct (stage_matches _ _ _ _ _). Qed.

#[export] Instance unassigned_event_blind : EventBlind (keeps unassigned).
Proof. intros evs db. exact (unassigned_tables _ _ eq_refl). Qed.
#[export] Instance unassigned_route_blind : RouteBlind (keeps unassigned).
Proof. intros rows stages db. exact (unassigned_tables _ _ eq_refl). Qed.

Lemma unassigned_documents cond upd : stmt_evolves (keeps unassigned) (update_documents cond upd).
Proof.
  intros g now db n db' Hu. destruct (update_documents_ok _ _ _ _ _ _ _ Hu) as (docs & -> & _).
  exact (unassigned_tables _ _ eq_refl).
Qed.

Lemma unassigned_cancel_instances d : stmt_evolves (keeps unassigned) (cancel_instances_of d).
Proof.
  intros g now db n db' Hu. apply update_instances_ok in Hu as [-> _].
  exact (unassigned_tables _ _ eq_refl).
Qed.

Lemma unassigned_evaluated req a inst db db' res :
  stage_evaluated req a inst db db' res -> unassigned db -> unassigned db'.
Proof.
  intros (votes & _ & Heval) H. destruct (decision_outcome a votes).
  - by destruct Heval as [-> _].
  - destruct Heval as (now & adv & inst' & _ & _ & _ &
      [(_ & _ & _ & E & _)|(_ & _ & _ & _ & E)]).
    + revert H. eapply unassigned_map; [|exact E]. intros s. apply mark_stage_eligible.
    + destruct (Active inst') as [next|].
      * destruct E as [now' E]. revert H. rewrite <- list_fmap_compose in E.
        eapply unassigned_map; [|exact E]. intros s. simpl. by rewrite !mark_stage_eligible.
      * revert H. eapply unassigned_map; [|exact E]. intros s. apply mark_stage_eligible.
  - destruct Heval as (now & c & _ & _ & _ & _ & _ & E). revert H.
    eapply unassigned_map; [|exact E]. intros s. apply mark_stage_eligible.
Qed.

Section inbox.
Context {UN : UnicodeNorm} (fi : option FreezeInvoker) (pd : option PDFDispatchInvoker)
  (Hf : freeze_lawful fi) (Hp : dispatch_lawful pd).

Lemma unassigned_blind_call c :
  match c with CallSubmit _ | CallSignoff _ | CallCancel _ => True
  | _ => evolves (keeps unassigned) (run_call fi pd c) end.
Proof.
  destruct c; try exact I; (apply evolves_bind; [tc_solve| |intros; apply evolves_ret; tc_solve]);
    eauto using evolves_SchedulePublish, evolves_Create, evolves_Update, evolves_Deactivate,
      evolves_PublishApproved, evolves_PublishSuperseding, evolves_MarkObsolete,
      evolves_RunDuePublishes, unassigned_documents, unassigned_cancel_instances
      with typeclass_instances.
Qed.

Lemma unassigned_call c w :
  w_tx w = None -> unassigned (w_db w) -> unassigned (w_db (snd (run_call fi pd c w))).
Proof.
  intros Ht H. pose proof (unassigned_blind_call c) as Hblind.
  assert (Hblind' : evolves (keeps unassigned) (run_call fi pd c) ->
            unassigned (w_db (snd (run_call fi pd c w)))).
  { intros He. apply He; [|done]. intros tx Htx. congruence. }
  destruct c; try (by apply Hblind'); clear Hblind Hblind';
    match goal with |- unassigned (w_db (snd (run_call _ _ ?c _))) =>
      destruct (run_call fi pd c w) as [[e|u] w'] eqn:Hr; simpl in *;
        [by rewrite (failed_call_keeps fi pd Hf Hp c w e w')|]
    end; apply void_ok in Hr as [res Hr].
  - apply submit_ok in Hr as [(row & ids & now & docs & evs & g & _ & _ & _ & _ & _ & _ & _ & _ & _ &
      _ & _ & _ & E & _) _].
    unfold unassigned. rewrite E. apply Forall_app. split; [exact H|]. apply Forall_fmap.
    apply Forall_forall. intros s Hs. simpl.
    by eapply submitted_stages_have_no_eligible_actors.
  - apply (RecordSignoff_ok fi pd Hf Hp) in Hr as [_ [Hr|[_ [evs ->]]]]; [|done].
    destruct Hr as (row & a & vote & evs & db2 & _ & Heval & ev & ->).
    by apply unassigned_evaluated in Heval.
  - apply cancel_ok in Hr as [(row & c & docs & g & evs & _ & _ & _ & _ & _ & _ & _ & E & _) _].
    revert H. eapply unassigned_map; [|exact E]. intros s. simpl. by destruct (is_open_stage _ _).
Qed.

Lemma unassigned_history db db' : history fi pd db db' -> unassigned db -> unassigned db'.
Proof.
  induction 1 as [db|db1 db2 db3 Hs _ IH]; [done|]. intros H. apply IH.
  destruct Hs as [c w <- Ht|db2 He]; [by apply unassigned_call|].
  revert H. by apply unassigned_tables, env_stages.
Qed.

(** The inbox query finds nothing. *)
Lemma pending_ids_unassigned t a c l o db : unassigned db -> Read.pending_ids t a c l o db = [].
Proof.
  intros H. unfold Read.pending_ids.
  assert (bfilter (fun i => str_eqb (ai_tenant_id i) t &&
            bool_decide (ai_status i = InstanceInProgress) &&
            existsb (Read.awaits a c (ai_id i)) (approval_stage_instances db))
            (approval_instances db) = []) as ->.
  { apply bfilter_none. intros i _. apply andb_false_iff. right. apply not_true_iff_false.
    intros (s & Hin & Hs)%existsb_true_elem. unfold unassigned in H. rewrite Forall_forall in H.
    unfold Read.awaits in Hs. rewrite (H s Hin), andb_false_r in Hs. discriminate. }
  by destruct (Z.to_nat o), (Z.to_nat l).
Qed.

Lemma ListPending_unassigned t a c l o w out w' :
  w_tx w = None -> unassigned (w_db w) -> Read.ListPendingForActor t a c l o w = (inr out, w') ->
  out = [].
Proof.
  unfold Read.ListPendingForActor. intros Ht Hu H. svc_inv.
  match goal with Hids : _ = Read.pending_ids _ _ _ _ _ _ |- _ =>
    rewrite pending_ids_unassigned in Hids by done; subst end.
  match goal with Hl : Read.load_all _ [] _ = _ |- _ => simpl in Hl; by apply ret_ok in Hl as [<- _] end.
Qed.

(** The inbox is always empty: starting from empty approval tables, after
    any history of calls, whoever asks, for whatever area and page, a
    successful answer of the inbox endpoint lists nothing. *)
Theorem inbox_is_always_empty `{PgErrorText} db0 r w resp w'
  (Hstart : approval_stage_instances db0 = []) (Hh : history fi pd db0 (w_db w))
  (Hidle : w_tx w = None)
  (Hserve : serve (NewHandler fi pd) EpInbox r w = (inr resp, w')) (Hs : succeeds resp) :
  rs_Body resp = BodyInbox [].
Proof.
  assert (Hu : unassigned (w_db w)).
  { apply (unassigned_history db0); [done|]. unfold unassigned. rewrite Hstart. constructor. }
  simpl in Hserve. unfold InboxHandler in Hserve. success_inv Hs.
  match goal with Hl : Read.ListPendingForActor _ _ _ _ _ _ = _ |- _ =>
    apply ListPending_unassigned in Hl; [subst|done..] end.
  by apply ret_ok in Hserve as [<- _].
Qed.

End inbox.

#[local] Existing Instance demo_pg_text.

(** An approval is in progress in the scenario; the inbox of its approver is
    empty all the same. *)
Lemma inbox_is_always_empty_witness :
  let r := demo_request "bob" "" "" (json_body []) in
  rs_Body (match fst (serve (NewHandler (Some noopFreezeInvoker) None) EpInbox r w_submitted) with
           | inr resp => resp | inl _ => mkResponse 0 None (BodyFields []) end) = BodyInbox [].
Proof.
  intros r. apply (inbox_is_always_empty (Some noopFreezeInvoker) None (proj1 demo_lawful)
    (proj2 demo_lawful) (w_db w0) r w_submitted _
    (snd (serve (NewHandler (Some noopFreezeInvoker) None) EpInbox r w_submitted))).
  - reflexivity.
  - apply (run_calls_history [CallSubmit (submit_req "doc-1")] w0 eq_refl).
  - vm_compute. reflexivity.
  - vm_compute. reflexivity.
  - vm_compute. left. reflexivity.
Defined.
