(* ===== verification/TemplateDomain.v ===== *)
(** * Templates: the domain

    [internal/modules/templates_v2/domain] and the validation of placeholders
    of [application/schema.go] and [application/visibility_graph.go]: templates,
    their versions and the status machine of a version, segregation of duties,
    placeholder schemas and the search for cycles in their visibility
    conditions. *)
From S2P Require Import Prelude Tables ApprovalDomain ContentHash.
From Stdlib Require Import QArith Ascii.
Local Open Scope Z_scope.

(** ** Errors *)

Definition ErrISOSegregationViolation : Error := Sentinel "templates_v2.ErrISOSegregationViolation".
Definition ErrForbidden : Error := Sentinel "templates_v2.ErrForbidden".
Definition ErrForbiddenRole : Error := Sentinel "templates_v2.ErrForbiddenRole".
Definition ErrUploadMissing : Error := Sentinel "templates_v2.ErrUploadMissing".
Definition ErrInvalidApprovalConfig : Error := Sentinel "templates_v2.ErrInvalidApprovalConfig".
Definition ErrPlaceholderIDEmpty : Error := Sentinel "templates_v2.ErrPlaceholderIDEmpty".
Definition ErrDuplicatePlaceholderID : Error := Sentinel "templates_v2.ErrDuplicatePlaceholderID".
Definition ErrPlaceholderNameInvalid : Error := Sentinel "templates_v2.ErrPlaceholderNameInvalid".
Definition ErrDuplicatePlaceholderName : Error := Sentinel "templates_v2.ErrDuplicatePlaceholderName".
Definition ErrInvalidConstraint : Error := Sentinel "templates_v2.ErrInvalidConstraint".
Definition ErrPlaceholderCycle : Error := Sentinel "templates_v2.ErrPlaceholderCycle".
Definition ErrUnknownResolver : Error := Sentinel "templates_v2.ErrUnknownResolver".
Definition ErrPlaceholderNotInCatalog : Error := Sentinel "templates_v2.ErrPlaceholderNotInCatalog".
Definition ErrPlaceholderNotComputed : Error := Sentinel "templates_v2.ErrPlaceholderNotComputed".
Definition ErrNotFound : Error := Sentinel "templates_v2.ErrNotFound".
Definition ErrKeyConflict : Error := Sentinel "templates_v2.ErrKeyConflict".
Definition ErrInvalidVisibility : Error := Sentinel "templates_v2.ErrInvalidVisibility".
Definition ErrArchived : Error := Sentinel "templates_v2.ErrArchived".
Definition ErrInvalidStateTransition : Error := Sentinel "templates_v2.ErrInvalidStateTransition".
Definition ErrTemplateContentHashMismatch : Error := Sentinel "templates_v2.ErrContentHashMismatch".
Definition ErrStaleBase : Error := Sentinel "templates_v2.ErrStaleBase".

(** ** Data *)

(** Slices of strings: an empty and a nil slice are both []. *)
Record MetadataSchema := mkMetadataSchema {
  ms_DocCodePattern : string;
  ms_RetentionDays : Z;
  ms_DistributionDefault : list string;
  ms_RequiredMetadata : list string
}.

Inductive PlaceholderType :=
  | PHText | PHDate | PHNumber | PHSelect | PHUser | PHPicture | PHComputed
  | PHOther (s : string).

#[export] Instance PlaceholderType_eq_dec : EqDecision PlaceholderType.
Proof. solve_decision. Defined.

Record VisibilityCondition := mkVisibilityCondition {
  vc_PlaceholderID : string;
  vc_Op : string;
  vc_Value : Any
}.

(** A [float64] decoded from JSON is finite, hence a rational. *)
Record Placeholder := mkPlaceholder {
  ph_ID : string;
  ph_Name : string;
  ph_Label : string;
  ph_Type : PlaceholderType;
  ph_Required : bool;
  ph_Default : Any;
  ph_Options : list string;
  ph_Regex : option string;
  ph_MinNumber : option Q;
  ph_MaxNumber : option Q;
  ph_MinDate : option string;
  ph_MaxDate : option string;
  ph_MaxLength : option Z;
  ph_VisibleIf : option VisibilityCondition;
  ph_Computed : bool;
  ph_ResolverKey : option string
}.

Inductive VersionStatus :=
  | VersionStatusDraft | VersionStatusInReview | VersionStatusApproved
  | VersionStatusPublished | VersionStatusObsolete.

#[export] Instance VersionStatus_eq_dec : EqDecision VersionStatus.
Proof. solve_decision. Defined.

Record TemplateVersion := mkTemplateVersion {
  tv_ID : string;
  tv_TemplateID : string;
  tv_VersionNumber : Z;
  tv_Status : VersionStatus;
  tv_DocxStorageKey : string;
  tv_ContentHash : string;
  tv_MetadataSchema : MetadataSchema;
  tv_PlaceholderSchema : list Placeholder;
  tv_AuthorID : string;
  tv_PendingReviewerRole : option string;
  tv_PendingApproverRole : string;
  tv_ReviewerID : option string;
  tv_ApproverID : option string;
  tv_SubmittedAt : option Time;
  tv_ReviewedAt : option Time;
  tv_ApprovedAt : option Time;
  tv_PublishedAt : option Time;
  tv_ObsoletedAt : option Time;
  tv_CreatedAt : Time
}.

Inductive Visibility :=
  | VisibilityPublic | VisibilityInternal | VisibilitySpecific | VisibilityOther (s : string).

#[export] Instance Visibility_eq_dec : EqDecision Visibility.
Proof. solve_decision. Defined.

Record Template := mkTemplate {
  te_ID : string;
  te_TenantID : string;
  te_DocTypeCode : string;
  te_Key : string;
  te_Name : string;
  te_Description : string;
  te_Areas : list string;
  te_Visibility : Visibility;
  te_SpecificAreas : list string;
  te_LatestVersion : Z;
  te_PublishedVersionID : option string;
  te_CreatedBy : string;
  te_CreatedAt : Time;
  te_ArchivedAt : option Time
}.

Definition IsArchived (t : Template) : bool :=
  match te_ArchivedAt t with Some _ => true | None => false end.

Record ApprovalConfig := mkApprovalConfig {
  ac_TemplateID : string;
  ac_ReviewerRole : option string;
  ac_ApproverRole : string
}.

Definition HasReviewer (c : ApprovalConfig) : bool :=
  match ac_ReviewerRole c with Some r => negb (str_eqb r "") | None => false end.

Inductive AuditAction :=
  | AuditCreated | AuditSaved | AuditSubmitted | AuditReviewed | AuditApproved | AuditRejected
  | AuditPublished | AuditObsoleted | AuditArchived | AuditRestored | AuditApprovalConfigUpdated.

Record AuditEvent := mkAuditEvent {
  au_TenantID : string;
  au_TemplateID : string;
  au_VersionID : option string;
  au_ActorID : string;
  au_Action : AuditAction;
  au_OccurredAt : Time
}.

(** ** Status machine and segregation of duties *)

Definition CanTransition (v : TemplateVersion) (next : VersionStatus) (hasReviewer : bool)
    : Result unit :=
  match tv_Status v, next with
  | VersionStatusDraft, VersionStatusInReview
  | VersionStatusInReview, VersionStatusDraft => inr tt
  | VersionStatusInReview, VersionStatusApproved =>
      if hasReviewer then inr tt else inl ErrInvalidStateTransition
  | VersionStatusInReview, VersionStatusPublished =>
      if hasReviewer then inl ErrInvalidStateTransition else inr tt
  | VersionStatusApproved, (VersionStatusPublished | VersionStatusDraft)
  | VersionStatusPublished, VersionStatusObsolete => inr tt
  | _, _ => inl ErrInvalidStateTransition
  end.

Definition CheckSegregation (role actorID authorID : string) (reviewerID : option string)
    : Result unit :=
  if str_eqb role "reviewer" then
    if str_eqb actorID authorID then inl ErrISOSegregationViolation else inr tt
  else if str_eqb role "approver" then
    if str_eqb actorID authorID then inl ErrISOSegregationViolation
    else match reviewerID with
         | Some r => if str_eqb actorID r then inl ErrISOSegregationViolation else inr tt
         | None => inr tt
         end
  else inl ErrForbiddenRole.

Definition containsRole (roles : list string) (role : string) : bool := existsb (str_eqb role) roles.

Definition isValidVisibility (v : Visibility) : bool :=
  match v with VisibilityOther _ => false | _ => true end.

(** ** Visibility conditions: [application/visibility_graph.go] *)

Inductive node := nodeWhite | nodeGray | nodeBlack.

Definition placeholdersByID (phs : list Placeholder) : gmap string Placeholder :=
  foldl (fun m p => <[ph_ID p := p]> m) ∅ phs.

(** [color[id]]: a missing key reads as the zero value, white. *)
Definition color_of (color : gmap string node) (id : string) : node :=
  default nodeWhite (color !! id).

Section visit.
Context (byID : gmap string Placeholder).

Definition visible_if (id : string) : option string :=
  p ← byID !! id; vc_PlaceholderID <$> ph_VisibleIf p.

(** The recursive closure [visit]; [None] is out of fuel. The colours are
    only used after a visit that succeeded. *)
Fixpoint visit (fuel : nat) (color : gmap string node) (id : string) (stack : list string)
    : option (Result (gmap string node)) :=
  match fuel with
  | O => None
  | S fuel =>
      match color_of color id with
      | nodeGray =>
          Some (inl (Wrapf "visibility cycle: %s: %w"
            [AStr (String.concat " -> " (stack ++ [id]))] ErrPlaceholderCycle))
      | nodeBlack => Some (inr color)
      | nodeWhite =>
          let color := <[id := nodeGray]> color in
          match visible_if id with
          | None => Some (inr (<[id := nodeBlack]> color))
          | Some depID =>
              match byID !! depID with
              | None =>
                  Some (inl (Wrapf "placeholder[%s] unknown visibility dependency %q: %w"
                    [AStr id; AStr depID] ErrInvalidConstraint))
              | Some _ =>
                  match visit fuel color depID (stack ++ [id]) with
                  | Some (inr color') => Some (inr (<[id := nodeBlack]> color'))
                  | r => r
                  end
              end
          end
      end
  end.

(** The loop over the placeholders. *)
Fixpoint visit_all (fuel : nat) (color : gmap string node) (phs : list Placeholder)
    : option (Result unit) :=
  match phs with
  | [] => Some (inr tt)
  | p :: rest =>
      match color_of color (ph_ID p) with
      | nodeWhite =>
          match visit fuel color (ph_ID p) [] with
          | Some (inr color') => visit_all fuel color' rest
          | Some (inl e) => Some (inl e)
          | None => None
          end
      | _ => visit_all fuel color rest
      end
  end.
End visit.

(** Not an error of the program: see [DetectVisibilityCycle_total]. *)
Definition out_of_fuel : Error := Sentinel "model.out_of_fuel".

(** One more call than there are placeholders: each nested call has coloured
    another of them. *)
Definition DetectVisibilityCycle (phs : list Placeholder) : Result unit :=
  let byID := placeholdersByID phs in
  default (inl out_of_fuel) (visit_all byID (S (size byID)) ∅ phs).

(** ** Placeholder schemas: [application/schema.go] *)

Definition is_lower (c : Ascii.ascii) : bool := let n := Ascii.N_of_ascii c in ((97 <=? n) && (n <=? 122))%N.
Definition is_digit (c : Ascii.ascii) : bool := let n := Ascii.N_of_ascii c in ((48 <=? n) && (n <=? 57))%N.

(** [^[a-z][a-z0-9_]{0,49}$] *)
Definition placeholderNameRe (s : string) : bool :=
  match s with
  | String c rest =>
      is_lower c && Signoffs.all_chars (fun c => is_lower c || is_digit c || Ascii.eqb c "_"%char) rest
      && (String.length rest <=? 49)%nat
  | EmptyString => false
  end.

Definition placeholderCatalogSet : list string :=
  ["doc_code"; "doc_title"; "revision_number"; "author"; "effective_date"; "approvers";
   "controlled_by_area"].

Definition digit_of (c : Ascii.ascii) : option Z :=
  if is_digit c then Some (Z.of_N (Ascii.N_of_ascii c) - 48) else None.

Definition isLeap (year : Z) : bool :=
  (year mod 4 =? 0) && (negb (year mod 100 =? 0) || (year mod 400 =? 0)).

Definition daysIn (month year : Z) : Z :=
  if month =? 2 then (if isLeap year then 29 else 28)
  else if existsb (Z.eqb month) [4; 6; 9; 11] then 30 else 31.

(** [time.Parse] with layout [2006-01-02]: four digits, a month and a day of
    two digits each, nothing after. The year, month and day. *)
Definition parse_date (s : string) : option (Z * Z * Z) :=
  match s with
  | String y1 (String y2 (String y3 (String y4 (String "-"%char (String m1 (String m2
      (String "-"%char (String d1 (String d2 EmptyString))))))))) =>
      y1 ← digit_of y1; y2 ← digit_of y2; y3 ← digit_of y3; y4 ← digit_of y4;
      m1 ← digit_of m1; m2 ← digit_of m2; d1 ← digit_of d1; d2 ← digit_of d2;
      let year := 1000 * y1 + 100 * y2 + 10 * y3 + y4 in
      let month := 10 * m1 + m2 in
      let day := 10 * d1 + d2 in
      if (month <=? 0) || (12 <? month) then None
      else if (day <? 1) || (daysIn month year <? day) then None
      else Some (year, month, day)
  | _ => None
  end.

(** The syntax [regexp.Compile] accepts. *)
Class RegexpSyntax := { regexp_Compile : string -> bool }.

(** [*p > *q] when both are set. *)
Definition exceeds {A} (gt : A -> A -> bool) (p q : option A) : bool :=
  match p, q with Some a, Some b => gt a b | _, _ => false end.

Definition string_gt (a b : string) : bool := String.ltb b a.
Definition Q_gt (a b : Q) : bool := negb (Qle_bool a b).

Definition fails {A} (bad : A -> bool) (p : option A) : bool :=
  match p with Some a => bad a | None => false end.

Definition constraint_error (fmt : string) (p : Placeholder) : Error :=
  Wrapf fmt [AStr (ph_ID p)] ErrInvalidConstraint.

Section schemas.
Context `{RegexpSyntax}.

(** The checks of one placeholder that look at nothing but it: the name... *)
Definition validate_name (p : Placeholder) : Result unit :=
  if negb (existsb (str_eqb (ph_Name p)) placeholderCatalogSet) then
    inl (Wrapf "placeholder[%s] name %q: %w" [AStr (ph_ID p); AStr (ph_Name p)]
           ErrPlaceholderNotInCatalog)
  else if negb (bool_decide (ph_Type p = PHComputed))
          || negb (bool_decide (ph_ResolverKey p = Some (ph_Name p))) then
    inl (Wrapf "placeholder[%s] %q: %w" [AStr (ph_ID p); AStr (ph_Name p)]
           ErrPlaceholderNotComputed)
  else inr tt.

(** ... and the constraints. *)
Definition validate_constraints (p : Placeholder) : Result unit :=
  if fails (fun r => negb (regexp_Compile r)) (ph_Regex p) then
    inl (constraint_error "placeholder[%s] regex: %w" p)
  else if exceeds Q_gt (ph_MinNumber p) (ph_MaxNumber p) then
    inl (constraint_error "placeholder[%s] min_number greater than max_number: %w" p)
  else if fails (fun d => negb (bool_decide (is_Some (parse_date d)))) (ph_MinDate p) then
    inl (constraint_error "placeholder[%s] min_date invalid: %w" p)
  else if fails (fun d => negb (bool_decide (is_Some (parse_date d)))) (ph_MaxDate p) then
    inl (constraint_error "placeholder[%s] max_date invalid: %w" p)
  else if exceeds string_gt (ph_MinDate p) (ph_MaxDate p) then
    inl (constraint_error "placeholder[%s] min_date greater than max_date: %w" p)
  else if fails (fun n => n <=? 0) (ph_MaxLength p) then
    inl (constraint_error "placeholder[%s] max_length must be positive: %w" p)
  else if ph_Computed p && str_eqb (default "" (ph_ResolverKey p)) "" then
    inl (constraint_error "placeholder[%s] computed requires resolver_key: %w" p)
  else inr tt.

(** The loop, with the identifiers and names seen so far. *)
Fixpoint validate_loop (i : Z) (seen seenNames : list string) (phs : list Placeholder)
    : Result unit :=
  match phs with
  | [] => inr tt
  | p :: rest =>
      if str_eqb (ph_ID p) "" then
        inl (Wrapf "placeholder[%d]: %w" [AInt i] ErrPlaceholderIDEmpty)
      else if existsb (str_eqb (ph_ID p)) seen then
        inl (Wrapf "duplicate_placeholder_id: %s: %w" [AStr (ph_ID p)] ErrDuplicatePlaceholderID)
      else if negb (str_eqb (ph_Name p) "") then
        if negb (placeholderNameRe (ph_Name p)) then
          inl (Wrapf "placeholder[%s] name invalid: %w" [AStr (ph_ID p)]
                 ErrPlaceholderNameInvalid)
        else if existsb (str_eqb (ph_Name p)) seenNames then
          inl (Wrapf "duplicate_placeholder_name: %s: %w" [AStr (ph_Name p)]
                 ErrDuplicatePlaceholderName)
        else
          check! validate_name p;
          check! validate_constraints p;
          validate_loop (i + 1) (ph_ID p :: seen) (ph_Name p :: seenNames) rest
      else
        check! validate_constraints p;
        validate_loop (i + 1) (ph_ID p :: seen) seenNames rest
  end.

Definition ValidatePlaceholders (phs : list Placeholder) : Result unit :=
  check! validate_loop 0 [] [] phs;
  DetectVisibilityCycle phs.

(** The options of select placeholders: the last loop of [UpdateSchemas]. *)
Fixpoint validate_options (phs : list Placeholder) : Result unit :=
  match phs with
  | [] => inr tt
  | p :: rest =>
      let select := bool_decide (ph_Type p = PHSelect) in
      if select && bool_decide (ph_Options p = []) then
        inl (Errorf "select_placeholder_requires_options: %s" [AStr (ph_ID p)])
      else if negb select && negb (bool_decide (ph_Options p = [])) then
        inl (Errorf "options_allowed_only_for_select: %s" [AStr (ph_ID p)])
      else validate_options rest
  end.
End schemas.
