(* ===== verification/PlaceholderFacts.v ===== *)
(** * Placeholder schemas: what validation accepts

    The reference definition of a well-formed schema, the proof that
    [ValidatePlaceholders] decides it, and with it that the depth-first search
    for cycles in the visibility conditions terminates and is exact. *)
From S2P Require Import Prelude Tables TemplateDomain.
From stdpp Require Import relations fin_maps gmap.
From Stdlib Require Import QArith Ascii.
Local Open Scope Z_scope.

(** ** The visibility graph *)

(** [id] is shown or hidden depending on the value of [dep]. *)
Definition depends (byID : gmap string Placeholder) (id dep : string) : Prop :=
  visible_if byID id = Some dep.

Definition dependencies_known (byID : gmap string Placeholder) : Prop :=
  forall id dep, depends byID id dep -> is_Some (byID !! dep).

Definition no_cycle (byID : gmap string Placeholder) : Prop :=
  forall id, ~ tc (depends byID) id id.

(** The visibility of [id] is determined: following its conditions ends. *)
Inductive settled (byID : gmap string Placeholder) : string -> Prop :=
  | settled_intro id :
      (forall dep, depends byID id dep -> is_Some (byID !! dep)) ->
      (forall dep, depends byID id dep -> settled byID dep) -> settled byID id.

Section search.
Context (byID : gmap string Placeholder).
Abbreviation dep := (depends byID).

Lemma depends_fun id d1 d2 : dep id d1 -> dep id d2 -> d1 = d2.
Proof. unfold depends. congruence. Qed.

Lemma settled_step id d : settled byID id -> dep id d -> is_Some (byID !! d) /\ settled byID d.
Proof. intros [i H1 H2] Hd. auto. Qed.

Lemma settled_no_cycle id : settled byID id -> ~ tc dep id id.
Proof.
  induction 1 as [id _ _ IH]. intros Hc.
  assert (exists d, dep id d /\ tc dep d d) as (d & Hd & Hdd).
  { inversion Hc as [? ? H|? d ? H1 H2]; subst; [by exists id|].
    exists d. split; [done|]. by eapply tc_r. }
  by apply (IH d Hd).
Qed.

(** The two ways a schema is refused. *)
Definition refused (e : Error) : Prop :=
  errors_Is e ErrPlaceholderCycle = true /\ ~ no_cycle byID
  \/ errors_Is e ErrInvalidConstraint = true /\ ~ dependencies_known byID.

(** Identifiers not coloured yet. *)
Definition uncoloured (color : gmap string node) : nat := size (dom byID ∖ dom color).

(** Between two steps of the search: black identifiers are settled, grey ones
    lead to the one under visit. *)
Record searching (color : gmap string node) (id : string) : Prop := {
  search_black : forall x, color !! x = Some nodeBlack -> settled byID x;
  search_gray : forall x, color !! x = Some nodeGray -> tc dep x id;
  search_white : forall x, color !! x <> Some nodeWhite
}.

Record searched (color color' : gmap string node) : Prop := {
  done_black : forall x, color' !! x = Some nodeBlack -> settled byID x;
  done_gray : forall x, color' !! x = Some nodeGray <-> color !! x = Some nodeGray;
  done_white : forall x, color' !! x <> Some nodeWhite;
  done_keeps : forall x, color !! x = Some nodeBlack -> color' !! x = Some nodeBlack
}.

Lemma uncoloured_insert color id n :
  color !! id = None -> is_Some (byID !! id) ->
  (uncoloured (<[id := n]> color) < uncoloured color)%nat.
Proof.
  intros Hc Hid. unfold uncoloured. apply subset_size. split.
  - rewrite dom_insert_L. set_solver.
  - intros Hsub. apply elem_of_dom in Hid. assert (id ∈ dom (<[id := n]> color)) as Hin.
    { rewrite dom_insert_L. set_solver. }
    apply not_elem_of_dom in Hc. set_solver.
Qed.

Lemma color_of_cases color id :
  (forall x, color !! x <> Some nodeWhite) ->
  match color_of color id with
  | nodeWhite => color !! id = None
  | n => color !! id = Some n
  end.
Proof.
  unfold color_of. intros H. specialize (H id). destruct (color !! id) as [[]|]; naive_solver.
Qed.

Lemma lookup_color (color : gmap string node) id n x :
  <[id := n]> color !! x = if decide (x = id) then Some n else color !! x.
Proof. case_decide as Hx; [by rewrite Hx, lookup_insert_eq|]. by apply lookup_insert_ne. Qed.

Lemma searching_enter color id d :
  searching color id -> color !! id = None -> dep id d ->
  searching (<[id := nodeGray]> color) d.
Proof.
  intros [Hb Hg Hw] Hc Hd. split; intros x; rewrite lookup_color; case_decide as Hx.
  - intros [=].
  - apply Hb.
  - intros _. subst. by apply tc_once.
  - intros Hx'. eapply tc_r; [by apply Hg|done].
  - intros [=].
  - apply Hw.
Qed.

Lemma searched_leave color color' id :
  searched (<[id := nodeGray]> color) color' -> color !! id = None -> settled byID id ->
  searched color (<[id := nodeBlack]> color').
Proof.
  intros [Hb Hg Hw Hk] Hc Hs.
  split; intros x; specialize (Hg x); specialize (Hk x); rewrite lookup_color in *;
    case_decide as Hx; subst.
  - done.
  - apply Hb.
  - rewrite Hc. split; intros [=].
  - done.
  - intros [=].
  - apply Hw.
  - done.
  - apply Hk.
Qed.

Lemma searched_gray color id :
  searching color id -> searched (<[id := nodeGray]> color) (<[id := nodeGray]> color).
Proof.
  intros [Hb Hg Hw]. split; intros x; rewrite ?lookup_color; try case_decide as Hx.
  - intros [=].
  - apply Hb.
  - done.
  - done.
  - intros [=].
  - apply Hw.
  - intros [=].
  - done.
Qed.

(** One visit, from any point of the search. *)
Lemma visit_spec fuel color id stack :
  searching color id -> is_Some (byID !! id) -> (uncoloured color < fuel)%nat ->
  match visit byID fuel color id stack with
  | Some (inr color') => searched color color' /\ color' !! id = Some nodeBlack
  | Some (inl e) => refused e
  | None => False
  end.
Proof.
  revert color id stack. induction fuel as [|fuel IH]; intros color id stack Hs Hid Hf; [lia|].
  simpl. pose proof (color_of_cases color id (search_white _ _ Hs)) as Hc.
  destruct (color_of color id).
  - destruct (visible_if byID id) as [d|] eqn:Hd.
    + destruct (byID !! d) as [pd|] eqn:Hpd.
      * specialize (IH (<[id := nodeGray]> color) d (stack ++ [id])).
        destruct (visit byID fuel _ d _) as [[e|color']|].
        -- apply IH; [by apply searching_enter|eauto|].
           pose proof (uncoloured_insert color id nodeGray Hc Hid). lia.
        -- destruct IH as [Hdone Hblack].
           { by apply searching_enter. }
           { eauto. }
           { pose proof (uncoloured_insert color id nodeGray Hc Hid). lia. }
           split; [|by rewrite lookup_insert_eq].
           apply searched_leave; [done..|]. constructor; intros d' Hd';
           rewrite (depends_fun _ _ _ Hd' Hd); [eauto|]. by eapply done_black.
        -- apply IH; [by apply searching_enter|eauto|].
           pose proof (uncoloured_insert color id nodeGray Hc Hid). lia.
      * right. split; [done|]. intros Hk. destruct (Hk _ _ Hd) as [? ?]. congruence.
    + split; [|by rewrite lookup_insert_eq]. apply searched_leave; [|done|].
      * by eapply searched_gray.
      * constructor; intros d' Hd'; unfold depends in Hd'; congruence.
  - left. split; [done|]. intros Hn. apply (Hn id). by eapply search_gray.
  - split; [|done]. destruct Hs as [Hb Hg Hw]. by split.
Qed.

(** Between two visits of the loop nothing is grey. *)
Definition all_black (color : gmap string node) : Prop :=
  forall x n, color !! x = Some n -> n = nodeBlack /\ settled byID x.

Lemma all_black_searching color id : all_black color -> searching color id.
Proof. intros H. split; intros x; [apply H|by intros [? _]%H|by intros [? _]%H]. Qed.

Lemma searched_all_black color color' :
  all_black color -> searched color color' -> all_black color'.
Proof.
  intros H [Hb Hg Hw Hk] x [] Hx; [by apply Hw in Hx|by apply Hg, H in Hx as [? _]|].
  split; [done|by apply Hb].
Qed.

Lemma uncoloured_le color : (uncoloured color <= size byID)%nat.
Proof. unfold uncoloured. rewrite <- size_dom. apply subseteq_size. set_solver. Qed.

Lemma visit_all_spec fuel color phs :
  all_black color -> Forall (fun p => is_Some (byID !! ph_ID p)) phs ->
  (size byID < fuel)%nat ->
  match visit_all byID fuel color phs with
  | Some (inr _) => Forall (fun p => settled byID (ph_ID p)) phs
  | Some (inl e) => refused e
  | None => False
  end.
Proof.
  intros Hb HF Hf. revert color Hb. induction HF as [|p phs Hp _ IH]; intros color Hb; [constructor|].
  simpl. pose proof (all_black_searching color (ph_ID p) Hb) as Hs.
  pose proof (color_of_cases color (ph_ID p) (search_white _ _ Hs)) as Hc.
  destruct (color_of color (ph_ID p)).
  - pose proof (uncoloured_le color).
    pose proof (visit_spec fuel color (ph_ID p) [] Hs Hp ltac:(lia)) as Hv.
    destruct (visit byID fuel color (ph_ID p) []) as [[e|color']|]; [done| |done].
    destruct Hv as [Hd Hid]. pose proof (searched_all_black _ _ Hb Hd) as Hb'.
    specialize (IH color' Hb'). destruct (visit_all byID fuel color' phs) as [[e|[]]|]; [done| |done].
    constructor; [by eapply Hb'|done].
  - by apply Hb in Hc as [? _].
  - specialize (IH color Hb). destruct (visit_all byID fuel color phs) as [[e|[]]|]; try done.
    constructor; [by eapply Hb|done].
Qed.
End search.

(** ** Identifiers and the graph *)

Lemma placeholdersByID_dom phs (m : gmap string Placeholder) id :
  is_Some (foldl (fun (m : gmap string Placeholder) p => <[ph_ID p := p]> m) m phs !! id) <->
  is_Some (m !! id) \/ id ∈ ph_ID <$> phs.
Proof.
  revert m. induction phs as [|p phs IH]; intros m; simpl; [set_solver|].
  rewrite IH, elem_of_cons, lookup_insert_is_Some. destruct (decide (ph_ID p = id)); naive_solver.
Qed.

Lemma placeholdersByID_all phs :
  Forall (fun p => is_Some (placeholdersByID phs !! ph_ID p)) phs.
Proof.
  apply Forall_forall. intros p Hp. apply placeholdersByID_dom. right.
  by apply list_elem_of_fmap_2.
Qed.

Lemma visible_if_known byID id d : visible_if byID id = Some d -> is_Some (byID !! id).
Proof. unfold visible_if. destruct (byID !! id); [eauto|done]. Qed.

Definition visibility_ok (phs : list Placeholder) : Prop :=
  dependencies_known (placeholdersByID phs) /\ no_cycle (placeholdersByID phs).

(** Every condition of every placeholder can be followed to its end. *)
Lemma all_settled phs :
  Forall (fun p => settled (placeholdersByID phs) (ph_ID p)) phs -> visibility_ok phs.
Proof.
  intros HF. assert (forall id d, depends (placeholdersByID phs) id d -> settled (placeholdersByID phs) id) as Hs.
  { intros id d Hd. apply visible_if_known in Hd as [[]%eq_None_not_Some|Hin]%placeholdersByID_dom; [done|].
    apply elem_of_map_inv in Hin as (p & Hp & ->). rewrite Forall_forall in HF. by apply HF. }
  split.
  - intros id d Hd. by eapply settled_step; [eapply Hs|].
  - intros id Hc. assert (exists d, depends (placeholdersByID phs) id d) as [d Hd].
    { inversion Hc; subst; eauto. }
    eapply settled_no_cycle; [by eapply Hs|done].
Qed.

Lemma DetectVisibilityCycle_cases phs :
  match DetectVisibilityCycle phs with
  | inr _ => visibility_ok phs
  | inl e => refused (placeholdersByID phs) e
  end.
Proof.
  unfold DetectVisibilityCycle.
  pose proof (visit_all_spec (placeholdersByID phs) (S (size (placeholdersByID phs))) ∅ phs) as H.
  destruct (visit_all _ _ _ _) as [[e|[]]|]; simpl.
  - apply H; [done|apply placeholdersByID_all|lia].
  - apply all_settled, H; [done|apply placeholdersByID_all|lia].
  - destruct H; [done|apply placeholdersByID_all|lia].
Qed.

Lemma DetectVisibilityCycle_ok phs :
  DetectVisibilityCycle phs = inr tt <-> visibility_ok phs.
Proof.
  pose proof (DetectVisibilityCycle_cases phs) as H.
  destruct (DetectVisibilityCycle phs) as [e|[]]; [|done]. split; [done|]. intros [Hk Hc].
  by destruct H as [[_ H]|[_ H]].
Qed.

(** The search never runs out of fuel. *)
Lemma DetectVisibilityCycle_total phs : DetectVisibilityCycle phs <> inl out_of_fuel.
Proof.
  intros He. pose proof (DetectVisibilityCycle_cases phs) as H. rewrite He in H.
  by destruct H as [[H _]|[H _]].
Qed.

(** ** Dates *)

Definition date_number (d : Z * Z * Z) : Z := let '(y, m, d) := d in 10000 * y + 100 * m + d.

Lemma digit_of_Some c d :
  digit_of c = Some d -> 0 <= d <= 9 /\ d = Z.of_N (N_of_ascii c) - 48.
Proof.
  unfold digit_of, is_digit. destruct (_ && _)%N eqn:H; [|done]. intros [= <-].
  apply andb_true_iff in H as [H1%N.leb_le H2%N.leb_le]. lia.
Qed.

(** A date is read from its eight digits. *)
Lemma parse_date_Some s t :
  parse_date s = Some t ->
  exists y1 y2 y3 y4 m1 m2 d1 d2,
    s = String y1 (String y2 (String y3 (String y4 (String "-"%char (String m1 (String m2
          (String "-"%char (String d1 (String d2 "")))))))))
    /\ exists v1 v2 v3 v4 v5 v6 v7 v8,
      digit_of y1 = Some v1 /\ digit_of y2 = Some v2 /\ digit_of y3 = Some v3
      /\ digit_of y4 = Some v4 /\ digit_of m1 = Some v5 /\ digit_of m2 = Some v6
      /\ digit_of d1 = Some v7 /\ digit_of d2 = Some v8
      /\ t = (1000 * v1 + 100 * v2 + 10 * v3 + v4, 10 * v5 + v6, 10 * v7 + v8).
Proof.
  unfold parse_date. intros H.
  repeat match type of H with
  | match ?s with _ => _ end = Some _ => is_var s; destruct s; try discriminate H
  end.
  repeat match type of H with
  | context [digit_of ?c] => destruct (digit_of c) eqn:?; [|discriminate H]; simpl in H
  end.
  repeat (case_match; try discriminate H). simplify_eq. naive_solver.
Qed.

Lemma ascii_compare_Z a b : Ascii.compare a b = Z.compare (Z.of_N (N_of_ascii a)) (Z.of_N (N_of_ascii b)).
Proof. unfold Ascii.compare. by rewrite N2Z.inj_compare. Qed.

(** Comparing the texts of two dates compares the dates. *)
Lemma date_text_order a b ta tb :
  parse_date a = Some ta -> parse_date b = Some tb ->
  string_gt a b = false <-> date_number ta <= date_number tb.
Proof.
  intros (y1 & y2 & y3 & y4 & m1 & m2 & d1 & d2 & -> & v1 & v2 & v3 & v4 & v5 & v6 & v7 & v8
          & H1 & H2 & H3 & H4 & H5 & H6 & H7 & H8 & ->)%parse_date_Some.
  intros (y1' & y2' & y3' & y4' & m1' & m2' & d1' & d2' & -> & w1 & w2 & w3 & w4 & w5 & w6 & w7 & w8
          & K1 & K2 & K3 & K4 & K5 & K6 & K7 & K8 & ->)%parse_date_Some.
  repeat match goal with
  | H : digit_of _ = Some _ |- _ => apply digit_of_Some in H as [? H]
  end.
  unfold string_gt, String.ltb, date_number. cbn [String.compare].
  rewrite !ascii_compare_Z.
  repeat match goal with
  | |- context [Z.of_N (N_of_ascii ?c) ?= Z.of_N (N_of_ascii ?c)] => rewrite Z.compare_refl
  | |- context [?x ?= ?y] =>
      destruct (Z.compare_spec x y); [|split; [intros [=]|intros; exfalso; lia]|split; [lia|done]]
  end.
  split; [lia|done].
Qed.

(** ** Well-formed schemas *)

Definition date_constraint (d : option string) : Prop :=
  forall s, d = Some s -> is_Some (parse_date s).

Record placeholder_ok `{RegexpSyntax} (p : Placeholder) : Prop := {
  ok_id : ph_ID p <> "";
  ok_name : ph_Name p <> "" ->
    ph_Name p ∈ placeholderCatalogSet
    /\ ph_Type p = PHComputed /\ ph_ResolverKey p = Some (ph_Name p);
  ok_regex : forall r, ph_Regex p = Some r -> regexp_Compile r = true;
  ok_numbers : forall a b, ph_MinNumber p = Some a -> ph_MaxNumber p = Some b -> (a <= b)%Q;
  ok_min_date : date_constraint (ph_MinDate p);
  ok_max_date : date_constraint (ph_MaxDate p);
  ok_dates : forall a b ta tb,
    ph_MinDate p = Some a -> ph_MaxDate p = Some b ->
    parse_date a = Some ta -> parse_date b = Some tb -> date_number ta <= date_number tb;
  ok_length : forall n, ph_MaxLength p = Some n -> 0 < n;
  ok_computed : ph_Computed p = true -> exists k, ph_ResolverKey p = Some k /\ k <> ""
}.

(** The names that are set. *)
Definition names (phs : list Placeholder) : list string :=
  bfilter (fun n => negb (str_eqb n "")) (ph_Name <$> phs).

Definition schema_ok `{RegexpSyntax} (phs : list Placeholder) : Prop :=
  Forall placeholder_ok phs /\ NoDup (ph_ID <$> phs) /\ NoDup (names phs) /\ visibility_ok phs.

Lemma catalog_names_match n : n ∈ placeholderCatalogSet -> placeholderNameRe n = true.
Proof.
  intros Hn. apply (list_elem_of_In _ _) in Hn.
  repeat (destruct Hn as [<-|Hn]; [done|]). done.
Qed.

Lemma fails_false {A} (bad : A -> bool) p :
  fails bad p = false <-> forall a, p = Some a -> bad a = false.
Proof. destruct p; simpl; naive_solver. Qed.

Lemma exceeds_false {A} (gt : A -> A -> bool) p q :
  exceeds gt p q = false <-> forall a b, p = Some a -> q = Some b -> gt a b = false.
Proof. destruct p, q; simpl; naive_solver. Qed.

Lemma Q_gt_false a b : Q_gt a b = false <-> (a <= b)%Q.
Proof. unfold Q_gt. by rewrite negb_false_iff, Qle_bool_iff. Qed.

Lemma date_constraint_iff d :
  fails (fun d => negb (bool_decide (is_Some (parse_date d)))) d = false <-> date_constraint d.
Proof.
  rewrite fails_false. unfold date_constraint.
  split; intros H s Hs; specialize (H s Hs).
  - by apply negb_false_iff, bool_decide_eq_true in H.
  - by apply negb_false_iff, bool_decide_eq_true.
Qed.

Lemma elem_existsb x l : existsb (str_eqb x) l = true <-> x ∈ l.
Proof.
  rewrite existsb_exists. split.
  - intros (y & Hy & ->%str_eqb_true). by apply list_elem_of_In.
  - intros Hx. exists x. split; [by apply list_elem_of_In|apply str_eqb_refl].
Qed.

(** A chain of guards succeeds when every guard is false. *)
Lemma guard_ok (b : bool) (e : Error) (k : Result unit) :
  (if b then inl e else k) = inr tt <-> b = false /\ k = inr tt.
Proof. destruct b; naive_solver. Qed.

Lemma check_sequence_ok (r k : Result unit) : (check! r; k) = inr tt <-> r = inr tt /\ k = inr tt.
Proof. destruct r as [|[]]; naive_solver. Qed.

Section validation.
Context `{RegexpSyntax}.

Lemma validate_name_ok p :
  validate_name p = inr tt <->
  ph_Name p ∈ placeholderCatalogSet /\ ph_Type p = PHComputed
  /\ ph_ResolverKey p = Some (ph_Name p).
Proof.
  unfold validate_name.
  rewrite !guard_ok, orb_false_iff, !negb_false_iff, elem_existsb, !bool_decide_eq_true. tauto.
Qed.

Lemma resolver_key_set (k : option string) :
  str_eqb (default "" k) "" = false <-> exists s, k = Some s /\ s <> "".
Proof. destruct k as [s|]; simpl; rewrite str_eqb_false; naive_solver. Qed.

Lemma validate_constraints_ok p :
  validate_constraints p = inr tt <->
  (forall r, ph_Regex p = Some r -> regexp_Compile r = true)
  /\ (forall a b, ph_MinNumber p = Some a -> ph_MaxNumber p = Some b -> (a <= b)%Q)
  /\ date_constraint (ph_MinDate p) /\ date_constraint (ph_MaxDate p)
  /\ (forall a b, ph_MinDate p = Some a -> ph_MaxDate p = Some b -> string_gt a b = false)
  /\ (forall n, ph_MaxLength p = Some n -> 0 < n)
  /\ (ph_Computed p = true -> exists k, ph_ResolverKey p = Some k /\ k <> "").
Proof.
  unfold validate_constraints. rewrite !guard_ok, !date_constraint_iff, !exceeds_false, !fails_false.
  setoid_rewrite Q_gt_false. setoid_rewrite negb_false_iff. setoid_rewrite Z.leb_gt.
  rewrite andb_false_iff, resolver_key_set. destruct (ph_Computed p); intuition congruence.
Qed.

(** The two groups of checks are the conditions on one placeholder. *)
Lemma placeholder_ok_iff p :
  placeholder_ok p <->
  ph_ID p <> "" /\ (ph_Name p <> "" -> validate_name p = inr tt)
  /\ validate_constraints p = inr tt.
Proof.
  rewrite validate_name_ok, validate_constraints_ok. split.
  - intros []. split_and!; try done. intros a b Ha Hb.
    destruct (ok_min_date0 a Ha) as [ta Hta], (ok_max_date0 b Hb) as [tb Htb].
    rewrite date_text_order by done. eauto.
  - intros (H1 & H2 & H3 & H4 & H5 & H6 & H7 & H8 & H9). split; try done.
    intros a b ta tb Ha Hb Hta Htb. rewrite <- (date_text_order a b) by done. by apply H7.
Qed.

Lemma names_cons p phs :
  names (p :: phs) = if str_eqb (ph_Name p) "" then names phs else ph_Name p :: names phs.
Proof. unfold names. rewrite fmap_cons, bfilter_cons. by destruct (str_eqb _ _). Qed.

(** The loop, with what it has seen. *)
Lemma validate_loop_ok phs i seen seenNames :
  validate_loop i seen seenNames phs = inr tt <->
  Forall placeholder_ok phs
  /\ NoDup (ph_ID <$> phs) /\ (forall id, id ∈ ph_ID <$> phs -> id ∉ seen)
  /\ NoDup (names phs) /\ (forall n, n ∈ names phs -> n ∉ seenNames).
Proof.
  revert i seen seenNames. induction phs as [|p phs IH]; intros i seen seenNames.
  { split; [|done]. intros _. split_and!; try constructor; intros ? Hx%not_elem_of_nil; done. }
  cbn [validate_loop]. rewrite Forall_cons, placeholder_ok_iff, fmap_cons, NoDup_cons, names_cons.
  rewrite !guard_ok, str_eqb_false, <- not_true_iff_false, elem_existsb.
  destruct (str_eqb (ph_Name p) "") eqn:Hn; cbn [negb];
    [apply str_eqb_true in Hn|apply str_eqb_false in Hn].
  - rewrite check_sequence_ok, IH. setoid_rewrite elem_of_cons. set_solver.
  - rewrite !guard_ok, !check_sequence_ok, IH, negb_false_iff, <- not_true_iff_false, elem_existsb, NoDup_cons.
    rewrite validate_name_ok. setoid_rewrite elem_of_cons.
    pose proof (catalog_names_match (ph_Name p)). set_solver.
Qed.

Lemma ValidatePlaceholders_ok phs : ValidatePlaceholders phs = inr tt <-> schema_ok phs.
Proof.
  unfold ValidatePlaceholders, schema_ok. rewrite check_sequence_ok, validate_loop_ok, DetectVisibilityCycle_ok.
  set_solver.
Qed.

Lemma schema_ok_nil : schema_ok [].
Proof. by apply ValidatePlaceholders_ok. Qed.

(** C35 [ValidatePlaceholders] decides well-formedness: it accepts a schema
    exactly when every placeholder is sound by itself (bounds in order as
    numbers and as calendar dates, a catalogue name only with its own
    resolver), identifiers and names are unique, every visibility condition
    refers to a placeholder of the schema and no placeholder's visibility
    depends on itself, at any distance. *)
Theorem validation_decides_well_formedness (phs : list Placeholder) :
  ValidatePlaceholders phs = inr tt <-> schema_ok phs.
Proof. apply ValidatePlaceholders_ok. Qed.
End validation.
