(* ===== verification/TemplateRepo.v ===== *)
(** * Templates: the tables and the repository

    [internal/modules/templates_v2/repository] over the tables of
    [migrations/0120_templates_v2_init.sql], and the object store of
    [internal/platform/objectstore/templates_v2_presigner.go]. Every method is
    one SQL statement; it runs in its own implicit transaction. *)
From S2P Require Import Prelude Tables ApprovalDomain Sha256 ContentHash TemplateDomain.
Local Open Scope Z_scope.

(** Lookups: no row and a malformed id are both not found. *)
Definition not_found_err (err : Error) : Error :=
  if errors_Is err ErrNoRows || isInvalidUUID err then ErrNotFound else err.

(** [QueryRow]: the first row, or [sql.ErrNoRows]. *)
Definition query_row {A} (r : option A) : Result A :=
  match r with Some a => inr a | None => inl ErrNoRows end.

(** An UPDATE that must touch a row. *)
Definition must_affect {A} (r : Result (Z * A)) : Result A :=
  match r with
  | inl e => inl e
  | inr (n, a) => if n =? 0 then inl ErrNotFound else inr a
  end.

(** ** State: the tables, and the objects of the bucket by key *)

Record Store := mkStore {
  st_templates : list Template;
  st_versions : list TemplateVersion;
  st_configs : list ApprovalConfig;
  st_audit : list AuditEvent;
  st_objects : gmap string string
}.

Definition with_templates (t : list Template) (s : Store) : Store :=
  mkStore t (st_versions s) (st_configs s) (st_audit s) (st_objects s).
Definition with_versions (v : list TemplateVersion) (s : Store) : Store :=
  mkStore (st_templates s) v (st_configs s) (st_audit s) (st_objects s).
Definition with_configs (c : list ApprovalConfig) (s : Store) : Store :=
  mkStore (st_templates s) (st_versions s) c (st_audit s) (st_objects s).
Definition with_audit (a : list AuditEvent) (s : Store) : Store :=
  mkStore (st_templates s) (st_versions s) (st_configs s) a (st_objects s).
Definition with_objects (o : gmap string string) (s : Store) : Store :=
  mkStore (st_templates s) (st_versions s) (st_configs s) (st_audit s) o.

Record ListFilter := mkListFilter {
  lf_TenantID : string;
  lf_AreaAny : list string;
  lf_ActorAreas : list string;
  lf_IsExternalViewer : bool;
  lf_DocTypeCode : option string;
  lf_Limit : Z;
  lf_Offset : Z
}.

Definition set_te_ID (id : string) (t : Template) : Template :=
  mkTemplate id (te_TenantID t) (te_DocTypeCode t) (te_Key t) (te_Name t) (te_Description t)
    (te_Areas t) (te_Visibility t) (te_SpecificAreas t) (te_LatestVersion t)
    (te_PublishedVersionID t) (te_CreatedBy t) (te_CreatedAt t) (te_ArchivedAt t).

Definition set_te_PublishedVersionID (p : option string) (t : Template) : Template :=
  mkTemplate (te_ID t) (te_TenantID t) (te_DocTypeCode t) (te_Key t) (te_Name t) (te_Description t)
    (te_Areas t) (te_Visibility t) (te_SpecificAreas t) (te_LatestVersion t)
    p (te_CreatedBy t) (te_CreatedAt t) (te_ArchivedAt t).

Definition set_te_LatestVersion (n : Z) (t : Template) : Template :=
  mkTemplate (te_ID t) (te_TenantID t) (te_DocTypeCode t) (te_Key t) (te_Name t) (te_Description t)
    (te_Areas t) (te_Visibility t) (te_SpecificAreas t) n
    (te_PublishedVersionID t) (te_CreatedBy t) (te_CreatedAt t) (te_ArchivedAt t).

Definition set_te_ArchivedAt (a : option Time) (t : Template) : Template :=
  mkTemplate (te_ID t) (te_TenantID t) (te_DocTypeCode t) (te_Key t) (te_Name t) (te_Description t)
    (te_Areas t) (te_Visibility t) (te_SpecificAreas t) (te_LatestVersion t)
    (te_PublishedVersionID t) (te_CreatedBy t) (te_CreatedAt t) a.

Definition set_tv_key (id templateID : string) (v : TemplateVersion) : TemplateVersion :=
  mkTemplateVersion id templateID (tv_VersionNumber v) (tv_Status v) (tv_DocxStorageKey v)
    (tv_ContentHash v) (tv_MetadataSchema v) (tv_PlaceholderSchema v) (tv_AuthorID v)
    (tv_PendingReviewerRole v) (tv_PendingApproverRole v) (tv_ReviewerID v) (tv_ApproverID v)
    (tv_SubmittedAt v) (tv_ReviewedAt v) (tv_ApprovedAt v) (tv_PublishedAt v) (tv_ObsoletedAt v)
    (tv_CreatedAt v).

(** ** The statements *)

Section repository.
Context `{UuidText}.

Definition CreateTemplate (t : Template) (s : Store) : Result Store :=
  let! id := uuid_param (te_ID t) in
  let! pub := uuid_param_opt (te_PublishedVersionID t) in
  let! _ := int4_param (te_LatestVersion t) in
  let row := set_te_PublishedVersionID pub (set_te_ID id t) in
  map_error (fun err =>
      match errors_As_PgError err with
      | Some (code, _, _) => if str_eqb code "23505" then ErrKeyConflict else err
      | None => err
      end)
    (check! constraint (negb (existsb (fun r => str_eqb (te_ID r) id) (st_templates s)))
              (unique_violation "templates_v2_template_pkey");
     check! constraint (negb (existsb (fun r => str_eqb (te_TenantID r) (te_TenantID t)
                                          && str_eqb (te_Key r) (te_Key t)) (st_templates s)))
              (unique_violation "templates_v2_template_tenant_id_key_key");
     check! constraint (match pub with
                   | None => true
                   | Some p => existsb (fun v => str_eqb (tv_ID v) p) (st_versions s)
                   end) (fk_violation "fk_templates_v2_published_version");
     inr (with_templates (st_templates s ++ [row]) s)).

Definition GetTemplate (tenantID id : string) (s : Store) : Result Template :=
  map_error not_found_err
    (let! id := uuid_param id in
     query_row (select_one (fun t => str_eqb (te_ID t) id && str_eqb (te_TenantID t) tenantID)
                  (st_templates s))).

Definition GetTemplateByKey (tenantID key : string) (s : Store) : Result Template :=
  map_error (fun err => if errors_Is err ErrNoRows then ErrNotFound else err)
    (query_row (select_one (fun t => str_eqb (te_TenantID t) tenantID && str_eqb (te_Key t) key)
                  (st_templates s))).

(** [a && b] on text arrays. *)
Definition overlaps (a b : list string) : bool := existsb (fun x => existsb (str_eqb x) b) a.

Definition listed (f : ListFilter) (t : Template) : bool :=
  str_eqb (te_TenantID t) (lf_TenantID f)
  && match lf_DocTypeCode f with None => true | Some c => str_eqb (te_DocTypeCode t) c end
  && (bool_decide (lf_AreaAny f = []) || overlaps (te_Areas t) (lf_AreaAny f))
  && match te_Visibility t with
     | VisibilityPublic => true
     | VisibilityInternal => negb (lf_IsExternalViewer f)
     | VisibilitySpecific =>
         negb (bool_decide (lf_ActorAreas f = [])) && overlaps (te_SpecificAreas t) (lf_ActorAreas f)
     | VisibilityOther _ => false
     end.

(** LIMIT and OFFSET. *)
Definition page {A} (limit offset : Z) (l : list A) : Result (list A) :=
  if limit <? 0 then inl (PgError "2201W" "" "LIMIT must not be negative")
  else if offset <? 0 then inl (PgError "2201X" "" "OFFSET must not be negative")
  else inr (take (Z.to_nat limit) (drop (Z.to_nat offset) l)).

Definition ListTemplates (f : ListFilter) (s : Store) : Result (list Template) :=
  page (lf_Limit f) (lf_Offset f)
    (order_by (fun t => - te_CreatedAt t) (bfilter (listed f) (st_templates s))).

(** The columns the statement sets. *)
Definition template_columns (t : Template) (pub : option string) (row : Template) : Template :=
  mkTemplate (te_ID row) (te_TenantID row) (te_DocTypeCode t) (te_Key t) (te_Name t)
    (te_Description t) (te_Areas t) (te_Visibility t) (te_SpecificAreas t) (te_LatestVersion t)
    pub (te_CreatedBy row) (te_CreatedAt row) (te_ArchivedAt t).

Definition UpdateTemplate (t : Template) (s : Store) : Result Store :=
  let! id := uuid_param (te_ID t) in
  let! pub := uuid_param_opt (te_PublishedVersionID t) in
  let! _ := int4_param (te_LatestVersion t) in
  let! rows := must_affect (update_where
      (fun r => str_eqb (te_ID r) id && str_eqb (te_TenantID r) (te_TenantID t))
      (fun r =>
         check! constraint (negb (existsb (fun r' => negb (str_eqb (te_ID r') id)
                     && str_eqb (te_TenantID r') (te_TenantID r)
                     && str_eqb (te_Key r') (te_Key t)) (st_templates s)))
                  (unique_violation "templates_v2_template_tenant_id_key_key");
         check! constraint (match pub with
                   | None => true
                   | Some p => existsb (fun v => str_eqb (tv_ID v) p) (st_versions s)
                   end) (fk_violation "fk_templates_v2_published_version");
         inr (template_columns t pub r))
      (st_templates s)) in
  inr (with_templates rows s).

Definition CreateVersion (v : TemplateVersion) (s : Store) : Result Store :=
  let! id := uuid_param (tv_ID v) in
  let! templateID := uuid_param (tv_TemplateID v) in
  let! n := int4_param (tv_VersionNumber v) in
  check! constraint (negb (existsb (fun r => str_eqb (tv_ID r) id) (st_versions s)))
           (unique_violation "templates_v2_template_version_pkey");
  check! constraint (negb (existsb (fun r => str_eqb (tv_TemplateID r) templateID
                                       && (tv_VersionNumber r =? n)) (st_versions s)))
           (unique_violation "templates_v2_template_version_template_id_version_number_key");
  check! constraint (existsb (fun t => str_eqb (te_ID t) templateID) (st_templates s))
           (fk_violation "templates_v2_template_version_template_id_fkey");
  inr (with_versions (st_versions s ++ [set_tv_key id templateID v]) s).

Definition GetVersion (templateID : string) (n : Z) (s : Store) : Result TemplateVersion :=
  map_error not_found_err
    (let! templateID := uuid_param templateID in
     let! n := int4_param n in
     query_row (select_one (fun v => str_eqb (tv_TemplateID v) templateID
                              && (tv_VersionNumber v =? n)) (st_versions s))).

Definition GetVersionByID (id : string) (s : Store) : Result TemplateVersion :=
  map_error not_found_err
    (let! id := uuid_param id in
     query_row (select_one (fun v => str_eqb (tv_ID v) id) (st_versions s))).

(** The columns the statement sets. *)
Definition version_columns (v row : TemplateVersion) : TemplateVersion :=
  mkTemplateVersion (tv_ID row) (tv_TemplateID row) (tv_VersionNumber row) (tv_Status v)
    (tv_DocxStorageKey v) (tv_ContentHash v) (tv_MetadataSchema v) (tv_PlaceholderSchema v)
    (tv_AuthorID row) (tv_PendingReviewerRole v) (tv_PendingApproverRole v) (tv_ReviewerID v)
    (tv_ApproverID v) (tv_SubmittedAt v) (tv_ReviewedAt v) (tv_ApprovedAt v) (tv_PublishedAt v)
    (tv_ObsoletedAt v) (tv_CreatedAt row).

Definition UpdateVersion (v : TemplateVersion) (s : Store) : Result Store :=
  let! id := uuid_param (tv_ID v) in
  let! rows := must_affect (update_where (fun r => str_eqb (tv_ID r) id)
      (fun r => inr (version_columns v r)) (st_versions s)) in
  inr (with_versions rows s).

Definition set_obsolete (now : Time) (v : TemplateVersion) : TemplateVersion :=
  mkTemplateVersion (tv_ID v) (tv_TemplateID v) (tv_VersionNumber v) VersionStatusObsolete
    (tv_DocxStorageKey v) (tv_ContentHash v) (tv_MetadataSchema v) (tv_PlaceholderSchema v)
    (tv_AuthorID v) (tv_PendingReviewerRole v) (tv_PendingApproverRole v) (tv_ReviewerID v)
    (tv_ApproverID v) (tv_SubmittedAt v) (tv_ReviewedAt v) (tv_ApprovedAt v) (tv_PublishedAt v)
    (Some now) (tv_CreatedAt v).

Definition ObsoletePreviousPublished (now : Time) (templateID keepVersionID : string) (s : Store)
    : Result Store :=
  let! templateID := uuid_param templateID in
  let! keep := uuid_param keepVersionID in
  let! r := update_where
      (fun v => str_eqb (tv_TemplateID v) templateID
                && bool_decide (tv_Status v = VersionStatusPublished)
                && negb (str_eqb (tv_ID v) keep))
      (fun v => inr (set_obsolete now v)) (st_versions s) in
  inr (with_versions r.2 s).

Definition GetApprovalConfig (templateID : string) (s : Store) : Result ApprovalConfig :=
  map_error not_found_err
    (let! templateID := uuid_param templateID in
     query_row (select_one (fun c => str_eqb (ac_TemplateID c) templateID) (st_configs s))).

Definition UpsertApprovalConfig (c : ApprovalConfig) (s : Store) : Result Store :=
  let! id := uuid_param (ac_TemplateID c) in
  check! constraint (existsb (fun t => str_eqb (te_ID t) id) (st_templates s))
           (fk_violation "templates_v2_approval_config_template_id_fkey");
  let row := mkApprovalConfig id (ac_ReviewerRole c) (ac_ApproverRole c) in
  if existsb (fun r => str_eqb (ac_TemplateID r) id) (st_configs s)
  then inr (with_configs (map (fun r => if str_eqb (ac_TemplateID r) id then row else r)
                            (st_configs s)) s)
  else inr (with_configs (st_configs s ++ [row]) s).

Definition AppendAudit (e : AuditEvent) (s : Store) : Result Store :=
  let! templateID := uuid_param (au_TemplateID e) in
  let! versionID := uuid_param_opt (au_VersionID e) in
  inr (with_audit (st_audit s ++ [mkAuditEvent (au_TenantID e) templateID versionID
                     (au_ActorID e) (au_Action e) (au_OccurredAt e)]) s).

Definition ListAudit (templateID : string) (limit offset : Z) (s : Store)
    : Result (list AuditEvent) :=
  map_error (fun err => if isInvalidUUID err then ErrNotFound else err)
    (let! templateID := uuid_param templateID in
     page limit offset
       (order_by (fun e => - au_OccurredAt e)
          (bfilter (fun e => str_eqb (au_TemplateID e) templateID) (st_audit s)))).

(** ** The object store *)

(** 25 MiB, the limit the binary configures. *)
Definition maxSizeBytes : Z := 25 * 1024 * 1024.

Definition HeadContentHash (key : string) (s : Store) : Result string :=
  match st_objects s !! key with
  | None => inl ErrUploadMissing
  | Some content =>
      if maxSizeBytes <? Z.of_nat (String.length content)
      then inl (Errorf "object exceeds max size (%d bytes)" [AInt maxSizeBytes])
      else inr (sha256_hex content)
  end.

Definition Delete (key : string) (s : Store) : Result Store :=
  inr (with_objects (delete key (st_objects s)) s).
End repository.
