(* ===== verification/Templates.v ===== *)
(** * Templates: the services

    [internal/modules/templates_v2/application]: each method of [Service] as a
    program over the operations of its ports (repository, presigner, clock,
    UUIDs); a program is a tree whose nodes are operations and whose branches
    are their answers. The methods use no transaction: every operation takes
    effect at once, others may run between two of them, and any of them may
    fail, with or without having taken effect. *)
From S2P Require Import Prelude Tables Programs ApprovalDomain ContentHash TemplateDomain TemplateRepo.
From stdpp Require Import pretty.
Local Open Scope Z_scope.

(** ** Operations of the ports, by the type of what they return *)

Inductive Op : Type -> Type :=
  | RepoCreateTemplate (t : Template) : Op unit
  | RepoGetTemplate (tenantID id : string) : Op Template
  | RepoGetTemplateByKey (tenantID key : string) : Op Template
  | RepoListTemplates (f : ListFilter) : Op (list Template)
  | RepoUpdateTemplate (t : Template) : Op unit
  | RepoCreateVersion (v : TemplateVersion) : Op unit
  | RepoGetVersion (templateID : string) (n : Z) : Op TemplateVersion
  | RepoGetVersionByID (id : string) : Op TemplateVersion
  | RepoUpdateVersion (v : TemplateVersion) : Op unit
  | RepoObsoletePreviousPublished (templateID keepVersionID : string) : Op unit
  | RepoGetApprovalConfig (templateID : string) : Op ApprovalConfig
  | RepoUpsertApprovalConfig (c : ApprovalConfig) : Op unit
  | RepoAppendAudit (e : AuditEvent) : Op unit
  | RepoListAudit (templateID : string) (limit offset : Z) : Op (list AuditEvent)
  | PresignPUT (key : string) : Op string
  | PresignGET (key : string) : Op string
  | PresignHeadContentHash (key : string) : Op string
  | PresignDelete (key : string) : Op unit
  | ClockNow : Op Time
  | UUIDNew : Op string.

Abbreviation Prog := (Programs.Prog Op).
Abbreviation PM := (Programs.PM Op).

Definition now : PM Time := call ClockNow.
Definition new_uuid : PM string := call UUIDNew.

(** ** Creation: [create.go] *)

Record CreateTemplateCmd := mkCreateTemplateCmd {
  ct_TenantID : string;
  ct_ActorUserID : string;
  ct_DocTypeCode : string;
  ct_Key : string;
  ct_Name : string;
  ct_Description : string;
  ct_Areas : list string;
  ct_Visibility : Visibility;
  ct_SpecificAreas : list string;
  ct_ApproverRole : string;
  ct_ReviewerRole : option string
}.

Definition zeroMetadataSchema : MetadataSchema := mkMetadataSchema "" 0 [] [].

(** [fmt.Sprintf] of the storage key of version [n]. *)
Definition storage_key (templateID : string) (n : Z) : string :=
  "templates/" +:+ templateID +:+ "/versions/" +:+ pretty n +:+ ".docx".

Definition set_tv_ContentHash (h : string) (v : TemplateVersion) : TemplateVersion :=
  mkTemplateVersion (tv_ID v) (tv_TemplateID v) (tv_VersionNumber v) (tv_Status v)
    (tv_DocxStorageKey v) h (tv_MetadataSchema v) (tv_PlaceholderSchema v) (tv_AuthorID v)
    (tv_PendingReviewerRole v) (tv_PendingApproverRole v) (tv_ReviewerID v) (tv_ApproverID v)
    (tv_SubmittedAt v) (tv_ReviewedAt v) (tv_ApprovedAt v) (tv_PublishedAt v) (tv_ObsoletedAt v)
    (tv_CreatedAt v).

Definition set_tv_schemas (m : MetadataSchema) (phs : list Placeholder) (v : TemplateVersion)
    : TemplateVersion :=
  mkTemplateVersion (tv_ID v) (tv_TemplateID v) (tv_VersionNumber v) (tv_Status v)
    (tv_DocxStorageKey v) (tv_ContentHash v) m phs (tv_AuthorID v)
    (tv_PendingReviewerRole v) (tv_PendingApproverRole v) (tv_ReviewerID v) (tv_ApproverID v)
    (tv_SubmittedAt v) (tv_ReviewedAt v) (tv_ApprovedAt v) (tv_PublishedAt v) (tv_ObsoletedAt v)
    (tv_CreatedAt v).

(** The fields the approval moves: status, pending roles, deciders, times. *)
Definition set_tv_review (status : VersionStatus) (reviewerRole : option string) (approverRole : string)
    (reviewer approver : option string) (submitted reviewed approved published : option Time)
    (v : TemplateVersion) : TemplateVersion :=
  mkTemplateVersion (tv_ID v) (tv_TemplateID v) (tv_VersionNumber v) status
    (tv_DocxStorageKey v) (tv_ContentHash v) (tv_MetadataSchema v) (tv_PlaceholderSchema v)
    (tv_AuthorID v) reviewerRole approverRole reviewer approver
    submitted reviewed approved published (tv_ObsoletedAt v) (tv_CreatedAt v).

Definition audit (tenantID templateID : string) (versionID : option string) (actor : string)
    (action : AuditAction) : PM unit :=
  t ← now;
  call (RepoAppendAudit (mkAuditEvent tenantID templateID versionID actor action t)).

Definition cloneMetadataSchema (s : MetadataSchema) : MetadataSchema :=
  mkMetadataSchema (ms_DocCodePattern s) (ms_RetentionDays s) (ms_DistributionDefault s)
    (ms_RequiredMetadata s).

Definition clonePlaceholders (l : list Placeholder) : list Placeholder := l.

Definition CreateTemplate (cmd : CreateTemplateCmd) : PM (Template * TemplateVersion) :=
  pguard (isValidVisibility (ct_Visibility cmd)) ErrInvalidVisibility;;
  let specific := bool_decide (ct_Visibility cmd = VisibilitySpecific) in
  pguard (negb (specific && bool_decide (ct_SpecificAreas cmd = [])))
    (Wrapf "%w: specific_visibility_requires_areas" [] ErrInvalidVisibility);;
  let areas := if specific then ct_SpecificAreas cmd else [] in
  existing ← attempt (RepoGetTemplateByKey (ct_TenantID cmd) (ct_Key cmd));
  pguard (match existing with inl e => errors_Is e ErrNotFound | inr _ => false end) ErrKeyConflict;;
  templateID ← new_uuid;
  t1 ← now;
  let template := mkTemplate templateID (ct_TenantID cmd) (ct_DocTypeCode cmd) (ct_Key cmd)
    (ct_Name cmd) (ct_Description cmd) (ct_Areas cmd) (ct_Visibility cmd) areas 1 None
    (ct_ActorUserID cmd) t1 None in
  versionID ← new_uuid;
  t2 ← now;
  let version := mkTemplateVersion versionID templateID 1 VersionStatusDraft
    (storage_key templateID 1) "" zeroMetadataSchema [] (ct_ActorUserID cmd) (ct_ReviewerRole cmd)
    (ct_ApproverRole cmd) None None None None None None None t2 in
  call (RepoCreateTemplate template);;
  call (RepoCreateVersion version);;
  call (RepoUpsertApprovalConfig
    (mkApprovalConfig templateID (ct_ReviewerRole cmd) (ct_ApproverRole cmd)));;
  audit (ct_TenantID cmd) templateID (Some versionID) (ct_ActorUserID cmd) AuditCreated;;
  mret (template, version).

(** The new version, from the one it is copied from. *)
Definition add_version (tenantID actor templateID : string) (template : Template)
    (source : TemplateVersion) : PM TemplateVersion :=
  let newNum := te_LatestVersion template + 1 in
  versionID ← new_uuid;
  t ← now;
  let version := mkTemplateVersion versionID templateID newNum VersionStatusDraft
    (storage_key templateID newNum) "" (cloneMetadataSchema (tv_MetadataSchema source))
    (clonePlaceholders (tv_PlaceholderSchema source)) actor None "" None None None None None None
    None t in
  call (RepoCreateVersion version);;
  call (RepoUpdateTemplate (set_te_LatestVersion newNum template));;
  audit tenantID (te_ID template) (Some versionID) actor AuditCreated;;
  mret version.

Definition CreateNextVersion (tenantID actor templateID : string) : PM TemplateVersion :=
  template ← call (RepoGetTemplate tenantID templateID);
  pguard (negb (IsArchived template)) ErrArchived;;
  source ← match te_PublishedVersionID template with
           | Some id => call (RepoGetVersionByID id)
           | None => call (RepoGetVersion (te_ID template) (te_LatestVersion template))
           end;
  add_version tenantID actor templateID template source.

(** UPDATE of the version, then its audit record: how every change of a version
    ends. *)
Definition save_version (version : TemplateVersion) (tenantID templateID actor : string)
    (action : AuditAction) : PM TemplateVersion :=
  call (RepoUpdateVersion version);;
  audit tenantID templateID (Some (tv_ID version)) actor action;;
  mret version.

(** ** Autosave: [autosave.go] *)

(** The version a method works on, after the template was found in the tenant. *)
Definition load_version (tenantID templateID : string) (n : Z) : PM TemplateVersion :=
  _ ← call (RepoGetTemplate tenantID templateID);
  call (RepoGetVersion templateID n).

Definition has_status (s : VersionStatus) (v : TemplateVersion) : bool :=
  bool_decide (tv_Status v = s).

(** [autosaveUploadTTL]: ten minutes. *)
Definition autosaveUploadTTL : Time := 600000000000.

Definition PresignAutosave (tenantID templateID : string) (n : Z) : PM (string * string * Time) :=
  version ← load_version tenantID templateID n;
  pguard (has_status VersionStatusDraft version) ErrInvalidStateTransition;;
  url ← call (PresignPUT (tv_DocxStorageKey version));
  t ← now;
  mret (url, tv_DocxStorageKey version, t + autosaveUploadTTL).

Definition CommitAutosave (tenantID actor templateID : string) (n : Z) (expected : string)
    : PM TemplateVersion :=
  version ← load_version tenantID templateID n;
  pguard (has_status VersionStatusDraft version) ErrInvalidStateTransition;;
  head ← attempt (PresignHeadContentHash (tv_DocxStorageKey version));
  actual ← plift (map_error (fun e => if errors_Is e ErrUploadMissing then ErrUploadMissing else e) head);
  if negb (str_eqb actual expected) then
    _ ← attempt (PresignDelete (tv_DocxStorageKey version));
    fail ErrTemplateContentHashMismatch
  else
    save_version (set_tv_ContentHash actual version) tenantID templateID actor AuditSaved.

(** ** Schemas: [schema.go] *)

Section schemas.
(** [Known()] of the registry, when the service was given one. *)
Context `{RegexpSyntax} (resolvers : option (list string)).

Fixpoint known_resolvers (known : list string) (phs : list Placeholder) : Result unit :=
  match phs with
  | [] => inr tt
  | p :: rest =>
      match ph_ResolverKey p with
      | None => known_resolvers known rest
      | Some k =>
          if existsb (str_eqb k) known then known_resolvers known rest
          else inl (Wrapf "placeholder[%s] resolver_key %q: %w" [AStr (ph_ID p); AStr k]
                      ErrUnknownResolver)
      end
  end.

Definition UpdateSchemas (tenantID actor templateID : string) (n : Z) (metadata : MetadataSchema)
    (phs : list Placeholder) (expected : string) : PM TemplateVersion :=
  version ← call (RepoGetVersion templateID n);
  pguard (has_status VersionStatusDraft version) ErrInvalidStateTransition;;
  pguard (str_eqb expected "" || str_eqb expected (tv_ContentHash version)) ErrStaleBase;;
  plift (ValidatePlaceholders phs);;
  plift (match resolvers with Some known => known_resolvers known phs | None => inr tt end);;
  plift (validate_options phs);;
  save_version (set_tv_schemas (cloneMetadataSchema metadata) (clonePlaceholders phs) version)
    tenantID templateID actor AuditSaved.
End schemas.

(** ** Review and approval: [lifecycle.go] *)

Definition SubmitForReview (tenantID actor templateID : string) (n : Z) : PM TemplateVersion :=
  v ← load_version tenantID templateID n;
  pguard (has_status VersionStatusDraft v) ErrInvalidStateTransition;;
  config ← call (RepoGetApprovalConfig templateID);
  plift (CanTransition v VersionStatusInReview (HasReviewer config));;
  t ← now;
  save_version (set_tv_review VersionStatusInReview (ac_ReviewerRole config) (ac_ApproverRole config)
      (tv_ReviewerID v) (tv_ApproverID v) (Some t) (tv_ReviewedAt v) (tv_ApprovedAt v)
      (tv_PublishedAt v) v)
    tenantID templateID actor AuditSubmitted.

Definition Review (tenantID actor : string) (roles : list string) (templateID : string) (n : Z)
    (accept : bool) : PM TemplateVersion :=
  v ← load_version tenantID templateID n;
  pguard (has_status VersionStatusInReview v) ErrInvalidStateTransition;;
  role ← match tv_PendingReviewerRole v with
         | None => fail ErrInvalidStateTransition
         | Some role => mret role
         end;
  pguard (containsRole roles role) ErrForbiddenRole;;
  plift (CheckSegregation "reviewer" actor (tv_AuthorID v) None);;
  t ← now;
  if accept then
    plift (CanTransition v VersionStatusApproved true);;
    save_version (set_tv_review VersionStatusApproved (tv_PendingReviewerRole v)
        (tv_PendingApproverRole v) (Some actor) (tv_ApproverID v) (tv_SubmittedAt v) (Some t)
        (tv_ApprovedAt v) (tv_PublishedAt v) v)
      tenantID templateID actor AuditReviewed
  else
    plift (CanTransition v VersionStatusDraft true);;
    save_version (set_tv_review VersionStatusDraft (tv_PendingReviewerRole v)
        (tv_PendingApproverRole v) (tv_ReviewerID v) (tv_ApproverID v) None (tv_ReviewedAt v)
        (tv_ApprovedAt v) (tv_PublishedAt v) v)
      tenantID templateID actor AuditRejected.

Definition Approve (tenantID actor : string) (roles : list string) (templateID : string) (n : Z)
    (accept : bool) : PM TemplateVersion :=
  template ← call (RepoGetTemplate tenantID templateID);
  v ← call (RepoGetVersion templateID n);
  let hasReviewer := bool_decide (is_Some (tv_PendingReviewerRole v)) in
  pguard (has_status (if hasReviewer then VersionStatusApproved else VersionStatusInReview) v)
    ErrInvalidStateTransition;;
  pguard (containsRole roles (tv_PendingApproverRole v)) ErrForbiddenRole;;
  plift (CheckSegregation "approver" actor (tv_AuthorID v) (tv_ReviewerID v));;
  t ← now;
  if accept then
    plift (CanTransition v VersionStatusPublished hasReviewer);;
    let published := set_tv_review VersionStatusPublished (tv_PendingReviewerRole v)
        (tv_PendingApproverRole v) (tv_ReviewerID v) (Some actor) (tv_SubmittedAt v)
        (tv_ReviewedAt v) (Some t) (Some t) v in
    call (RepoObsoletePreviousPublished templateID (tv_ID v));;
    call (RepoUpdateTemplate (set_te_PublishedVersionID (Some (tv_ID v)) template));;
    save_version published tenantID templateID actor AuditPublished
  else
    plift (CanTransition v VersionStatusDraft hasReviewer);;
    save_version (set_tv_review VersionStatusDraft (tv_PendingReviewerRole v)
        (tv_PendingApproverRole v) (tv_ReviewerID v) (tv_ApproverID v) None None None
        (tv_PublishedAt v) v)
      tenantID templateID actor AuditRejected.

Definition ArchiveTemplate (tenantID actor templateID : string) : PM Template :=
  template ← call (RepoGetTemplate tenantID templateID);
  if IsArchived template then mret template
  else
    t ← now;
    let template := set_te_ArchivedAt (Some t) template in
    call (RepoUpdateTemplate template);;
    audit tenantID templateID None actor AuditArchived;;
    mret template.

(** ** Approval configuration: [approval_config.go] *)

Definition UpsertApprovalConfig (tenantID actor templateID : string) (roles : list string)
    (reviewerRole : option string) (approverRole : string) : PM ApprovalConfig :=
  template ← call (RepoGetTemplate tenantID templateID);
  pguard (str_eqb (te_TenantID template) tenantID) ErrNotFound;;
  pguard (negb (IsArchived template)) ErrArchived;;
  let admin := containsRole roles "admin" in
  pguard (match te_PublishedVersionID template with
          | Some _ => admin
          | None => str_eqb (te_CreatedBy template) actor || admin
          end) ErrForbidden;;
  pguard (negb (str_eqb approverRole "")) ErrInvalidApprovalConfig;;
  let config := mkApprovalConfig templateID reviewerRole approverRole in
  call (RepoUpsertApprovalConfig config);;
  audit tenantID templateID None actor AuditApprovalConfigUpdated;;
  mret config.

(** ** Queries: [queries.go] *)

Definition GetTemplate (tenantID id : string) : PM Template :=
  t ← call (RepoGetTemplate tenantID id);
  pguard (str_eqb (te_TenantID t) tenantID) ErrNotFound;;
  mret t.

Definition GetVersion (tenantID templateID : string) (n : Z) : PM TemplateVersion :=
  GetTemplate tenantID templateID;;
  call (RepoGetVersion templateID n).

Definition ListTemplates (f : ListFilter) : PM (list Template) := call (RepoListTemplates f).

Definition ListAudit (tenantID templateID : string) (limit offset : Z) : PM (list AuditEvent) :=
  GetTemplate tenantID templateID;;
  call (RepoListAudit templateID limit offset).

Definition GetDocxURL (tenantID templateID : string) (n : Z) : PM string :=
  GetTemplate tenantID templateID;;
  v ← call (RepoGetVersion templateID n);
  pguard (negb (str_eqb (tv_DocxStorageKey v) "")) ErrUploadMissing;;
  call (PresignGET (tv_DocxStorageKey v)).
