(* ===== verification/TemplateRuns.v ===== *)
(** * Templates: runs

    What the operations answer ([run_op], the instance [ports]), the requests
    the service accepts and the program that serves each, and the two ways they
    run: histories and interleavings ([Programs]). *)
From S2P Require Import Prelude Tables Programs ProgramLogic ApprovalDomain ContentHash TemplateDomain.
From S2P Require Import TemplateRepo Templates.
From stdpp Require Import relations.
Local Open Scope Z_scope.

(** ** What an operation answers *)

Definition write (r : Result Store) (st : Store) : Result unit * Store :=
  match r with inl e => (inl e, st) | inr st' => (inr tt, st') end.

Section answers.
Context `{UuidText} `{SignedURL}.

(** The answer at time [t]; [u] is the UUID drawn, if one is. *)
Definition run_op {B} (o : Op B) (t : Time) (u : string) (st : Store) : Result B * Store :=
  match o in Op B return Result B * Store with
  | RepoCreateTemplate x => write (TemplateRepo.CreateTemplate x st) st
  | RepoGetTemplate tenant id => (TemplateRepo.GetTemplate tenant id st, st)
  | RepoGetTemplateByKey tenant key => (GetTemplateByKey tenant key st, st)
  | RepoListTemplates f => (TemplateRepo.ListTemplates f st, st)
  | RepoUpdateTemplate x => write (UpdateTemplate x st) st
  | RepoCreateVersion v => write (CreateVersion v st) st
  | RepoGetVersion tid n => (TemplateRepo.GetVersion tid n st, st)
  | RepoGetVersionByID id => (GetVersionByID id st, st)
  | RepoUpdateVersion v => write (UpdateVersion v st) st
  | RepoObsoletePreviousPublished tid keep => write (ObsoletePreviousPublished t tid keep st) st
  | RepoGetApprovalConfig tid => (GetApprovalConfig tid st, st)
  | RepoUpsertApprovalConfig c => write (TemplateRepo.UpsertApprovalConfig c st) st
  | RepoAppendAudit e => write (AppendAudit e st) st
  | RepoListAudit tid l o => (TemplateRepo.ListAudit tid l o st, st)
  | PresignPUT key => (inr (signed_url "PUT" key), st)
  | PresignGET key => (inr (signed_url "GET" key), st)
  | PresignHeadContentHash key => (HeadContentHash key st, st)
  | PresignDelete key => write (TemplateRepo.Delete key st) st
  | ClockNow => (inr t, st)
  | UUIDNew => (inr u, st)
  end.

(** Whatever goes to the database or the object store may fail: a lost
    connection, a context that is done, a limit of the server. Clock and
    UUIDs do not. *)
Definition may_fail {B} (o : Op B) : bool :=
  match o with ClockNow | UUIDNew => false | _ => true end.

#[export] Instance ports : Ports Op Store string :=
  {| step := @run_op; fallible := @may_fail |}.
End answers.

(** ** Requests *)

Inductive Call :=
  | CallCreateTemplate (cmd : CreateTemplateCmd)
  | CallCreateNextVersion (tenantID actor templateID : string)
  | CallPresignAutosave (tenantID templateID : string) (n : Z)
  | CallCommitAutosave (tenantID actor templateID : string) (n : Z) (expected : string)
  | CallUpdateSchemas (tenantID actor templateID : string) (n : Z) (metadata : MetadataSchema)
      (phs : list Placeholder) (expected : string)
  | CallSubmitForReview (tenantID actor templateID : string) (n : Z)
  | CallReview (tenantID actor : string) (roles : list string) (templateID : string) (n : Z)
      (accept : bool)
  | CallApprove (tenantID actor : string) (roles : list string) (templateID : string) (n : Z)
      (accept : bool)
  | CallArchiveTemplate (tenantID actor templateID : string)
  | CallUpsertApprovalConfig (tenantID actor templateID : string) (roles : list string)
      (reviewerRole : option string) (approverRole : string)
  | CallGetTemplate (tenantID id : string)
  | CallGetVersion (tenantID templateID : string) (n : Z)
  | CallListTemplates (f : ListFilter)
  | CallListAudit (tenantID templateID : string) (limit offset : Z)
  | CallGetDocxURL (tenantID templateID : string) (n : Z).

Inductive Reply :=
  | ReplyTemplate (t : Template)
  | ReplyVersion (v : TemplateVersion)
  | ReplyCreated (t : Template) (v : TemplateVersion)
  | ReplyUpload (url key : string) (expires : Time)
  | ReplyConfig (c : ApprovalConfig)
  | ReplyTemplates (l : list Template)
  | ReplyAudit (l : list AuditEvent)
  | ReplyURL (url : string).

Section requests.
Context `{UuidText} `{SignedURL} `{RegexpSyntax}.

Definition serve (c : Call) : PM Reply :=
  match c with
  | CallCreateTemplate cmd =>
      r ← CreateTemplate cmd; mret (ReplyCreated r.1 r.2)
  | CallCreateNextVersion tenant actor tid =>
      v ← CreateNextVersion tenant actor tid; mret (ReplyVersion v)
  | CallPresignAutosave tenant tid n =>
      r ← PresignAutosave tenant tid n; mret (ReplyUpload r.1.1 r.1.2 r.2)
  | CallCommitAutosave tenant actor tid n expected =>
      v ← CommitAutosave tenant actor tid n expected; mret (ReplyVersion v)
  | CallUpdateSchemas tenant actor tid n metadata phs expected =>
      v ← UpdateSchemas None tenant actor tid n metadata phs expected; mret (ReplyVersion v)
  | CallSubmitForReview tenant actor tid n =>
      v ← SubmitForReview tenant actor tid n; mret (ReplyVersion v)
  | CallReview tenant actor roles tid n accept =>
      v ← Review tenant actor roles tid n accept; mret (ReplyVersion v)
  | CallApprove tenant actor roles tid n accept =>
      v ← Approve tenant actor roles tid n accept; mret (ReplyVersion v)
  | CallArchiveTemplate tenant actor tid =>
      t ← ArchiveTemplate tenant actor tid; mret (ReplyTemplate t)
  | CallUpsertApprovalConfig tenant actor tid roles reviewer approver =>
      c ← UpsertApprovalConfig tenant actor tid roles reviewer approver; mret (ReplyConfig c)
  | CallGetTemplate tenant id => t ← GetTemplate tenant id; mret (ReplyTemplate t)
  | CallGetVersion tenant tid n => v ← GetVersion tenant tid n; mret (ReplyVersion v)
  | CallListTemplates f => l ← ListTemplates f; mret (ReplyTemplates l)
  | CallListAudit tenant tid limit offset =>
      l ← ListAudit tenant tid limit offset; mret (ReplyAudit l)
  | CallGetDocxURL tenant tid n => u ← GetDocxURL tenant tid n; mret (ReplyURL u)
  end.

(** A client puts an object through a URL it was given. *)
Definition upload (key content : string) (st : Store) : Store :=
  with_objects (<[key := content]> (st_objects st)) st.

Definition uploads (st st' : Store) : Prop := exists key content, st' = upload key content st.
End requests.

(** Histories and interleavings of requests, clients uploading in between. *)
Abbreviation turn := (Programs.turn serve uploads).
Abbreviation history := (Programs.history serve uploads).
Abbreviation Pool := (Programs.Pool (Op := Op) (St := Store) (Reply := Reply)).
Abbreviation pool_step := (Programs.pool_step serve uploads).
Abbreviation interleaved := (Programs.interleaved serve uploads).

(** * Templates: the program logic

    The rules of [ProgramLogic] for the operations of the template services. *)

Section wp.
Context `{UuidText} `{SignedURL} (P : Protocol Store).
Context `{!PreOrder (pr_guar P)}.

(** Writing: a statement that succeeds or changes nothing. *)
Lemma wpe_write (o : Op unit) (f : Time -> Store -> Result Store) (Q : unit -> Store -> Prop) st :
  (forall t u st', run_op o t u st' = write (f t st') st') ->
  (forall st1 t st2, pr_rely P st st1 -> pr_inv P st1 -> f t st1 = inr st2 ->
     pr_inv P st2 /\ pr_guar P st1 st2 /\ Q tt st2) ->
  wpe P (call o) Q st.
Proof.
  intros Ho HQ. apply (wpe_call P). intros st1 t u r st2 Hr Hi. change (step o t u st1) with (run_op o t u st1). rewrite Ho. unfold write.
  destruct (f t st1) as [e|st'] eqn:Hf; intros [= <- <-].
  - split_and!; [done|reflexivity|done].
  - by eapply HQ.
Qed.

Lemma wpe_now (Q : Time -> Store -> Prop) st :
  (forall t st1, pr_rely P st st1 -> pr_inv P st1 -> Q t st1) -> wpe P now Q st.
Proof.
  intros HQ. apply (wpe_call P). intros st1 t u r st2 Hr Hi [= <- <-].
  split_and!; [done|reflexivity|by apply HQ].
Qed.

Lemma wpe_new_uuid (Q : string -> Store -> Prop) st :
  (forall u st1, pr_rely P st st1 -> pr_inv P st1 -> Q u st1) -> wpe P new_uuid Q st.
Proof.
  intros HQ. apply (wpe_call P). intros st1 t u r st2 Hr Hi [= <- <-].
  split_and!; [done|reflexivity|by apply HQ].
Qed.

End wp.
