(* ===== verification/TemplateSafety.v ===== *)
(** * Templates: what holds under any interleaving

    Whatever the requests, however their operations interleave, whichever of
    them fail and wherever a process dies: the keys of the tables, and in every
    stored version the segregation of duties, the marks its status calls for
    and a placeholder schema that passes validation. *)
From S2P Require Import Prelude Tables Programs ProgramLogic ApprovalDomain ContentHash TemplateDomain PlaceholderFacts TemplateRepo Templates TemplateRuns.
From stdpp Require Import relations.
Local Open Scope Z_scope.

(** ** Rows keep their identity *)

Record same_key (v v' : TemplateVersion) : Prop := {
  key_id : tv_ID v' = tv_ID v;
  key_template : tv_TemplateID v' = tv_TemplateID v;
  key_number : tv_VersionNumber v' = tv_VersionNumber v;
  key_author : tv_AuthorID v' = tv_AuthorID v;
  key_created : tv_CreatedAt v' = tv_CreatedAt v
}.

#[export] Instance same_key_preorder : PreOrder same_key.
Proof. split; [by intros v|]. intros v1 v2 v3 [] []. split; congruence. Qed.

Record same_template (t t' : Template) : Prop := {
  template_id : te_ID t' = te_ID t;
  template_tenant : te_TenantID t' = te_TenantID t;
  template_creator : te_CreatedBy t' = te_CreatedBy t
}.

#[export] Instance same_template_preorder : PreOrder same_template.
Proof. split; [by intros t|]. intros t1 t2 t3 [] []. split; congruence. Qed.

Record extends (st st' : Store) : Prop := {
  extends_versions : grows same_key (st_versions st) (st_versions st');
  extends_templates : grows same_template (st_templates st) (st_templates st')
}.

#[export] Instance extends_preorder : PreOrder extends.
Proof.
  split; [intros st; split; reflexivity|].
  intros st1 st2 st3 [] []. split; by etrans.
Qed.

(** A version a program holds in memory comes from a row. *)
Definition known (v : TemplateVersion) (st : Store) : Prop :=
  exists row, row ∈ st_versions st /\ same_key row v.

Lemma known_extends v st st' : extends st st' -> known v st -> known v st'.
Proof.
  intros [(l1 & new & Heq & HF) _] (row & Hrow & Hk).
  destruct (updated_forall _ _ _ HF row Hrow) as (row' & Hrow' & Hk').
  exists row'. rewrite Heq. split; [set_solver|]. destruct Hk, Hk'. split; congruence.
Qed.

(** ** What a stored version satisfies *)

Definition open_status (s : VersionStatus) : Prop :=
  s = VersionStatusDraft \/ s = VersionStatusInReview \/ s = VersionStatusApproved.

Record version_ok `{RegexpSyntax} (v : TemplateVersion) : Prop := {
  (** Segregation of duties: author, reviewer and approver differ. *)
  reviewer_not_author : forall r, tv_ReviewerID v = Some r -> r <> tv_AuthorID v;
  approver_distinct : forall a, tv_ApproverID v = Some a ->
    a <> tv_AuthorID v /\ tv_ReviewerID v <> Some a;
  (** The marks of each status. *)
  submitted_marked : tv_Status v = VersionStatusInReview \/ tv_Status v = VersionStatusApproved ->
    is_Some (tv_SubmittedAt v);
  approved_reviewed : tv_Status v = VersionStatusApproved ->
    is_Some (tv_PendingReviewerRole v) /\ is_Some (tv_ReviewerID v) /\ is_Some (tv_ReviewedAt v);
  released_approved : tv_Status v = VersionStatusPublished \/ tv_Status v = VersionStatusObsolete ->
    is_Some (tv_ApproverID v) /\ is_Some (tv_PublishedAt v)
    /\ (is_Some (tv_PendingReviewerRole v) -> is_Some (tv_ReviewerID v));
  open_unapproved : open_status (tv_Status v) -> tv_ApproverID v = None;
  (** The schema is one the validation accepts. *)
  schema_valid : schema_ok (tv_PlaceholderSchema v);
  options_valid : validate_options (tv_PlaceholderSchema v) = inr tt
}.

Definition version_key (v : TemplateVersion) : string * Z := (tv_TemplateID v, tv_VersionNumber v).

Record tables_ok `{UuidText} `{RegexpSyntax} (st : Store) : Prop := {
  version_ids : NoDup (tv_ID <$> st_versions st);
  version_ids_canonical : Forall (fun v => uuid_in (tv_ID v) = Some (tv_ID v)) (st_versions st);
  version_numbers : NoDup (version_key <$> st_versions st);
  version_rows : Forall version_ok (st_versions st);
  template_ids : NoDup (te_ID <$> st_templates st);
  template_ids_canonical : Forall (fun t => uuid_in (te_ID t) = Some (te_ID t)) (st_templates st)
}.

(** ** Effects of the statements *)

(** The row of [v] becomes [v], the others stay. *)
Definition replaced (v row row' : TemplateVersion) : Prop :=
  (tv_ID row = tv_ID v /\ same_key row v /\ row' = v) \/ (tv_ID row <> tv_ID v /\ row' = row).

Definition appended {A} (x : A) (l l' : list A) : Prop := l' = l ++ [x].

Lemma version_columns_known v row : same_key row v -> version_columns v row = v.
Proof. destruct v, row. intros []. simpl in *. by subst. Qed.

Lemma fmap_grows_update {A B} (f : A -> B) (R : A -> A -> Prop) l l' :
  (forall x y, R x y -> f y = f x) -> Forall2 R l l' -> f <$> l' = f <$> l.
Proof. intros Hf. induction 1; [done|]. rewrite !fmap_cons. f_equal; auto. Qed.

Lemma must_affect_ok {A} (r : Result (Z * A)) a :
  must_affect r = inr a -> exists n, r = inr (n, a) /\ n <> 0.
Proof.
  destruct r as [|[n a']]; [done|]. simpl. destruct (Z.eqb_spec n 0); [done|]. naive_solver.
Qed.

Lemma selected_row_ok {A} (cond : A -> bool) l a :
  query_row (select_one cond l) = inr a -> a ∈ l /\ cond a = true.
Proof.
  unfold query_row, select_one. destruct (bfilter cond l) as [|x k] eqn:Hb; [done|].
  intros [= <-]. assert (x ∈ bfilter cond l) as Hx by (rewrite Hb; left).
  apply elem_of_bfilter in Hx. tauto.
Qed.

(** Take apart a statement that succeeded. *)
Ltac results :=
  repeat match goal with
  | Hr : match ?r with inl _ => _ | inr _ => _ end = inr _ |- _ =>
      let Heq := fresh "Hr" in destruct r eqn:Heq; [discriminate Hr|]
  | Hr : uuid_param _ = inr _ |- _ => apply uuid_param_ok in Hr
  | Hr : int4_param _ = inr _ |- _ => apply int4_param_ok in Hr; subst
  | Hr : query_row _ = inr _ |- _ => apply selected_row_ok in Hr as [? ?]
  | Hr : map_error _ _ = inr _ |- _ => apply map_error_ok in Hr
  | Hr : must_affect _ = inr _ |- _ => apply must_affect_ok in Hr as (? & Hr & _)
  | Hr : inr _ = inr _ |- _ => injection Hr as Hr
  | Hr : constraint _ _ = inr _ |- _ => apply constraint_ok in Hr
  end.

(** ** What the reads return *)

Lemma GetVersion_ok `{UuidText} tid n st v :
  TemplateRepo.GetVersion tid n st = inr v ->
  v ∈ st_versions st /\ uuid_in tid = Some (tv_TemplateID v) /\ tv_VersionNumber v = n.
Proof.
  unfold TemplateRepo.GetVersion. intros Hg. results. bool_to_prop. subst.
  split_and!; [done..|]. by apply Z.eqb_eq.
Qed.

Lemma GetVersionByID_ok `{UuidText} id st v :
  GetVersionByID id st = inr v -> v ∈ st_versions st /\ uuid_in id = Some (tv_ID v).
Proof. unfold GetVersionByID. intros Hg. results. bool_to_prop. by subst. Qed.

Lemma GetTemplate_ok `{UuidText} tenant id st t :
  TemplateRepo.GetTemplate tenant id st = inr t ->
  t ∈ st_templates st /\ uuid_in id = Some (te_ID t) /\ te_TenantID t = tenant.
Proof. unfold TemplateRepo.GetTemplate. intros Hg. results. bool_to_prop. by subst. Qed.

Lemma GetApprovalConfig_ok `{UuidText} tid st c :
  GetApprovalConfig tid st = inr c -> c ∈ st_configs st /\ uuid_in tid = Some (ac_TemplateID c).
Proof. unfold GetApprovalConfig. intros Hg. results. bool_to_prop. by subst. Qed.

Section effects.
Context `{UuidText} `{!UuidLaws} `{RegexpSyntax}.

Lemma UpdateVersion_ok v st st' :
  UpdateVersion v st = inr st' -> tables_ok st -> known v st ->
  exists rows, st' = with_versions rows st /\ Forall2 (replaced v) (st_versions st) rows.
Proof.
  unfold UpdateVersion. intros HU Hok (row & Hrow & Hk).
  destruct (uuid_param (tv_ID v)) as [|id] eqn:Hid; [done|].
  destruct (must_affect _) as [|rows] eqn:Hu; [done|]. injection HU as <-.
  apply must_affect_ok in Hu as (n & Hu & _). apply update_where_ok in Hu as [HF _].
  exists rows. split; [done|].
  apply uuid_param_ok in Hid. pose proof (version_ids_canonical _ Hok) as Hcan.
  rewrite Forall_forall in Hcan. pose proof (Hcan row Hrow) as Hcr.
  rewrite (key_id _ _ Hk), Hcr in Hid. injection Hid as <-.
  apply Forall2_lookup. intros i. rewrite Forall2_lookup in HF. specialize (HF i).
  destruct (st_versions st !! i) as [r|] eqn:Hr, (rows !! i) as [r'|]; inversion HF as [? ? Hup|];
    subst; constructor. unfold updated in Hup. destruct (str_eqb (tv_ID r) (tv_ID row)) eqn:Heq.
  - apply str_eqb_true in Heq. injection Hup as <-. apply list_elem_of_lookup_2 in Hr.
    assert (r = row) as -> by (eapply (NoDup_fmap_inj tv_ID); [by apply version_ids|done..]).
    left. rewrite (version_columns_known _ _ Hk). split_and!; [|done|done]. symmetry. apply Hk.
  - apply str_eqb_false in Heq. right. split; [|done]. rewrite (key_id _ _ Hk). done.
Qed.

Lemma CreateVersion_ok v st st' :
  CreateVersion v st = inr st' ->
  exists id tid, uuid_in (tv_ID v) = Some id /\ uuid_in (tv_TemplateID v) = Some tid
    /\ st' = with_versions (st_versions st ++ [set_tv_key id tid v]) st
    /\ (id ∉ tv_ID <$> st_versions st)
    /\ ((tid, tv_VersionNumber v) ∉ version_key <$> st_versions st)
    /\ tid ∈ (te_ID <$> st_templates st).
Proof.
  unfold CreateVersion. intros HC. results.
  match goal with H1 : uuid_in (tv_ID v) = Some ?i, H2 : uuid_in (tv_TemplateID v) = Some ?j |- _ =>
    exists i, j end.
  bool_to_prop. subst. split_and!; try done.
  - intros (r & Hx & Hw)%elem_of_map_inv.
    pose proof (existsb_false_elem _ _ _ Hr2 Hx) as Hf. simpl in Hf. bool_to_prop. congruence.
  - intros (r & Hx & [=])%elem_of_map_inv. simplify_eq.
    pose proof (existsb_false_elem _ _ _ Hr3 Hx) as Hf. simpl in Hf.
    replace (tv_VersionNumber v) with (tv_VersionNumber r) in Hf.
    rewrite str_eqb_refl, Z.eqb_refl in Hf. done.
  - destruct (existsb_true_elem _ _ ltac:(eassumption)) as (t & Ht & Heq%str_eqb_true).
    rewrite <- Heq. by apply list_elem_of_fmap_2.
Qed.

Lemma ObsoletePreviousPublished_ok t tid keep st st' :
  ObsoletePreviousPublished t tid keep st = inr st' ->
  exists tid' keep' rows, uuid_in tid = Some tid' /\ uuid_in keep = Some keep'
    /\ st' = with_versions rows st
    /\ Forall2 (fun v v' => v' =
         if str_eqb (tv_TemplateID v) tid' && bool_decide (tv_Status v = VersionStatusPublished)
            && negb (str_eqb (tv_ID v) keep') then set_obsolete t v else v) (st_versions st) rows.
Proof.
  unfold ObsoletePreviousPublished. intros HO. results.
  match goal with H1 : uuid_in tid = Some ?i, H2 : uuid_in keep = Some ?j |- _ => exists i, j end.
  destruct p as [n rows]. exists rows. split_and!; try done.
  match goal with Hu : update_where _ _ _ = _ |- _ => apply update_where_ok in Hu as [HF _] end.
  eapply Forall2_impl; [exact HF|]. intros v v' Hu. unfold updated in Hu.
  destruct (_ && _ && _); congruence.
Qed.

Lemma CreateTemplate_ok t st st' :
  TemplateRepo.CreateTemplate t st = inr st' ->
  exists id pub, uuid_in (te_ID t) = Some id
    /\ uuid_param_opt (te_PublishedVersionID t) = inr pub
    /\ st' = with_templates (st_templates st ++ [set_te_PublishedVersionID pub (set_te_ID id t)]) st
    /\ (id ∉ te_ID <$> st_templates st).
Proof.
  unfold TemplateRepo.CreateTemplate. intros HC. results.
  do 2 eexists. bool_to_prop. subst. split_and!; [done..|].
  intros (r & Hx & Hw)%elem_of_map_inv.
  pose proof (existsb_false_elem _ _ _ Hr1 Hx) as Hf. simpl in Hf.
  bool_to_prop. congruence.
Qed.

Lemma UpdateTemplate_ok t st st' :
  TemplateRepo.UpdateTemplate t st = inr st' ->
  exists id pub rows, uuid_in (te_ID t) = Some id
    /\ uuid_param_opt (te_PublishedVersionID t) = inr pub
    /\ st' = with_templates rows st
    /\ Forall2 (fun r r' => r' = if str_eqb (te_ID r) id && str_eqb (te_TenantID r) (te_TenantID t)
                                then template_columns t pub r else r) (st_templates st) rows.
Proof.
  unfold TemplateRepo.UpdateTemplate. intros HU. results.
  do 3 eexists. split_and!; [done..|].
  match goal with Hu : update_where _ _ _ = _ |- _ => apply update_where_ok in Hu as [HF _] end.
  eapply Forall2_impl; [exact HF|]. intros r r' Hu. unfold updated in Hu.
  destruct (_ && _); [|done]. results. done.
Qed.
End effects.

(** ** The invariant is kept *)

Lemma same_version_key v v' : same_key v v' -> version_key v' = version_key v.
Proof. intros []. unfold version_key. congruence. Qed.

Section kept.
Context `{UuidText} `{!UuidLaws} `{RegexpSyntax}.

Lemma tables_ok_versions st rows :
  tables_ok st -> Forall2 same_key (st_versions st) rows -> Forall version_ok rows ->
  tables_ok (with_versions rows st) /\ extends st (with_versions rows st).
Proof.
  intros Hok HF Hrows. split; [|split; [by apply grows_update|reflexivity]].
  destruct Hok as [Hids Hcan Hnum _ Htid Htcan]. split; simpl; try done.
  - by rewrite (fmap_grows_update _ same_key _ _ key_id HF).
  - clear -Hcan HF. induction HF as [|v v' l l' Hk _ IH]; [constructor|].
    apply Forall_cons in Hcan as [Hv Hl]. constructor; [|by apply IH]. by rewrite (key_id _ _ Hk).
  - by rewrite (fmap_grows_update _ same_key _ _ same_version_key HF).
Qed.

Lemma tables_ok_replaced v st rows :
  tables_ok st -> version_ok v -> Forall2 (replaced v) (st_versions st) rows ->
  tables_ok (with_versions rows st) /\ extends st (with_versions rows st).
Proof.
  intros Hok Hv HF. apply tables_ok_versions; [done| |].
  - eapply Forall2_impl; [exact HF|]. intros r r' [(_ & Hk & ->)|[_ ->]]; [done|reflexivity].
  - pose proof (version_rows _ Hok) as Hrows. clear -Hv HF Hrows.
    induction HF as [|r r' l l' Hr _ IH]; [constructor|]. apply Forall_cons in Hrows as [Hx Hl].
    constructor; [|by apply IH]. by destruct Hr as [(_ & _ & ->)|[_ ->]].
Qed.

Lemma version_ok_key id tid v : version_ok v -> version_ok (set_tv_key id tid v).
Proof. by intros []. Qed.

Lemma version_ok_obsolete t v :
  version_ok v -> tv_Status v = VersionStatusPublished -> version_ok (set_obsolete t v).
Proof.
  intros [] Hs. split; simpl; try done; try (intros [|]; done).
  - intros _. apply released_approved0. by left.
  - by intros [|[|]].
Qed.

Lemma CreateVersion_kept v st st' :
  CreateVersion v st = inr st' -> tables_ok st -> version_ok v -> tables_ok st' /\ extends st st'.
Proof.
  intros (id & tid & Hid & Htid & -> & Hnew & Hnum & _)%CreateVersion_ok Hok Hv.
  split; [|split; [apply grows_append; tc_solve|reflexivity]].
  destruct Hok as [Hids Hcan Hnums Hrows Htids Htcan]. split; simpl; try done.
  - rewrite fmap_app. by apply NoDup_snoc.
  - apply Forall_app. split; [done|]. apply Forall_singleton. simpl. by eapply uuid_in_canonical.
  - rewrite fmap_app. by apply NoDup_snoc.
  - apply Forall_app. split; [done|]. apply Forall_singleton. by apply version_ok_key.
Qed.

Lemma ObsoletePreviousPublished_kept t tid keep st st' :
  ObsoletePreviousPublished t tid keep st = inr st' -> tables_ok st ->
  tables_ok st' /\ extends st st'.
Proof.
  intros (tid' & keep' & rows & _ & _ & -> & HF)%ObsoletePreviousPublished_ok Hok.
  apply tables_ok_versions; [done| |].
  - eapply Forall2_impl; [exact HF|]. intros v v' ->. destruct (_ && _ && _); [by split|reflexivity].
  - pose proof (version_rows _ Hok) as Hrows. clear -HF Hrows.
    induction HF as [|v v' l l' -> _ IH]; [constructor|]. apply Forall_cons in Hrows as [Hx Hl].
    constructor; [|by apply IH]. destruct (_ && _ && _) eqn:Hb; [|done].
    bool_to_prop. by apply version_ok_obsolete.
Qed.

Lemma tables_ok_templates st rows :
  tables_ok st -> Forall2 same_template (st_templates st) rows ->
  tables_ok (with_templates rows st) /\ extends st (with_templates rows st).
Proof.
  intros Hok HF. split; [|split; [reflexivity|by apply grows_update]].
  destruct Hok as [Hids Hcan Hnum Hrows Htid Htcan]. split; simpl; try done.
  - by rewrite (fmap_grows_update _ same_template _ _ template_id HF).
  - clear -Htcan HF. induction HF as [|v v' l l' Hk _ IH]; [constructor|].
    apply Forall_cons in Htcan as [Hv Hl]. constructor; [|by apply IH]. by rewrite (template_id _ _ Hk).
Qed.

Lemma CreateTemplate_kept t st st' :
  TemplateRepo.CreateTemplate t st = inr st' -> tables_ok st -> tables_ok st' /\ extends st st'.
Proof.
  intros (id & pub & Hid & _ & -> & Hnew)%CreateTemplate_ok Hok.
  split; [|split; [reflexivity|apply grows_append; tc_solve]].
  destruct Hok as [Hids Hcan Hnums Hrows Htids Htcan]. split; simpl; try done.
  - rewrite fmap_app. by apply NoDup_snoc.
  - apply Forall_app. split; [done|]. apply Forall_singleton. simpl. by eapply uuid_in_canonical.
Qed.

Lemma UpdateTemplate_kept t st st' :
  TemplateRepo.UpdateTemplate t st = inr st' -> tables_ok st -> tables_ok st' /\ extends st st'.
Proof.
  intros (id & pub & rows & _ & _ & -> & HF)%UpdateTemplate_ok Hok.
  apply tables_ok_templates; [done|]. eapply Forall2_impl; [exact HF|].
  intros r r' ->. destruct (_ && _); [by split|reflexivity].
Qed.

(** Statements that touch neither versions nor templates. *)
Lemma tables_ok_others st st' :
  st_versions st' = st_versions st -> st_templates st' = st_templates st ->
  tables_ok st -> tables_ok st' /\ extends st st'.
Proof.
  intros Hv Ht [Hids Hcan Hnums Hrows Htids Htcan]. split; split; rewrite ?Hv, ?Ht; try done; reflexivity.
Qed.
End kept.

(** ** The services keep it *)

Section served.
Context `{UuidText} `{!UuidLaws} `{SignedURL} `{RegexpSyntax}.

Definition interleaving : Protocol Store := mkProtocol extends extends tables_ok.

#[local] Instance interleaving_rely : PreOrder (pr_rely interleaving).
Proof. apply extends_preorder. Qed.
#[local] Instance interleaving_guar : PreOrder (pr_guar interleaving).
Proof. apply extends_preorder. Qed.

(** [m] may run among the others, from any state. *)
Definition upholds {A} (m : PM A) : Prop := forall st, wpe interleaving m (fun _ _ => True) st.

Lemma upholds_bind {A B} (m : PM A) (f : A -> PM B) :
  upholds m -> (forall a, upholds (f a)) -> upholds (mbind f m).
Proof.
  intros Hm Hf st. apply wpe_bind. eapply wp_mono; [|exact (Hm st)].
  intros [e|a] st' _; [done|]. apply Hf.
Qed.

Lemma upholds_ret {A} (a : A) : upholds (mret a).
Proof. done. Qed.

Lemma upholds_fail {A} e : upholds (fail e : PM A).
Proof. done. Qed.

Lemma upholds_guard b e : upholds (pguard b e).
Proof. intros st. by apply wpe_guard. Qed.

(** A failed or a read-only operation. *)
Lemma upholds_read {B} (o : Op B) (f : Store -> Result B) :
  (forall t u st', run_op o t u st' = (f st', st')) -> upholds (call o).
Proof. intros Ho st. eapply (wpe_read interleaving); [exact Ho|done]. Qed.

Lemma upholds_write (o : Op unit) (f : Time -> Store -> Result Store) :
  (forall t u st', run_op o t u st' = write (f t st') st') ->
  (forall t st1 st2, f t st1 = inr st2 -> tables_ok st1 -> tables_ok st2 /\ extends st1 st2) ->
  upholds (call o).
Proof.
  intros Ho Hf st. eapply (wpe_write interleaving); [done|]. intros st1 t st2 _ Hok Hw.
  destruct (Hf t st1 st2 Hw Hok) as [? ?]. done.
Qed.

Lemma upholds_now : upholds now.
Proof. intros st. by apply (wpe_now interleaving). Qed.

Lemma upholds_new_uuid : upholds new_uuid.
Proof. intros st. by apply (wpe_new_uuid interleaving). Qed.

Lemma upholds_audit tenant tid vid actor action : upholds (audit tenant tid vid actor action).
Proof.
  apply upholds_bind; [apply upholds_now|intros t]. eapply (upholds_write _ (fun _ => AppendAudit _)); [done|].
  intros t' st1 st2. unfold AppendAudit. intros Ha Hok. results. subst.
  by apply tables_ok_others.
Qed.

Lemma known_row v st : v ∈ st_versions st -> known v st.
Proof. intros Hv. by exists v. Qed.

Lemma row_ok v st : tables_ok st -> v ∈ st_versions st -> version_ok v.
Proof. intros Hok. apply Forall_forall, version_rows, Hok. Qed.

Lemma wpe_get_version tid n (Q : TemplateVersion -> Store -> Prop) st :
  (forall v st1, known v st1 -> version_ok v -> Q v st1) ->
  wpe interleaving (call (RepoGetVersion tid n)) Q st.
Proof.
  intros HQ. eapply (wpe_read interleaving); [done|]. intros st1 v _ Hok (Hv & _ & _)%GetVersion_ok.
  apply HQ; [by apply known_row|by eapply row_ok].
Qed.

Lemma wpe_load_version tenant tid n (Q : TemplateVersion -> Store -> Prop) st :
  (forall v st1, known v st1 -> version_ok v -> Q v st1) ->
  wpe interleaving (load_version tenant tid n) Q st.
Proof.
  intros HQ. apply wpe_bind. eapply (wpe_read interleaving); [done|]. intros st1 t _ _ _. by apply wpe_get_version.
Qed.

(** Saving a version that comes from a row and satisfies [version_ok]. *)
Lemma wpe_update_version v (Q : unit -> Store -> Prop) st :
  known v st -> version_ok v -> (forall st1, known v st1 -> Q tt st1) ->
  wpe interleaving (call (RepoUpdateVersion v)) Q st.
Proof.
  intros Hk Hv HQ. eapply (wpe_write interleaving _ (fun _ => UpdateVersion v)); [done|].
  intros st1 t st2 Hr Hok Hu. pose proof (known_extends _ _ _ Hr Hk) as Hk1.
  destruct (UpdateVersion_ok _ _ _ Hu Hok Hk1) as (rows & -> & HF).
  destruct (tables_ok_replaced _ _ _ Hok Hv HF) as [Hok' Hext].
  split_and!; [done|done|]. apply HQ. by eapply known_extends.
Qed.

Lemma wpe_save_version v tenant tid actor action st :
  known v st -> version_ok v ->
  wpe interleaving (save_version v tenant tid actor action) (fun _ _ => True) st.
Proof.
  intros Hk Hv. apply wpe_bind, wpe_update_version; [done..|]. intros st1 _.
  apply upholds_bind; [apply upholds_audit|by intros]. 
Qed.

(** Changing what is not part of the key. *)
Lemma known_changed v v' st : same_key v v' -> known v st -> known v' st.
Proof. intros Hk (row & Hrow & Hk'). exists row. split; [done|]. by etrans. Qed.

Lemma CheckSegregation_reviewer actor author u :
  CheckSegregation "reviewer" actor author None = inr u -> actor <> author.
Proof. unfold CheckSegregation. simpl. destruct (str_eqb actor author) eqn:He; [done|]. by bool_to_prop. Qed.

Lemma CheckSegregation_approver actor author reviewer u :
  CheckSegregation "approver" actor author reviewer = inr u ->
  actor <> author /\ reviewer <> Some actor.
Proof.
  unfold CheckSegregation. simpl. destruct (str_eqb actor author) eqn:He; [done|].
  destruct reviewer as [r|]; [destruct (str_eqb actor r) eqn:Hr; [done|]|]; intros _;
    bool_to_prop; split; congruence.
Qed.

(** An operation that keeps the tables in order, seen from what is known. *)
Lemma wpe_upholds {A} (m : PM A) v (Q : A -> Store -> Prop) st :
  upholds m -> known v st -> (forall a st1, known v st1 -> Q a st1) -> wpe interleaving m Q st.
Proof.
  intros Hm Hk HQ. pose proof (proj1 (wpe_true interleaving m st) (Hm st)) as Hwp.
  apply (wp_frame interleaving) in Hwp; [|tc_solve|done]. eapply wp_mono; [|exact Hwp].
  intros [e|a] st1 Hr; [done|]. apply HQ. by eapply known_extends.
Qed.

Lemma upholds_update_template t : upholds (call (RepoUpdateTemplate t)).
Proof.
  eapply (upholds_write _ (fun _ => UpdateTemplate t)); [done|]. intros ? ? ? Hw Hok.
  by eapply UpdateTemplate_kept.
Qed.

Lemma upholds_obsolete tid keep : upholds (call (RepoObsoletePreviousPublished tid keep)).
Proof.
  eapply (upholds_write _ (fun t => ObsoletePreviousPublished t tid keep)); [done|].
  intros ? ? ? Hw Hok. by eapply ObsoletePreviousPublished_kept.
Qed.

Lemma upholds_create_version v : version_ok v -> upholds (call (RepoCreateVersion v)).
Proof.
  intros Hv. eapply (upholds_write _ (fun _ => CreateVersion v)); [done|]. intros ? ? ? Hw Hok.
  by eapply CreateVersion_kept.
Qed.

Lemma upholds_create_template t : upholds (call (RepoCreateTemplate t)).
Proof.
  eapply (upholds_write _ (fun _ => TemplateRepo.CreateTemplate t)); [done|]. intros ? ? ? Hw Hok.
  by eapply CreateTemplate_kept.
Qed.

Lemma upholds_config c : upholds (call (RepoUpsertApprovalConfig c)).
Proof.
  eapply (upholds_write _ (fun _ => TemplateRepo.UpsertApprovalConfig c)); [done|].
  intros _ st1 st2. unfold TemplateRepo.UpsertApprovalConfig. intros Hu Hok. results.
  case_match; results; subst; by apply tables_ok_others.
Qed.

Lemma upholds_attempt_read {B} (o : Op B) (f : Store -> Result B) :
  (forall t u st', run_op o t u st' = (f st', st')) -> upholds (attempt o).
Proof.
  intros Ho st. apply (wpe_attempt interleaving); [done|]. intros st1 t u r st2 _ Hok. change (step o t u st1) with (run_op o t u st1). rewrite Ho. intros [= <- <-].
  by split_and!.
Qed.

(** The guard on the status, then the rest with what it says. *)
Lemma wpe_status {A} s v e (k : unit -> PM A) (Q : A -> Store -> Prop) st :
  (tv_Status v = s -> wpe interleaving (k tt) Q st) ->
  wpe interleaving (pguard (has_status s v) e ≫= k) Q st.
Proof.
  intros Hk. apply wpe_bind, wpe_guard. intros Hs. apply Hk. by apply bool_decide_eq_true in Hs.
Qed.

Ltac key := eapply known_changed; [|eassumption]; by split.

(** The version in memory, after the fields moved. *)
Ltac marks :=
  match goal with Hv : version_ok _ |- _ => destruct Hv end;
  split; simpl; try done; try (intros [|]; done); try (intros [|[|]]; done); eauto; try naive_solver.

Lemma serve_SubmitForReview tenant actor tid n : upholds (SubmitForReview tenant actor tid n).
Proof.
  intros st. apply wpe_bind, wpe_load_version. intros v st1 Hk Hv. apply wpe_status. intros Hs.
  apply wpe_bind, (wpe_upholds _ v); [by eapply upholds_read|done|]. intros c st2 Hk2.
  apply wpe_bind, wpe_lift. intros _ _.
  apply wpe_bind, (wpe_upholds _ v); [apply upholds_now|done|]. intros t st3 Hk3.
  apply wpe_save_version; [key|].
  pose proof (open_unapproved _ Hv) as Ho. rewrite Hs in Ho. specialize (Ho ltac:(by left)).
  marks.
Qed.

Lemma upholds_delete key : upholds (attempt (PresignDelete key)).
Proof.
  intros st. apply (wpe_attempt interleaving); [done|]. intros st1 t u r st2 _ Hok Hd. injection Hd as <- <-.
  destruct (tables_ok_others st1 (with_objects (delete key (st_objects st1)) st1)) as [? ?]; [done..|].
  by split_and!.
Qed.

Lemma serve_CommitAutosave tenant actor tid n expected :
  upholds (CommitAutosave tenant actor tid n expected).
Proof.
  intros st. apply wpe_bind, wpe_load_version. intros v st1 Hk Hv. apply wpe_status. intros Hs.
  apply wpe_bind, (wpe_upholds _ v); [by eapply upholds_attempt_read|done|]. intros r st2 Hk2.
  apply wpe_bind, wpe_lift. intros h _. destruct (negb _).
  - apply wpe_bind. eapply wp_mono; [|apply upholds_delete]. by intros [].
  - apply wpe_save_version; [key|]. marks.
Qed.

Lemma serve_UpdateSchemas tenant actor tid n metadata phs expected :
  upholds (UpdateSchemas None tenant actor tid n metadata phs expected).
Proof.
  intros st. apply wpe_bind, wpe_get_version. intros v st1 Hk Hv. apply wpe_status. intros Hs.
  apply wpe_bind, wpe_guard. intros _.
  apply wpe_bind, wpe_lift. intros [] Hval%ValidatePlaceholders_ok.
  apply wpe_bind, wpe_lift. intros _ _. apply wpe_bind, wpe_lift. intros [] Hopt.
  apply wpe_save_version; [key|]. marks.
Qed.

Lemma serve_Review tenant actor roles tid n accept : upholds (Review tenant actor roles tid n accept).
Proof.
  intros st. apply wpe_bind, wpe_load_version. intros v st1 Hk Hv. apply wpe_status. intros Hs.
  apply wpe_bind. destruct (tv_PendingReviewerRole v) as [role|] eqn:Hrole; [|apply wpe_fail].
  apply wpe_ret. apply wpe_bind, wpe_guard. intros _.
  apply wpe_bind, wpe_lift. intros u Hseg%CheckSegregation_reviewer.
  apply wpe_bind, (wpe_upholds _ v); [apply upholds_now|done|]. intros t st2 Hk2.
  pose proof (open_unapproved _ Hv) as Ho. rewrite Hs in Ho. specialize (Ho ltac:(by right; left)).
  destruct accept; apply wpe_bind, wpe_lift; intros _ _; (apply wpe_save_version; [key|]); marks.
Qed.

Lemma serve_Approve tenant actor roles tid n accept : upholds (Approve tenant actor roles tid n accept).
Proof.
  intros st. apply wpe_bind. eapply (wpe_read interleaving); [done|]. intros st1 t _ _ _.
  apply wpe_bind, wpe_get_version. intros v st2 Hk Hv. apply wpe_status. intros Hs.
  apply wpe_bind, wpe_guard. intros _.
  apply wpe_bind, wpe_lift. intros u [Hauthor Hreviewer]%CheckSegregation_approver.
  apply wpe_bind, (wpe_upholds _ v); [apply upholds_now|done|]. intros now st3 Hk3. destruct accept.
  - apply wpe_bind, wpe_lift. intros _ _.
    apply wpe_bind, (wpe_upholds _ v); [apply upholds_obsolete|done|]. intros _ st4 Hk4.
    apply wpe_bind, (wpe_upholds _ v); [apply upholds_update_template|done|]. intros _ st5 Hk5.
    apply wpe_save_version; [key|]. destruct (tv_PendingReviewerRole v); marks.
  - apply wpe_bind, wpe_lift. intros _ _. apply wpe_save_version; [key|].
    pose proof (open_unapproved _ Hv) as Ho. rewrite Hs in Ho.
    assert (tv_ApproverID v = None) as Hno by (apply Ho; case_bool_decide; unfold open_status; tauto).
    marks.
Qed.

Lemma new_version_ok id tid n key author role approver t phs metadata :
  schema_ok phs -> validate_options phs = inr tt ->
  version_ok (mkTemplateVersion id tid n VersionStatusDraft key "" metadata phs author role approver
                None None None None None None None t).
Proof. intros Hs Ho. split; simpl; try done; by intros [|]. Qed.

Lemma upholds_add_version tenant actor tid t source :
  version_ok source -> upholds (add_version tenant actor tid t source).
Proof.
  intros Hsrc.
  apply upholds_bind; [apply upholds_new_uuid|intros u].
  apply upholds_bind; [apply upholds_now|intros t0].
  apply upholds_bind; [apply upholds_create_version, new_version_ok; apply Hsrc|intros _].
  apply upholds_bind; [apply upholds_update_template|intros _].
  apply upholds_bind; [apply upholds_audit|done].
Qed.

Lemma serve_CreateNextVersion tenant actor tid : upholds (CreateNextVersion tenant actor tid).
Proof.
  intros st. apply wpe_bind. eapply (wpe_read interleaving); [done|]. intros st1 t _ _ _.
  apply wpe_bind, wpe_guard. intros _. apply wpe_bind. destruct (te_PublishedVersionID t) as [id|].
  - eapply (wpe_read interleaving); [done|]. intros st2 src _ Hok [Hsrc _]%GetVersionByID_ok.
    apply upholds_add_version. by eapply row_ok.
  - apply wpe_get_version. intros src st2 _ Hsrc. by apply upholds_add_version.
Qed.

Lemma serve_CreateTemplate cmd : upholds (CreateTemplate cmd).
Proof.
  unfold CreateTemplate. pose proof schema_ok_nil as Hnil.
  repeat first
    [ apply upholds_audit | apply upholds_bind; [|intros ?]
    | apply upholds_guard | apply upholds_now | apply upholds_new_uuid
    | apply upholds_create_template | apply upholds_config
    | by apply upholds_create_version, new_version_ok
    | by eapply upholds_attempt_read | by apply upholds_ret ].
Qed.

Lemma upholds_get_template tenant id : upholds (GetTemplate tenant id).
Proof.
  apply upholds_bind; [by eapply upholds_read|intros t].
  apply upholds_bind; [apply upholds_guard|done].
Qed.

(** Every request. *)
Lemma serve_upholds c : upholds (serve c).
Proof.
  destruct c; (apply upholds_bind; [|done]);
    auto using serve_CreateTemplate, serve_CreateNextVersion, serve_CommitAutosave,
      serve_UpdateSchemas, serve_SubmitForReview, serve_Review, serve_Approve, upholds_get_template.
  - apply upholds_bind; [intros st; by apply wpe_load_version|intros v].
    repeat first [apply upholds_bind; [|intros ?] | apply upholds_guard | apply upholds_now
      | by eapply upholds_read | done].
  - apply upholds_bind; [by eapply upholds_read|intros t]. destruct (IsArchived t); [done|].
    apply upholds_bind; [apply upholds_now|intros t0].
    apply upholds_bind; [apply upholds_update_template|intros _].
    apply upholds_bind; [apply upholds_audit|done].
  - unfold UpsertApprovalConfig.
    repeat first [apply upholds_audit | apply upholds_bind; [|intros ?] | apply upholds_guard
      | apply upholds_config | by eapply upholds_read | by apply upholds_ret].
  - apply upholds_bind; [apply upholds_get_template|intros _]. by eapply upholds_read.
  - by eapply upholds_read.
  - apply upholds_bind; [apply upholds_get_template|intros _]. by eapply upholds_read.
  - apply upholds_bind; [apply upholds_get_template|intros _].
    repeat first [apply upholds_bind; [|intros ?] | apply upholds_guard | by eapply upholds_read].
Qed.

(** Everything that holds of the interleavings of requests. *)
Lemma interleaved_tables_ok st st' :
  interleaved st st' -> tables_ok st -> tables_ok st' /\ extends st st'.
Proof.
  apply (interleaved_sound interleaving); [| |done].
  - intros c st1 _. apply serve_upholds.
  - intros st1 st2 (key & content & ->) Hok. by apply tables_ok_others.
Qed.

(** C19 Whatever requests run, interleaved one operation at a time, whichever
    of them fail, with or without effect, and wherever a process dies: keys
    stay unique and rows are never lost or given to another author, and
    every stored version has distinct author, reviewer and approver, bears
    the marks of its status (an approved version was reviewed, a published
    one was approved, and reviewed if a reviewer was asked for) and a
    placeholder schema the validation accepts. *)
Theorem stored_versions_are_sound (st st' : Store) :
  interleaved st st' -> tables_ok st -> tables_ok st' /\ extends st st'.
Proof. apply interleaved_tables_ok. Qed.
End served.
