(* ===== verification/TemplateContract.v ===== *)
(** * Templates: one request at a time

    The state machine of a version, and the contract of a property of histories:
    what each kind of statement must keep. The services are proved once, against
    the contract; a property of histories is an instance of it. *)
From S2P Require Import Prelude Tables Programs ProgramLogic ApprovalDomain ContentHash TemplateDomain PlaceholderFacts TemplateRepo Templates TemplateRuns TemplateSafety.
From stdpp Require Import relations.
Local Open Scope Z_scope.

(** ** The state machine of a version *)

Definition pending (v : TemplateVersion) (status : VersionStatus) (reviewer approver : option string)
    (submitted reviewed approved published : option Time) : TemplateVersion :=
  set_tv_review status (tv_PendingReviewerRole v) (tv_PendingApproverRole v) reviewer approver
    submitted reviewed approved published v.

Inductive version_step (v : TemplateVersion) : TemplateVersion -> Prop :=
  | step_save h :
      tv_Status v = VersionStatusDraft -> version_step v (set_tv_ContentHash h v)
  | step_schemas m phs :
      tv_Status v = VersionStatusDraft -> version_step v (set_tv_schemas m phs v)
  | step_submit reviewerRole approverRole t :
      tv_Status v = VersionStatusDraft ->
      version_step v (set_tv_review VersionStatusInReview reviewerRole approverRole
        (tv_ReviewerID v) (tv_ApproverID v) (Some t) (tv_ReviewedAt v) (tv_ApprovedAt v)
        (tv_PublishedAt v) v)
  | step_reviewed actor t :
      tv_Status v = VersionStatusInReview -> is_Some (tv_PendingReviewerRole v) ->
      actor <> tv_AuthorID v ->
      version_step v (pending v VersionStatusApproved (Some actor) (tv_ApproverID v)
        (tv_SubmittedAt v) (Some t) (tv_ApprovedAt v) (tv_PublishedAt v))
  | step_review_rejected :
      tv_Status v = VersionStatusInReview ->
      version_step v (pending v VersionStatusDraft (tv_ReviewerID v) (tv_ApproverID v)
        None (tv_ReviewedAt v) (tv_ApprovedAt v) (tv_PublishedAt v))
  | step_published actor t :
      match tv_PendingReviewerRole v with
      | Some _ => tv_Status v = VersionStatusApproved
      | None => tv_Status v = VersionStatusInReview
      end ->
      actor <> tv_AuthorID v -> tv_ReviewerID v <> Some actor ->
      version_step v (pending v VersionStatusPublished (tv_ReviewerID v) (Some actor)
        (tv_SubmittedAt v) (tv_ReviewedAt v) (Some t) (Some t))
  | step_approval_rejected :
      tv_Status v = VersionStatusInReview \/ tv_Status v = VersionStatusApproved ->
      version_step v (pending v VersionStatusDraft (tv_ReviewerID v) (tv_ApproverID v)
        None None None (tv_PublishedAt v))
  | step_obsoleted t :
      tv_Status v = VersionStatusPublished -> version_step v (set_obsolete t v).

Definition evolves : relation TemplateVersion := rtc version_step.

Lemma version_step_key v v' : version_step v v' -> same_key v v'.
Proof. by intros []. Qed.

(** A released version only becomes obsolete. *)
Definition released (v : TemplateVersion) : Prop :=
  tv_Status v = VersionStatusPublished \/ tv_Status v = VersionStatusObsolete.

Lemma obsolete_stays v v' : version_step v v' -> tv_Status v <> VersionStatusObsolete.
Proof.
  intros Hs Ho. destruct Hs; try case_match; destruct_or?; congruence.
Qed.

Lemma published_step v v' :
  version_step v v' -> tv_Status v = VersionStatusPublished -> exists t, v' = set_obsolete t v.
Proof.
  intros Hs Hp. destruct Hs; try case_match; destruct_or?; try congruence. eauto.
Qed.

Lemma released_frozen v v' :
  evolves v v' -> released v ->
  v' = v \/ (tv_Status v = VersionStatusPublished /\ exists t, v' = set_obsolete t v).
Proof.
  intros Hs [Hp|Ho].
  - destruct Hs as [|v v1 v2 H1 H2]; [by left|]. right. split; [done|].
    destruct (published_step _ _ H1 Hp) as [t ->].
    inversion H2 as [|? v3 ? H3 _]; subst; [eauto|]. exfalso. by apply (obsolete_stays _ _ H3).
  - destruct Hs as [|v v1 v2 H1 _]; [by left|]. exfalso. by apply (obsolete_stays _ _ H1).
Qed.

(** ** Rows *)

(** The template of [v] points to it. *)
Definition pointed (v : TemplateVersion) (st : Store) : Prop :=
  exists t, t ∈ st_templates st /\ te_ID t = tv_TemplateID v
            /\ te_PublishedVersionID t = Some (tv_ID v).

(** The row [v] becomes [v'], the others stay. *)
Definition replaced_by (v v' r r' : TemplateVersion) : Prop :=
  (r = v /\ r' = v') \/ (tv_ID r <> tv_ID v /\ r' = r).

(** No version of the template is published. *)
Definition none_published (tid : string) (st : Store) : Prop :=
  forall v, v ∈ st_versions st -> tv_TemplateID v = tid -> tv_Status v <> VersionStatusPublished.

Section rows.
Context `{UuidText} `{RegexpSyntax}.

Lemma version_row_unique st v v' :
  tables_ok st -> v ∈ st_versions st -> v' ∈ st_versions st -> tv_ID v = tv_ID v' -> v = v'.
Proof. intros Hok. apply NoDup_fmap_inj, version_ids, Hok. Qed.

Lemma template_row_unique st t t' :
  tables_ok st -> t ∈ st_templates st -> t' ∈ st_templates st -> te_ID t = te_ID t' -> t = t'.
Proof. intros Hok. apply NoDup_fmap_inj, template_ids, Hok. Qed.

Lemma version_id_canonical st v : tables_ok st -> v ∈ st_versions st -> uuid_in (tv_ID v) = Some (tv_ID v).
Proof.
  intros Hok Hx. pose proof (version_ids_canonical _ Hok) as Hc. rewrite Forall_forall in Hc. by apply Hc.
Qed.

Lemma template_id_canonical st t : tables_ok st -> t ∈ st_templates st -> uuid_in (te_ID t) = Some (te_ID t).
Proof.
  intros Hok Hx. pose proof (template_ids_canonical _ Hok) as Hc. rewrite Forall_forall in Hc. by apply Hc.
Qed.
End rows.

(** ** The contract *)

(** [t'] is [t] with another pointer or archived; the pointer is a canonical id
    and only moves when no version of the template is published. *)
Record repointed `{UuidText} (st : Store) (t t' : Template) : Prop := {
  repointed_id : te_ID t' = te_ID t;
  repointed_tenant : te_TenantID t' = te_TenantID t;
  repointed_latest : te_LatestVersion t' = te_LatestVersion t;
  repointed_to : te_PublishedVersionID t' = te_PublishedVersionID t
    \/ none_published (te_ID t) st /\ exists v, v ∈ st_versions st /\ te_PublishedVersionID t' = Some (tv_ID v)
}.

(** [J] holds between any two statements of a history, [G] relates its states. *)
Class Contract `{UuidText} `{RegexpSyntax} (G : relation Store) (J : Store -> Prop) : Prop := {
  contract_preorder :: PreOrder G;
  contract_others st st' :
    st_versions st' = st_versions st -> st_templates st' = st_templates st -> J st ->
    J st' /\ G st st';
  contract_step st v v' rows :
    tables_ok st -> J st -> v ∈ st_versions st -> version_step v v' ->
    (tv_Status v' = VersionStatusPublished -> pointed v' st) ->
    Forall2 (replaced_by v v') (st_versions st) rows ->
    J (with_versions rows st) /\ G st (with_versions rows st);
  contract_obsolete st now tid keep rows :
    tables_ok st -> J st ->
    Forall2 (fun v v' => v' =
      if str_eqb (tv_TemplateID v) tid && bool_decide (tv_Status v = VersionStatusPublished)
         && negb (str_eqb (tv_ID v) keep) then set_obsolete now v else v) (st_versions st) rows ->
    J (with_versions rows st) /\ G st (with_versions rows st);
  contract_template st t st' :
    tables_ok st -> J st -> te_PublishedVersionID t = None ->
    TemplateRepo.CreateTemplate t st = inr st' -> J st' /\ G st st';
  contract_first st v st' :
    tables_ok st -> J st -> tv_Status v = VersionStatusDraft -> tv_VersionNumber v = 1 ->
    CreateVersion v st = inr st' -> J st' /\ G st st';
  contract_pointer st t t' st' :
    tables_ok st -> J st -> t ∈ st_templates st -> repointed st t t' ->
    UpdateTemplate t' st = inr st' -> J st' /\ G st st';
  (** A new version, and the counter after it. *)
  contract_next st t v st' :
    tables_ok st -> J st -> t ∈ st_templates st -> tv_Status v = VersionStatusDraft ->
    uuid_in (tv_TemplateID v) = Some (te_ID t) -> tv_VersionNumber v = te_LatestVersion t + 1 ->
    CreateVersion v st = inr st' ->
    (J st' /\ G st st')
    /\ forall st'', tables_ok st' ->
         UpdateTemplate (set_te_LatestVersion (tv_VersionNumber v) t) st' = inr st'' ->
         J st'' /\ G st' st''
}.

Section contract.
Context `{UuidText} `{!UuidLaws} `{SignedURL} `{RegexpSyntax}.
Context (G : relation Store) (J : Store -> Prop) `{!Contract G J}.

(** Nobody else acts between two operations; the tables are in order by
    [interleaved_tables_ok]. *)
Definition alone : Protocol Store := mkProtocol (fun st st' => st = st' /\ tables_ok st') G J.

#[local] Instance alone_guar : PreOrder (pr_guar alone).
Proof. apply contract_preorder. Qed.

(** The protocols of interleavings and of histories together. *)
Definition sequential : Protocol Store :=
  mkProtocol eq (fun st st' => G st st' /\ extends st st') (fun st => tables_ok st /\ J st).

#[local] Instance sequential_guar : PreOrder (pr_guar sequential).
Proof. split; [by intros st|]. intros st1 st2 st3 [? ?] [? ?]. split; by etrans. Qed.

Lemma wp_both {A} (p : Prog A) (Q : A -> Store -> Prop) st :
  wp interleaving p (fun _ _ => True) st -> wp alone p Q st -> wp sequential p Q st.
Proof.
  revert st. induction p as [a|B o k IH]; intros st; [done|]. simpl.
  intros H1' H2' st1 <- [Hok Hp] b st2 Ha.
  destruct (H1' st ltac:(reflexivity) Hok b st2 Ha) as (? & ? & ?).
  destruct (H2' st (conj eq_refl Hok) Hp b st2 Ha) as (? & ? & ?).
  split_and!; auto.
Qed.

(** ** Rules *)

Lemma seq_read {B} (o : Op B) (f : Store -> Result B) (Q : B -> Store -> Prop) st :
  (forall t u st', run_op o t u st' = (f st', st')) ->
  (forall b, tables_ok st -> J st -> f st = inr b -> Q b st) ->
  wpe alone (call o) Q st.
Proof.
  intros Ho HQ. eapply (wpe_read alone); [done|]. intros st1 b [<- Hok] Hp Hf. by apply HQ.
Qed.

Lemma seq_write (o : Op unit) (f : Time -> Store -> Result Store) (Q : unit -> Store -> Prop) st :
  (forall t u st', run_op o t u st' = write (f t st') st') ->
  (forall t st2, tables_ok st -> J st -> f t st = inr st2 -> (J st2 /\ G st st2) /\ Q tt st2) ->
  wpe alone (call o) Q st.
Proof.
  intros Ho HQ. eapply (wpe_write alone); [done|]. intros st1 t st2 [<- Hok] Hp Hw.
  destruct (HQ t st2 Hok Hp Hw) as [[? ?] ?]. by split_and!.
Qed.

Lemma seq_now (Q : Time -> Store -> Prop) st : (forall t, Q t st) -> wpe alone now Q st.
Proof. intros HQ. apply (wpe_now alone). by intros t st1 [<- _] _. Qed.

Lemma seq_new_uuid (Q : string -> Store -> Prop) st : (forall u, Q u st) -> wpe alone new_uuid Q st.
Proof. intros HQ. apply (wpe_new_uuid alone). by intros u st1 [<- _] _. Qed.

Lemma seq_status {A} s v e (k : unit -> PM A) (Q : A -> Store -> Prop) st :
  (tv_Status v = s -> wpe alone (k tt) Q st) ->
  wpe alone (pguard (has_status s v) e ≫= k) Q st.
Proof.
  intros Hk. apply wpe_bind, wpe_guard. intros Hs. apply Hk. by apply bool_decide_eq_true in Hs.
Qed.

(** Programs that keep the contract whatever the state. *)
Definition orderly {A} (m : PM A) : Prop := forall st, wpe alone m (fun _ _ => True) st.

Lemma orderly_bind {A B} (m : PM A) (f : A -> PM B) :
  orderly m -> (forall a, orderly (f a)) -> orderly (mbind f m).
Proof.
  intros Hm Hf st. apply wpe_bind. eapply wp_mono; [|exact (Hm st)].
  intros [e|a] st' _; [done|]. apply Hf.
Qed.

Lemma orderly_ret {A} (a : A) : orderly (mret a).
Proof. done. Qed.

Lemma orderly_guard b e : orderly (pguard b e).
Proof. intros st. by apply wpe_guard. Qed.

Lemma orderly_now : orderly now.
Proof. intros st. by apply seq_now. Qed.

Lemma orderly_new_uuid : orderly new_uuid.
Proof. intros st. by apply seq_new_uuid. Qed.

Lemma orderly_read {B} (o : Op B) (f : Store -> Result B) :
  (forall t u st', run_op o t u st' = (f st', st')) -> orderly (call o).
Proof. intros Ho st. by eapply seq_read. Qed.

Lemma orderly_attempt_read {B} (o : Op B) (f : Store -> Result B) :
  (forall t u st', run_op o t u st' = (f st', st')) -> orderly (attempt o).
Proof.
  intros Ho st. apply (wpe_attempt alone); [done|]. intros st1 t u r st2 [<- _] Hok. change (step o t u st) with (run_op o t u st). rewrite Ho. intros [= <- <-].
  by split_and!.
Qed.

Lemma orderly_audit tenant tid vid actor action : orderly (audit tenant tid vid actor action).
Proof.
  intros st. apply wpe_bind, seq_now. intros t.
  apply (seq_write _ (fun _ => AppendAudit (mkAuditEvent tenant tid vid actor action t))); [done|].
  intros t' st2 Hok Hp. unfold AppendAudit. intros Ha. results. subst.
  split; [by apply contract_others|done].
Qed.

Lemma orderly_config c : orderly (call (RepoUpsertApprovalConfig c)).
Proof.
  intros st. apply (seq_write _ (fun _ => TemplateRepo.UpsertApprovalConfig c)); [done|].
  intros _ st2 Hok Hp. unfold TemplateRepo.UpsertApprovalConfig. intros Hu. results.
  split; [|done]. case_match; results; subst; by apply contract_others.
Qed.

Lemma orderly_delete key : orderly (attempt (PresignDelete key)).
Proof.
  intros st. apply (wpe_attempt alone); [done|]. intros st1 t u r st2 [<- _] Hp Hd. injection Hd as <- <-.
  destruct (contract_others st (with_objects (delete key (st_objects st)) st)) as [? ?]; [done..|].
  by split_and!.
Qed.

(** ** Versions and templates *)

(** Saving a step of the version that was read. *)
Lemma seq_update_version v v' (Q : unit -> Store -> Prop) st :
  v ∈ st_versions st -> version_step v v' ->
  (tv_Status v' = VersionStatusPublished -> pointed v' st) ->
  (forall st2, Q tt st2) ->
  wpe alone (call (RepoUpdateVersion v')) Q st.
Proof.
  intros Hv Hs Hpub HQ. apply (seq_write _ (fun _ => UpdateVersion v')); [done|].
  intros _ st2 Hok Hp Hu. pose proof (version_step_key _ _ Hs) as Hk.
  destruct (UpdateVersion_ok v' st st2 Hu Hok ltac:(by exists v)) as (rows & -> & HF).
  split; [|done]. eapply contract_step; [done..|]. apply Forall2_lookup. intros i.
  rewrite Forall2_lookup in HF. specialize (HF i).
  destruct (st_versions st !! i) as [r|] eqn:Hr, (rows !! i) as [r'|];
    inversion HF as [? ? Hrep|]; subst; constructor. apply list_elem_of_lookup_2 in Hr.
  destruct Hrep as [(Hid & _ & ->)|[Hid ->]]; rewrite (key_id _ _ Hk) in Hid; [left|by right].
  split; [|done]. by apply (version_row_unique st).
Qed.

Lemma seq_save_version v v' tenant tid actor action st :
  v ∈ st_versions st -> version_step v v' ->
  (tv_Status v' = VersionStatusPublished -> pointed v' st) ->
  wpe alone (save_version v' tenant tid actor action) (fun _ _ => True) st.
Proof.
  intros Hv Hs Hpub. eapply wpe_bind, seq_update_version; [done..|]. intros st2.
  apply orderly_bind; [apply orderly_audit|by intros].
Qed.

Lemma seq_obsolete tid v (Q : unit -> Store -> Prop) st :
  v ∈ st_versions st -> uuid_in tid = Some (tv_TemplateID v) ->
  tv_Status v <> VersionStatusPublished ->
  (forall st2, v ∈ st_versions st2 -> st_templates st2 = st_templates st ->
     none_published (tv_TemplateID v) st2 -> Q tt st2) ->
  wpe alone (call (RepoObsoletePreviousPublished tid (tv_ID v))) Q st.
Proof.
  intros Hv Htid Hs HQ. apply (seq_write _ (fun t => ObsoletePreviousPublished t tid (tv_ID v))); [done|].
  intros t st2 Hok Hp (tid' & keep & rows & Ht' & Hkeep & -> & HF)%ObsoletePreviousPublished_ok.
  assert (tid' = tv_TemplateID v) as -> by congruence. clear Ht'.
  rewrite (version_id_canonical _ _ Hok Hv) in Hkeep. injection Hkeep as <-.
  split; [by eapply contract_obsolete|]. apply HQ; simpl; [|done|].
  - destruct (updated_forall _ _ _ HF v Hv) as (v' & Hv' & ->).
    rewrite (bool_decide_eq_false_2 _ Hs), andb_false_r in Hv'. done.
  - intros w Hw Htw. destruct (updated_forall_r _ _ _ HF w Hw) as (r & Hr & ->).
    destruct (_ && _ && _) eqn:Hb; [done|]. intros Hst.
    rewrite (bool_decide_eq_true_2 _ Hst), Htw, str_eqb_refl in Hb. simpl in Hb.
    apply negb_false_iff, str_eqb_true in Hb.
    by rewrite (version_row_unique _ r v Hok Hr Hv Hb) in Hst.
Qed.

Lemma seq_repoint t t' (Q : unit -> Store -> Prop) st :
  t ∈ st_templates st -> repointed st t t' ->
  (forall st2, st_versions st2 = st_versions st ->
     (forall v, v ∈ st_versions st -> te_ID t = tv_TemplateID v ->
        te_PublishedVersionID t' = Some (tv_ID v) -> pointed v st2) -> Q tt st2) ->
  wpe alone (call (RepoUpdateTemplate t')) Q st.
Proof.
  intros Ht Hrep HQ. apply (seq_write _ (fun _ => UpdateTemplate t')); [done|].
  intros _ st2 Hok Hp Hu. split; [by eapply contract_pointer|].
  apply UpdateTemplate_ok in Hu as (id & pub & rows & Huid & Hupub & -> & HF).
  apply HQ; [done|]. intros v Hv Htv Hpub. destruct (updated_forall _ _ _ HF t Ht) as (t2 & Ht2 & ->).
  eexists. split; [exact Ht2|]. rewrite (repointed_id _ _ _ Hrep), (template_id_canonical _ _ Hok Ht) in Huid.
  injection Huid as <-. rewrite str_eqb_refl, (repointed_tenant _ _ _ Hrep), str_eqb_refl. simpl.
  split; [done|]. unfold uuid_param_opt, uuid_param in Hupub.
  rewrite Hpub, (version_id_canonical _ _ Hok Hv) in Hupub. congruence.
Qed.

(** ** The services *)

Lemma seq_get_version tid n (Q : TemplateVersion -> Store -> Prop) st :
  (forall v, v ∈ st_versions st -> uuid_in tid = Some (tv_TemplateID v) -> tables_ok st -> Q v st) ->
  wpe alone (call (RepoGetVersion tid n)) Q st.
Proof.
  intros HQ. eapply seq_read; [done|]. intros v Hok _ (Hv & Htid & _)%GetVersion_ok. by apply HQ.
Qed.

Lemma seq_load_version tenant tid n (Q : TemplateVersion -> Store -> Prop) st :
  (forall v, v ∈ st_versions st -> Q v st) -> wpe alone (load_version tenant tid n) Q st.
Proof.
  intros HQ. apply wpe_bind. eapply seq_read; [done|]. intros t _ _ _.
  apply seq_get_version. intros v Hv _ _. by apply HQ.
Qed.

Lemma seq_get_template tenant id (Q : Template -> Store -> Prop) st :
  (forall t, t ∈ st_templates st -> uuid_in id = Some (te_ID t) -> Q t st) ->
  wpe alone (call (RepoGetTemplate tenant id)) Q st.
Proof.
  intros HQ. eapply seq_read; [done|]. intros t _ _ (Ht & Hid & _)%GetTemplate_ok. by apply HQ.
Qed.

Lemma orderly_SubmitForReview tenant actor tid n : orderly (SubmitForReview tenant actor tid n).
Proof.
  intros st. apply wpe_bind, seq_load_version. intros v Hv. apply seq_status. intros Hs.
  apply wpe_bind. eapply seq_read; [done|]. intros c _ _ _.
  apply wpe_bind, wpe_lift. intros _ _. apply wpe_bind, seq_now. intros t.
  by eapply seq_save_version; [|by apply step_submit|].
Qed.

Lemma orderly_CommitAutosave tenant actor tid n expected :
  orderly (CommitAutosave tenant actor tid n expected).
Proof.
  intros st. apply wpe_bind, seq_load_version. intros v Hv. apply seq_status. intros Hs.
  apply wpe_bind. apply (wpe_attempt alone); [done|]. intros st1 t u r st2 [<- Hok] Hp Ho. injection Ho as <- <-.
  split_and!; [done|reflexivity| |by intros e]. apply wpe_bind, wpe_lift. intros h _. destruct (negb _).
  - apply wpe_bind. eapply wp_mono; [|apply orderly_delete]. by intros [].
  - eapply seq_save_version; [done|by apply step_save|]. simpl. congruence.
Qed.

Lemma orderly_UpdateSchemas tenant actor tid n metadata phs expected :
  orderly (UpdateSchemas None tenant actor tid n metadata phs expected).
Proof.
  intros st. apply wpe_bind, seq_get_version. intros v Hv _ _. apply seq_status. intros Hs.
  apply wpe_bind, wpe_guard. intros _. do 3 (apply wpe_bind, wpe_lift; intros _ _).
  eapply seq_save_version; [done|by apply step_schemas|]. simpl. congruence.
Qed.

Lemma orderly_Review tenant actor roles tid n accept : orderly (Review tenant actor roles tid n accept).
Proof.
  intros st. apply wpe_bind, seq_load_version. intros v Hv. apply seq_status. intros Hs.
  apply wpe_bind. destruct (tv_PendingReviewerRole v) as [role|] eqn:Hrole; [|apply wpe_fail].
  apply wpe_ret. apply wpe_bind, wpe_guard. intros _.
  apply wpe_bind, wpe_lift. intros u Hseg%CheckSegregation_reviewer.
  apply wpe_bind, seq_now. intros t. rewrite <- Hrole.
  destruct accept; apply wpe_bind, wpe_lift; intros _ _; (eapply seq_save_version; [done| |done]).
  - apply step_reviewed; [done|by rewrite Hrole|done].
  - by apply step_review_rejected.
Qed.

Lemma orderly_Approve tenant actor roles tid n accept : orderly (Approve tenant actor roles tid n accept).
Proof.
  intros st. apply wpe_bind, seq_get_template. intros t Ht Htid.
  apply wpe_bind, seq_get_version. intros v Hv Hvtid Hok. apply seq_status. intros Hs.
  assert (te_ID t = tv_TemplateID v) as Htv by congruence.
  apply wpe_bind, wpe_guard. intros _.
  apply wpe_bind, wpe_lift. intros u [Hauthor Hreviewer]%CheckSegregation_approver.
  apply wpe_bind, seq_now. intros now. destruct accept.
  - apply wpe_bind, wpe_lift. intros _ _.
    apply wpe_bind, seq_obsolete; [done|done|by rewrite Hs; case_bool_decide|].
    intros st1 Hv1 Ht1 Hnone.
    apply wpe_bind, (seq_repoint t); [by rewrite Ht1| |].
    { split; [done..|]. right. rewrite Htv. split; [done|]. by exists v. }
    intros st2 Hv2 Hpt. eapply (seq_save_version v); [by rewrite Hv2|apply step_published; [|done|done]|].
    + destruct (tv_PendingReviewerRole v); done.
    + intros _. destruct (Hpt v Hv1 Htv eq_refl) as (t2 & ? & ? & ?). by exists t2.
  - apply wpe_bind, wpe_lift. intros _ _.
    eapply seq_save_version; [done|apply step_approval_rejected|done].
    case_bool_decide; auto.
Qed.

Lemma orderly_add_version tenant actor tid t source st :
  t ∈ st_templates st -> uuid_in tid = Some (te_ID t) ->
  wpe alone (add_version tenant actor tid t source) (fun _ _ => True) st.
Proof.
  intros Ht Htid. apply wpe_bind, seq_new_uuid. intros u. apply wpe_bind, seq_now. intros t0.
  apply wpe_bind. eapply (seq_write _ (fun _ => CreateVersion _)); [by intros|].
  intros t1 st2 Hok Hp Hc. simpl in Hc.
  pose proof (fun Hd Hid Hn => contract_next st t _ st2 Hok Hp Ht Hd Hid Hn Hc) as Hnext.
  destruct Hnext as [HJ Hnext]; [done..|].
  split; [done|]. apply wpe_bind, (seq_write _ (fun _ => UpdateTemplate (set_te_LatestVersion (te_LatestVersion t + 1) t))); [done|].
  intros _ st3 Hok2 _ Hu. split; [by apply Hnext|].
  apply orderly_bind; [apply orderly_audit|by intros].
Qed.

Lemma orderly_CreateNextVersion tenant actor tid : orderly (CreateNextVersion tenant actor tid).
Proof.
  intros st. apply wpe_bind, seq_get_template. intros t Ht Htid.
  apply wpe_bind, wpe_guard. intros _. apply wpe_bind. destruct (te_PublishedVersionID t) as [id|].
  - eapply seq_read; [done|]. intros src _ _ _. by apply orderly_add_version.
  - apply seq_get_version. intros src _ _ _. by apply orderly_add_version.
Qed.

Lemma orderly_create_template t :
  te_PublishedVersionID t = None -> orderly (call (RepoCreateTemplate t)).
Proof.
  intros Hpub st. apply (seq_write _ (fun _ => TemplateRepo.CreateTemplate t)); [done|].
  intros _ st2 Hok Hp Hc. split; [by eapply contract_template|done].
Qed.

Lemma orderly_create_version v :
  tv_Status v = VersionStatusDraft -> tv_VersionNumber v = 1 -> orderly (call (RepoCreateVersion v)).
Proof.
  intros Hd Hn st. apply (seq_write _ (fun _ => CreateVersion v)); [done|].
  intros _ st2 Hok Hp Hc. split; [by eapply contract_first|done].
Qed.

Lemma orderly_CreateTemplate cmd : orderly (CreateTemplate cmd).
Proof.
  unfold CreateTemplate.
  repeat first
    [ apply orderly_audit | apply orderly_bind; [|intros ?]
    | apply orderly_guard | apply orderly_now | apply orderly_new_uuid
    | by apply orderly_create_template | apply orderly_config | by apply orderly_create_version
    | by eapply orderly_attempt_read | by apply orderly_ret ].
Qed.

Lemma orderly_ArchiveTemplate tenant actor tid : orderly (ArchiveTemplate tenant actor tid).
Proof.
  intros st. apply wpe_bind, seq_get_template. intros t Ht _. destruct (IsArchived t); [done|].
  apply wpe_bind, seq_now. intros t0.
  apply wpe_bind, (seq_repoint t); [done|split; [done..|by left]|].
  intros. apply orderly_bind; [apply orderly_audit|by intros].
Qed.

Lemma orderly_get_template tenant id : orderly (GetTemplate tenant id).
Proof.
  apply orderly_bind; [by eapply orderly_read|intros t].
  apply orderly_bind; [apply orderly_guard|done].
Qed.

Lemma serve_orderly c : orderly (serve c).
Proof.
  destruct c; (apply orderly_bind; [|done]);
    auto using orderly_CreateTemplate, orderly_CreateNextVersion, orderly_CommitAutosave,
      orderly_UpdateSchemas, orderly_SubmitForReview, orderly_Review, orderly_Approve,
      orderly_ArchiveTemplate, orderly_get_template;
    repeat first
      [ apply orderly_audit | apply orderly_get_template | apply orderly_bind; [|intros ?]
      | apply orderly_guard | apply orderly_now | apply orderly_config
      | by eapply orderly_read | by apply orderly_ret ].
Qed.

Lemma serve_sequential c st : wpe sequential (serve c) (fun _ _ => True) st.
Proof.
  apply (wpe_true sequential), wp_both; [|apply (wpe_true alone), serve_orderly].
  apply (wpe_true interleaving), serve_upholds.
Qed.

(** What a contract says of histories. *)
Theorem contract_history st st' :
  history st st' -> tables_ok st -> J st -> tables_ok st' /\ J st' /\ G st st'.
Proof.
  intros Hh Hok Hp. destruct (history_sound sequential serve uploads) with st st' as [[? ?] [? ?]]; try done.
  - intros c st1 _. apply serve_sequential.
  - intros st1 st2 (key & content & ->) [Hok1 Hp1].
    destruct (tables_ok_others st1 (upload key content st1)) as [? ?]; [done..|].
    by destruct (contract_others st1 (upload key content st1)) as [? ?].
Qed.
End contract.
