(* ===== verification/TemplateHistory.v ===== *)
(** * Templates: histories

    When requests are served one after the other - each may still fail anywhere
    and the process may die between any two operations - a version follows the
    state machine of its approval, what is published no longer changes, and a
    template has at most one published version. *)
From S2P Require Import Prelude Tables Programs ProgramLogic ApprovalDomain ContentHash TemplateDomain TemplateRepo Templates TemplateRuns TemplateSafety TemplateContract.
From stdpp Require Import relations.
Local Open Scope Z_scope.

Section history.
Context `{UuidText} `{!UuidLaws} `{SignedURL} `{RegexpSyntax}.

(** A published version is the one its template points to. *)
Record pointers_ok (st : Store) : Prop := {
  published_pointed : forall v, v ∈ st_versions st -> tv_Status v = VersionStatusPublished ->
    pointed v st;
  pointers_canonical : forall t p, t ∈ st_templates st -> te_PublishedVersionID t = Some p ->
    uuid_in p = Some p
}.

Definition follows (st st' : Store) : Prop := grows evolves (st_versions st) (st_versions st').

#[local] Instance follows_preorder : PreOrder follows.
Proof.
  unfold follows. split; [intros st; reflexivity|]. intros st1 st2 st3 ? ?. by etrans.
Qed.

Lemma step_keeps_pointers st v v' rows :
  v ∈ st_versions st -> version_step v v' -> pointers_ok st ->
  (tv_Status v' = VersionStatusPublished -> pointed v' st) ->
  Forall2 (replaced_by v v') (st_versions st) rows ->
  pointers_ok (with_versions rows st) /\ follows st (with_versions rows st).
Proof.
  intros Hv Hs [Hp Hc] Hpub HF. split; [split|]; simpl; [|done|].
  - intros w Hw Hst. destruct (updated_forall_r _ _ _ HF w Hw) as (r & Hr & [[_ ->]|[_ ->]]);
      [by apply Hpub|by apply Hp].
  - apply grows_update. eapply Forall2_impl; [exact HF|].
    intros r r' [[-> ->]|[_ ->]]; [by apply rtc_once|reflexivity].
Qed.

Lemma obsolete_keeps_pointers st now tid keep rows :
  pointers_ok st ->
  Forall2 (fun v v' => v' =
    if str_eqb (tv_TemplateID v) tid && bool_decide (tv_Status v = VersionStatusPublished)
       && negb (str_eqb (tv_ID v) keep) then set_obsolete now v else v) (st_versions st) rows ->
  pointers_ok (with_versions rows st) /\ follows st (with_versions rows st).
Proof.
  intros [Hp Hc] HF. split; [split|]; simpl; [|done|].
  - intros w Hw Hst. destruct (updated_forall_r _ _ _ HF w Hw) as (r & Hr & ->).
    destruct (_ && _ && _); [done|by apply Hp].
  - apply grows_update. eapply Forall2_impl; [exact HF|]. intros r r' ->.
    destruct (_ && _ && _) eqn:Hb; [|reflexivity]. bool_to_prop. apply rtc_once. by constructor.
Qed.

Lemma create_version_keeps_pointers st v st' :
  tv_Status v = VersionStatusDraft -> CreateVersion v st = inr st' -> pointers_ok st ->
  pointers_ok st' /\ follows st st'.
Proof.
  intros Hd (id & tid & _ & _ & -> & _)%CreateVersion_ok [Hp Hc].
  split; [split|apply grows_append; tc_solve]; simpl; [|done].
  intros w [Hw|Hw]%elem_of_app Hst; [by apply Hp|]. apply list_elem_of_singleton in Hw as ->.
  simpl in Hst. congruence.
Qed.

Lemma create_template_keeps_pointers st t st' :
  te_PublishedVersionID t = None -> TemplateRepo.CreateTemplate t st = inr st' -> pointers_ok st ->
  pointers_ok st' /\ follows st st'.
Proof.
  intros Hn (id & pub & _ & Hpp & -> & _)%CreateTemplate_ok [Hp Hc].
  rewrite Hn in Hpp. injection Hpp as <-. split; [split|unfold follows; reflexivity]; simpl.
  - intros v Hv Hs. destruct (Hp v Hv Hs) as (r & Hr & ?). exists r. split; [set_solver|done].
  - intros r p [Hr|Hr]%elem_of_app; [by apply Hc|]. by apply list_elem_of_singleton in Hr as ->.
Qed.

(** An update of the row of [t] that leaves its pointer, or moves it to a
    version when no version of the template is published. *)
Lemma update_template_keeps_pointers st t t' st' :
  tables_ok st -> pointers_ok st -> t ∈ st_templates st ->
  te_ID t' = te_ID t ->
  te_PublishedVersionID t' = te_PublishedVersionID t
    \/ none_published (te_ID t) st
       /\ (exists v, v ∈ st_versions st /\ te_PublishedVersionID t' = Some (tv_ID v)) ->
  UpdateTemplate t' st = inr st' -> pointers_ok st' /\ follows st st'.
Proof.
  intros Hok [Hp Hc] Ht Hid Hto (id & pub & rows & Huid & Hupub & -> & HF)%UpdateTemplate_ok.
  rewrite Hid, (template_id_canonical _ _ Hok Ht) in Huid. injection Huid as <-.
  assert (forall p, te_PublishedVersionID t' = Some p -> uuid_in p = Some p) as Hcan.
  { intros p Hpub. destruct Hto as [Hsame|(_ & v & Hv & Hv')].
    - apply (Hc t p Ht). congruence.
    - rewrite Hv' in Hpub. injection Hpub as <-. by eapply version_id_canonical. }
  assert (pub = te_PublishedVersionID t') as ->.
  { unfold uuid_param_opt in Hupub. destruct (te_PublishedVersionID t') as [p|]; [|congruence].
    unfold uuid_param in Hupub. rewrite (Hcan p eq_refl) in Hupub. congruence. }
  split; [split|unfold follows; reflexivity]; simpl.
  - intros w Hw Hst. destruct (Hp w Hw Hst) as (r & Hr & Hrid & Hrp).
    destruct (updated_forall _ _ _ HF r Hr) as (r' & Hr' & ->). eexists. split; [exact Hr'|].
    destruct (_ && _) eqn:Hb; [|done]. bool_to_prop. simpl. split; [done|].
    assert (r = t) as -> by (by eapply template_row_unique).
    destruct Hto as [->|[Hnone _]]; [done|]. by destruct (Hnone w Hw (eq_sym Hrid)).
  - intros r' p Hr' Hrp. destruct (updated_forall_r _ _ _ HF r' Hr') as (r & Hr & ->).
    destruct (_ && _); [by apply Hcan|by eapply Hc].
Qed.

#[local] Instance pointers_contract : Contract follows pointers_ok.
Proof.
  split.
  - tc_solve.
  - intros st st' Hv Ht [Hp Hc].
    split; [split|]; unfold follows, pointed in *; rewrite ?Hv, ?Ht; try done; reflexivity.
  - intros. by eapply step_keeps_pointers.
  - intros. by eapply obsolete_keeps_pointers.
  - intros. by eapply create_template_keeps_pointers.
  - intros. by eapply create_version_keeps_pointers.
  - intros st t t' st' Hok Hp Ht [Hid _ _ Hto] Hu. by eapply update_template_keeps_pointers.
  - intros st t v st' Hok Hp Ht Hd Hid Hn Hc.
    destruct (create_version_keeps_pointers _ _ _ Hd Hc Hp) as [Hp' Hf']. split; [done|].
    intros st'' Hok' Hu. apply CreateVersion_ok in Hc as (? & ? & _ & _ & -> & _).
    eapply (update_template_keeps_pointers _ t _ _ Hok' Hp' Ht); [| |exact Hu]; [done|by left].
Qed.

Lemma history_keeps_pointers st st' :
  history st st' -> tables_ok st -> pointers_ok st -> tables_ok st' /\ pointers_ok st' /\ follows st st'.
Proof. apply contract_history; tc_solve. Qed.

(** C20 The services implement the version state machine: along any history
    of requests, failing or cut short anywhere, every version moves only by
    its steps - edited as a draft, submitted, reviewed by someone other than
    the author when a reviewer is asked for, approved by a third person,
    sent back, superseded - and new versions come after the old ones. *)
Theorem versions_follow_the_state_machine (st st' : Store) :
  history st st' -> tables_ok st -> pointers_ok st ->
  grows evolves (st_versions st) (st_versions st').
Proof. intros Hh Hok Hp. by destruct (history_keeps_pointers _ _ Hh Hok Hp) as (_ & _ & ?). Qed.

(** C21 What is published stays as it was: in any later state of a history
    the version is there, field for field, but for its status which may have
    become obsolete. *)
Theorem released_versions_are_frozen (st st' : Store) (v : TemplateVersion) :
  history st st' -> tables_ok st -> pointers_ok st -> v ∈ st_versions st -> released v ->
  v ∈ st_versions st' \/ exists t, set_obsolete t v ∈ st_versions st'.
Proof.
  intros Hh Hok Hp Hv Hr.
  destruct (history_keeps_pointers _ _ Hh Hok Hp) as (_ & _ & l1 & new & -> & HF).
  destruct (updated_forall _ _ _ HF v Hv) as (v' & Hv' & He).
  destruct (released_frozen _ _ He Hr) as [->|(_ & t & ->)]; [left|right; exists t]; set_solver.
Qed.

(** C22 After any history a template has at most one published version, and
    points to it. *)
Theorem one_published_version (st st' : Store) (v w : TemplateVersion) :
  history st st' -> tables_ok st -> pointers_ok st ->
  v ∈ st_versions st' -> w ∈ st_versions st' ->
  tv_Status v = VersionStatusPublished -> tv_Status w = VersionStatusPublished ->
  tv_TemplateID v = tv_TemplateID w ->
  v = w /\ pointed v st'.
Proof.
  intros Hh Hok Hp Hv Hw Hsv Hsw Htid.
  destruct (history_keeps_pointers _ _ Hh Hok Hp) as (Hok' & Hp' & _).
  destruct (published_pointed _ Hp' v Hv Hsv) as (t & Ht & Hidt & Hpt).
  destruct (published_pointed _ Hp' w Hw Hsw) as (u & Hu & Hidu & Hpu).
  assert (t = u) as -> by (eapply template_row_unique; [exact Hok'|done|done|congruence]).
  split; [|by exists u]. eapply version_row_unique; [exact Hok'|done|done|congruence].
Qed.
End history.
