(* ===== verification/TemplateScenario.v ===== *)
(** * Templates: runs the kernel evaluates

    Runs without failures as functions - of one program, of a list of requests,
    of a schedule of interleaved ones - and what concrete ones show. *)
From S2P Require Import Prelude Tables Programs ProgramLogic ApprovalDomain ContentHash TemplateDomain.
From S2P Require Import PlaceholderFacts TemplateRepo Templates TemplateRuns TemplateSafety TemplateContract.
From S2P Require Import TemplateHistory.
From stdpp Require Import relations pretty.
From stdpp Require Import relations.
Local Open Scope Z_scope.

(** The UUID drawn at a time. *)
Definition uuid_at (t : Time) : string := "u" +:+ pretty t.

Abbreviation run_prog := (Programs.run_prog uuid_at).
Abbreviation run_cut := (Programs.run_cut uuid_at).
Abbreviation run_calls := (Programs.run_calls serve uuid_at).
Abbreviation Event := (Programs.Event (Call := Call)).
Abbreviation exec := (Programs.exec serve uuid_at).

(** ** A concrete system *)

Module Demo.
#[export] Instance uuids : UuidText := fun s => if str_eqb s "" then None else Some s.

#[export] Instance uuid_laws : UuidLaws.
Proof. intros s c. unfold uuid_in, uuids. destruct (str_eqb s "") eqn:Hs; [done|]. by intros [= <-]; rewrite Hs. Qed.

#[export] Instance urls : SignedURL := fun method key => method +:+ " " +:+ key.
#[export] Instance regexps : RegexpSyntax := {| regexp_Compile := fun _ => true |}.

Definition empty : Store := mkStore [] [] [] [] ∅.

Lemma empty_ok : tables_ok empty.
Proof. split; constructor. Qed.

Lemma empty_pointers : pointers_ok empty.
Proof. split; [intros v Hv|intros t p Ht]; by apply not_elem_of_nil in Hv || apply not_elem_of_nil in Ht. Qed.

(** A template by ana, approved by the role qa, reviewed if a role is given. *)
Definition create (reviewer : option string) : Call :=
  CallCreateTemplate (mkCreateTemplateCmd "acme" "ana" "po" "purchase" "Purchase order" "" [] VisibilityPublic
    [] "qa" reviewer).

(** The ids the first request draws. *)
Definition template : string := uuid_at 1.

Definition steps (i n : nat) : list Event := replicate n (Step i).

(** The template is created, an edit of its schemas reads the draft, the
    draft is submitted and approved. *)
Definition until_published : list Event :=
  [Start (create None)] ++ steps 0 10
  ++ [Start (CallUpdateSchemas "acme" "ana" (uuid_at 2) 1 zeroMetadataSchema [] "")] ++ steps 1 1
  ++ [Start (CallSubmitForReview "acme" "ana" (uuid_at 2) 1)] ++ steps 2 7
  ++ [Start (CallApprove "acme" "bia" ["qa"] (uuid_at 2) 1 true)] ++ steps 3 8.

Definition published_pool : Pool := exec until_published 0 (mkPool [] empty).

(** With a reviewer: created, submitted, reviewed, approved; then the second
    version as far as its approval. *)
Definition reviewed_requests : list Call :=
  [create (Some "rev");
   CallSubmitForReview "acme" "ana" (uuid_at 1) 1;
   CallReview "acme" "rui" ["rev"] (uuid_at 1) 1 true;
   CallApprove "acme" "bia" ["qa"] (uuid_at 1) 1 true].
Definition second_requests : list Call :=
  [CallCreateNextVersion "acme" "ana" (uuid_at 1);
   CallSubmitForReview "acme" "ana" (uuid_at 1) 2;
   CallReview "acme" "rui" ["rev"] (uuid_at 1) 2 true;
   CallApprove "acme" "bia" ["qa"] (uuid_at 1) 2 true].

Definition first_published : Store := (run_calls reviewed_requests 0 empty).2.
Definition second_published : Store := (run_calls second_requests 100 first_published).2.

Definition version_at (i : nat) (st : Store) : TemplateVersion :=
  nth i (st_versions st) (mkTemplateVersion "" "" 0 VersionStatusDraft "" "" zeroMetadataSchema []
    "" None "" None None None None None None None 0).
End Demo.

Import Demo.

(** Interleaved, the services do not protect what is published: an edit
    that read the version as a draft and saves it after its publication puts
    it back to draft, approver and publication erased, while the template
    still points to it. No failure is needed. *)
Theorem interleaving_reopens_a_published_version :
  exists pool v v',
    rtc pool_step (mkPool [] empty) published_pool /\ rtc pool_step published_pool pool
    /\ v ∈ st_versions (pool_store published_pool) /\ tv_Status v = VersionStatusPublished
    /\ pointed v (pool_store published_pool)
    /\ v' ∈ st_versions (pool_store pool) /\ tv_ID v' = tv_ID v
    /\ tv_Status v' = VersionStatusDraft /\ tv_ApproverID v' = None /\ tv_PublishedAt v' = None
    /\ pointed v' (pool_store pool).
Proof.
  exists (exec [Step 1] 50 published_pool), (version_at 0 (pool_store published_pool)),
    (version_at 0 (pool_store (exec [Step 1] 50 published_pool))).
  split_and!; try apply exec_steps; try by vm_compute.
  - vm_compute. left.
  - eexists. split; [vm_compute; left|done].
  - vm_compute. left.
  - eexists. split; [vm_compute; left|done].
Qed.

(** ** The theorems on these runs *)

Lemma first_published_history : history empty first_published.
Proof. apply run_calls_turns. Qed.

Lemma second_published_history : history first_published second_published.
Proof. apply run_calls_turns. Qed.

Lemma stored_versions_are_sound_witness :
  tables_ok (pool_store published_pool)
  /\ tv_Status (version_at 0 (pool_store published_pool)) = VersionStatusPublished.
Proof.
  split; [|by vm_compute]. refine (proj1 (stored_versions_are_sound empty _ _ empty_ok)).
  exact (exec_interleaved serve uploads uuid_at until_published 0 empty).
Defined.

Lemma versions_follow_the_state_machine_witness :
  grows evolves [] (st_versions first_published)
  /\ tv_Status (version_at 0 first_published) = VersionStatusPublished.
Proof.
  split; [|by vm_compute].
  exact (versions_follow_the_state_machine empty _ first_published_history empty_ok empty_pointers).
Defined.

Lemma first_published_ok : tables_ok first_published /\ pointers_ok first_published.
Proof. destruct (history_keeps_pointers _ _ first_published_history empty_ok empty_pointers) as (? & ? & _). done. Qed.

(** The first version of [first_published] is obsolete in [second_published]. *)
Lemma released_versions_are_frozen_witness :
  let v := version_at 0 first_published in
  tv_Status v = VersionStatusPublished /\ tv_Status (version_at 0 second_published) = VersionStatusObsolete
  /\ (v ∈ st_versions second_published \/ exists t, set_obsolete t v ∈ st_versions second_published).
Proof.
  split_and!; [by vm_compute|by vm_compute|].
  apply (released_versions_are_frozen first_published second_published (version_at 0 first_published)).
  - exact second_published_history.
  - exact (proj1 first_published_ok).
  - exact (proj2 first_published_ok).
  - vm_compute. left.
  - left. by vm_compute.
Defined.

Lemma one_published_version_witness :
  let v := version_at 1 second_published in
  tv_Status v = VersionStatusPublished /\ pointed v second_published.
Proof.
  split; [by vm_compute|].
  apply (one_published_version first_published second_published (version_at 1 second_published)
    (version_at 1 second_published));
    [exact second_published_history|exact (proj1 first_published_ok)|exact (proj2 first_published_ok)|..];
    first [by vm_compute | vm_compute; right; left].
Defined.

(** * Templates: after a crash

    The services use no transaction, so a process that dies leaves what it had
    done. Creating a version writes the version, then the template's counter;
    approving obsoletes the previous version, moves the template's pointer, then
    publishes. What a crash in between means for the requests that follow. *)

(** ** The counter of a template *)

(** The number the next version of template [tid] would get is taken. *)
Definition blocked (tid : string) (st : Store) : Prop :=
  exists t v, t ∈ st_templates st /\ te_ID t = tid
    /\ v ∈ st_versions st /\ tv_TemplateID v = tid /\ tv_VersionNumber v = te_LatestVersion t + 1.

Section blocked.
Context `{UuidText} `{!UuidLaws} `{SignedURL} `{RegexpSyntax}.

Lemma blocked_versions tid st rows :
  grows same_key (st_versions st) rows -> blocked tid st -> blocked tid (with_versions rows st).
Proof.
  intros (l & new & -> & HF) (t & v & Ht & Htid & Hv & Hvt & Hn).
  destruct (updated_forall _ _ _ HF v Hv) as (v' & Hv' & Hk).
  exists t, v'. simpl. destruct Hk. split_and!; [done|done|set_solver|congruence|congruence].
Qed.

(** Every update of a template leaves the counter of [tid]. *)
Lemma blocked_templates tid st t t' st' :
  tables_ok st -> t ∈ st_templates st -> te_ID t' = te_ID t ->
  te_LatestVersion t' = te_LatestVersion t \/ te_ID t <> tid ->
  UpdateTemplate t' st = inr st' -> blocked tid st -> blocked tid st'.
Proof.
  intros Hok Ht Hid Hl (id & pub & rows & Huid & _ & -> & HF)%UpdateTemplate_ok
    (u & v & Hu & Hutid & Hv & Hvt & Hn).
  rewrite Hid, (template_id_canonical _ _ Hok Ht) in Huid. injection Huid as <-.
  destruct (updated_forall _ _ _ HF u Hu) as (u' & Hu' & Heq).
  exists u', v. simpl. destruct (_ && _) eqn:Hb; subst u'; [|done]. bool_to_prop.
  assert (u = t) as -> by (by apply (template_row_unique st)). simpl.
  destruct Hl as [->|]; [done|congruence].
Qed.

#[export] Instance blocked_contract tid : Contract (fun _ _ => True) (blocked tid).
Proof.
  assert (forall st v v' rows, Forall2 (replaced_by v v') (st_versions st) rows -> same_key v v' ->
    Forall2 same_key (st_versions st) rows) as Hrep.
  { intros st v v' rows HF Hk. eapply Forall2_impl; [exact HF|].
    intros r r' [[-> ->]|[_ ->]]; [done|reflexivity]. }
  split.
  - split; done.
  - intros st st' Hv Ht (t & v & Hb). split; [|done]. exists t, v. by rewrite Hv, Ht.
  - intros st v v' rows _ Hb _ Hs _ HF. split; [|done].
    eapply blocked_versions, Hb. eapply grows_update, Hrep, version_step_key; done.
  - intros st now tid' keep rows _ Hb HF. split; [|done]. eapply blocked_versions, Hb.
    apply grows_update. eapply Forall2_impl; [exact HF|]. intros r r' ->.
    destruct (_ && _ && _); [by split|reflexivity].
  - intros st t st' _ (u & v & Hu & Hb) _ (id & pub & _ & _ & -> & _)%CreateTemplate_ok.
    split; [|done]. exists u, v. split; [set_solver|done].
  - intros st v st' _ Hb _ _ (id & tid' & _ & _ & -> & _)%CreateVersion_ok. split; [|done].
    eapply blocked_versions, Hb. apply grows_append. tc_solve.
  - intros st t t' st' Hok Hb Ht [Hid _ Hl _] Hu. split; [|done].
    eapply blocked_templates; [done|done|done|by left|done|done].
  - intros st t v st' Hok Hb Ht _ Htid Hn Hc.
    pose proof Hc as (id & tid' & _ & Htid' & -> & _ & Hnum & _)%CreateVersion_ok.
    assert (tid' = te_ID t) as -> by congruence.
    split; [split; [|done]; eapply blocked_versions, Hb; apply grows_append; tc_solve|].
    intros st'' Hok' Hu. split; [|done].
    eapply (blocked_templates tid _ t (set_te_LatestVersion (tv_VersionNumber v) t));
      [done|done|done| |exact Hu|eapply blocked_versions, Hb; apply grows_append; tc_solve].
    right. intros <-. destruct Hb as (u & w & Hu' & Hutid & Hw & Hwt & Hwn).
    apply Hnum. assert (u = t) as -> by (by apply (template_row_unique st)).
    replace (te_ID t, tv_VersionNumber v) with (version_key w); [by apply list_elem_of_fmap_2|].
    unfold version_key. congruence.
Qed.

Lemma blocked_add_version tenant actor tid' t source st :
  t ∈ st_templates st -> uuid_in tid' = Some (te_ID t) ->
  wpe (alone (fun _ _ => True) (blocked (te_ID t))) (add_version tenant actor tid' t source)
    (fun _ _ => False) st.
Proof.
  intros Ht Hid. apply wpe_bind, seq_new_uuid; [tc_solve|]. intros u.
  apply wpe_bind, seq_now; [tc_solve|]. intros t0. apply wpe_bind.
  eapply seq_write; [tc_solve|intros; reflexivity|].
  intros _ st2 Hok (w & v & Hw & Hwid & Hv & Hvt & Hn) Hc. exfalso.
  apply CreateVersion_ok in Hc as (? & tid & _ & Htid & _ & _ & Hnum & _). simpl in *.
  assert (tid = te_ID t) as -> by congruence.
  assert (w = t) as -> by (by apply (template_row_unique st)).
  apply Hnum. rewrite <- Hn, <- Hvt. by apply (list_elem_of_fmap_2 version_key).
Qed.

Lemma blocked_CreateNextVersion tid tenant actor id st :
  uuid_in id = Some tid ->
  wpe (alone (fun _ _ => True) (blocked tid)) (CreateNextVersion tenant actor id) (fun _ _ => False) st.
Proof.
  intros Hid. apply wpe_bind, seq_get_template; [tc_solve|]. intros t Ht Htid.
  assert (tid = te_ID t) as -> by congruence.
  apply wpe_bind, wpe_guard. intros _. apply wpe_bind. destruct (te_PublishedVersionID t) as [p|].
  - eapply seq_read; [tc_solve|done|]. intros src _ _ _. by apply blocked_add_version.
  - apply seq_get_version; [tc_solve|]. intros src _ _ _. by apply blocked_add_version.
Qed.

(** A crash between the two writes of [CreateNextVersion] blocks the
    template for good: the number of the next version is taken, the counter
    still says it is free, and whatever requests follow, no later request
    creates a version of the template. *)
Theorem lost_counter_blocks_the_template (st st' : Store) (tid : string) :
  history st st' -> tables_ok st -> blocked tid st ->
  blocked tid st' /\
  forall tenant actor id r st'',
    uuid_in id = Some tid -> finishes (CreateNextVersion tenant actor id) st' r st'' ->
    exists e, r = inl e.
Proof.
  intros Hh Hok Hb.
  destruct (contract_history (fun _ _ => True) (blocked tid) _ _ Hh Hok Hb) as (Hok' & Hb' & _).
  split; [done|]. intros tenant actor id r st'' Hid Hf.
  pose proof (blocked_CreateNextVersion tid tenant actor id st' Hid) as Hwp.
  apply wp_both in Hwp; [|apply (wpe_true interleaving), serve_CreateNextVersion].
  pose proof (wp_finishes _ _ _ _ _ _ Hwp Hf (conj Hok' Hb')) as Hr. destruct r; [eauto|done].
Qed.
End blocked.

Import Demo.

(** A crash after the first write of [CreateNextVersion]. *)
Definition crashed_store : Store :=
  run_cut 5 (serve (CallCreateNextVersion "acme" "ana" (uuid_at 1))) 100 first_published.

Lemma crashed_blocked : blocked (uuid_at 1) crashed_store.
Proof.
  exists (nth 0 (st_templates crashed_store) (mkTemplate "" "" "" "" "" "" [] VisibilityPublic [] 0 None "" 0 None)),
    (version_at 1 crashed_store).
  split_and!; try by vm_compute.
  - vm_compute. left.
  - vm_compute. right. left.
Qed.

Lemma crashed_history : history first_published crashed_store.
Proof. apply rtc_once. apply (turn_call serve uploads (CallCreateNextVersion "acme" "ana" (uuid_at 1))), run_cut_runs. Qed.

Lemma lost_counter_blocks_the_template_witness :
  exists e, (run_prog (CreateNextVersion "acme" "ana" (uuid_at 1)) 200 crashed_store).1.1 = inl e.
Proof.
  assert (tables_ok crashed_store) as Hok.
  { destruct (history_keeps_pointers _ _ crashed_history) as [? _]; [apply first_published_ok..|done]. }
  refine (proj2 (lost_counter_blocks_the_template crashed_store crashed_store (uuid_at 1)
    (rtc_refl _ _) Hok crashed_blocked) "acme" "ana" (uuid_at 1) _ _ eq_refl _).
  apply run_prog_finishes.
Defined.
