(* ===== verification/EditorDomain.v ===== *)
(** * Editor: the domain

    [internal/modules/documents_v2/domain]: documents as the editor sees them,
    editor sessions, revisions, pending uploads, checkpoints, comments, the
    errors; and the choice of a template in [registry/domain/resolution.go]. *)
From S2P Require Import Prelude Tables ApprovalDomain Database.
Import DocStates.
Local Open Scope Z_scope.

(** ** Errors *)

Definition ErrInvalidStateTransition : Error := Sentinel "documents_v2.ErrInvalidStateTransition".
Definition ErrSessionInactive : Error := Sentinel "documents_v2.ErrSessionInactive".
Definition ErrSessionNotHolder : Error := Sentinel "documents_v2.ErrSessionNotHolder".
Definition ErrStaleBase : Error := Sentinel "documents_v2.ErrStaleBase".
Definition ErrMisbound : Error := Sentinel "documents_v2.ErrMisbound".
Definition ErrExpiredUpload : Error := Sentinel "documents_v2.ErrExpiredUpload".
Definition ErrContentHashMismatch : Error := Sentinel "documents_v2.ErrContentHashMismatch".
Definition ErrPendingNotFound : Error := Sentinel "documents_v2.ErrPendingNotFound".
Definition ErrSessionTaken : Error := Sentinel "documents_v2.ErrSessionTaken".
Definition ErrForbidden : Error := Sentinel "documents_v2.ErrForbidden".
Definition ErrUploadMissing : Error := Sentinel "documents_v2.ErrUploadMissing".
Definition ErrCheckpointNotFound : Error := Sentinel "documents_v2.ErrCheckpointNotFound".
Definition ErrDocumentNotOwner : Error := Sentinel "documents_v2.ErrDocumentNotOwner".
Definition ErrNotFound : Error := Sentinel "documents_v2.ErrNotFound".
Definition ErrInvalidName : Error := Sentinel "documents_v2.ErrInvalidName".
Definition ErrCommentNotFound : Error := Sentinel "documents_v2.ErrCommentNotFound".
Definition ErrCommentInvalid : Error := Sentinel "documents_v2.ErrCommentInvalid".

(** ** Documents *)

(** The module's own statuses besides ['draft']; the approval core has no name
    for them. *)
Definition DocStatusDraft : DocState := StateDraft.
Definition DocStatusFinalized : DocState := StateOther "finalized".
Definition DocStatusArchived : DocState := StateOther "archived".

Definition CanTransitionDocument (cur next : DocState) : bool :=
  if bool_decide (cur = DocStatusDraft)
  then bool_decide (next = DocStatusFinalized) || bool_decide (next = DocStatusArchived)
  else if bool_decide (cur = DocStatusFinalized) then bool_decide (next = DocStatusArchived)
  else false.

(** A row of [documents]: the columns of the approval core and those of the
    editor. JSON columns hold the text [jsonb] prints. *)
Record DocumentRow := mkDocumentRow {
  dr_doc : Document;
  dr_template_version_id : string;
  dr_name : string;
  dr_form_data_json : string;
  dr_current_revision_id : option string;
  dr_active_session_id : option string;
  dr_finalized_at : option Time;
  dr_archived_at : option Time;
  dr_created_at : Time;
  dr_updated_at : Time;
  dr_profile_code_snapshot : option string;
  dr_code : option string;
  dr_revision_number : Z
}.

Definition dr_id (d : DocumentRow) : string := d_id (dr_doc d).
Definition dr_tenant_id (d : DocumentRow) : string := d_tenant_id (dr_doc d).
Definition dr_status (d : DocumentRow) : DocState := d_status (dr_doc d).

(** [domain.Document], what the module gives its callers. *)
Record DocumentView := mkDocumentView {
  dv_ID : string;
  dv_TenantID : string;
  dv_TemplateVersionID : string;
  dv_Name : string;
  dv_Status : DocState;
  dv_FormDataJSON : string;
  dv_CurrentRevisionID : string;
  dv_RevisionVersion : Z;
  dv_ActiveSessionID : string;
  dv_FinalizedAt : option Time;
  dv_ArchivedAt : option Time;
  dv_CreatedAt : Time;
  dv_UpdatedAt : Time;
  dv_CreatedBy : string;
  dv_ControlledDocumentID : option string;
  dv_Code : string
}.

(** ** Sessions, revisions, uploads, checkpoints *)

Inductive SessionStatus := SessionActive | SessionExpired | SessionReleased | SessionForceReleased.
#[export] Instance SessionStatus_eq_dec : EqDecision SessionStatus.
Proof. solve_decision. Defined.

Record Session := mkSession {
  se_ID : string;
  se_DocumentID : string;
  se_UserID : string;
  se_AcquiredAt : Time;
  se_ExpiresAt : Time;
  se_ReleasedAt : option Time;
  se_LastAcknowledgedRevisionID : string;
  se_Status : SessionStatus
}.

(** The parent is [None] on the first revision of a document only. *)
Record Revision := mkRevision {
  rv_ID : string;
  rv_DocumentID : string;
  rv_RevisionNum : Z;
  rv_ParentRevisionID : option string;
  rv_SessionID : string;
  rv_StorageKey : string;
  rv_ContentHash : string;
  rv_FormDataSnapshot : option string;
  rv_CreatedAt : Time
}.

Record PendingUpload := mkPendingUpload {
  pu_ID : string;
  pu_SessionID : string;
  pu_DocumentID : string;
  pu_BaseRevisionID : string;
  pu_ContentHash : string;
  pu_StorageKey : string;
  pu_PresignedAt : Time;
  pu_ExpiresAt : Time;
  pu_ConsumedAt : option Time
}.

Record Checkpoint := mkCheckpoint {
  cp_ID : string;
  cp_DocumentID : string;
  cp_RevisionID : string;
  cp_VersionNum : Z;
  cp_Label : string;
  cp_CreatedAt : Time;
  cp_CreatedBy : string
}.

(** ** Comments *)

Record Comment := mkComment {
  cm_ID : string;
  cm_TenantID : string;
  cm_DocumentID : string;
  cm_LibraryCommentID : Z;
  cm_ParentLibraryID : option Z;
  cm_AuthorID : string;
  cm_AuthorDisplay : string;
  cm_ContentJSON : string;
  cm_ResolvedAt : option Time;
  cm_ResolvedBy : option string;
  cm_CreatedAt : Time;
  cm_UpdatedAt : Time
}.

(** An absent JSON message is empty. *)
Record CommentCreateInput := mkCommentCreateInput {
  cc_LibraryCommentID : Z;
  cc_ParentLibraryID : option Z;
  cc_AuthorDisplay : string;
  cc_ContentJSON : string
}.

Record CommentUpdateInput := mkCommentUpdateInput {
  cu_ContentJSON : option string;
  cu_Done : option bool
}.

(** ** The template of a new document: [registry/domain/resolution.go] *)

Record TemplateVersionCandidate := mkTemplateVersionCandidate {
  tc_ID : string;
  tc_ProfileCode : string;
  tc_Status : option string
}.

Definition ErrProfileHasNoDefaultTemplate : Error := Sentinel "registry.ErrProfileHasNoDefaultTemplate".
Definition ErrOverrideTemplateDeleted : Error := Sentinel "registry.ErrOverrideTemplateDeleted".
Definition ErrOverrideNotPublished : Error := Sentinel "registry.ErrOverrideNotPublished".
Definition ErrDefaultObsolete : Error := Sentinel "registry.ErrDefaultObsolete".
Definition ErrTemplateProfileMismatch : Error := Sentinel "registry.ErrTemplateProfileMismatch".

(** The version, and where it comes from. *)
Definition Resolve (profileCode : string) (override default : option TemplateVersionCandidate)
    : Result (string * string) :=
  match override with
  | Some o =>
      match tc_Status o with
      | None => inl ErrOverrideTemplateDeleted
      | Some s =>
          if negb (str_eqb s "published") then inl ErrOverrideNotPublished
          else if negb (str_eqb (tc_ProfileCode o) profileCode) then inl ErrTemplateProfileMismatch
          else inr (tc_ID o, "override")
      end
  | None =>
      match default with
      | None => inl ErrProfileHasNoDefaultTemplate
      | Some d =>
          match tc_Status d with
          | None => inl ErrProfileHasNoDefaultTemplate
          | Some s =>
              if str_eqb s "obsolete" then inl ErrDefaultObsolete
              else if negb (str_eqb s "published") then inl ErrProfileHasNoDefaultTemplate
              else inr (tc_ID d, "default")
          end
      end
  end.
