(* ===== verification/EditorTables.v ===== *)
(** * Editor: tables and transactions

    The tables of migrations 0110 and 0118 with their constraints, and the
    monad [TX] in which the methods of [documents_v2/repository] are written.
    A method is one transaction: an error undoes what it did, but for the
    numbers it took from the sequence. Transactions lock the rows they decide
    on ([FOR UPDATE]), and run here one at a time. *)
From S2P Require Import Prelude Tables ApprovalDomain Database Schema Sha256 ContentHash EditorDomain.
Import DocStates.
Local Open Scope Z_scope.

Definition not_null_violation (column : string) : Error :=
  PgError "23502" column "null value violates not-null constraint".

(** A nil slice is NULL. *)
Definition jsonb_param_opt `{JsonbText} (s : option string) : Result (option string) :=
  match s with
  | None => inr None
  | Some s => match jsonb_param s with inl e => inl e | inr c => inr (Some c) end
  end.

(** ** State: the tables, the sequence of revision numbers, the objects of the
    bucket and the audit trail *)

Record EditStore := mkEditStore {
  es_documents : list DocumentRow;
  es_sessions : list Session;
  es_revisions : list Revision;
  es_pending : list PendingUpload;
  es_checkpoints : list Checkpoint;
  es_comments : list Comment;
  es_revision_seq : Z;
  es_objects : gmap string string;
  es_audit : list (string * string * string * string)
}.

Definition with_documents x s := mkEditStore x (es_sessions s) (es_revisions s) (es_pending s)
  (es_checkpoints s) (es_comments s) (es_revision_seq s) (es_objects s) (es_audit s).
Definition with_sessions x s := mkEditStore (es_documents s) x (es_revisions s) (es_pending s)
  (es_checkpoints s) (es_comments s) (es_revision_seq s) (es_objects s) (es_audit s).
Definition with_revisions x s := mkEditStore (es_documents s) (es_sessions s) x (es_pending s)
  (es_checkpoints s) (es_comments s) (es_revision_seq s) (es_objects s) (es_audit s).
Definition with_pending x s := mkEditStore (es_documents s) (es_sessions s) (es_revisions s) x
  (es_checkpoints s) (es_comments s) (es_revision_seq s) (es_objects s) (es_audit s).
Definition with_checkpoints x s := mkEditStore (es_documents s) (es_sessions s) (es_revisions s)
  (es_pending s) x (es_comments s) (es_revision_seq s) (es_objects s) (es_audit s).
Definition with_comments x s := mkEditStore (es_documents s) (es_sessions s) (es_revisions s)
  (es_pending s) (es_checkpoints s) x (es_revision_seq s) (es_objects s) (es_audit s).
Definition with_seq x s := mkEditStore (es_documents s) (es_sessions s) (es_revisions s)
  (es_pending s) (es_checkpoints s) (es_comments s) x (es_objects s) (es_audit s).
Definition with_objects x s := mkEditStore (es_documents s) (es_sessions s) (es_revisions s)
  (es_pending s) (es_checkpoints s) (es_comments s) (es_revision_seq s) x (es_audit s).
Definition with_audit x s := mkEditStore (es_documents s) (es_sessions s) (es_revisions s)
  (es_pending s) (es_checkpoints s) (es_comments s) (es_revision_seq s) (es_objects s) x.

(** ** Transactions *)

(** SQL [now()] and the UUIDs [gen_random_uuid()] returns. *)
Record TxDraw `{UuidText} := mkTxDraw {
  dw_now : Time;
  dw_uuid : nat -> string;
  dw_canonical : forall i, uuid_in (dw_uuid i) = Some (dw_uuid i)
}.

Record TxState := mkTxState { ts_uuids : nat; ts_store : EditStore }.

Section transactions.
Context `{UuidText}.

Definition TX (A : Type) : Type := TxDraw -> TxState -> Result A * TxState.

#[export] Instance TX_ret : MRet TX := fun A a u s => (inr a, s).
#[export] Instance TX_bind : MBind TX := fun A B f m u s =>
  match m u s with
  | (inl e, s') => (inl e, s')
  | (inr a, s') => f a u s'
  end.

Definition tfail {A} (e : Error) : TX A := fun u s => (inl e, s).
Definition tlift {A} (r : Result A) : TX A := fun u s => (r, s).
Definition twhen (b : bool) (e : Error) : TX unit := if b then tfail e else mret tt.

Definition sql_now : TX Time := fun u s => (inr (dw_now u), s).
Definition gen_random_uuid : TX string := fun u s =>
  (inr (dw_uuid u (ts_uuids s)), mkTxState (S (ts_uuids s)) (ts_store s)).

Definition select {A} (q : EditStore -> A) : TX A := fun u s => (inr (q (ts_store s)), s).
Definition select_row {A} (q : EditStore -> option A) : TX A := fun u s =>
  (match q (ts_store s) with Some a => inr a | None => inl ErrNoRows end, s).
Definition statement {A} (f : EditStore -> Result (A * EditStore)) : TX A := fun u s =>
  match f (ts_store s) with
  | inl e => (inl e, s)
  | inr (a, st) => (inr a, mkTxState (ts_uuids s) st)
  end.

(** [fmt.Errorf("...: %w", err)]. *)
Definition twrap {A} (fmt : string) (m : TX A) : TX A := fun u s =>
  match m u s with (inl e, s') => (inl (Wrapf fmt [] e), s') | r => r end.

Definition tmap_err {A} (f : Error -> Error) (m : TX A) : TX A := fun u s =>
  match m u s with (inl e, s') => (inl (f e), s') | r => r end.

(** [nextval] of a BIGSERIAL. *)
Definition nextval : TX Z := statement (fun st =>
  let n := es_revision_seq st + 1 in
  if 2 ^ 63 - 1 <? n then inl (PgError "2200H" "" "nextval: reached maximum value of sequence")
  else inr (n, with_seq n st)).

Definition run_tx {A} (m : TX A) (u : TxDraw) (st : EditStore) : Result A * EditStore :=
  match m u (mkTxState 0 st) with
  | (inr a, s) => (inr a, ts_store s)
  | (inl e, s) => (inl e, with_seq (es_revision_seq (ts_store s)) st)
  end.
End transactions.

(** ** The write statements with the constraints of their tables *)

Definition exists_id {R} (id : R -> string) (rows : list R) (x : string) : bool :=
  existsb (fun r => str_eqb (id r) x) rows.

Definition approval_active (s : DocState) : bool :=
  match s with
  | StateDraft | StateUnderReview | StateApproved | StateRejected | StateScheduled => true
  | _ => false
  end.

Definition opt_eqb (a b : option string) : bool := bool_decide (a = b).

(** The two unique indexes of migration 0131 on the controlled document. *)
Definition insert_document (d : DocumentRow) (st : EditStore) : Result EditStore :=
  let cd := d_controlled_document_id (dr_doc d) in
  check! constraint (negb (exists_id dr_id (es_documents st) (dr_id d))) (unique_violation "documents_pkey");
  check! constraint (negb (is_Some_b cd
             && existsb (fun r => opt_eqb (d_controlled_document_id (dr_doc r)) cd
                           && (dr_revision_number r =? dr_revision_number d)) (es_documents st)))
           (unique_violation "ux_documents_v2_cd_revision");
  check! constraint (negb (is_Some_b cd && approval_active (dr_status d)
             && existsb (fun r => opt_eqb (d_controlled_document_id (dr_doc r)) cd
                           && approval_active (dr_status r)) (es_documents st)))
           (unique_violation "ux_documents_v2_cd_active");
  inr (with_documents (es_documents st ++ [d]) st).

(** The triggers of [documents] see the approval columns; the deferred foreign
    keys are checked at once, as the rows they need come first everywhere. *)
Definition update_documents (cond : DocumentRow -> bool) (upd : DocumentRow -> DocumentRow)
    (st : EditStore) : Result (Z * EditStore) :=
  match update_where cond (fun r =>
          let r' := upd r in
          check! before_update_document no_gucs (dr_doc r) (dr_doc r');
          check! constraint (match dr_current_revision_id r' with
                             | Some x => exists_id rv_ID (es_revisions st) x
                             | None => true
                             end) (fk_violation "fk_current_revision");
          check! constraint (match dr_active_session_id r' with
                             | Some x => exists_id se_ID (es_sessions st) x
                             | None => true
                             end) (fk_violation "fk_active_session");
          inr r') (es_documents st) with
  | inl e => inl e
  | inr (n, rows) => inr (n, with_documents rows st)
  end.

(** [idx_one_active_session_per_doc] is partial: active sessions only. *)
Definition insert_session (s : Session) (st : EditStore) : Result EditStore :=
  check! constraint (negb (exists_id se_ID (es_sessions st) (se_ID s))) (unique_violation "editor_sessions_pkey");
  check! constraint (negb (bool_decide (se_Status s = SessionActive)
             && existsb (fun r => str_eqb (se_DocumentID r) (se_DocumentID s)
                           && bool_decide (se_Status r = SessionActive)) (es_sessions st)))
           (unique_violation "idx_one_active_session_per_doc");
  check! constraint (exists_id dr_id (es_documents st) (se_DocumentID s))
           (fk_violation "editor_sessions_document_id_fkey");
  inr (with_sessions (es_sessions st ++ [s]) st).

(** No update makes a session active. *)
Definition update_sessions (cond : Session -> bool) (upd : Session -> Session) (st : EditStore)
    : Result (Z * EditStore) :=
  match update_where cond (fun r => inr (upd r)) (es_sessions st) with
  | inl e => inl e
  | inr (n, rows) => inr (n, with_sessions rows st)
  end.

Definition insert_revision (r : Revision) (st : EditStore) : Result EditStore :=
  check! constraint (negb (exists_id rv_ID (es_revisions st) (rv_ID r))) (unique_violation "document_revisions_pkey");
  check! constraint (negb (existsb (fun r' => str_eqb (rv_DocumentID r') (rv_DocumentID r)
             && str_eqb (rv_ContentHash r') (rv_ContentHash r)) (es_revisions st)))
           (unique_violation "document_revisions_document_id_content_hash_key");
  check! constraint (exists_id dr_id (es_documents st) (rv_DocumentID r))
           (fk_violation "document_revisions_document_id_fkey");
  check! constraint (match rv_ParentRevisionID r with
                     | Some p => exists_id rv_ID (es_revisions st) p
                     | None => true
                     end) (fk_violation "document_revisions_parent_revision_id_fkey");
  check! constraint (exists_id se_ID (es_sessions st) (rv_SessionID r))
           (fk_violation "document_revisions_session_id_fkey");
  inr (with_revisions (es_revisions st ++ [r]) st).

Definition insert_pending (p : PendingUpload) (st : EditStore) : Result EditStore :=
  check! constraint (negb (exists_id pu_ID (es_pending st) (pu_ID p)))
           (unique_violation "autosave_pending_uploads_pkey");
  check! constraint (exists_id se_ID (es_sessions st) (pu_SessionID p))
           (fk_violation "autosave_pending_uploads_session_id_fkey");
  check! constraint (exists_id dr_id (es_documents st) (pu_DocumentID p))
           (fk_violation "autosave_pending_uploads_document_id_fkey");
  check! constraint (exists_id rv_ID (es_revisions st) (pu_BaseRevisionID p))
           (fk_violation "autosave_pending_uploads_base_revision_id_fkey");
  inr (with_pending (es_pending st ++ [p]) st).

Definition insert_checkpoint (c : Checkpoint) (st : EditStore) : Result EditStore :=
  check! constraint (negb (exists_id cp_ID (es_checkpoints st) (cp_ID c)))
           (unique_violation "document_checkpoints_pkey");
  check! constraint (negb (existsb (fun r => str_eqb (cp_DocumentID r) (cp_DocumentID c)
             && (cp_VersionNum r =? cp_VersionNum c)) (es_checkpoints st)))
           (unique_violation "document_checkpoints_document_id_version_num_key");
  check! constraint (exists_id dr_id (es_documents st) (cp_DocumentID c))
           (fk_violation "document_checkpoints_document_id_fkey");
  check! constraint (exists_id rv_ID (es_revisions st) (cp_RevisionID c))
           (fk_violation "document_checkpoints_revision_id_fkey");
  inr (with_checkpoints (es_checkpoints st ++ [c]) st).

Definition insert_comment (c : Comment) (st : EditStore) : Result EditStore :=
  check! constraint (negb (exists_id cm_ID (es_comments st) (cm_ID c)))
           (unique_violation "document_comments_pkey");
  check! constraint (negb (existsb (fun r => str_eqb (cm_DocumentID r) (cm_DocumentID c)
             && (cm_LibraryCommentID r =? cm_LibraryCommentID c)) (es_comments st)))
           (unique_violation "idx_document_comments_doc_lib");
  check! constraint (exists_id dr_id (es_documents st) (cm_DocumentID c))
           (fk_violation "document_comments_document_id_fkey");
  inr (with_comments (es_comments st ++ [c]) st).

Definition execute `{UuidText} (f : EditStore -> Result EditStore) : TX unit :=
  statement (fun st => match f st with inl e => inl e | inr st' => inr (tt, st') end).

(** ** Columns set by an UPDATE *)

Definition set_pointers (rev sess : option string) (now : Time) (d : DocumentRow) : DocumentRow :=
  mkDocumentRow (dr_doc d) (dr_template_version_id d) (dr_name d) (dr_form_data_json d) rev sess
    (dr_finalized_at d) (dr_archived_at d) (dr_created_at d) now (dr_profile_code_snapshot d)
    (dr_code d) (dr_revision_number d).

Definition set_active_session (sess : option string) (now : Time) (d : DocumentRow) : DocumentRow :=
  set_pointers (dr_current_revision_id d) sess now d.

Definition set_head (rev form : string) (now : Time) (d : DocumentRow) : DocumentRow :=
  mkDocumentRow (dr_doc d) (dr_template_version_id d) (dr_name d) form (Some rev)
    (dr_active_session_id d) (dr_finalized_at d) (dr_archived_at d) (dr_created_at d) now
    (dr_profile_code_snapshot d) (dr_code d) (dr_revision_number d).

Definition set_name (name : string) (now : Time) (d : DocumentRow) : DocumentRow :=
  mkDocumentRow (dr_doc d) (dr_template_version_id d) name (dr_form_data_json d)
    (dr_current_revision_id d) (dr_active_session_id d) (dr_finalized_at d) (dr_archived_at d)
    (dr_created_at d) now (dr_profile_code_snapshot d) (dr_code d) (dr_revision_number d).

Definition set_status (next : DocState) (finalized archived : option Time) (now : Time)
    (d : DocumentRow) : DocumentRow :=
  mkDocumentRow (doc_set next (d_revision_version (dr_doc d)) (dr_doc d))
    (dr_template_version_id d) (dr_name d) (dr_form_data_json d) (dr_current_revision_id d)
    (dr_active_session_id d) finalized archived (dr_created_at d) now
    (dr_profile_code_snapshot d) (dr_code d) (dr_revision_number d).

Definition set_se_ExpiresAt (t : Time) (s : Session) : Session :=
  mkSession (se_ID s) (se_DocumentID s) (se_UserID s) (se_AcquiredAt s) t (se_ReleasedAt s)
    (se_LastAcknowledgedRevisionID s) (se_Status s).
Definition set_se_Ack (rev : string) (s : Session) : Session :=
  mkSession (se_ID s) (se_DocumentID s) (se_UserID s) (se_AcquiredAt s) (se_ExpiresAt s)
    (se_ReleasedAt s) rev (se_Status s).
Definition set_se_Status (status : SessionStatus) (released : option Time) (s : Session) : Session :=
  mkSession (se_ID s) (se_DocumentID s) (se_UserID s) (se_AcquiredAt s) (se_ExpiresAt s)
    released (se_LastAcknowledgedRevisionID s) status.
Definition set_rv_StorageKey (key : string) (r : Revision) : Revision :=
  mkRevision (rv_ID r) (rv_DocumentID r) (rv_RevisionNum r) (rv_ParentRevisionID r)
    (rv_SessionID r) key (rv_ContentHash r) (rv_FormDataSnapshot r) (rv_CreatedAt r).
Definition set_pu_ConsumedAt (t : Time) (p : PendingUpload) : PendingUpload :=
  mkPendingUpload (pu_ID p) (pu_SessionID p) (pu_DocumentID p) (pu_BaseRevisionID p)
    (pu_ContentHash p) (pu_StorageKey p) (pu_PresignedAt p) (pu_ExpiresAt p) (Some t).

Definition session_is_active (s : Session) : bool := bool_decide (se_Status s = SessionActive).

(** [interval '5 minutes']. *)
Definition five_minutes : Z := 5 * 60 * 10 ^ 9.
