(* ===== verification/EditorRepo.v ===== *)
(** * Editor: the repository

    [documents_v2/repository/repository.go], one Definition per method, and the
    object store of [internal/platform/objectstore/document_presigner.go]. *)
From S2P Require Import Prelude Tables ApprovalDomain Database Schema Sha256 ContentHash EditorDomain EditorTables.
Import DocStates.
Local Open Scope Z_scope.

Section repository.
Context `{UuidText} `{JsonbText}.

(** ** Documents *)

(** What [CreateDocument] reads of the document it is given; a nil slice is
    [None]. *)
Record NewDocument := mkNewDocument {
  nd_TenantID : string;
  nd_TemplateVersionID : string;
  nd_Name : string;
  nd_FormDataJSON : option string;
  nd_CreatedBy : string;
  nd_ControlledDocumentID : option string;
  nd_ProfileCodeSnapshot : option string;
  nd_ProcessAreaCodeSnapshot : option string
}.

Definition no_snapshot : DocSnapshot := mkDocSnapshot None None None None None None.

Definition zero_uuid : string := "00000000-0000-0000-0000-000000000000".

(** The defaults of the other columns: revision number 1, version 0. *)
Definition new_document_row (id tenant template form : string) (cd : option string) (d : NewDocument)
    (now : Time) : DocumentRow :=
  mkDocumentRow
    (mkDocument id tenant StateDraft 0 (nd_CreatedBy d) (nd_ProcessAreaCodeSnapshot d) cd None
       no_snapshot None)
    template (nd_Name d) form None None None None now now (nd_ProfileCodeSnapshot d) None 1.

Definition insert_new_document (d : NewDocument) : TX string :=
  tenant ← tlift (uuid_param (nd_TenantID d));
  template ← tlift (uuid_param (nd_TemplateVersionID d));
  form ← tlift (jsonb_param_opt (nd_FormDataJSON d));
  cd ← tlift (uuid_param_opt (nd_ControlledDocumentID d));
  id ← gen_random_uuid;
  now ← sql_now;
  form ← tlift (match form with Some f => inr f | None => inl (not_null_violation "form_data_json") end);
  execute (insert_document (new_document_row id tenant template form cd d now));;
  mret id.

(** The ids of the document, its first revision and its first session. *)
Definition CreateDocument (d : NewDocument) (initialContentHash : string) : TX (string * string * string) :=
  docID ← twrap "insert document: %w" (insert_new_document d);
  now ← sql_now;
  sessionID ← twrap "insert session: %w"
    (id ← gen_random_uuid;
     execute (insert_session (mkSession id docID (nd_CreatedBy d) now (now + five_minutes) None
                zero_uuid SessionActive));;
     mret id);
  revID ← twrap "insert revision: %w"
    (id ← gen_random_uuid;
     num ← nextval;
     form ← tlift (jsonb_param_opt (nd_FormDataJSON d));
     execute (insert_revision (mkRevision id docID num None sessionID "" initialContentHash form now));;
     mret id);
  twrap "update session ack: %w"
    (statement (update_sessions (fun s => str_eqb (se_ID s) sessionID) (set_se_Ack revID)));;
  twrap "update document pointers: %w"
    (statement (update_documents (fun r => str_eqb (dr_id r) docID)
                  (set_pointers (Some revID) (Some sessionID) now)));;
  mret (docID, revID, sessionID).

Definition SetRevisionStorageKey (revID storageKey : string) : TX unit :=
  id ← tlift (uuid_param revID);
  n ← statement (fun st =>
        match update_where (fun r => str_eqb (rv_ID r) id && str_eqb (rv_StorageKey r) "")
                (fun r => inr (set_rv_StorageKey storageKey r)) (es_revisions st) with
        | inl e => inl e
        | inr (n, rows) => inr (n, with_revisions rows st)
        end);
  twhen (n =? 0) (Errorf "revision %s already has storage_key set" [AStr revID]).

Definition string_or_empty (o : option string) : string := match o with Some s => s | None => "" end.

(** The scanned columns; the lists leave [RevisionVersion] zero. *)
Definition scan_document (version : DocumentRow -> Z) (d : DocumentRow) : DocumentView :=
  mkDocumentView (dr_id d) (dr_tenant_id d) (dr_template_version_id d) (dr_name d) (dr_status d)
    (dr_form_data_json d) (string_or_empty (dr_current_revision_id d)) (version d)
    (string_or_empty (dr_active_session_id d)) (dr_finalized_at d) (dr_archived_at d)
    (dr_created_at d) (dr_updated_at d) (d_created_by (dr_doc d))
    (d_controlled_document_id (dr_doc d)) (string_or_empty (dr_code d)).

Definition document_is (id tenant : string) (d : DocumentRow) : bool :=
  str_eqb (dr_id d) id && str_eqb (dr_tenant_id d) tenant.

Definition not_found_err (err : Error) : Error :=
  if errors_Is err ErrNoRows || isInvalidUUID err then ErrNotFound else err.

Definition GetDocument (tenantID id : string) : TX DocumentView :=
  tmap_err not_found_err
    (id ← tlift (uuid_param id);
     tenant ← tlift (uuid_param tenantID);
     d ← select_row (fun st => select_one (document_is id tenant) (es_documents st));
     mret (scan_document (fun d => d_revision_version (dr_doc d)) d)).

Definition UpdateDocumentName (tenantID docID name : string) : TX unit :=
  id ← tlift (uuid_param docID);
  tenant ← tlift (uuid_param tenantID);
  now ← sql_now;
  n ← statement (update_documents (document_is id tenant) (set_name name now));
  twhen (n =? 0) ErrNotFound.

(** [ORDER BY updated_at DESC]. *)
Definition listed_documents (cond : DocumentRow -> bool) (st : EditStore) : list DocumentView :=
  scan_document (fun _ => 0) <$> order_by (fun d => - dr_updated_at d) (bfilter cond (es_documents st)).

Definition ListDocuments (tenantID : string) : TX (list DocumentView) :=
  tenant ← tlift (uuid_param tenantID);
  select (listed_documents (fun d => str_eqb (dr_tenant_id d) tenant)).

Definition ListDocumentsForUser (tenantID userID : string) : TX (list DocumentView) :=
  tenant ← tlift (uuid_param tenantID);
  select (listed_documents (fun d => str_eqb (dr_tenant_id d) tenant
                              && str_eqb (d_created_by (dr_doc d)) userID)).

Definition UpdateDocumentStatus (tenantID id : string) (cur next : DocState) (stampTime : bool) : TX unit :=
  id ← tlift (uuid_param id);
  tenant ← tlift (uuid_param tenantID);
  now ← sql_now;
  let stamp s old := if stampTime && bool_decide (next = s) then Some now else old in
  n ← statement (update_documents
        (fun d => document_is id tenant d && bool_decide (dr_status d = cur))
        (fun d => set_status next (stamp DocStatusFinalized (dr_finalized_at d))
                    (stamp DocStatusArchived (dr_archived_at d)) now d));
  twhen (n =? 0) ErrInvalidStateTransition.

(** ** Sessions *)

(** The session, and whether it is another user's ([ErrSessionTaken] comes with
    a session, whose expiry the query does not read). *)
Definition AcquireSession (tenantID docID userID : string) : TX (Session * bool) :=
  doc ← tlift (uuid_param docID);
  existing ← select (fun st =>
    select_one (fun s => str_eqb (se_DocumentID s) doc && session_is_active s) (es_sessions st));
  now ← sql_now;
  match existing with
  | Some s =>
      if str_eqb (se_UserID s) userID then
        statement (update_sessions (fun r => str_eqb (se_ID r) (se_ID s))
                     (set_se_ExpiresAt (now + five_minutes)));;
        mret (mkSession (se_ID s) docID userID 0 (now + five_minutes) None
                (se_LastAcknowledgedRevisionID s) SessionActive, false)
      else mret (mkSession (se_ID s) docID (se_UserID s) 0 0 None "" SessionActive, true)
  | None =>
      tenant ← tlift (uuid_param tenantID);
      d ← select_row (fun st => select_one (document_is doc tenant) (es_documents st));
      match dr_current_revision_id d with
      | None => tfail (Errorf "document has no current revision" [])
      | Some curRev =>
          id ← gen_random_uuid;
          execute (insert_session (mkSession id doc userID now (now + five_minutes) None curRev
                     SessionActive));;
          statement (update_documents (fun r => str_eqb (dr_id r) doc)
                       (set_active_session (Some id) now));;
          mret (mkSession id docID userID 0 (now + five_minutes) None curRev SessionActive, false)
      end
  end.

Definition HeartbeatSession (sessionID userID : string) : TX unit :=
  id ← tlift (uuid_param sessionID);
  now ← sql_now;
  n ← statement (update_sessions
        (fun s => str_eqb (se_ID s) id && str_eqb (se_UserID s) userID && session_is_active s)
        (set_se_ExpiresAt (now + five_minutes)));
  twhen (n =? 0) ErrSessionInactive.

(** [WHERE active_session_id = $1]. *)
Definition points_to_session (id : string) (d : DocumentRow) : bool :=
  opt_eqb (dr_active_session_id d) (Some id).

(** Closing the session [cond] selects, by its id. *)
Definition close_session (sessionID : string) (status : SessionStatus) (cond : Session -> bool) : TX unit :=
  id ← tlift (uuid_param sessionID);
  now ← sql_now;
  n ← statement (update_sessions (fun s => str_eqb (se_ID s) id && cond s && session_is_active s)
        (set_se_Status status (Some now)));
  twhen (n =? 0) ErrSessionInactive;;
  statement (update_documents (points_to_session id) (set_active_session None now));;
  mret tt.

Definition ReleaseSession (sessionID userID : string) : TX unit :=
  close_session sessionID SessionReleased (fun s => str_eqb (se_UserID s) userID).

Definition ForceReleaseSession (sessionID : string) : TX unit :=
  close_session sessionID SessionForceReleased (fun _ => true).

Definition is_stale (now : Time) (s : Session) : bool := session_is_active s && (se_ExpiresAt s <? now).

(** One statement. Its rows are those of [documents] it updates, each with the
    number of sessions it expired; it takes effect even when it has no row, in
    which case [Scan] fails. *)
Definition ExpireStaleSessions (now : Time) : TX (Result Z) :=
  at_ ← sql_now;
  expired ← select (fun st => bfilter (is_stale now) (es_sessions st));
  statement (update_sessions (is_stale now) (fun s => set_se_Status SessionExpired (se_ReleasedAt s) s));;
  n ← statement (update_documents
        (fun d => match dr_active_session_id d with
                  | Some x => exists_id se_ID expired x
                  | None => false
                  end) (set_active_session None at_));
  mret (if n =? 0 then inl ErrNoRows else inr (Z.of_nat (length expired))).

(** ** Autosave *)

Definition PresignReserve (sessionID userID docID baseRevisionID contentHash storageKey : string)
    (expiresAt : Time) : TX string :=
  id ← tlift (uuid_param sessionID);
  s ← select_row (fun st => select_one (fun s => str_eqb (se_ID s) id) (es_sessions st));
  twhen (negb (session_is_active s)) ErrSessionInactive;;
  twhen (negb (str_eqb (se_UserID s) userID) || negb (str_eqb (se_DocumentID s) docID))
    ErrSessionNotHolder;;
  twhen (negb (str_eqb (se_LastAcknowledgedRevisionID s) baseRevisionID)) ErrStaleBase;;
  doc ← tlift (uuid_param docID);
  base ← tlift (uuid_param baseRevisionID);
  pendingID ← gen_random_uuid;
  now ← sql_now;
  existing ← select (fun st => select_one (fun p => str_eqb (pu_SessionID p) id
                       && str_eqb (pu_BaseRevisionID p) base
                       && str_eqb (pu_ContentHash p) contentHash) (es_pending st));
  (* ON CONFLICT DO UPDATE SET presigned_at = presigned_at: the row as it is *)
  match existing with
  | Some p => mret (pu_ID p)
  | None =>
      execute (insert_pending (mkPendingUpload pendingID id doc base contentHash storageKey now
                 expiresAt None));;
      mret pendingID
  end.

Definition pending_by_id (pendingID : string) : TX PendingUpload :=
  tmap_err (fun err => if errors_Is err ErrNoRows then ErrPendingNotFound else err)
    (id ← tlift (uuid_param pendingID);
     select_row (fun st => select_one (fun p => str_eqb (pu_ID p) id) (es_pending st))).

(** [PendingCommitMeta] has the fields of the row. *)
Definition GetPendingForCommit (pendingID : string) : TX PendingUpload := pending_by_id pendingID.

Record CommitResult := mkCommitResult {
  cr_RevisionID : string;
  cr_RevisionNum : Z;
  cr_AlreadyConsumed : bool
}.

(** [SET current_revision_id = $1, form_data_json = $2]. *)
Definition update_head (docID rev : string) (form : option string) (now : Time) : TX unit :=
  form ← tlift (jsonb_param_opt form);
  doc ← tlift (uuid_param docID);
  form ← tlift (match form with Some f => inr f | None => inl (not_null_violation "form_data_json") end);
  statement (update_documents (fun r => str_eqb (dr_id r) doc) (set_head rev form now));;
  mret tt.

Definition update_ack (sessionID rev : string) : TX unit :=
  id ← tlift (uuid_param sessionID);
  statement (update_sessions (fun s => str_eqb (se_ID s) id) (set_se_Ack rev));;
  mret tt.

Definition same_content (doc hash : string) (r : Revision) : bool :=
  str_eqb (rv_DocumentID r) doc && str_eqb (rv_ContentHash r) hash.

(** [clock] is [time.Now()]. *)
Definition CommitUpload (clock : Time) (sessionID userID docID pendingID serverComputedHash : string)
    (formDataSnapshot : option string) : TX CommitResult :=
  p ← pending_by_id pendingID;
  twhen (negb (str_eqb (pu_SessionID p) sessionID) || negb (str_eqb (pu_DocumentID p) docID)) ErrMisbound;;
  match pu_ConsumedAt p with
  | Some _ =>
      r ← twrap "replay lookup: %w"
            (doc ← tlift (uuid_param docID);
             select_row (fun st => select_one (same_content doc (pu_ContentHash p)) (es_revisions st)));
      mret (mkCommitResult (rv_ID r) (rv_RevisionNum r) true)
  | None =>
      twhen (pu_ExpiresAt p <? clock) ErrExpiredUpload;;
      id ← tlift (uuid_param sessionID);
      s ← select_row (fun st => select_one (fun s => str_eqb (se_ID s) id) (es_sessions st));
      twhen (negb (session_is_active s)) ErrSessionInactive;;
      twhen (negb (str_eqb (se_UserID s) userID)) ErrSessionNotHolder;;
      twhen (negb (str_eqb (se_LastAcknowledgedRevisionID s) (pu_BaseRevisionID p))) ErrStaleBase;;
      twhen (negb (str_eqb serverComputedHash (pu_ContentHash p))) ErrContentHashMismatch;;
      now ← sql_now;
      rev ← twrap "insert revision: %w"
        (doc ← tlift (uuid_param docID);
         form ← tlift (jsonb_param_opt formDataSnapshot);
         rid ← gen_random_uuid;
         num ← nextval;
         let r := mkRevision rid doc num (Some (pu_BaseRevisionID p)) id (pu_StorageKey p)
                    (pu_ContentHash p) form now in
         execute (insert_revision r);;
         mret r);
      update_head docID (rv_ID rev) formDataSnapshot now;;
      update_ack sessionID (rv_ID rev);;
      statement (fun st =>
        match update_where (fun q => str_eqb (pu_ID q) (pu_ID p))
                (fun q => inr (set_pu_ConsumedAt now q)) (es_pending st) with
        | inl e => inl e
        | inr (n, rows) => inr (n, with_pending rows st)
        end);;
      mret (mkCommitResult (rv_ID rev) (rv_RevisionNum rev) false)
  end.

Definition DeleteExpiredPending (olderThan : Time) : TX Z :=
  statement (fun st =>
    let gone p := (pu_ExpiresAt p <? olderThan) && negb (is_Some_b (pu_ConsumedAt p)) in
    inr (Z.of_nat (bcount gone (es_pending st)),
         with_pending (bfilter (fun p => negb (gone p)) (es_pending st)) st)).

(** ** Checkpoints *)

Definition max_version (l : list Checkpoint) : Z := foldr Z.max 0 (cp_VersionNum <$> l).

Definition checkpoint_of (doc : string) (c : Checkpoint) : bool := str_eqb (cp_DocumentID c) doc.

Definition CreateCheckpoint (docID actorUserID label : string) : TX Checkpoint :=
  doc ← tlift (uuid_param docID);
  d ← select_row (fun st => select_one (fun d => str_eqb (dr_id d) doc) (es_documents st));
  revID ← tlift (match dr_current_revision_id d with Some r => inr r | None => inl ErrScanNull end);
  max ← select (fun st => max_version (bfilter (checkpoint_of doc) (es_checkpoints st)));
  nextVer ← tlift (int4_param (max + 1));
  id ← gen_random_uuid;
  now ← sql_now;
  execute (insert_checkpoint (mkCheckpoint id doc revID nextVer label now actorUserID));;
  mret (mkCheckpoint id docID revID nextVer label now actorUserID).

Definition ListCheckpoints (docID : string) : TX (list Checkpoint) :=
  doc ← tlift (uuid_param docID);
  select (fun st => order_by (fun c => - cp_VersionNum c)
                      (bfilter (checkpoint_of doc) (es_checkpoints st))).

Definition GetRevision (docID revID : string) : TX Revision :=
  tmap_err not_found_err
    (id ← tlift (uuid_param revID);
     doc ← tlift (uuid_param docID);
     select_row (fun st => select_one (fun r => str_eqb (rv_ID r) id && str_eqb (rv_DocumentID r) doc)
                             (es_revisions st))).

Record RestoreResult := mkRestoreResult {
  rr_NewRevisionID : string;
  rr_NewRevisionNum : Z;
  rr_CheckpointRevID : string;
  rr_Idempotent : bool
}.

(** [INSERT ... ON CONFLICT (document_id, content_hash) DO UPDATE SET id = id]:
    the row there is, or the new one, and whether there was one. *)
Definition upsert_revision (doc : string) (parent : option string) (sess : string) (source : Revision)
    : TX (Revision * bool) :=
  rid ← gen_random_uuid;
  num ← nextval;
  now ← sql_now;
  existing ← select (fun st => select_one (same_content doc (rv_ContentHash source)) (es_revisions st));
  match existing with
  | Some r => mret (r, true)
  | None =>
      let r := mkRevision rid doc num parent sess (rv_StorageKey source) (rv_ContentHash source)
                 (rv_FormDataSnapshot source) now in
      execute (insert_revision r);;
      mret (r, false)
  end.

(** The join of a checkpoint with its revision. *)
Definition checkpoint_revision (doc : string) (versionNum : Z) (st : EditStore) : option Revision :=
  c ← select_one (fun c => str_eqb (cp_DocumentID c) doc && (cp_VersionNum c =? versionNum)) (es_checkpoints st);
  select_one (fun r => str_eqb (rv_ID r) (cp_RevisionID c)) (es_revisions st).

Definition RestoreCheckpoint (docID actorUserID : string) (versionNum : Z) : TX RestoreResult :=
  doc ← tlift (uuid_param docID);
  d ← select_row (fun st => select_one (fun d => str_eqb (dr_id d) doc) (es_documents st));
  sessID ← tlift (match dr_active_session_id d with Some x => inr x | None => inl ErrSessionInactive end);
  s ← select_row (fun st => select_one (fun s => str_eqb (se_ID s) sessID) (es_sessions st));
  twhen (negb (session_is_active s)) ErrSessionInactive;;
  twhen (negb (str_eqb (se_UserID s) actorUserID)) ErrSessionNotHolder;;
  version ← tlift (int4_param versionNum);
  cp ← tmap_err (fun err => if errors_Is err ErrNoRows then ErrCheckpointNotFound else err)
         (select_row (checkpoint_revision doc version));
  now ← sql_now;
  r ← twrap "restore insert: %w"
        (parent ← tlift (uuid_param (string_or_empty (dr_current_revision_id d)));
         upsert_revision doc (Some parent) sessID cp);
  (if r.2 : bool then mret tt
   else update_head docID (rv_ID r.1) (rv_FormDataSnapshot cp) now;;
        update_ack sessID (rv_ID r.1));;
  mret (mkRestoreResult (rv_ID r.1) (rv_RevisionNum r.1) (rv_ID cp) r.2).

Definition IsDocumentOwner (tenantID docID userID : string) : TX bool :=
  id ← tlift (uuid_param docID);
  tenant ← tlift (uuid_param tenantID);
  select (fun st => existsb (fun d => document_is id tenant d
                               && str_eqb (d_created_by (dr_doc d)) userID) (es_documents st)).

(** ** Comments *)

Definition int4_param_opt (n : option Z) : Result (option Z) :=
  match n with
  | None => inr None
  | Some n => match int4_param n with inl e => inl e | inr n => inr (Some n) end
  end.

Definition CreateComment (tenantID documentID authorID : string) (inp : CommentCreateInput) : TX Comment :=
  tenant ← tlift (uuid_param tenantID);
  doc ← tlift (uuid_param documentID);
  lib ← tlift (int4_param (cc_LibraryCommentID inp));
  parent ← tlift (int4_param_opt (cc_ParentLibraryID inp));
  content ← tlift (jsonb_param (cc_ContentJSON inp));
  id ← gen_random_uuid;
  now ← sql_now;
  let c := mkComment id tenant doc lib parent authorID (cc_AuthorDisplay inp) content None None now now in
  execute (insert_comment c);;
  mret c.

Definition comment_of (tenant doc : string) (c : Comment) : bool :=
  str_eqb (cm_TenantID c) tenant && str_eqb (cm_DocumentID c) doc.

Definition ListComments (tenantID documentID : string) : TX (list Comment) :=
  tenant ← tlift (uuid_param tenantID);
  doc ← tlift (uuid_param documentID);
  select (fun st => order_by cm_CreatedAt (bfilter (comment_of tenant doc) (es_comments st))).

Definition edit_comment (content : option string) (done : option bool) (clock : Time) (userID : string)
    (c : Comment) : Comment :=
  mkComment (cm_ID c) (cm_TenantID c) (cm_DocumentID c) (cm_LibraryCommentID c)
    (cm_ParentLibraryID c) (cm_AuthorID c) (cm_AuthorDisplay c)
    (match content with Some x => x | None => cm_ContentJSON c end)
    (match done with None => cm_ResolvedAt c | Some true => Some clock | Some false => None end)
    (match done with None => cm_ResolvedBy c | Some true => Some userID | Some false => None end)
    (cm_CreatedAt c) clock.

(** [clock] is [time.Now()]. *)
Definition UpdateComment (clock : Time) (tenantID documentID : string) (libraryID : Z) (userID : string)
    (inp : CommentUpdateInput) : TX Comment :=
  tenant ← tlift (uuid_param tenantID);
  doc ← tlift (uuid_param documentID);
  lib ← tlift (int4_param libraryID);
  content ← tlift (jsonb_param_opt (cu_ContentJSON inp));
  let cond c := comment_of tenant doc c && (cm_LibraryCommentID c =? lib) in
  statement (fun st =>
    match update_where cond (fun c => inr (edit_comment content (cu_Done inp) clock userID c))
            (es_comments st) with
    | inl e => inl e
    | inr (n, rows) => inr (n, with_comments rows st)
    end);;
  tmap_err (fun err => if errors_Is err ErrNoRows then ErrCommentNotFound else err)
    (select_row (fun st => select_one cond (es_comments st))).

Definition DeleteComment (tenantID documentID : string) (libraryID : Z) : TX unit :=
  tenant ← tlift (uuid_param tenantID);
  doc ← tlift (uuid_param documentID);
  lib ← tlift (int4_param libraryID);
  let gone c := comment_of tenant doc c
                && ((cm_LibraryCommentID c =? lib) || bool_decide (cm_ParentLibraryID c = Some lib)) in
  n ← statement (fun st => inr (Z.of_nat (bcount gone (es_comments st)),
                   with_comments (bfilter (fun c => negb (gone c)) (es_comments st)) st));
  twhen (n =? 0) ErrCommentNotFound.
End repository.

(** ** The object store *)

(** [25*1024*1024], what the binary configures. *)
Definition maxSizeBytes : Z := 25 * 1024 * 1024.

Definition revision_key (tenantID docID contentHash : string) : string :=
  "tenants/" +:+ tenantID +:+ "/documents/" +:+ docID +:+ "/revisions/" +:+ contentHash +:+ ".docx".

Definition HashObject (key : string) (st : EditStore) : Result string :=
  match es_objects st !! key with
  | None => inl ErrUploadMissing
  | Some content =>
      if maxSizeBytes <? Z.of_nat (String.length content)
      then inl (Errorf "object exceeds max size (%d bytes)" [AInt maxSizeBytes])
      else inr (sha256_hex content)
  end.

Definition ErrNoSuchKey : Error := Errorf "NoSuchKey" [].

Definition AdoptTempObject (tmpKey finalKey : string) (st : EditStore) : Result EditStore :=
  match es_objects st !! tmpKey with
  | None => inl ErrNoSuchKey
  | Some content => inr (with_objects (delete tmpKey (<[finalKey := content]> (es_objects st))) st)
  end.

Definition DeleteObject (key : string) (st : EditStore) : Result EditStore :=
  inr (with_objects (delete key (es_objects st)) st).
