(* ===== verification/Editor.v ===== *)
(** * Editor: the services

    [documents_v2/application/service.go]: each method of [Service] as a program
    over its ports. The methods of the repository are transactions, the object
    store and the audit trail are reached between them, and the other modules
    (registry, taxonomy, templates, rendering) answer through [Collaborators]. *)
From S2P Require Import Prelude Text Tables Programs ApprovalDomain Database Schema Sha256 ContentHash HttpErrors EditorDomain EditorTables EditorRepo.
Import DocStates.
Local Open Scope Z_scope.

(** ** The other modules

    What each answers at a time; nothing of it is assumed. *)

(** The fields of [registrydomain.ControlledDocument] the module reads. *)
Record RegistryDocument := mkRegistryDocument {
  rd_ID : string;
  rd_ProfileCode : string;
  rd_ProcessAreaCode : string;
  rd_OverrideTemplateVersionID : option string;
  rd_Status : string
}.

Definition IsActive (cd : RegistryDocument) : bool := str_eqb (rd_Status cd) "active".

(** [domain.TemplateSnapshot]. *)
Record TemplateSnapshot := mkTemplateSnapshot {
  ts_PlaceholderSchemaJSON : string;
  ts_CompositionJSON : string;
  ts_BodyDocxBytes : string;
  ts_BodyDocxS3Key : string
}.

Class Collaborators := {
  registry_GetByID : Time -> string -> string -> Result RegistryDocument;
  registry_Duplicate : Time -> string -> string -> string -> Result RegistryDocument;
  authz_Check : Time -> string -> string -> string -> Result unit;
  profile_Default : Time -> string -> string -> Result (option string * option string);
  template_GetPublishedVersion : Time -> string -> string -> Result (string * string * string);
  form_Validate : Time -> string -> option string -> Result (bool * list string);
  snapshot_Load : Time -> string -> string -> Result TemplateSnapshot;
  (* [nil] or a renderer: the hash it reports and the bytes it stores *)
  docgen : option (Time -> string -> string -> option string -> Result (string * string))
}.

(** ** Operations *)

Inductive EditOp `{UuidText} : Type -> Type :=
  | Transaction {A} (m : Time -> TX A) : EditOp A
  | Ask {A} (f : Time -> Result A) : EditOp A
  | RenderTo (key : string) (f : Time -> Result (string * string)) : EditOp string
  | PresignPUT (key : string) : EditOp string
  | PresignGET (key : string) : EditOp string
  | ObjectHash (key : string) : EditOp string
  | ObjectAdopt (tmpKey finalKey : string) : EditOp unit
  | ObjectDelete (key : string) : EditOp unit
  | AuditWrite (tenant actor action doc : string) : EditOp unit
  | EditClock : EditOp Time
  | EditUUID : EditOp string.

Section services.
Context `{UuidText} `{JsonbText} `{Collaborators}.

Abbreviation EM := (PM EditOp).

Definition tx {A} (m : TX A) : EM A := call (Transaction (fun _ => m)).

(** [if !b { ... }]. *)
Definition unless (b : bool) (m : EM unit) : EM unit := if b then mret tt else m.

(** A dropped error: the audit adapter logs it. *)
Definition audit (tenant actor action doc : string) : EM unit :=
  attempt (AuditWrite tenant actor action doc);; mret tt.

(** ** Creation *)

Definition ErrControlledDocumentRequired : Error := Sentinel "application.ErrControlledDocumentRequired".
Definition ErrCDNotActive : Error := Sentinel "registry.ErrCDNotActive".

Record CreateDocumentInput := mkCreateDocumentInput {
  ci_TenantID : string;
  ci_ActorUserID : string;
  ci_ControlledDocumentID : string;
  ci_TemplateVersionID : string;
  ci_Name : string;
  ci_FormData : option string
}.

Record CreateDocumentResult := mkCreateDocumentResult {
  cd_DocumentID : string;
  cd_InitialRevisionID : string;
  cd_SessionID : string
}.

Definition buildDocumentForCreate (cmd : CreateDocumentInput) (cd : RegistryDocument)
    (resolvedTemplateVersionID : string) : NewDocument :=
  mkNewDocument (ci_TenantID cmd) resolvedTemplateVersionID (ci_Name cmd) (ci_FormData cmd)
    (ci_ActorUserID cmd) (Some (ci_ControlledDocumentID cmd)) (Some (rd_ProfileCode cd))
    (Some (rd_ProcessAreaCode cd)).

(** [SnapshotRepository.WriteSnapshot]: NULL bytes stay out of the way, every
    hash is of 32 bytes. *)
Definition set_snapshot (s : DocSnapshot) (d : DocumentRow) : DocumentRow :=
  mkDocumentRow
    (mkDocument (d_id (dr_doc d)) (d_tenant_id (dr_doc d)) (d_status (dr_doc d))
       (d_revision_version (dr_doc d)) (d_created_by (dr_doc d))
       (d_process_area_code_snapshot (dr_doc d)) (d_controlled_document_id (dr_doc d))
       (d_effective_from (dr_doc d)) s (d_values_frozen_at (dr_doc d)))
    (dr_template_version_id d) (dr_name d) (dr_form_data_json d) (dr_current_revision_id d)
    (dr_active_session_id d) (dr_finalized_at d) (dr_archived_at d) (dr_created_at d)
    (dr_updated_at d) (dr_profile_code_snapshot d) (dr_code d) (dr_revision_number d).

Definition WriteSnapshot (tenantID docID : string) (s : TemplateSnapshot) : TX unit :=
  schema ← tlift (jsonb_param (ts_PlaceholderSchemaJSON s));
  composition ← tlift (jsonb_param (ts_CompositionJSON s));
  tenant ← tlift (uuid_param tenantID);
  doc ← tlift (uuid_param docID);
  statement (update_documents (document_is doc tenant)
    (set_snapshot (mkDocSnapshot (Some schema) (Some (sha256_hex (ts_PlaceholderSchemaJSON s)))
       (Some composition) (Some (sha256_hex (ts_CompositionJSON s)))
       (Some (ts_BodyDocxS3Key s)) (Some (sha256_hex (ts_BodyDocxBytes s))))));;
  mret tt.

(** [SnapshotService] as the binary builds it: without a seeder. *)
Definition SnapshotFromTemplate (tenantID docID revisionID templateID : string) : EM unit :=
  s ← call (Ask (fun t => snapshot_Load t tenantID templateID));
  tx (WriteSnapshot tenantID docID s).

Definition candidate (cd : RegistryDocument) (status : option string) (id : string)
    : TemplateVersionCandidate :=
  mkTemplateVersionCandidate id (rd_ProfileCode cd) status.

(** The checks before anything is written: the template version and its keys. *)
Definition resolve_template (cmd : CreateDocumentInput) : EM (RegistryDocument * string * string * string) :=
  pguard (negb (str_eqb (TrimSpace (ci_ControlledDocumentID cmd)) "")) ErrControlledDocumentRequired;;
  cd ← call (Ask (fun t => registry_GetByID t (ci_TenantID cmd) (ci_ControlledDocumentID cmd)));
  pguard (IsActive cd) ErrCDNotActive;;
  call (Ask (fun t => authz_Check t (ci_ActorUserID cmd) (ci_TenantID cmd) (rd_ProcessAreaCode cd)));;
  d ← call (Ask (fun t => profile_Default t (ci_TenantID cmd) (rd_ProfileCode cd)));
  let override := option_map (candidate cd (Some "published")) (rd_OverrideTemplateVersionID cd) in
  let default := option_map (candidate cd d.2) d.1 in
  resolved ← plift (Resolve (rd_ProfileCode cd) override default);
  keys ← pmap_err (Wrapf "template lookup: %w" [])
           (call (Ask (fun t => template_GetPublishedVersion t (ci_TenantID cmd) resolved.1)));
  let '(docxKey, schemaKey, schemaJSON) := keys in
  unless (str_eqb schemaJSON "")
    (r ← call (Ask (fun t => form_Validate t schemaJSON (ci_FormData cmd)));
     pguard r.1 (Errorf "form_data_invalid: %v" (map AStr r.2)));;
  mret (cd, resolved.1, docxKey, schemaKey).

(** What follows [repo.CreateDocument] on both paths. *)
Definition finish_create (cmd : CreateDocumentInput) (template finalKey : string)
    (ids : string * string * string) : EM CreateDocumentResult :=
  let '(docID, revID, sessionID) := ids in
  pmap_err (Wrapf "set revision key: %w" []) (tx (SetRevisionStorageKey revID finalKey));;
  pmap_err (Wrapf "snapshot template: %w" [])
    (SnapshotFromTemplate (ci_TenantID cmd) docID revID template);;
  audit (ci_TenantID cmd) (ci_ActorUserID cmd) "document.created" docID;;
  mret (mkCreateDocumentResult docID revID sessionID).

(** [defer func() { if cleanupKey != "" ... }]: the temporary object goes when
    the inner program fails. *)
Definition or_cleanup {A} (key : string) (p : EM A) : EM A :=
  prog_bind (fun r => match r with
    | inl e => (attempt (ObjectDelete key);; fail e) : EM A
    | inr a => (mret a : EM A)
    end) p.

Definition CreateDocument (cmd : CreateDocumentInput) : EM CreateDocumentResult :=
  r ← resolve_template cmd;
  let '(cd, template, docxKey, schemaKey) := r in
  let doc := buildDocumentForCreate cmd cd template in
  match docgen with
  | Some render =>
      u ← call EditUUID;
      let tmpKey := "tenants/" +:+ ci_TenantID cmd +:+ "/documents/tmp/" +:+ u +:+ ".docx" in
      contentHash ← pmap_err (Wrapf "render: %w" [])
        (call (RenderTo tmpKey (fun t => render t docxKey schemaKey (ci_FormData cmd))));
      adopted ← or_cleanup tmpKey
        (ids ← tx (EditorRepo.CreateDocument doc contentHash);
         let finalKey := revision_key (ci_TenantID cmd) ids.1.1 contentHash in
         pmap_err (Wrapf "adopt tmp: %w" []) (call (ObjectAdopt tmpKey finalKey));;
         mret (ids, finalKey));
      finish_create cmd template adopted.2 adopted.1
  | None =>
      ids ← tx (EditorRepo.CreateDocument doc (sha256_hex docxKey));
      finish_create cmd template docxKey ids
  end.

Definition GetDocument (tenantID id : string) : EM DocumentView := tx (EditorRepo.GetDocument tenantID id).

Definition DuplicateDocument (tenantID userID docID : string) : EM CreateDocumentResult :=
  doc ← GetDocument tenantID docID;
  match dv_ControlledDocumentID doc with
  | None => fail ErrControlledDocumentRequired
  | Some id =>
      pguard (negb (str_eqb (TrimSpace id) "")) ErrControlledDocumentRequired;;
      cd ← call (Ask (fun t => registry_Duplicate t tenantID id userID));
      CreateDocument (mkCreateDocumentInput tenantID userID (rd_ID cd) (dv_TemplateVersionID doc)
                        (dv_Name doc) (Some (dv_FormDataJSON doc)))
  end.

Definition ListDocuments (tenantID : string) : EM (list DocumentView) :=
  tx (EditorRepo.ListDocuments tenantID).
Definition ListDocumentsForUser (tenantID userID : string) : EM (list DocumentView) :=
  tx (EditorRepo.ListDocumentsForUser tenantID userID).

Definition is_draft (doc : DocumentView) : bool := bool_decide (dv_Status doc = DocStatusDraft).

Definition RenameDocument (tenantID userID docID newName : string) : EM unit :=
  let name := TrimSpace newName in
  pguard (negb (str_eqb name "" || (255 <? Z.of_nat (String.length name)))) ErrInvalidName;;
  doc ← GetDocument tenantID docID;
  pguard (is_draft doc) ErrInvalidStateTransition;;
  tx (UpdateDocumentName tenantID docID name);;
  audit tenantID userID "document.renamed" docID.

Definition IsDocumentOwner (tenantID docID userID : string) : EM bool :=
  tx (EditorRepo.IsDocumentOwner tenantID docID userID).

(** ** Comments *)

Definition ListDocumentComments (tenantID userID documentID : string) : EM (list Comment) :=
  tx (ListComments tenantID documentID).

Definition AddDocumentComment (tenantID userID authorDisplay documentID : string)
    (inp : CommentCreateInput) : EM Comment :=
  pguard (0 <? cc_LibraryCommentID inp) ErrCommentInvalid;;
  pguard (negb (str_eqb (cc_ContentJSON inp) "")) ErrCommentInvalid;;
  let author := TrimSpace authorDisplay in
  pguard (negb (str_eqb author "" || (255 <? Z.of_nat (String.length author)))) ErrCommentInvalid;;
  tx (CreateComment tenantID documentID userID
        (mkCommentCreateInput (cc_LibraryCommentID inp) (cc_ParentLibraryID inp) author
           (cc_ContentJSON inp))).

Definition UpdateDocumentComment (tenantID userID documentID : string) (libraryID : Z)
    (inp : CommentUpdateInput) : EM Comment :=
  pguard (0 <? libraryID) ErrCommentInvalid;;
  pguard (negb (opt_eqb (cu_ContentJSON inp) (Some ""))) ErrCommentInvalid;;
  call (Transaction (fun clock => UpdateComment clock tenantID documentID libraryID userID inp)).

Definition DeleteDocumentComment (tenantID userID documentID : string) (libraryID : Z) : EM unit :=
  pguard (0 <? libraryID) ErrCommentInvalid;;
  tx (DeleteComment tenantID documentID libraryID).

(** ** Autosave *)

Record PresignAutosaveCmd := mkPresignAutosaveCmd {
  pa_TenantID : string;
  pa_ActorUserID : string;
  pa_DocumentID : string;
  pa_SessionID : string;
  pa_BaseRevisionID : string;
  pa_ContentHash : string
}.

Record PresignAutosaveResult := mkPresignAutosaveResult {
  pr_UploadURL : string;
  pr_PendingUploadID : string;
  pr_ExpiresAt : Time
}.

Definition fifteen_minutes : Z := 15 * 60 * 10 ^ 9.

Definition PresignAutosave (cmd : PresignAutosaveCmd) : EM PresignAutosaveResult :=
  doc ← GetDocument (pa_TenantID cmd) (pa_DocumentID cmd);
  pguard (is_draft doc) ErrInvalidStateTransition;;
  let storageKey := revision_key (pa_TenantID cmd) (pa_DocumentID cmd) (pa_ContentHash cmd) in
  url ← call (PresignPUT storageKey);
  now ← call EditClock;
  let expiresAt := now + fifteen_minutes in
  pendingID ← tx (PresignReserve (pa_SessionID cmd) (pa_ActorUserID cmd) (pa_DocumentID cmd)
                    (pa_BaseRevisionID cmd) (pa_ContentHash cmd) storageKey expiresAt);
  mret (mkPresignAutosaveResult url pendingID expiresAt).

Record CommitAutosaveCmd := mkCommitAutosaveCmd {
  ca_TenantID : string;
  ca_ActorUserID : string;
  ca_DocumentID : string;
  ca_SessionID : string;
  ca_PendingUploadID : string;
  ca_FormDataSnapshot : option string
}.

Definition CommitAutosave (cmd : CommitAutosaveCmd) : EM CommitResult :=
  doc ← GetDocument (ca_TenantID cmd) (ca_DocumentID cmd);
  pguard (is_draft doc) ErrInvalidStateTransition;;
  meta ← tx (GetPendingForCommit (ca_PendingUploadID cmd));
  serverHash ← pmap_err (fun err => if errors_Is err ErrUploadMissing then ErrUploadMissing
                                     else Wrapf "hash s3 object: %w" [] err)
                 (call (ObjectHash (pu_StorageKey meta)));
  unless (str_eqb serverHash (pu_ContentHash meta))
    (attempt (ObjectDelete (pu_StorageKey meta));; fail ErrContentHashMismatch);;
  res ← call (Transaction (fun clock => CommitUpload clock (ca_SessionID cmd) (ca_ActorUserID cmd)
                (ca_DocumentID cmd) (ca_PendingUploadID cmd) serverHash (ca_FormDataSnapshot cmd)));
  unless (cr_AlreadyConsumed res)
    (audit (ca_TenantID cmd) (ca_ActorUserID cmd) "document.autosaved" (ca_DocumentID cmd));;
  mret res.

(** ** Sessions *)

Definition AcquireSession (tenantID docID userID : string) : EM (Session * bool) :=
  r ← tx (EditorRepo.AcquireSession tenantID docID userID);
  unless r.2 (audit tenantID userID "session.acquired" docID);;
  mret r.

Definition HeartbeatSession (sessionID userID : string) : EM unit :=
  tx (EditorRepo.HeartbeatSession sessionID userID).

Definition ReleaseSession (tenantID sessionID userID docID : string) : EM unit :=
  tx (EditorRepo.ReleaseSession sessionID userID);;
  audit tenantID userID "session.released" docID.

Definition ForceReleaseSession (tenantID adminID sessionID docID : string) : EM unit :=
  tx (EditorRepo.ForceReleaseSession sessionID);;
  audit tenantID adminID "session.force_released" docID.

(** ** Checkpoints, status, revisions *)

Definition CreateCheckpoint (tenantID docID actorID label : string) : EM Checkpoint :=
  cp ← tx (EditorRepo.CreateCheckpoint docID actorID label);
  audit tenantID actorID "document.checkpoint_created" docID;;
  mret cp.

Definition ListCheckpoints (tenantID docID : string) : EM (list Checkpoint) :=
  tx (EditorRepo.ListCheckpoints docID).

Definition RestoreCheckpoint (tenantID docID actorID : string) (versionNum : Z) : EM RestoreResult :=
  res ← tx (EditorRepo.RestoreCheckpoint docID actorID versionNum);
  audit tenantID actorID "document.checkpoint_restored" docID;;
  mret res.

Definition Finalize (tenantID docID actorID : string) : EM unit :=
  tx (UpdateDocumentStatus tenantID docID DocStatusDraft DocStatusFinalized true);;
  audit tenantID actorID "document.finalized" docID.

Definition Archive (tenantID docID actorID : string) (fromFinalized : bool) : EM unit :=
  let cur := if fromFinalized then DocStatusFinalized else DocStatusDraft in
  tx (UpdateDocumentStatus tenantID docID cur DocStatusArchived true);;
  audit tenantID actorID "document.archived" docID.

Definition SignedRevisionURL (tenantID docID revID : string) : EM string :=
  rev ← tx (GetRevision docID revID);
  call (PresignGET (rv_StorageKey rev)).

(** ** The sweepers: [documents_v2/jobs], one tick each *)

(** [StartSessionSweeper], at the time the ticker gives. *)
Definition sweep_sessions (now : Time) : EM Z :=
  r ← tx (ExpireStaleSessions now);
  plift r.

Definition sweep_pending : EM Z :=
  now ← call EditClock;
  tx (DeleteExpiredPending (now - 24 * 60 * 60 * 10 ^ 9)).
End services.
