(* ===== verification/EditorRuns.v ===== *)
(** * Editor: runs

    What the operations of the editor answer, the requests and sweeper ticks the
    system serves, and what else changes its state: clients put objects through
    the URLs they were given, and the other modules work on the columns of
    [documents] that are theirs. *)
From S2P Require Import Prelude Tables Programs ApprovalDomain Database Schema Sha256 ContentHash EditorDomain EditorTables EditorRepo Editor.
From stdpp Require Import relations.
Local Open Scope Z_scope.

Section answers.
Context `{UuidText} `{SignedURL}.

Definition put_object (key content : string) (st : EditStore) : EditStore :=
  with_objects (<[key := content]> (es_objects st)) st.

Definition changed (r : Result EditStore) (st : EditStore) : Result unit * EditStore :=
  match r with inl e => (inl e, st) | inr st' => (inr tt, st') end.

Definition run_op {B} (o : EditOp B) (t : Time) (u : TxDraw) (st : EditStore) : Result B * EditStore :=
  match o in EditOp B return Result B * EditStore with
  | Transaction m => run_tx (m t) u st
  | Ask f => (f t, st)
  | RenderTo key f =>
      match f t with
      | inl e => (inl e, st)
      | inr (hash, content) => (inr hash, put_object key content st)
      end
  | PresignPUT key => (inr (signed_url "PUT" key), st)
  | PresignGET key => (inr (signed_url "GET" key), st)
  | ObjectHash key => (HashObject key st, st)
  | ObjectAdopt tmpKey finalKey => changed (AdoptTempObject tmpKey finalKey st) st
  | ObjectDelete key => changed (DeleteObject key st) st
  | AuditWrite tenant actor action doc =>
      (inr tt, with_audit (es_audit st ++ [(tenant, actor, action, doc)]) st)
  | EditClock => (inr t, st)
  | EditUUID => (inr (dw_uuid u 0), st)
  end.

Definition may_fail {B} (o : EditOp B) : bool :=
  match o with EditClock | EditUUID => false | _ => true end.

#[export] Instance edit_ports : Ports EditOp EditStore TxDraw :=
  {| step := @run_op; fallible := @may_fail |}.
End answers.

(** ** Requests *)

Inductive EditCall :=
  | CallCreateDocument (cmd : CreateDocumentInput)
  | CallDuplicateDocument (tenantID userID docID : string)
  | CallGetDocument (tenantID id : string)
  | CallListDocuments (tenantID : string)
  | CallListDocumentsForUser (tenantID userID : string)
  | CallRenameDocument (tenantID userID docID newName : string)
  | CallIsDocumentOwner (tenantID docID userID : string)
  | CallAcquireSession (tenantID docID userID : string)
  | CallHeartbeatSession (sessionID userID : string)
  | CallReleaseSession (tenantID sessionID userID docID : string)
  | CallForceReleaseSession (tenantID adminID sessionID docID : string)
  | CallPresignAutosave (cmd : PresignAutosaveCmd)
  | CallCommitAutosave (cmd : CommitAutosaveCmd)
  | CallCreateCheckpoint (tenantID docID actorID label : string)
  | CallListCheckpoints (tenantID docID : string)
  | CallRestoreCheckpoint (tenantID docID actorID : string) (versionNum : Z)
  | CallFinalize (tenantID docID actorID : string)
  | CallArchive (tenantID docID actorID : string) (fromFinalized : bool)
  | CallSignedRevisionURL (tenantID docID revID : string)
  | CallListComments (tenantID userID documentID : string)
  | CallAddComment (tenantID userID authorDisplay documentID : string) (inp : CommentCreateInput)
  | CallUpdateComment (tenantID userID documentID : string) (libraryID : Z) (inp : CommentUpdateInput)
  | CallDeleteComment (tenantID userID documentID : string) (libraryID : Z)
  | CallSweepSessions (now : Time)
  | CallSweepPending.

Inductive EditReply :=
  | ReplyCreatedDocument (r : CreateDocumentResult)
  | ReplyDocument (d : DocumentView)
  | ReplyDocuments (l : list DocumentView)
  | ReplyOwner (b : bool)
  | ReplySession (s : Session) (taken : bool)
  | ReplyDone
  | ReplyPresigned (r : PresignAutosaveResult)
  | ReplyCommitted (r : CommitResult)
  | ReplyCheckpoint (c : Checkpoint)
  | ReplyCheckpoints (l : list Checkpoint)
  | ReplyRestored (r : RestoreResult)
  | ReplyURL (url : string)
  | ReplyComment (c : Comment)
  | ReplyComments (l : list Comment)
  | ReplyCount (n : Z).

Section requests.
Context `{UuidText} `{JsonbText} `{SignedURL} `{Collaborators}.

Abbreviation EM := (PM EditOp).

Definition reply {A} (f : A -> EditReply) (m : EM A) : EM EditReply := a ← m; mret (f a).
Definition done_reply (m : EM unit) : EM EditReply := reply (fun _ => ReplyDone) m.

Definition serve (c : EditCall) : EM EditReply :=
  match c with
  | CallCreateDocument cmd => reply ReplyCreatedDocument (CreateDocument cmd)
  | CallDuplicateDocument tenant user doc => reply ReplyCreatedDocument (DuplicateDocument tenant user doc)
  | CallGetDocument tenant id => reply ReplyDocument (GetDocument tenant id)
  | CallListDocuments tenant => reply ReplyDocuments (ListDocuments tenant)
  | CallListDocumentsForUser tenant user => reply ReplyDocuments (ListDocumentsForUser tenant user)
  | CallRenameDocument tenant user doc name => done_reply (RenameDocument tenant user doc name)
  | CallIsDocumentOwner tenant doc user => reply ReplyOwner (IsDocumentOwner tenant doc user)
  | CallAcquireSession tenant doc user =>
      reply (fun r => ReplySession r.1 r.2) (AcquireSession tenant doc user)
  | CallHeartbeatSession sess user => done_reply (HeartbeatSession sess user)
  | CallReleaseSession tenant sess user doc => done_reply (ReleaseSession tenant sess user doc)
  | CallForceReleaseSession tenant admin sess doc => done_reply (ForceReleaseSession tenant admin sess doc)
  | CallPresignAutosave cmd => reply ReplyPresigned (PresignAutosave cmd)
  | CallCommitAutosave cmd => reply ReplyCommitted (CommitAutosave cmd)
  | CallCreateCheckpoint tenant doc actor label =>
      reply ReplyCheckpoint (CreateCheckpoint tenant doc actor label)
  | CallListCheckpoints tenant doc => reply ReplyCheckpoints (ListCheckpoints tenant doc)
  | CallRestoreCheckpoint tenant doc actor n => reply ReplyRestored (RestoreCheckpoint tenant doc actor n)
  | CallFinalize tenant doc actor => done_reply (Finalize tenant doc actor)
  | CallArchive tenant doc actor from => done_reply (Archive tenant doc actor from)
  | CallSignedRevisionURL tenant doc rev => reply ReplyURL (SignedRevisionURL tenant doc rev)
  | CallListComments tenant user doc => reply ReplyComments (ListDocumentComments tenant user doc)
  | CallAddComment tenant user display doc inp =>
      reply ReplyComment (AddDocumentComment tenant user display doc inp)
  | CallUpdateComment tenant user doc lib inp =>
      reply ReplyComment (UpdateDocumentComment tenant user doc lib inp)
  | CallDeleteComment tenant user doc lib => done_reply (DeleteDocumentComment tenant user doc lib)
  | CallSweepSessions now => reply ReplyCount (sweep_sessions now)
  | CallSweepPending => reply ReplyCount sweep_pending
  end.
End requests.

(** ** The rest of the system *)

(** The columns of a row that are the editor's, and its identity. *)
Definition editor_columns (d : DocumentRow) :=
  (dr_id d, dr_tenant_id d, dr_template_version_id d, dr_name d, dr_form_data_json d,
   dr_current_revision_id d, dr_active_session_id d, d_created_by (dr_doc d),
   d_controlled_document_id (dr_doc d), dr_revision_number d).

Definition same_editor_columns (d d' : DocumentRow) : Prop := editor_columns d' = editor_columns d.

(** An upload, or the work of other modules on their columns of [documents]. *)
Inductive outside : EditStore -> EditStore -> Prop :=
  | outside_upload key content st : outside st (put_object key content st)
  | outside_documents docs st :
      Forall2 same_editor_columns (es_documents st) docs -> outside st (with_documents docs st).

Abbreviation turn := (Programs.turn serve outside).
Abbreviation history := (Programs.history serve outside).
Abbreviation pool_step := (Programs.pool_step serve outside).
Abbreviation interleaved := (Programs.interleaved serve outside).
