(* ===== verification/EditorLogic.v ===== *)
(** * Editor: reasoning about transactions

    Inversion of successful transactions, the statements they are made of, and
    the sequence of revision numbers, which only grows. *)
From S2P Require Import Prelude Tables ApprovalDomain Database Schema EditorDomain EditorTables.
Local Open Scope Z_scope.

Section inversion.
Context `{UuidText}.

Lemma tbind_ok {A B} (m : TX A) (f : A -> TX B) u s b s' :
  (m ≫= f) u s = (inr b, s') <-> exists a s1, m u s = (inr a, s1) /\ f a u s1 = (inr b, s').
Proof.
  unfold mbind, TX_bind. destruct (m u s) as [[e|a] s1]; split.
  - done.
  - by intros (? & ? & ? & _).
  - eauto.
  - by intros (? & ? & [= <- <-] & ?).
Qed.

Lemma tret_ok {A} (a b : A) u s s' : (mret a : TX A) u s = (inr b, s') <-> b = a /\ s' = s.
Proof. unfold mret, TX_ret. split; [by intros [= <- <-]|by intros [-> ->]]. Qed.

Lemma tfail_ok {A} e (b : A) u s s' : tfail e u s = (inr b, s') <-> False.
Proof. by split. Qed.

Lemma tlift_ok {A} (r : Result A) b u s s' : tlift r u s = (inr b, s') <-> r = inr b /\ s' = s.
Proof. unfold tlift. split; [by intros [= <- <-]|by intros [-> ->]]. Qed.

Lemma twhen_ok b e x u s s' : twhen b e u s = (inr x, s') <-> b = false /\ s' = s.
Proof.
  destruct b, x; simpl; unfold mret, TX_ret, tfail; split; try done; [by intros [? _]| |].
  - by intros [= <-].
  - by intros [_ ->].
Qed.

Lemma sql_now_ok t u s s' : sql_now u s = (inr t, s') <-> t = dw_now u /\ s' = s.
Proof. unfold sql_now. split; [by intros [= <- <-]|by intros [-> ->]]. Qed.

Lemma gen_random_uuid_ok x u s s' :
  gen_random_uuid u s = (inr x, s') <->
  x = dw_uuid u (ts_uuids s) /\ s' = mkTxState (S (ts_uuids s)) (ts_store s).
Proof. unfold gen_random_uuid. split; [by intros [= <- <-]|by intros [-> ->]]. Qed.

Lemma select_ok {A} (q : EditStore -> A) a u s s' :
  select q u s = (inr a, s') <-> a = q (ts_store s) /\ s' = s.
Proof. unfold select. split; [by intros [= <- <-]|by intros [-> ->]]. Qed.

Lemma select_row_ok {A} (q : EditStore -> option A) a u s s' :
  select_row q u s = (inr a, s') <-> q (ts_store s) = Some a /\ s' = s.
Proof.
  unfold select_row. destruct (q (ts_store s)); split; try done.
  - by intros [= <- <-].
  - by intros [[= ->] ->].
  - by intros [? _].
Qed.

Lemma statement_ok {A} (f : EditStore -> Result (A * EditStore)) a u s s' :
  statement f u s = (inr a, s') <->
  exists st, f (ts_store s) = inr (a, st) /\ s' = mkTxState (ts_uuids s) st.
Proof.
  unfold statement. destruct (f (ts_store s)) as [e|[b st]]; split; try done.
  - by intros (? & ? & _).
  - intros [= <- <-]. eauto.
  - by intros (? & [= <- <-] & ->).
Qed.

Lemma execute_ok f x u s s' :
  execute f u s = (inr x, s') <-> exists st, f (ts_store s) = inr st /\ s' = mkTxState (ts_uuids s) st.
Proof.
  unfold execute. rewrite statement_ok. destruct x. destruct (f (ts_store s)) as [e|st]; split.
  - by intros (? & ? & _).
  - by intros (? & ? & _).
  - intros (? & [= <-] & ->). eauto.
  - intros (? & [= <-] & ->). eauto.
Qed.

Lemma twrap_ok {A} fmt (m : TX A) a u s s' : twrap fmt m u s = (inr a, s') <-> m u s = (inr a, s').
Proof. unfold twrap. by destruct (m u s) as [[e|b] s1]. Qed.

Lemma tmap_err_ok {A} f (m : TX A) a u s s' : tmap_err f m u s = (inr a, s') <-> m u s = (inr a, s').
Proof. unfold tmap_err. by destruct (m u s) as [[e|b] s1]. Qed.

Lemma nextval_ok n u s s' :
  nextval u s = (inr n, s') <->
  n = es_revision_seq (ts_store s) + 1 /\ (2 ^ 63 - 1 <? n) = false
  /\ s' = mkTxState (ts_uuids s) (with_seq n (ts_store s)).
Proof.
  unfold nextval. rewrite statement_ok. cbv zeta.
  destruct (2 ^ 63 - 1 <? es_revision_seq (ts_store s) + 1) eqn:Hn; split.
  - by intros (? & ? & _).
  - intros (-> & ? & _). congruence.
  - by intros (? & [= <- <-] & ->).
  - intros (-> & _ & ->). eauto.
Qed.

Lemma run_tx_ok {A} (m : TX A) u st a st' :
  run_tx m u st = (inr a, st') <-> exists s, m u (mkTxState 0 st) = (inr a, s) /\ st' = ts_store s.
Proof.
  unfold run_tx. destruct (m u (mkTxState 0 st)) as [[e|b] s]; split; try done.
  - by intros (? & ? & _).
  - intros [= <- <-]. eauto.
  - by intros (? & [= <- <-] & ->).
Qed.
End inversion.

(** Decompose a successful transaction into its statements. *)
Ltac tx_inv :=
  repeat match goal with
  | H : (_ ≫= _) _ _ = (inr _, _) |- _ => apply tbind_ok in H as (? & ? & ? & ?)
  | H : mret _ _ _ = (inr _, _) |- _ => apply tret_ok in H as [? ?]; subst
  | H : tfail _ _ _ = (inr _, _) |- _ => by apply tfail_ok in H
  | H : tlift _ _ _ = (inr _, _) |- _ => apply tlift_ok in H as [? ?]; subst
  | H : twhen _ _ _ _ = (inr _, _) |- _ => apply twhen_ok in H as [? ?]; subst
  | H : sql_now _ _ = (inr _, _) |- _ => apply sql_now_ok in H as [? ?]; subst
  | H : gen_random_uuid _ _ = (inr _, _) |- _ => apply gen_random_uuid_ok in H as [? ?]; subst
  | H : select _ _ _ = (inr _, _) |- _ => apply select_ok in H as [? ?]; subst
  | H : select_row _ _ _ = (inr _, _) |- _ => apply select_row_ok in H as [? ?]; subst
  | H : execute _ _ _ = (inr _, _) |- _ => apply execute_ok in H as (? & ? & ?); subst
  | H : nextval _ _ = (inr _, _) |- _ => apply nextval_ok in H as (? & ? & ?); subst
  | H : statement _ _ _ = (inr _, _) |- _ => apply statement_ok in H as (? & ? & ?); subst
  | H : twrap _ _ _ _ = (inr _, _) |- _ => apply twrap_ok in H
  | H : tmap_err _ _ _ _ = (inr _, _) |- _ => apply tmap_err_ok in H
  | H : run_tx _ _ _ = (inr _, _) |- _ => apply run_tx_ok in H as (? & ? & ?); subst
  | x : _ * _ |- _ => destruct x
  | _ => progress simpl in *
  end.

(** ** The sequence *)

(** Whatever a transaction does, and whether it fails, the sequence does not go
    back. *)
Definition seq_grows `{UuidText} {A} (m : TX A) : Prop :=
  forall u s r s', m u s = (r, s') -> es_revision_seq (ts_store s) <= es_revision_seq (ts_store s').

Section sequence.
Context `{UuidText}.

Lemma seq_bind {A B} (m : TX A) (f : A -> TX B) :
  seq_grows m -> (forall a, seq_grows (f a)) -> seq_grows (m ≫= f).
Proof.
  intros Hm Hf u s r s'. unfold mbind, TX_bind. destruct (m u s) as [[e|a] s1] eqn:Hs.
  - intros [= <- <-]. by eapply Hm.
  - intros Hr. etrans; [by eapply Hm|by eapply Hf].
Qed.

Lemma seq_pure {A} (m : TX A) :
  (forall u s, ts_store (m u s).2 = ts_store s) -> seq_grows m.
Proof. intros Hm u s r s' Hr. specialize (Hm u s). rewrite Hr in Hm. simpl in Hm. by rewrite Hm. Qed.

Lemma seq_statement {A} (f : EditStore -> Result (A * EditStore)) :
  (forall st a st', f st = inr (a, st') -> es_revision_seq st <= es_revision_seq st') ->
  seq_grows (statement f).
Proof.
  intros Hf u s r s'. unfold statement. destruct (f (ts_store s)) as [e|[a st]] eqn:Hs; intros [= <- <-].
  - lia.
  - by eapply Hf.
Qed.

Lemma seq_execute f :
  (forall st st', f st = inr st' -> es_revision_seq st' = es_revision_seq st) -> seq_grows (execute f).
Proof.
  intros Hf. apply seq_statement. intros st a st'. destruct (f st) as [e|st1] eqn:Hs; [done|].
  intros [= <- <-]. by rewrite (Hf st st1).
Qed.

Lemma seq_twrap {A} fmt (m : TX A) : seq_grows m -> seq_grows (twrap fmt m).
Proof.
  intros Hm u s r s'. unfold twrap. destruct (m u s) as [[e|a] s1] eqn:Hs; intros [= <- <-]; by eapply Hm.
Qed.

Lemma seq_tmap_err {A} f (m : TX A) : seq_grows m -> seq_grows (tmap_err f m).
Proof.
  intros Hm u s r s'. unfold tmap_err. destruct (m u s) as [[e|a] s1] eqn:Hs; intros [= <- <-]; by eapply Hm.
Qed.

Lemma seq_update_documents cond upd st n st' :
  update_documents cond upd st = inr (n, st') -> es_revision_seq st <= es_revision_seq st'.
Proof. unfold update_documents. destruct (update_where _ _ _) as [e|[k rows]]; [done|]. by intros [= <- <-]. Qed.

Lemma seq_update_sessions cond upd st n st' :
  update_sessions cond upd st = inr (n, st') -> es_revision_seq st <= es_revision_seq st'.
Proof. unfold update_sessions. destruct (update_where _ _ _) as [e|[k rows]]; [done|]. by intros [= <- <-]. Qed.

Lemma seq_nextval : seq_grows nextval.
Proof.
  apply seq_statement. intros st a st'. cbv zeta. destruct (_ <? _); [done|]. intros [= <- <-]. simpl. lia.
Qed.

(** What is left of a store by a failed transaction. *)
Lemma run_tx_failed {A} (m : TX A) u st e st' :
  seq_grows m -> run_tx m u st = (inl e, st') ->
  exists n, es_revision_seq st <= n /\ st' = with_seq n st.
Proof.
  intros Hm. unfold run_tx. destruct (m u (mkTxState 0 st)) as [[e'|a] s] eqn:Hs; [|done].
  intros [= <- <-]. eexists. split; [|done]. by apply Hm in Hs.
Qed.
End sequence.
