(* ===== verification/EditorSpec.v ===== *)
(** * Editor: what a transaction may do

    The abstract specification of the editor: a transaction does one of the
    things of [edit_event]. Then the invariant [edit_ok] of the tables - one
    writer per document, its pointers, one chain of revisions per document - and
    the relation [edit_extends] of a state to the later ones, which every event
    keeps. *)
From S2P Require Import Prelude Tables ApprovalDomain Database Schema EditorDomain EditorTables EditorRepo.
From stdpp Require Import relations.
Local Open Scope Z_scope.

(** ** Rows altered under a condition *)

Definition alter_rows {R} (cond : R -> bool) (upd : R -> R) (rows : list R) : list R :=
  map (fun r => if cond r then upd r else r) rows.

Lemma update_where_alter {R} (cond : R -> bool) (chk : R -> Result R) (upd : R -> R) rows n rows' :
  (forall r r', chk r = inr r' -> r' = upd r) ->
  update_where cond chk rows = inr (n, rows') ->
  rows' = alter_rows cond upd rows /\ n = Z.of_nat (bcount cond rows)
  /\ forall r, r ∈ rows -> cond r = true -> chk r = inr (upd r).
Proof.
  intros Hc Hu. apply update_where_ok in Hu as [HF ->]. split; [|split; [done|]].
  - induction HF as [|r r' rows rows' Hr _ IH]; [done|]. simpl. unfold updated in Hr.
    destruct (cond r); [apply Hc in Hr|]; by subst.
  - intros r Hr Hcr. destruct (updated_forall _ _ _ HF r Hr) as (r' & _ & Hu). unfold updated in Hu.
    rewrite Hcr in Hu. by rewrite Hu, (Hc _ _ Hu).
Qed.

Lemma alter_rows_fmap {R A} (g : R -> A) cond upd rows :
  (forall r, r ∈ rows -> cond r = true -> g (upd r) = g r) -> g <$> alter_rows cond upd rows = g <$> rows.
Proof.
  intros Hg. unfold alter_rows. induction rows as [|r rows IH]; [done|]. simpl. f_equal.
  - destruct (cond r) eqn:Hc; [|done]. apply Hg; [left|done].
  - apply IH. intros x Hx. apply Hg. by right.
Qed.

Lemma elem_of_alter_rows {R} cond (upd : R -> R) rows x :
  x ∈ alter_rows cond upd rows <->
  exists r, r ∈ rows /\ x = (if cond r then upd r else r).
Proof.
  change (alter_rows cond upd rows) with ((fun r => if cond r then upd r else r) <$> rows).
  rewrite list_elem_of_fmap. naive_solver.
Qed.

Lemma alter_rows_Forall2 {R} (P : R -> R -> Prop) cond upd rows :
  (forall r, r ∈ rows -> P r (if cond r : bool then upd r else r)) -> Forall2 P rows (alter_rows cond upd rows).
Proof.
  induction rows as [|r rows IH]; intros HP; constructor.
  - apply HP. left.
  - apply IH. intros x Hx. apply HP. by right.
Qed.

Lemma bfilter_alter_rows {R} (q cond : R -> bool) upd rows :
  (forall r, r ∈ rows -> cond r = true -> q (upd r) = q r) ->
  bfilter q (alter_rows cond upd rows) = alter_rows cond upd (bfilter q rows).
Proof.
  induction rows as [|r rows IH]; intros Hq; [done|].
  change (alter_rows cond upd (r :: rows)) with ((if cond r then upd r else r) :: alter_rows cond upd rows).
  rewrite !bfilter_cons, IH by (intros x Hx; apply Hq; by right).
  replace (q (if cond r then upd r else r)) with (q r).
  - by destruct (q r).
  - destruct (cond r) eqn:Hc; [|done]. symmetry. apply Hq; [left|done].
Qed.

(** ** Chains of revisions *)

Fixpoint chain_from (parent : option string) (l : list Revision) : Prop :=
  match l with
  | [] => True
  | r :: l => rv_ParentRevisionID r = parent /\ chain_from (Some (rv_ID r)) l
  end.

Fixpoint head_from (parent : option string) (l : list Revision) : option string :=
  match l with
  | [] => parent
  | r :: l => head_from (Some (rv_ID r)) l
  end.

Lemma chain_from_snoc p l r :
  chain_from p (l ++ [r]) <-> chain_from p l /\ rv_ParentRevisionID r = head_from p l.
Proof.
  revert p. induction l as [|x l IH]; intros p; simpl; [tauto|]. rewrite IH. tauto.
Qed.

Lemma head_from_snoc p l r : head_from p (l ++ [r]) = Some (rv_ID r).
Proof. revert p. induction l as [|x l IH]; intros p; simpl; [done|apply IH]. Qed.

Lemma head_from_elem l : forall p x, head_from p l = Some x -> p = Some x \/ exists r, r ∈ l /\ rv_ID r = x.
Proof.
  induction l as [|r l IH]; intros p x; simpl; [by left|]. intros [[= <-]|(r' & Hr & <-)]%IH; right.
  - exists r. split; [left|done].
  - exists r'. split; [by right|done].
Qed.

Lemma chain_from_map p l l' :
  Forall2 (fun r r' => rv_ID r' = rv_ID r /\ rv_ParentRevisionID r' = rv_ParentRevisionID r) l l' ->
  (chain_from p l -> chain_from p l') /\ head_from p l' = head_from p l.
Proof.
  intros HF. revert p. induction HF as [|r r' l l' [Hi Hp] _ IH]; intros p; [done|]. simpl.
  rewrite Hi, Hp. destruct (IH (Some (rv_ID r))) as [H1 ->]. naive_solver.
Qed.

Definition of_document (doc : string) (r : Revision) : bool := str_eqb (rv_DocumentID r) doc.
Definition revisions_of (doc : string) (st : EditStore) : list Revision :=
  bfilter (of_document doc) (es_revisions st).

(** ** The specification *)

(** What no transaction of the editor changes of a document besides its
    pointers, and what closing and autosaving leave alone. *)
Definition document_key (d : DocumentRow) :=
  (dr_id d, dr_tenant_id d, d_created_by (dr_doc d), d_controlled_document_id (dr_doc d),
   dr_revision_number d).

Definition same_pointers (d d' : DocumentRow) : Prop :=
  document_key d' = document_key d /\ dr_current_revision_id d' = dr_current_revision_id d
  /\ dr_active_session_id d' = dr_active_session_id d.

(** The tables once the session [s] has committed the upload [p] as the revision
    [r]. *)
Definition committed (p : PendingUpload) (s : Session) (r : Revision) (form : string) (now : Time)
    (st : EditStore) : EditStore :=
  with_pending (alter_rows (fun q => str_eqb (pu_ID q) (pu_ID p)) (set_pu_ConsumedAt now) (es_pending st))
    (with_sessions (alter_rows (fun x => str_eqb (se_ID x) (se_ID s)) (set_se_Ack (rv_ID r)) (es_sessions st))
       (with_documents (alter_rows (fun d => str_eqb (dr_id d) (pu_DocumentID p))
                          (set_head (rv_ID r) form now) (es_documents st))
          (with_revisions (es_revisions st ++ [r]) (with_seq (es_revision_seq st + 1) st)))).

Section specification.
Context `{UuidText}.

Definition canonical (s : string) : Prop := uuid_in s = Some s.

Definition points_into (sessions : list Session) (d : DocumentRow) : bool :=
  match dr_active_session_id d with Some x => exists_id se_ID sessions x | None => false end.

Inductive edit_event (st : EditStore) : EditStore -> Prop :=
  | ev_created d s r :
      dr_id d ∉ dr_id <$> es_documents st -> se_ID s ∉ se_ID <$> es_sessions st ->
      rv_ID r ∉ rv_ID <$> es_revisions st ->
      canonical (dr_id d) -> canonical (se_ID s) -> canonical (rv_ID r) ->
      (forall d' c, d' ∈ es_documents st -> d_controlled_document_id (dr_doc d) = Some c ->
         d_controlled_document_id (dr_doc d') = Some c -> dr_revision_number d' <> 1) ->
      dr_revision_number d = 1 ->
      dr_current_revision_id d = Some (rv_ID r) -> dr_active_session_id d = Some (se_ID s) ->
      se_DocumentID s = dr_id d -> se_Status s = SessionActive ->
      se_LastAcknowledgedRevisionID s = rv_ID r ->
      rv_DocumentID r = dr_id d -> rv_ParentRevisionID r = None -> rv_RevisionNum r = es_revision_seq st + 1 ->
      edit_event st
        (with_revisions (es_revisions st ++ [r])
           (with_sessions (es_sessions st ++ [s])
              (with_documents (es_documents st ++ [d]) (with_seq (es_revision_seq st + 1) st))))
  | ev_opened d s now :
      d ∈ es_documents st -> se_ID s ∉ se_ID <$> es_sessions st -> canonical (se_ID s) ->
      se_DocumentID s = dr_id d -> se_Status s = SessionActive ->
      dr_current_revision_id d = Some (se_LastAcknowledgedRevisionID s) ->
      (forall s', s' ∈ es_sessions st -> se_DocumentID s' = dr_id d -> se_Status s' <> SessionActive) ->
      edit_event st
        (with_documents (alter_rows (fun r => str_eqb (dr_id r) (dr_id d))
                           (set_active_session (Some (se_ID s)) now) (es_documents st))
           (with_sessions (es_sessions st ++ [s]) st))
  | ev_extended cond t :
      (forall s, s ∈ es_sessions st -> cond s = true -> se_Status s = SessionActive) ->
      edit_event st (with_sessions (alter_rows cond (set_se_ExpiresAt t) (es_sessions st)) st)
  | ev_closed cond status released now :
      (forall s, s ∈ es_sessions st -> cond s = true -> se_Status s = SessionActive) -> status <> SessionActive ->
      edit_event st
        (with_documents (alter_rows (points_into (bfilter cond (es_sessions st)))
                           (set_active_session None now) (es_documents st))
           (with_sessions (alter_rows cond (fun s => set_se_Status status (released s) s)
                             (es_sessions st)) st))
  | ev_reserved p s :
      s ∈ es_sessions st -> se_Status s = SessionActive -> se_ID s = pu_SessionID p ->
      se_DocumentID s = pu_DocumentID p -> se_LastAcknowledgedRevisionID s = pu_BaseRevisionID p ->
      pu_ConsumedAt p = None -> pu_ID p ∉ pu_ID <$> es_pending st ->
      edit_event st (with_pending (es_pending st ++ [p]) st)
  | ev_committed p s r form now :
      p ∈ es_pending st -> pu_ConsumedAt p = None ->
      s ∈ es_sessions st -> se_Status s = SessionActive -> se_ID s = pu_SessionID p ->
      se_LastAcknowledgedRevisionID s = pu_BaseRevisionID p ->
      rv_ID r ∉ rv_ID <$> es_revisions st -> canonical (rv_ID r) ->
      rv_DocumentID r = pu_DocumentID p -> rv_ParentRevisionID r = Some (pu_BaseRevisionID p) ->
      rv_ContentHash r = pu_ContentHash p -> rv_RevisionNum r = es_revision_seq st + 1 ->
      (forall r', r' ∈ es_revisions st -> rv_DocumentID r' = rv_DocumentID r ->
         rv_ContentHash r' <> rv_ContentHash r) ->
      edit_event st (committed p s r form now st)
  | ev_swept gone :
      (forall p, p ∈ es_pending st -> gone p = true -> pu_ConsumedAt p = None) ->
      edit_event st (with_pending (bfilter (fun p => negb (gone p)) (es_pending st)) st)
  | ev_checkpointed c d :
      d ∈ es_documents st -> dr_id d = cp_DocumentID c ->
      dr_current_revision_id d = Some (cp_RevisionID c) ->
      cp_VersionNum c = max_version (bfilter (checkpoint_of (cp_DocumentID c)) (es_checkpoints st)) + 1 ->
      cp_VersionNum c <= int4_max ->
      edit_event st (with_checkpoints (es_checkpoints st ++ [c]) st)
  | ev_stored id key :
      edit_event st
        (with_revisions (alter_rows (fun r => str_eqb (rv_ID r) id && str_eqb (rv_StorageKey r) "")
                           (set_rv_StorageKey key) (es_revisions st)) st)
  | ev_other st' :
      Forall2 same_pointers (es_documents st) (es_documents st') ->
      es_sessions st' = es_sessions st -> es_revisions st' = es_revisions st ->
      es_pending st' = es_pending st -> es_checkpoints st' = es_checkpoints st ->
      es_revision_seq st <= es_revision_seq st' ->
      edit_event st st'.

(** ** The invariant *)

Record edit_ok (st : EditStore) : Prop := {
  ok_document_ids : NoDup (dr_id <$> es_documents st);
  ok_session_ids : NoDup (se_ID <$> es_sessions st);
  ok_revision_ids : NoDup (rv_ID <$> es_revisions st);
  ok_pending_ids : NoDup (pu_ID <$> es_pending st);
  ok_contents : NoDup ((fun r => (rv_DocumentID r, rv_ContentHash r)) <$> es_revisions st);
  ok_numbers : StronglySorted Z.lt (rv_RevisionNum <$> es_revisions st);
  ok_seq : Forall (fun r => rv_RevisionNum r <= es_revision_seq st) (es_revisions st);
  ok_canonical : Forall (fun d => canonical (dr_id d)) (es_documents st)
    /\ Forall (fun s => canonical (se_ID s)) (es_sessions st)
    /\ Forall (fun r => canonical (rv_ID r)) (es_revisions st);
  ok_session_documents : Forall (fun s => se_DocumentID s ∈ dr_id <$> es_documents st) (es_sessions st);
  ok_revision_documents : Forall (fun r => rv_DocumentID r ∈ dr_id <$> es_documents st) (es_revisions st);
  ok_one_active : forall s s', s ∈ es_sessions st -> s' ∈ es_sessions st ->
    se_Status s = SessionActive -> se_Status s' = SessionActive ->
    se_DocumentID s = se_DocumentID s' -> se_ID s = se_ID s';
  ok_pointed : forall d x, d ∈ es_documents st ->
    dr_active_session_id d = Some x <->
    exists s, s ∈ es_sessions st /\ se_ID s = x /\ se_DocumentID s = dr_id d /\ se_Status s = SessionActive;
  ok_acknowledged : forall d s, d ∈ es_documents st -> s ∈ es_sessions st ->
    se_DocumentID s = dr_id d -> se_Status s = SessionActive ->
    dr_current_revision_id d = Some (se_LastAcknowledgedRevisionID s);
  ok_chain : forall d, d ∈ es_documents st ->
    chain_from None (revisions_of (dr_id d) st)
    /\ dr_current_revision_id d = head_from None (revisions_of (dr_id d) st)
    /\ revisions_of (dr_id d) st <> [];
  ok_pending : forall p, p ∈ es_pending st ->
    (exists s, s ∈ es_sessions st /\ se_ID s = pu_SessionID p /\ se_DocumentID s = pu_DocumentID p)
    /\ (pu_ConsumedAt p <> None -> exists r, r ∈ es_revisions st /\ rv_DocumentID r = pu_DocumentID p
          /\ rv_ContentHash r = pu_ContentHash p);
  ok_checkpoint : forall c, c ∈ es_checkpoints st ->
    exists r, r ∈ es_revisions st /\ rv_ID r = cp_RevisionID c /\ rv_DocumentID r = cp_DocumentID c
}.

(** ** A state and the later ones *)

Definition session_step (s s' : Session) : Prop :=
  se_ID s' = se_ID s /\ se_DocumentID s' = se_DocumentID s /\ se_UserID s' = se_UserID s
  /\ (se_Status s <> SessionActive -> s' = s).

Definition revision_step (r r' : Revision) : Prop :=
  r' = r \/ (rv_StorageKey r = "" /\ exists key, r' = set_rv_StorageKey key r).

Definition document_step (d d' : DocumentRow) : Prop := document_key d' = document_key d.

Record edit_extends (st st' : EditStore) : Prop := {
  ex_documents : grows document_step (es_documents st) (es_documents st');
  ex_sessions : grows session_step (es_sessions st) (es_sessions st');
  ex_revisions : grows revision_step (es_revisions st) (es_revisions st');
  ex_checkpoints : grows eq (es_checkpoints st) (es_checkpoints st');
  ex_consumed : forall p, p ∈ es_pending st -> pu_ConsumedAt p <> None -> p ∈ es_pending st'
}.

#[export] Instance session_step_preorder : PreOrder session_step.
Proof.
  split; [done|]. intros x y z (?&?&?&Ha) (?&?&?&Hb). split_and!; try congruence.
  intros Hx. specialize (Ha Hx). subst. by apply Hb.
Qed.

#[export] Instance revision_step_preorder : PreOrder revision_step.
Proof.
  split; [by left|]. intros x y z [->|(Hk & key & ->)]; [done|]. intros [->|(Hk2 & key' & ->)].
  - right. eauto.
  - right. split; [done|]. by exists key'.
Qed.

#[export] Instance document_step_preorder : PreOrder document_step.
Proof. split; unfold document_step; [done|]. intros x y z. congruence. Qed.

#[export] Instance edit_extends_preorder : PreOrder edit_extends.
Proof.
  split.
  - intros st. by split; try reflexivity.
  - intros st1 st2 st3 [D1 S1 R1 C1 P1] [D2 S2 R2 C2 P2]. split; try (etrans; eassumption).
    intros p Hp Hc. auto.
Qed.
End specification.
