(* ===== verification/EditorInvariant.v ===== *)
(** * Editor: every event keeps the invariant

    [edit_ok] sees the tables through [edit_view]; the events are taken one by
    one. *)
From S2P Require Import Prelude Tables ApprovalDomain Database Schema EditorDomain EditorTables EditorRepo EditorSpec.
From stdpp Require Import relations.
Local Open Scope Z_scope.

(** ** What the invariant sees *)

Definition document_view (d : DocumentRow) := (dr_id d, dr_current_revision_id d, dr_active_session_id d).
Definition session_view (s : Session) :=
  (se_ID s, se_DocumentID s, se_Status s, se_LastAcknowledgedRevisionID s).
Definition revision_view (r : Revision) :=
  (rv_ID r, rv_DocumentID r, rv_RevisionNum r, rv_ParentRevisionID r, rv_ContentHash r).
Definition pending_view (p : PendingUpload) :=
  (pu_ID p, pu_SessionID p, pu_DocumentID p, pu_ContentHash p, pu_ConsumedAt p).
Definition checkpoint_view (c : Checkpoint) := (cp_RevisionID c, cp_DocumentID c).

Definition edit_view (st : EditStore) :=
  (document_view <$> es_documents st, session_view <$> es_sessions st,
   revision_view <$> es_revisions st, pending_view <$> es_pending st,
   checkpoint_view <$> es_checkpoints st).

Lemma str_eqb_sym a b : str_eqb a b = str_eqb b a.
Proof. apply Bool.eq_iff_eq_true. rewrite !str_eqb_true. naive_solver. Qed.

Lemma view_elem {A B} (f : A -> B) (l l' : list A) x :
  f <$> l' = f <$> l -> x ∈ l' -> exists y, y ∈ l /\ f y = f x.
Proof.
  intros Hl Hx. assert (f x ∈ f <$> l) as Hy by (rewrite <- Hl; by apply list_elem_of_fmap_2).
  apply elem_of_map_inv in Hy as (y & Hy & ->). by exists y.
Qed.

Lemma view_fmap {A B C} (f : A -> B) (g : B -> C) (l l' : list A) :
  f <$> l' = f <$> l -> (fun x => g (f x)) <$> l' = (fun x => g (f x)) <$> l.
Proof. intros Hl. rewrite !(list_fmap_compose f g). by rewrite Hl. Qed.

Lemma view_Forall2 {A B} (f : A -> B) (l l' : list A) :
  f <$> l' = f <$> l -> Forall2 (fun x y => f y = f x) l l'.
Proof.
  revert l'. induction l as [|x l IH]; intros [|y l']; simpl; try done. intros [= Hf Hl].
  constructor; [done|]. by apply IH.
Qed.

Lemma bfilter_Forall2 {A} (P : A -> A -> Prop) (q : A -> bool) l l' :
  (forall x y, P x y -> q y = q x) -> Forall2 P l l' -> Forall2 P (bfilter q l) (bfilter q l').
Proof.
  intros Hq. induction 1 as [|x y l l' Hxy _ IH]; [done|]. rewrite !bfilter_cons, (Hq _ _ Hxy).
  destruct (q x); [by constructor|done].
Qed.

Section invariant.
Context `{UuidText}.

Lemma revisions_of_view doc st st' :
  revision_view <$> es_revisions st' = revision_view <$> es_revisions st ->
  Forall2 (fun r r' => revision_view r' = revision_view r) (revisions_of doc st) (revisions_of doc st').
Proof.
  intros Hv. apply bfilter_Forall2; [|by apply view_Forall2].
  intros r r' Hr. unfold of_document. injection Hr. congruence.
Qed.

Lemma chain_view doc st st' :
  revision_view <$> es_revisions st' = revision_view <$> es_revisions st ->
  (chain_from None (revisions_of doc st) -> chain_from None (revisions_of doc st'))
  /\ head_from None (revisions_of doc st') = head_from None (revisions_of doc st)
  /\ (revisions_of doc st <> [] -> revisions_of doc st' <> []).
Proof.
  intros Hv. pose proof (revisions_of_view doc st st' Hv) as HF. split_and!.
  1,2: eapply chain_from_map, Forall2_impl; [exact HF|].
  1,2: intros r r' Hr; injection Hr; intros; by split.
  intros Hne Hnil. rewrite Hnil in HF. apply Forall2_nil_inv_r in HF. done.
Qed.

Lemma edit_ok_view st st' :
  edit_view st' = edit_view st -> es_revision_seq st <= es_revision_seq st' -> edit_ok st -> edit_ok st'.
Proof.
  intros Hv Hs []. injection Hv as Hd Hse Hr Hp Hc.
  pose proof (view_fmap document_view (fun v => v.1.1) _ _ Hd : dr_id <$> _ = dr_id <$> _) as Hid.
  pose proof (view_fmap session_view (fun v => v.1.1.1) _ _ Hse : se_ID <$> _ = se_ID <$> _) as Hsid.
  pose proof (view_fmap revision_view (fun v => v.1.1.1.1) _ _ Hr : rv_ID <$> _ = rv_ID <$> _) as Hrid.
  pose proof (view_fmap pending_view (fun v => v.1.1.1.1) _ _ Hp : pu_ID <$> _ = pu_ID <$> _) as Hpid.
  pose proof (view_fmap revision_view (fun v => (v.1.1.1.2, v.2)) _ _ Hr :
    (fun r => (rv_DocumentID r, rv_ContentHash r)) <$> _ = _ <$> _) as Hcid.
  pose proof (view_fmap revision_view (fun v => v.1.1.2) _ _ Hr : rv_RevisionNum <$> _ = rv_RevisionNum <$> _) as Hnum.
  split; try by rewrite ?Hid, ?Hsid, ?Hrid, ?Hpid, ?Hcid, ?Hnum.
  - apply Forall_forall. intros r Hr'. destruct (view_elem _ _ _ _ Hr Hr') as (r0 & Hr0 & [= ? ? <- ? ?]).
    rewrite Forall_forall in ok_seq. specialize (ok_seq _ Hr0). lia.
  - destruct ok_canonical as (H1 & H2 & H3). rewrite Forall_forall in H1; rewrite Forall_forall in H2; rewrite Forall_forall in H3.
    split_and!; apply Forall_forall.
    + intros d Hd'. destruct (view_elem _ _ _ _ Hd Hd') as (d0 & Hd0 & [= <- ? ?]). auto.
    + intros s Hs'. destruct (view_elem _ _ _ _ Hse Hs') as (s0 & Hs0 & [= <- ? ? ?]). auto.
    + intros r Hr'. destruct (view_elem _ _ _ _ Hr Hr') as (r0 & Hr0 & [= <- ? ? ? ?]). auto.
  - apply Forall_forall. rewrite Forall_forall in ok_session_documents. rewrite Hid. intros s Hs'.
    destruct (view_elem _ _ _ _ Hse Hs') as (s0 & Hs0 & [= ? <- ? ?]). auto.
  - apply Forall_forall. rewrite Forall_forall in ok_revision_documents. rewrite Hid. intros r Hr'.
    destruct (view_elem _ _ _ _ Hr Hr') as (r0 & Hr0 & [= ? <- ? ? ?]). auto.
  - intros s s' Hs1 Hs2 Ha Ha' Hdoc.
    destruct (view_elem _ _ _ _ Hse Hs1) as (x & Hx & [= Ex1 Ex2 Ex3 Ex4]).
    destruct (view_elem _ _ _ _ Hse Hs2) as (y & Hy & [= Ey1 Ey2 Ey3 Ey4]).
    rewrite <- Ex1, <- Ey1. apply ok_one_active; congruence.
  - intros d x Hd'. destruct (view_elem _ _ _ _ Hd Hd') as (d0 & Hd0 & [= E1 E2 E3]).
    rewrite <- E3, (ok_pointed _ _ Hd0), <- E1. split; intros (s & Hs' & H1 & H2 & H3).
    + destruct (view_elem _ _ _ _ (eq_sym Hse) Hs') as (s0 & Hs0 & [= F1 F2 F3 F4]).
      exists s0. split_and!; congruence.
    + destruct (view_elem _ _ _ _ Hse Hs') as (s0 & Hs0 & [= F1 F2 F3 F4]).
      exists s0. split_and!; congruence.
  - intros d s Hd' Hs' Hdoc Ha. destruct (view_elem _ _ _ _ Hd Hd') as (d0 & Hd0 & [= E1 E2 E3]).
    destruct (view_elem _ _ _ _ Hse Hs') as (s0 & Hs0 & [= F1 F2 F3 F4]).
    rewrite <- E2, <- F4. apply ok_acknowledged; congruence.
  - intros d Hd'. destruct (view_elem _ _ _ _ Hd Hd') as (d0 & Hd0 & [= <- <- E3]).
    destruct (ok_chain _ Hd0) as (H1 & H2 & H3). destruct (chain_view (dr_id d0) st st' Hr) as (G1 & G2 & G3).
    rewrite G2. auto.
  - intros p Hp'. destruct (view_elem _ _ _ _ Hp Hp') as (p0 & Hp0 & [= E1 E2 E3 E4 E5]).
    destruct (ok_pending _ Hp0) as [(s & Hs' & H1 & H2) Hc']. split.
    + destruct (view_elem _ _ _ _ (eq_sym Hse) Hs') as (s0 & Hs0 & [= F1 F2 F3 F4]).
      exists s0. split_and!; congruence.
    + intros Hne. destruct Hc' as (r & Hr' & G1 & G2); [congruence|].
      destruct (view_elem _ _ _ _ (eq_sym Hr) Hr') as (r0 & Hr0 & [= F1 F2 F3 F4 F5]).
      exists r0. split_and!; congruence.
  - intros c Hc'. destruct (view_elem _ _ _ _ Hc Hc') as (c0 & Hc0 & [= E1 E2]).
    destruct (ok_checkpoint _ Hc0) as (r & Hr' & G1 & G2).
    destruct (view_elem _ _ _ _ (eq_sym Hr) Hr') as (r0 & Hr0 & [= F1 F2 F3 F4 F5]).
    exists r0. split_and!; congruence.
Qed.

(** ** New rows *)

Lemma sorted_snoc l x : StronglySorted Z.lt l -> Forall (fun y => y < x) l -> StronglySorted Z.lt (l ++ [x]).
Proof.
  induction 1 as [|y l Hl IH Hy]; intros HF; simpl; [repeat constructor|].
  apply Forall_cons in HF as [? HF]. constructor; [by apply IH|]. apply Forall_app. split; [done|]. by constructor.
Qed.

(** Adding a revision with the next number of the sequence. *)
Lemma numbers_snoc st r :
  edit_ok st -> rv_RevisionNum r = es_revision_seq st + 1 ->
  StronglySorted Z.lt (rv_RevisionNum <$> es_revisions st ++ [r])
  /\ Forall (fun r => rv_RevisionNum r <= es_revision_seq st + 1) (es_revisions st ++ [r]).
Proof.
  intros Hok Hr. pose proof (ok_seq _ Hok) as Hs. split.
  - rewrite fmap_app. apply sorted_snoc; [apply Hok|]. apply Forall_fmap. eapply Forall_impl; [exact Hs|].
    simpl. intros x Hx. lia.
  - apply Forall_app. split; [|constructor; [lia|done]]. eapply Forall_impl; [exact Hs|]. simpl. lia.
Qed.

Lemma ids_snoc {A} (f : A -> string) l x : NoDup (f <$> l) -> f x ∉ f <$> l -> NoDup (f <$> l ++ [x]).
Proof. intros Hl Hx. rewrite fmap_app. by apply NoDup_snoc. Qed.

Lemma Forall_snoc {A} (P : A -> Prop) l x : Forall P l -> P x -> Forall P (l ++ [x]).
Proof. intros. apply Forall_app. split; [done|by constructor]. Qed.

Lemma elem_of_snoc {A} (l : list A) x y : y ∈ l ++ [x] <-> y ∈ l \/ y = x.
Proof. by rewrite elem_of_app, list_elem_of_singleton. Qed.

Lemma revisions_of_snoc doc st st' r :
  es_revisions st' = es_revisions st ++ [r] ->
  revisions_of doc st' = revisions_of doc st ++ (if str_eqb (rv_DocumentID r) doc then [r] else []).
Proof.
  intros Hr. unfold revisions_of. rewrite Hr, bfilter_app. f_equal. rewrite bfilter_cons.
  unfold of_document at 1. by destruct (str_eqb _ _).
Qed.

Lemma revision_document st r : edit_ok st -> r ∈ es_revisions st -> rv_DocumentID r ∈ dr_id <$> es_documents st.
Proof. intros Hok. pose proof (ok_revision_documents _ Hok) as HF. rewrite Forall_forall in HF. apply HF. Qed.

Lemma session_document st s : edit_ok st -> s ∈ es_sessions st -> se_DocumentID s ∈ dr_id <$> es_documents st.
Proof. intros Hok. pose proof (ok_session_documents _ Hok) as HF. rewrite Forall_forall in HF. apply HF. Qed.

Lemma no_revisions_of doc st : edit_ok st -> doc ∉ dr_id <$> es_documents st -> revisions_of doc st = [].
Proof.
  intros Hok Hd. apply bfilter_none. intros r Hr. unfold of_document. apply str_eqb_false. intros <-.
  by apply Hd, revision_document.
Qed.

Lemma document_fresh st d d' :
  dr_id d ∉ dr_id <$> es_documents st -> d' ∈ es_documents st -> dr_id d' <> dr_id d.
Proof. intros Hd Hd' E. apply Hd. rewrite <- E. by apply list_elem_of_fmap_2. Qed.

Lemma created_ok st d s r :
  edit_ok st ->
  dr_id d ∉ dr_id <$> es_documents st -> se_ID s ∉ se_ID <$> es_sessions st ->
  rv_ID r ∉ rv_ID <$> es_revisions st ->
  canonical (dr_id d) -> canonical (se_ID s) -> canonical (rv_ID r) ->
  dr_current_revision_id d = Some (rv_ID r) -> dr_active_session_id d = Some (se_ID s) ->
  se_DocumentID s = dr_id d -> se_Status s = SessionActive -> se_LastAcknowledgedRevisionID s = rv_ID r ->
  rv_DocumentID r = dr_id d -> rv_ParentRevisionID r = None -> rv_RevisionNum r = es_revision_seq st + 1 ->
  edit_ok (with_revisions (es_revisions st ++ [r])
             (with_sessions (es_sessions st ++ [s])
                (with_documents (es_documents st ++ [d]) (with_seq (es_revision_seq st + 1) st)))).
Proof.
  intros Hok Hfd Hfs Hfr Cd Cs Cr Hcur Hact Hsd Hsa Hack Hrd Hpar Hnum.
  destruct (numbers_snoc st r Hok Hnum) as [Hn1 Hn2].
  assert (forall x, x ∈ es_sessions st -> se_DocumentID x <> dr_id d) as Hns.
  { intros x Hx E. apply Hfd. rewrite <- E. by apply session_document. }
  assert (forall x, x ∈ es_revisions st -> rv_DocumentID x <> dr_id d) as Hnr.
  { intros x Hx E. apply Hfd. rewrite <- E. by apply revision_document. }
  destruct (ok_canonical _ Hok) as (C1 & C2 & C3).
  assert (forall x, x ∈ dr_id <$> es_documents st -> x ∈ dr_id <$> es_documents st ++ [d]) as Hin.
  { intros x Hx. rewrite fmap_app. apply elem_of_app. by left. }
  assert (dr_id d ∈ dr_id <$> es_documents st ++ [d]) as Hind.
  { rewrite fmap_app. apply elem_of_app. right. simpl. by left. }
  split; simpl; [| | |apply Hok| |done|done|..].
  - apply ids_snoc; [apply Hok|done].
  - apply ids_snoc; [apply Hok|done].
  - apply ids_snoc; [apply Hok|done].
  - apply NoDup_fmap_snoc; [apply Hok|]. intros y Hy E. apply (Hnr y Hy). rewrite <- Hrd. by injection E.
  - split_and!; by apply Forall_snoc.
  - apply Forall_snoc; [|by rewrite Hsd]. eapply Forall_impl; [apply (ok_session_documents _ Hok)|]. auto.
  - apply Forall_snoc; [|by rewrite Hrd]. eapply Forall_impl; [apply (ok_revision_documents _ Hok)|]. auto.
  - intros x y [Hx| ->]%elem_of_snoc [Hy| ->]%elem_of_snoc Hxa Hya Hd; [by apply (ok_one_active _ Hok)| | |done].
    + destruct (Hns x Hx). congruence.
    + destruct (Hns y Hy). congruence.
  - intros d0 x [Hd0| ->]%elem_of_snoc.
    + rewrite (ok_pointed _ Hok _ _ Hd0). pose proof (document_fresh _ _ _ Hfd Hd0).
      setoid_rewrite elem_of_snoc. split; intros (y & Hy & E1 & E2 & E3); [by eauto 6|].
      destruct Hy as [Hy| ->]; [by eauto|congruence].
    + rewrite Hact. setoid_rewrite elem_of_snoc. split; [intros [= <-]; by exists s; auto|].
      intros (y & [Hy| ->] & E1 & E2 & E3); [by destruct (Hns y Hy)|congruence].
  - intros d0 y [Hd0| ->]%elem_of_snoc [Hy| ->]%elem_of_snoc Hdoc Hya.
    + by apply (ok_acknowledged _ Hok).
    + destruct (document_fresh _ _ _ Hfd Hd0). congruence.
    + by destruct (Hns y Hy).
    + by rewrite Hack.
  - intros d0 Hd0. rewrite (revisions_of_snoc (dr_id d0) st _ r) by done. rewrite Hrd.
    apply elem_of_snoc in Hd0 as [Hd0| ->].
    + pose proof (document_fresh _ _ _ Hfd Hd0). rewrite (proj2 (str_eqb_false _ _)) by done.
      rewrite app_nil_r. by apply Hok.
    + rewrite str_eqb_refl, (no_revisions_of (dr_id d) st Hok Hfd). simpl. by split_and!.
  - intros p Hp. destruct (ok_pending _ Hok _ Hp) as [(x & Hx & H1 & H2) Hc]. setoid_rewrite elem_of_snoc.
    split; [by eauto 6|]. intros Hne. destruct (Hc Hne) as (x' & ? & ? & ?). eauto 6.
  - intros c Hc. destruct (ok_checkpoint _ Hok _ Hc) as (x & ? & ? & ?). setoid_rewrite elem_of_snoc. eauto 6.
Qed.

(** ** Events that the invariant does not see *)

Lemma extended_ok st cond t :
  edit_ok st -> edit_ok (with_sessions (alter_rows cond (set_se_ExpiresAt t) (es_sessions st)) st).
Proof.
  intros Hok. apply (edit_ok_view st); [|reflexivity|exact Hok]. unfold edit_view. simpl.
  by rewrite (alter_rows_fmap session_view).
Qed.

Lemma stored_ok st cond key :
  edit_ok st -> edit_ok (with_revisions (alter_rows cond (set_rv_StorageKey key) (es_revisions st)) st).
Proof.
  intros Hok. apply (edit_ok_view st); [|reflexivity|exact Hok]. unfold edit_view. simpl.
  by rewrite (alter_rows_fmap revision_view).
Qed.

Lemma same_pointers_view l l' : Forall2 same_pointers l l' -> document_view <$> l' = document_view <$> l.
Proof.
  induction 1 as [|d d' l l' (Hk & Hc & Ha) _ IH]; [done|]. rewrite !fmap_cons, IH. f_equal.
  unfold document_view. injection Hk. congruence.
Qed.

Lemma other_ok st st' :
  Forall2 same_pointers (es_documents st) (es_documents st') ->
  es_sessions st' = es_sessions st -> es_revisions st' = es_revisions st ->
  es_pending st' = es_pending st -> es_checkpoints st' = es_checkpoints st ->
  es_revision_seq st <= es_revision_seq st' -> edit_ok st -> edit_ok st'.
Proof.
  intros Hd E1 E2 E3 E4 Hs Hok. eapply edit_ok_view; [|exact Hs|exact Hok]. unfold edit_view.
  by rewrite (same_pointers_view _ _ Hd), E1, E2, E3, E4.
Qed.

(** ** Uploads and checkpoints *)

Lemma sweep_ok st gone :
  edit_ok st -> edit_ok (with_pending (bfilter (fun p => negb (gone p)) (es_pending st)) st).
Proof.
  intros Hok. split; simpl; try apply Hok.
  - eapply sublist_NoDup; [apply (ok_pending_ids _ Hok)|]. apply fmap_sublist, sublist_filter.
  - intros p [_ Hp]%elem_of_bfilter. by apply (ok_pending _ Hok).
Qed.

Lemma reserved_ok st p s :
  edit_ok st -> s ∈ es_sessions st -> se_ID s = pu_SessionID p -> se_DocumentID s = pu_DocumentID p ->
  pu_ConsumedAt p = None -> pu_ID p ∉ pu_ID <$> es_pending st ->
  edit_ok (with_pending (es_pending st ++ [p]) st).
Proof.
  intros Hok Hs Hid Hdoc Hc Hf. split; simpl; try apply Hok.
  - apply ids_snoc; [apply Hok|done].
  - intros q [Hq| ->]%elem_of_snoc; [by apply (ok_pending _ Hok)|]. split; [by eauto|by intros []].
Qed.

Lemma head_revision st d x :
  edit_ok st -> d ∈ es_documents st -> dr_current_revision_id d = Some x ->
  exists r, r ∈ es_revisions st /\ rv_ID r = x /\ rv_DocumentID r = dr_id d.
Proof.
  intros Hok Hd Hx. destruct (ok_chain _ Hok _ Hd) as (_ & Hh & _). rewrite Hx in Hh.
  symmetry in Hh. apply head_from_elem in Hh as [?|(r & Hr & Hid)]; [done|].
  apply elem_of_bfilter in Hr as [Hdoc Hr]. unfold of_document in Hdoc. bool_to_prop. by exists r.
Qed.

Lemma checkpointed_ok st c d :
  edit_ok st -> d ∈ es_documents st -> dr_id d = cp_DocumentID c ->
  dr_current_revision_id d = Some (cp_RevisionID c) -> edit_ok (with_checkpoints (es_checkpoints st ++ [c]) st).
Proof.
  intros Hok Hd Hdoc Hx. split; simpl; try apply Hok. intros c' [Hc| ->]%elem_of_snoc.
  - by apply (ok_checkpoint _ Hok).
  - destruct (head_revision _ _ _ Hok Hd Hx) as (r & ? & ? & ?). exists r. split_and!; congruence.
Qed.

(** ** Sessions opened and closed *)

Lemma keys_Forall {A B} (f : A -> B) (P : B -> Prop) l l' :
  f <$> l' = f <$> l -> Forall (fun x => P (f x)) l -> Forall (fun x => P (f x)) l'.
Proof. intros Hf Hl. apply Forall_fmap. rewrite Hf. by apply Forall_fmap. Qed.

Lemma document_ids_kept cond sess now st :
  dr_id <$> alter_rows cond (set_active_session sess now) (es_documents st) = dr_id <$> es_documents st.
Proof. by apply alter_rows_fmap. Qed.

Lemma opened_ok st d s now :
  edit_ok st -> d ∈ es_documents st -> se_ID s ∉ se_ID <$> es_sessions st -> canonical (se_ID s) ->
  se_DocumentID s = dr_id d -> se_Status s = SessionActive ->
  dr_current_revision_id d = Some (se_LastAcknowledgedRevisionID s) ->
  (forall s', s' ∈ es_sessions st -> se_DocumentID s' = dr_id d -> se_Status s' <> SessionActive) ->
  edit_ok (with_documents (alter_rows (fun r => str_eqb (dr_id r) (dr_id d))
                             (set_active_session (Some (se_ID s)) now) (es_documents st))
             (with_sessions (es_sessions st ++ [s]) st)).
Proof.
  intros Hok Hd Hf Cs Hsd Hsa Hack Hfree. destruct (ok_canonical _ Hok) as (C1 & C2 & C3).
  pose proof (document_ids_kept (fun r => str_eqb (dr_id r) (dr_id d)) (Some (se_ID s)) now st) as Hids.
  split; simpl; rewrite ?Hids; try apply Hok.
  - apply ids_snoc; [apply Hok|done].
  - split_and!; [by eapply keys_Forall|by apply Forall_snoc|done].
  - apply Forall_snoc; [apply Hok|]. rewrite Hsd. by apply list_elem_of_fmap_2.
  - intros x y [Hx| ->]%elem_of_snoc [Hy| ->]%elem_of_snoc Hxa Hya Hdoc; [by apply (ok_one_active _ Hok)| | |done].
    + destruct (Hfree x Hx); congruence.
    + destruct (Hfree y Hy); congruence.
  - intros d' x (d0 & Hd0 & ->)%elem_of_alter_rows. setoid_rewrite elem_of_snoc.
    destruct (str_eqb (dr_id d0) (dr_id d)) eqn:E; bool_to_prop; simpl.
    + split; [intros [= <-]; exists s; split_and!; [by right|done| |done]; by rewrite Hsd, <- E|].
      intros (y & [Hy| ->] & E1 & E2 & E3); [|congruence].
      destruct (Hfree y Hy); [|done]. rewrite E2. apply E.
    + rewrite (ok_pointed _ Hok _ _ Hd0). split; intros (y & Hy & E1 & E2 & E3); [by eauto 6|].
      destruct Hy as [Hy| ->]; [by eauto|congruence].
  - intros d' y (d0 & Hd0 & ->)%elem_of_alter_rows Hy Hdoc Hya.
    assert (dr_id (if str_eqb (dr_id d0) (dr_id d) then set_active_session (Some (se_ID s)) now d0 else d0) = dr_id d0
      /\ dr_current_revision_id (if str_eqb (dr_id d0) (dr_id d) then set_active_session (Some (se_ID s)) now d0 else d0)
         = dr_current_revision_id d0) as [E1 E2] by (by destruct (str_eqb _ _)).
    rewrite E1 in Hdoc. rewrite E2. apply elem_of_snoc in Hy as [Hy| ->]; [by apply (ok_acknowledged _ Hok)|].
    replace d0 with d; [done|]. apply (NoDup_fmap_inj dr_id (es_documents st)); [apply Hok|done|done|congruence].
  - intros d' (d0 & Hd0 & ->)%elem_of_alter_rows. destruct (ok_chain _ Hok _ Hd0). by destruct (str_eqb _ _).
  - intros p Hp. destruct (ok_pending _ Hok _ Hp) as [(x & Hx & H1 & H2) Hc]. setoid_rewrite elem_of_snoc.
    split; [by eauto 6|done].
Qed.

Lemma closed_active cond status released l x :
  status <> SessionActive ->
  x ∈ alter_rows cond (fun s => set_se_Status status (released s) s) l -> se_Status x = SessionActive ->
  x ∈ l /\ cond x = false.
Proof. intros Hst (y & Hy & ->)%elem_of_alter_rows. by destruct (cond y) eqn:Hc. Qed.

Lemma elem_of_kept {A} (cond : A -> bool) upd l x : x ∈ l -> cond x = false -> x ∈ alter_rows cond upd l.
Proof. intros Hx Hc. apply elem_of_alter_rows. exists x. by rewrite Hc. Qed.

Lemma points_into_spec st cond d :
  points_into (bfilter cond (es_sessions st)) d = true <->
  exists s, s ∈ es_sessions st /\ cond s = true /\ dr_active_session_id d = Some (se_ID s).
Proof.
  unfold points_into, exists_id. destruct (dr_active_session_id d) as [x|]; [|naive_solver]. split.
  - intros (s & Hs & E)%existsb_true_elem. apply elem_of_bfilter in Hs as [Hc Hs]. bool_to_prop.
    exists s. split_and!; congruence.
  - intros (s & Hs & Hc & [= ->]). apply existsb_exists. exists s. rewrite <- list_elem_of_In, str_eqb_refl.
    split; [|done]. by apply elem_of_bfilter.
Qed.

Lemma closed_ok st cond status released now :
  edit_ok st -> status <> SessionActive ->
  edit_ok (with_documents (alter_rows (points_into (bfilter cond (es_sessions st)))
                             (set_active_session None now) (es_documents st))
             (with_sessions (alter_rows cond (fun s => set_se_Status status (released s) s)
                               (es_sessions st)) st)).
Proof.
  intros Hok Hst. destruct (ok_canonical _ Hok) as (C1 & C2 & C3).
  set (pts := points_into (bfilter cond (es_sessions st))).
  set (upd := fun s => set_se_Status status (released s) s).
  pose proof (document_ids_kept pts None now st) as Hids.
  assert (se_ID <$> alter_rows cond upd (es_sessions st) = se_ID <$> es_sessions st) as Hsids by (by apply alter_rows_fmap).
  split; simpl; rewrite ?Hids, ?Hsids; try apply Hok.
  - split_and!; [by eapply keys_Forall|by eapply keys_Forall|done].
  - eapply (keys_Forall se_DocumentID (fun x => x ∈ dr_id <$> es_documents st)); [|apply Hok].
    by apply alter_rows_fmap.
  - intros x y Hx Hy Hxa Hya. apply closed_active in Hx as [Hx _]; [|done..].
    apply closed_active in Hy as [Hy _]; [|done..]. by apply (ok_one_active _ Hok).
  - intros d' x (d0 & Hd0 & ->)%elem_of_alter_rows. destruct (pts d0) eqn:Hp; simpl.
    + split; [done|]. intros (y & Hy & E1 & E2 & Hya). apply closed_active in Hy as [Hy Hc]; [|done..].
      apply points_into_spec in Hp as (z & Hz & Hcz & Hact).
      destruct (proj1 (ok_pointed _ Hok d0 _ Hd0) Hact) as (w & Hw & F1 & F2 & F3).
      assert (w = z) as -> by (by apply (NoDup_fmap_inj se_ID _ _ _ (ok_session_ids _ Hok))).
      assert (z = y) as ->; [|congruence]. apply (NoDup_fmap_inj se_ID _ _ _ (ok_session_ids _ Hok)); [done..|].
      apply (ok_one_active _ Hok); try done. by rewrite F2, E2.
    + rewrite (ok_pointed _ Hok _ _ Hd0). split; intros (y & Hy & E1 & E2 & E3).
      * exists y. split_and!; try done. apply elem_of_kept; [done|]. destruct (cond y) eqn:Hc; [|done].
        enough (pts d0 = true) by congruence. apply points_into_spec. exists y. split_and!; [done..|].
        apply (ok_pointed _ Hok); eauto.
      * apply closed_active in Hy as [Hy _]; [|done..]. by exists y.
  - intros d' y (d0 & Hd0 & ->)%elem_of_alter_rows Hy Hdoc Hya. apply closed_active in Hy as [Hy _]; [|done..].
    pose proof (ok_acknowledged _ Hok d0 y Hd0 Hy) as Ha. destruct (pts d0); by apply Ha.
  - intros d' (d0 & Hd0 & ->)%elem_of_alter_rows. destruct (ok_chain _ Hok _ Hd0). by destruct (pts d0).
  - intros p Hp. destruct (ok_pending _ Hok _ Hp) as [(x & Hx & H1 & H2) Hc]. split; [|done].
    exists (if cond x then upd x else x). rewrite elem_of_alter_rows. split; [by eauto|]. by destruct (cond x).
Qed.

(** ** A commit *)

(** The session of an upload in the tables. *)
Lemma upload_session st p s :
  edit_ok st -> p ∈ es_pending st -> s ∈ es_sessions st -> se_ID s = pu_SessionID p ->
  se_DocumentID s = pu_DocumentID p.
Proof.
  intros Hok Hp Hs Hid. destruct (ok_pending _ Hok _ Hp) as [(x & Hx & H1 & H2) _].
  replace s with x; [done|]. apply (NoDup_fmap_inj se_ID _ _ _ (ok_session_ids _ Hok)); congruence.
Qed.

Lemma committed_pointers st cond rev form now d d0 :
  d0 ∈ es_documents st -> d = (if cond d0 : bool then set_head rev form now d0 else d0) ->
  dr_id d = dr_id d0 /\ dr_active_session_id d = dr_active_session_id d0
  /\ dr_current_revision_id d = (if cond d0 then Some rev else dr_current_revision_id d0).
Proof. intros _ ->. by destruct (cond d0). Qed.

Lemma ack_fields cond rev s :
  let s' := if cond s : bool then set_se_Ack rev s else s in
  se_ID s' = se_ID s /\ se_DocumentID s' = se_DocumentID s /\ se_Status s' = se_Status s
  /\ se_LastAcknowledgedRevisionID s' = (if cond s then rev else se_LastAcknowledgedRevisionID s).
Proof. by destruct (cond s). Qed.

(** The only active session of the document commits. *)
Lemma committing_session st s doc x :
  edit_ok st -> s ∈ es_sessions st -> se_Status s = SessionActive -> se_DocumentID s = doc ->
  x ∈ es_sessions st -> se_Status x = SessionActive ->
  str_eqb (se_ID x) (se_ID s) = true <-> se_DocumentID x = doc.
Proof.
  intros Hok Hs Hsa Hsd Hx Hxa. rewrite str_eqb_true. split; intros E.
  - replace x with s; [done|]. by apply (NoDup_fmap_inj se_ID _ _ _ (ok_session_ids _ Hok)).
  - apply (ok_one_active _ Hok); congruence.
Qed.

(** Uploads keep their session, and consumed ones their revision. *)
Lemma committed_pending st p s r now q :
  edit_ok st -> p ∈ es_pending st -> s ∈ es_sessions st -> rv_DocumentID r = pu_DocumentID p ->
  rv_ContentHash r = pu_ContentHash p ->
  q ∈ alter_rows (fun q => str_eqb (pu_ID q) (pu_ID p)) (set_pu_ConsumedAt now) (es_pending st) ->
  (exists x, x ∈ alter_rows (fun x => str_eqb (se_ID x) (se_ID s)) (set_se_Ack (rv_ID r)) (es_sessions st)
    /\ se_ID x = pu_SessionID q /\ se_DocumentID x = pu_DocumentID q)
  /\ (pu_ConsumedAt q <> None -> exists x, x ∈ es_revisions st ++ [r] /\ rv_DocumentID x = pu_DocumentID q
        /\ rv_ContentHash x = pu_ContentHash q).
Proof.
  intros Hok Hp Hs Hrd Hhash (q0 & Hq & ->)%elem_of_alter_rows.
  destruct (ok_pending _ Hok _ Hq) as [(x & Hx & H1 & H2) Hc]. set (cs := fun x => str_eqb (se_ID x) (se_ID s)).
  assert (exists x', x' ∈ alter_rows cs (set_se_Ack (rv_ID r)) (es_sessions st)
    /\ se_ID x' = pu_SessionID q0 /\ se_DocumentID x' = pu_DocumentID q0) as Hx'.
  { exists (if cs x then set_se_Ack (rv_ID r) x else x). destruct (ack_fields cs (rv_ID r) x) as (-> & -> & _ & _).
    rewrite elem_of_alter_rows. eauto. }
  setoid_rewrite elem_of_snoc. destruct (str_eqb (pu_ID q0) (pu_ID p)) eqn:E; bool_to_prop.
  - assert (q0 = p) as -> by (by apply (NoDup_fmap_inj pu_ID _ _ _ (ok_pending_ids _ Hok))).
    split; [done|]. intros _. exists r. by split_and!; [right| |].
  - split; [done|]. intros Hne. destruct (Hc Hne) as (x' & ? & ? & ?). eauto 6.
Qed.

Lemma committed_ok st p s r form now :
  edit_ok st -> p ∈ es_pending st ->
  s ∈ es_sessions st -> se_Status s = SessionActive -> se_ID s = pu_SessionID p ->
  se_LastAcknowledgedRevisionID s = pu_BaseRevisionID p ->
  rv_ID r ∉ rv_ID <$> es_revisions st -> canonical (rv_ID r) ->
  rv_DocumentID r = pu_DocumentID p -> rv_ParentRevisionID r = Some (pu_BaseRevisionID p) ->
  rv_ContentHash r = pu_ContentHash p -> rv_RevisionNum r = es_revision_seq st + 1 ->
  (forall r', r' ∈ es_revisions st -> rv_DocumentID r' = rv_DocumentID r ->
     rv_ContentHash r' <> rv_ContentHash r) ->
  edit_ok (committed p s r form now st).
Proof.
  intros Hok Hp Hs Hsa Hsid Hack Hfr Cr Hrd Hpar Hhash Hnum Hnew. unfold committed.
  pose proof (upload_session _ _ _ Hok Hp Hs Hsid) as Hsd.
  destruct (numbers_snoc st r Hok Hnum) as [Hn1 Hn2]. destruct (ok_canonical _ Hok) as (C1 & C2 & C3).
  set (cd := fun d => str_eqb (dr_id d) (pu_DocumentID p)).
  set (cs := fun x => str_eqb (se_ID x) (se_ID s)).
  assert (dr_id <$> alter_rows cd (set_head (rv_ID r) form now) (es_documents st) = dr_id <$> es_documents st)
    as Hids by (by apply alter_rows_fmap).
  assert (se_ID <$> alter_rows cs (set_se_Ack (rv_ID r)) (es_sessions st) = se_ID <$> es_sessions st)
    as Hsids by (by apply alter_rows_fmap).
  assert (pu_ID <$> alter_rows (fun q => str_eqb (pu_ID q) (pu_ID p)) (set_pu_ConsumedAt now) (es_pending st) = pu_ID <$> es_pending st)
    as Hpids by (by apply alter_rows_fmap).
  assert (forall x, x ∈ es_sessions st -> se_Status x = SessionActive ->
    cs x = true <-> se_DocumentID x = pu_DocumentID p) as Hcs by (intros; by apply (committing_session st)).
  split; simpl; rewrite ?Hids, ?Hsids, ?Hpids; try apply Hok; try done.
  - apply ids_snoc; [apply Hok|done].
  - apply NoDup_fmap_snoc; [apply Hok|]. intros y Hy E. injection E as E1 E2. by apply (Hnew y Hy).
  - split_and!; [by eapply keys_Forall|by eapply keys_Forall|by apply Forall_snoc].
  - eapply (keys_Forall se_DocumentID (fun x => x ∈ dr_id <$> es_documents st)); [by apply alter_rows_fmap|apply Hok].
  - apply Forall_snoc; [apply Hok|]. rewrite Hrd, <- Hsd. by apply session_document.
  - intros x y (x0 & Hx & ->)%elem_of_alter_rows (y0 & Hy & ->)%elem_of_alter_rows.
    destruct (ack_fields cs (rv_ID r) x0) as (-> & -> & -> & _).
    destruct (ack_fields cs (rv_ID r) y0) as (-> & -> & -> & _). by apply (ok_one_active _ Hok).
  - intros d x (d0 & Hd0 & Hd)%elem_of_alter_rows.
    destruct (committed_pointers _ _ _ _ _ _ _ Hd0 Hd) as (-> & -> & _). rewrite (ok_pointed _ Hok _ _ Hd0).
    split; intros (y & Hy & E1 & E2 & E3).
    + exists (if cs y then set_se_Ack (rv_ID r) y else y). destruct (ack_fields cs (rv_ID r) y) as (-> & -> & -> & _).
      rewrite elem_of_alter_rows. eauto 6.
    + apply elem_of_alter_rows in Hy as (y0 & Hy & ->). destruct (ack_fields cs (rv_ID r) y0) as (F1 & F2 & F3 & _).
      exists y0. split_and!; congruence.
  - intros d y (d0 & Hd0 & Hd)%elem_of_alter_rows (y0 & Hy & ->)%elem_of_alter_rows.
    destruct (committed_pointers _ _ _ _ _ _ _ Hd0 Hd) as (-> & _ & ->).
    destruct (ack_fields cs (rv_ID r) y0) as (_ & -> & -> & ->). intros Hdoc Hya.
    pose proof (ok_acknowledged _ Hok _ _ Hd0 Hy Hdoc Hya) as Ha. specialize (Hcs _ Hy Hya).
    unfold cd. destruct (str_eqb (dr_id d0) (pu_DocumentID p)) eqn:E; bool_to_prop.
    + by rewrite (proj2 Hcs) by congruence.
    + destruct (cs y0); [|done]. destruct E. rewrite <- Hdoc. by apply Hcs.
  - intros d (d0 & Hd0 & Hd)%elem_of_alter_rows. destruct (committed_pointers _ _ _ _ _ _ _ Hd0 Hd) as (-> & _ & ->).
    rewrite (revisions_of_snoc (dr_id d0) st _ r) by done. destruct (ok_chain _ Hok _ Hd0) as (H1 & H2 & H3).
    unfold cd. rewrite Hrd, (str_eqb_sym (pu_DocumentID p)). destruct (str_eqb (dr_id d0) (pu_DocumentID p)) eqn:E; bool_to_prop.
    + rewrite chain_from_snoc, head_from_snoc. split_and!; [done| |done|].
      * rewrite Hpar, <- H2, <- Hack. symmetry. apply (ok_acknowledged _ Hok); congruence.
      * by intros [? ?]%app_nil.
    + by rewrite app_nil_r.
  - intros q. by apply committed_pending.
  - intros c Hc. destruct (ok_checkpoint _ Hok _ Hc) as (x & ? & ? & ?). setoid_rewrite elem_of_snoc. eauto 6.
Qed.

(** ** Every event *)

Lemma grows_alter {A} (R : A -> A -> Prop) `{!Reflexive R} cond upd l :
  (forall x, x ∈ l -> cond x = true -> R x (upd x)) -> grows R l (alter_rows cond upd l).
Proof.
  intros HR. apply grows_update, alter_rows_Forall2. intros x Hx. destruct (cond x) eqn:Hc; [auto|reflexivity].
Qed.

Lemma edit_event_extends st st' : edit_ok st -> edit_event st st' -> edit_extends st st'.
Proof.
  intros Hok [d s r|d s now|cond t Hc|cond status released now Hc Hst|p s|p s r form now Hp Hpc Hs Hsa|gone Hg|c d|id key|st1 Hd E1 E2 E3 E4 _];
    split; simpl; try reflexivity; try (by apply grows_append; tc_solve); try (by intros ? ? ?); try by apply grows_alter.
  - apply grows_alter; [tc_solve|]. intros s Hs Hcs%Hc; [|done]. by split_and!.
  - apply grows_alter; [tc_solve|]. intros s Hs Hcs%Hc; [|done]. by split_and!.
  - intros q Hq _. apply elem_of_app. by left.
  - apply grows_alter; [tc_solve|]. intros x Hx E. bool_to_prop. split_and!; try done.
    assert (x = s) as -> by (by apply (NoDup_fmap_inj se_ID _ _ _ (ok_session_ids _ Hok))). done.
  - intros q Hq Hqc. apply elem_of_kept; [done|]. apply str_eqb_false. intros E.
    assert (q = p) as -> by (by apply (NoDup_fmap_inj pu_ID _ _ _ (ok_pending_ids _ Hok))). done.
  - intros q Hq Hqc. apply elem_of_bfilter. split; [|done]. destruct (gone q) eqn:Hgq; [|done].
    by apply Hg in Hgq.
  - apply grows_alter; [tc_solve|]. intros r _ E. bool_to_prop. right. eauto.
  - apply grows_update. eapply Forall2_impl; [exact Hd|]. by intros d d' [? _].
  - by rewrite E1.
  - by rewrite E2.
  - by rewrite E4.
  - by rewrite E3.
Qed.

Lemma edit_event_ok st st' : edit_event st st' -> edit_ok st -> edit_ok st'.
Proof.
  destruct 1; intros Hok.
  - by apply created_ok.
  - by apply opened_ok.
  - by apply extended_ok.
  - by apply closed_ok.
  - by eapply reserved_ok.
  - by apply committed_ok.
  - by apply sweep_ok.
  - by eapply checkpointed_ok.
  - by apply stored_ok.
  - by eapply other_ok.
Qed.

(** What every step of the system does: it keeps the invariant and extends the
    state. *)
Definition event_sound st st' : Prop := edit_ok st -> edit_ok st' /\ edit_extends st st'.

Lemma edit_event_sound st st' : edit_event st st' -> event_sound st st'.
Proof. intros He Hok. split; [by eapply edit_event_ok|by apply edit_event_extends]. Qed.
End invariant.
