(* ===== verification/EditorSafety.v ===== *)
(** * Editor: the repository implements the specification

    On a success every method of the repository is an event of [EditorSpec]; on
    a failure it leaves the tables alone, but for the sequence. Then every
    request keeps [edit_ok] and [edit_extends], one after the other or
    interleaved. *)
From S2P Require Import Prelude Text Tables Programs ProgramLogic ApprovalDomain Database Schema Sha256 ContentHash EditorDomain EditorTables EditorRepo Editor EditorRuns EditorLogic EditorSpec EditorInvariant.
From stdpp Require Import relations.
Import DocStates.
Local Open Scope Z_scope.

Section statements.
Context `{UuidText}.

Lemma update_documents_alter cond upd st n st' :
  update_documents cond upd st = inr (n, st') ->
  st' = with_documents (alter_rows cond upd (es_documents st)) st
  /\ n = Z.of_nat (bcount cond (es_documents st)).
Proof.
  unfold update_documents. destruct (update_where _ _ _) as [e|[k rows]] eqn:Hu; [done|]. intros [= <- <-].
  apply (update_where_alter _ _ upd) in Hu as (-> & -> & _); [done|].
  intros r r'. do 3 (match goal with |- context [match ?x with inl _ => _ | inr _ => _ end] => destruct x; [done|] end).
  by intros [= <-].
Qed.

Lemma update_sessions_alter cond upd st n st' :
  update_sessions cond upd st = inr (n, st') ->
  st' = with_sessions (alter_rows cond upd (es_sessions st)) st
  /\ n = Z.of_nat (bcount cond (es_sessions st)).
Proof.
  unfold update_sessions. destruct (update_where _ _ _) as [e|[k rows]] eqn:Hu; [done|]. intros [= <- <-].
  apply (update_where_alter _ _ upd) in Hu as (-> & -> & _); [done|]. by intros r r' [= <-].
Qed.

Lemma exists_id_true {R} (id : R -> string) rows x :
  exists_id id rows x = true <-> x ∈ id <$> rows.
Proof.
  unfold exists_id. rewrite list_elem_of_fmap. split.
  - intros (r & Hr & E)%existsb_true_elem. bool_to_prop. eauto.
  - intros (r & -> & Hr). apply existsb_exists. exists r. by rewrite <- list_elem_of_In, str_eqb_refl.
Qed.

Lemma exists_id_false {R} (id : R -> string) rows x :
  exists_id id rows x = false <-> x ∉ id <$> rows.
Proof. rewrite <- exists_id_true. by destruct (exists_id id rows x). Qed.

(** Split the constraints of an insert. *)
Lemma constrained_ok {A} (b : bool) e (k : Result A) a :
  (check! constraint b e; k) = inr a <-> b = true /\ k = inr a.
Proof. destruct b; simpl; naive_solver. Qed.

Lemma insert_document_ok d st st' :
  insert_document d st = inr st' ->
  st' = with_documents (es_documents st ++ [d]) st /\ (dr_id d ∉ dr_id <$> es_documents st)
  /\ (forall d' c, d' ∈ es_documents st -> d_controlled_document_id (dr_doc d) = Some c ->
        d_controlled_document_id (dr_doc d') = Some c -> dr_revision_number d' <> dr_revision_number d).
Proof.
  unfold insert_document. cbv zeta. rewrite !constrained_ok. intros (H1 & H2 & _ & [= <-]).
  rewrite negb_true_iff, exists_id_false in H1. split_and!; [done..|]. intros d' c Hd' Hc Hc' E.
  rewrite Hc in H2. simpl in H2. apply negb_true_iff in H2. apply (existsb_false_elem _ _ _ H2) in Hd'.
  rewrite Hc', E, Z.eqb_refl, andb_true_r in Hd'. unfold opt_eqb in Hd'.
  by rewrite bool_decide_eq_false in Hd'.
Qed.

Lemma insert_session_ok s st st' :
  insert_session s st = inr st' ->
  st' = with_sessions (es_sessions st ++ [s]) st /\ (se_ID s ∉ se_ID <$> es_sessions st)
  /\ (se_Status s = SessionActive -> forall s', s' ∈ es_sessions st ->
        se_DocumentID s' = se_DocumentID s -> se_Status s' <> SessionActive).
Proof.
  unfold insert_session. rewrite !constrained_ok. intros (H1 & H2 & _ & [= <-]).
  rewrite negb_true_iff, exists_id_false in H1. split_and!; [done..|]. intros Ha s' Hs' Hd Ha'.
  rewrite Ha in H2. simpl in H2. apply negb_true_iff in H2. apply (existsb_false_elem _ _ _ H2) in Hs'.
  by rewrite Hd, Ha', str_eqb_refl in Hs'.
Qed.

Lemma insert_revision_ok r st st' :
  insert_revision r st = inr st' ->
  st' = with_revisions (es_revisions st ++ [r]) st /\ (rv_ID r ∉ rv_ID <$> es_revisions st)
  /\ (forall r', r' ∈ es_revisions st -> rv_DocumentID r' = rv_DocumentID r ->
        rv_ContentHash r' <> rv_ContentHash r).
Proof.
  unfold insert_revision. rewrite !constrained_ok. intros (H1 & H2 & _ & _ & _ & [= <-]).
  rewrite negb_true_iff, exists_id_false in H1. split_and!; [done..|]. intros r' Hr' Hd Hh.
  apply negb_true_iff in H2. apply (existsb_false_elem _ _ _ H2) in Hr'. by rewrite Hd, Hh, !str_eqb_refl in Hr'.
Qed.

Lemma insert_pending_ok p st st' :
  insert_pending p st = inr st' ->
  st' = with_pending (es_pending st ++ [p]) st /\ pu_ID p ∉ pu_ID <$> es_pending st.
Proof.
  unfold insert_pending. rewrite !constrained_ok. intros (H1 & _ & _ & _ & [= <-]).
  by rewrite negb_true_iff, exists_id_false in H1.
Qed.

Lemma insert_checkpoint_ok c st st' :
  insert_checkpoint c st = inr st' -> st' = with_checkpoints (es_checkpoints st ++ [c]) st.
Proof. unfold insert_checkpoint. rewrite !constrained_ok. by intros (_ & _ & _ & _ & [= <-]). Qed.

Lemma insert_comment_ok c st st' :
  insert_comment c st = inr st' -> st' = with_comments (es_comments st ++ [c]) st.
Proof. unfold insert_comment. rewrite !constrained_ok. by intros (_ & _ & _ & [= <-]). Qed.
End statements.

(** ** Transactions as events *)

Section events.
Context `{UuidText} `{JsonbText}.

Definition tx_event {A} (m : TX A) : Prop :=
  forall u st r st', edit_ok st -> run_tx m u st = (r, st') -> edit_event st st'.

Lemma quiet_event st st' :
  es_documents st' = es_documents st -> es_sessions st' = es_sessions st ->
  es_revisions st' = es_revisions st -> es_pending st' = es_pending st ->
  es_checkpoints st' = es_checkpoints st -> es_revision_seq st <= es_revision_seq st' ->
  edit_event st st'.
Proof. intros E ?????. apply ev_other; try done. rewrite E. by apply Forall_Forall2_diag, Forall_forall. Qed.

Lemma tx_event_intro {A} (m : TX A) :
  seq_grows m ->
  (forall u st a st', edit_ok st -> run_tx m u st = (inr a, st') -> edit_event st st') ->
  tx_event m.
Proof.
  intros Hs Hm u st [e|a] st' Hok Hr; [|by eapply Hm]. destruct (run_tx_failed m u st e st' Hs Hr) as (n & Hn & ->).
  by apply quiet_event.
Qed.

(** ** The sequence does not go back *)

Lemma seq_table {R} cond (f : R -> Result R) (get : EditStore -> list R) (put : list R -> EditStore -> EditStore) :
  (forall rows st, es_revision_seq (put rows st) = es_revision_seq st) ->
  seq_grows (statement (fun st =>
    match update_where cond f (get st) with
    | inl e => inl e
    | inr (n, rows) => inr (n, put rows st)
    end)).
Proof.
  intros Hp. apply seq_statement. intros st a st'. destruct (update_where _ _ _) as [e|[n rows]]; [done|].
  intros [= <- <-]. by rewrite Hp.
Qed.
End events.

Ltac seq_steps :=
  repeat first
    [ apply seq_bind; [|intros]
    | apply seq_twrap | apply seq_tmap_err | apply seq_nextval
    | apply seq_statement; intros; by (eapply seq_update_documents + eapply seq_update_sessions); eassumption
    | apply (seq_table _ _ es_revisions (fun x => with_revisions x)); done
    | apply (seq_table _ _ es_pending (fun x => with_pending x)); done
    | apply (seq_table _ _ es_comments (fun x => with_comments x)); done
    | apply seq_execute; intros ? ? Hi;
      first [ apply insert_document_ok in Hi as [-> _] | apply insert_session_ok in Hi as [-> _]
            | apply insert_revision_ok in Hi as [-> _] | apply insert_pending_ok in Hi as [-> _]
            | apply insert_checkpoint_ok in Hi as -> | apply insert_comment_ok in Hi as -> ]; done
    | apply seq_pure; done
    | apply seq_statement; intros ? ? ? [= <- <-]; done
    | match goal with |- seq_grows (match ?x with _ => _ end) => destruct x end
    | match goal with |- seq_grows (twhen ?b _) => destruct b end
    | progress cbv zeta ].

Section methods.
Context `{UuidText} `{JsonbText} `{!UuidLaws}.

(** ** Documents *)

Lemma SetRevisionStorageKey_event id key : tx_event (SetRevisionStorageKey id key).
Proof.
  apply tx_event_intro; [unfold SetRevisionStorageKey; seq_steps|].
  intros u st a st' Hok Hr. unfold SetRevisionStorageKey in Hr. tx_inv.
  destruct (update_where _ _ _) as [e|[n rows]] eqn:Hu; [done|].
  apply (update_where_alter _ _ (set_rv_StorageKey key)) in Hu as (-> & _ & _); [|by intros r r' [= <-]].
  match goal with Heq : inr _ = inr _ |- _ => injection Heq as <- <- end. apply ev_stored.
Qed.

Lemma kept_pointers_event st cond upd :
  (forall d, same_pointers d (upd d)) ->
  edit_event st (with_documents (alter_rows cond upd (es_documents st)) st).
Proof.
  intros Hu. apply ev_other; try done. apply alter_rows_Forall2. intros d _.
  by destruct (cond d).
Qed.

Lemma UpdateDocumentName_event tenant doc name : tx_event (UpdateDocumentName tenant doc name).
Proof.
  apply tx_event_intro; [unfold UpdateDocumentName; seq_steps|]. intros u st a st' Hok Hr.
  unfold UpdateDocumentName in Hr. tx_inv.
  match goal with Hu : update_documents _ _ _ = _ |- _ => apply update_documents_alter in Hu as [-> _] end.
  by apply kept_pointers_event.
Qed.

Lemma UpdateDocumentStatus_event tenant id cur next stamp :
  tx_event (UpdateDocumentStatus tenant id cur next stamp).
Proof.
  apply tx_event_intro; [unfold UpdateDocumentStatus; seq_steps|]. intros u st a st' Hok Hr.
  unfold UpdateDocumentStatus in Hr. tx_inv.
  match goal with Hu : update_documents _ _ _ = _ |- _ => apply update_documents_alter in Hu as [-> _] end.
  by apply kept_pointers_event.
Qed.

Lemma WriteSnapshot_event tenant doc s : tx_event (WriteSnapshot tenant doc s).
Proof.
  apply tx_event_intro; [unfold WriteSnapshot; seq_steps|]. intros u st a st' Hok Hr.
  unfold WriteSnapshot in Hr. tx_inv.
  match goal with Hu : update_documents _ _ _ = _ |- _ => apply update_documents_alter in Hu as [-> _] end.
  by apply kept_pointers_event.
Qed.

(** An update of the row just added, by its id. *)
Lemma alter_last {R} (id : R -> string) k upd l (x : R) :
  id x = k -> k ∉ id <$> l -> alter_rows (fun r => str_eqb (id r) k) upd (l ++ [x]) = l ++ [upd x].
Proof.
  intros <- Hx. unfold alter_rows. rewrite map_app. simpl. rewrite str_eqb_refl. f_equal.
  induction l as [|y l IH]; [done|]. simpl. rewrite IH by set_solver.
  destruct (str_eqb (id y) (id x)) eqn:E; [|done]. bool_to_prop. destruct Hx. rewrite <- E. by left.
Qed.

Lemma CreateDocument_event d hash : tx_event (EditorRepo.CreateDocument d hash).
Proof.
  apply tx_event_intro; [unfold EditorRepo.CreateDocument, insert_new_document; seq_steps|].
  intros u st a st' Hok Hr. unfold EditorRepo.CreateDocument, insert_new_document in Hr. tx_inv.
  repeat match goal with
  | Hi : insert_document _ _ = _ |- _ => apply insert_document_ok in Hi as (-> & Hfd & Hcd)
  | Hi : insert_session _ _ = _ |- _ => apply insert_session_ok in Hi as (-> & Hfs & _)
  | Hi : insert_revision _ _ = _ |- _ => apply insert_revision_ok in Hi as (-> & Hfr & _)
  | Hu : update_sessions _ _ _ = _ |- _ => apply update_sessions_alter in Hu as [-> _]
  | Hu : update_documents _ _ _ = _ |- _ => apply update_documents_alter in Hu as [-> _]
  end. simpl in *.
  rewrite (alter_last se_ID (dw_uuid u 1)), (alter_last dr_id (dw_uuid u 0)) by done.
  apply (ev_created st (mkDocumentRow _ _ _ _ _ _ _ _ _ _ _ _ _) (mkSession _ _ _ _ _ _ _ _) (mkRevision _ _ _ _ _ _ _ _ _));
    simpl; try done; apply dw_canonical.
Qed.

(** ** Sessions *)

Lemma alter_rows_ext {R} (cond cond' : R -> bool) upd l :
  (forall r, r ∈ l -> cond r = cond' r) -> alter_rows cond upd l = alter_rows cond' upd l.
Proof.
  intros Hc. unfold alter_rows. apply list_fmap_ext. intros i r Hr. rewrite Hc; [done|].
  by eapply list_elem_of_lookup_2.
Qed.

Lemma HeartbeatSession_event sess user : tx_event (EditorRepo.HeartbeatSession sess user).
Proof.
  apply tx_event_intro; [unfold EditorRepo.HeartbeatSession; seq_steps|]. intros u st a st' Hok Hr.
  unfold EditorRepo.HeartbeatSession in Hr. tx_inv.
  match goal with Hu : update_sessions _ _ _ = _ |- _ => apply update_sessions_alter in Hu as [-> _] end.
  apply ev_extended. intros s _. rewrite !andb_true_iff. unfold session_is_active. rewrite bool_decide_eq_true. tauto.
Qed.

(** With one row or more closed, the document that points to the session points
    into the closed ones. *)
Lemma points_to_closed st id cond d :
  (forall s, cond s = true -> se_ID s = id) ->
  Z.of_nat (bcount cond (es_sessions st)) <> 0 ->
  points_to_session id d = points_into (bfilter cond (es_sessions st)) d.
Proof.
  intros Hid Hn. apply Bool.eq_iff_eq_true. rewrite points_into_spec. unfold points_to_session, opt_eqb.
  rewrite bool_decide_eq_true. split.
  - intros Hd. destruct (bcount_exists cond (es_sessions st)) as (s & Hs & Hc); [lia|]. exists s.
    by rewrite (Hid _ Hc).
  - intros (s & Hs & Hc & ->). by rewrite (Hid _ Hc).
Qed.

Lemma close_session_event id status cond :
  status <> SessionActive -> tx_event (close_session id status cond).
Proof.
  intros Hst. apply tx_event_intro; [unfold close_session; seq_steps|]. intros u st a st' Hok Hr.
  unfold close_session in Hr. tx_inv.
  repeat match goal with
  | Hu : update_sessions _ _ _ = _ |- _ => apply update_sessions_alter in Hu as [-> ->]
  | Hu : update_documents _ _ _ = _ |- _ => apply update_documents_alter in Hu as [-> _]
  end. simpl.
  match goal with |- context [alter_rows ?c (set_se_Status _ _)] => set (closing := c) in * end.
  match goal with |- context [points_to_session ?i] => rename i into x end.
  assert (forall s, closing s = true -> se_ID s = x) as Hid.
  { intros s. unfold closing. rewrite !andb_true_iff, str_eqb_true. tauto. }
  rewrite (alter_rows_ext (points_to_session x) (points_into (bfilter closing (es_sessions st)))).
  - apply (ev_closed _ closing status (fun _ => Some (dw_now u))); [|done].
    intros s _. unfold closing, session_is_active. rewrite !andb_true_iff, bool_decide_eq_true. tauto.
  - intros d _. apply points_to_closed; [done|by apply Z.eqb_neq].
Qed.

Lemma ExpireStaleSessions_event now : tx_event (ExpireStaleSessions now).
Proof.
  apply tx_event_intro; [unfold ExpireStaleSessions; seq_steps|]. intros u st a st' Hok Hr.
  unfold ExpireStaleSessions in Hr. tx_inv.
  repeat match goal with
  | Hu : update_sessions _ _ _ = _ |- _ => apply update_sessions_alter in Hu as [-> ->]
  | Hu : update_documents _ _ _ = _ |- _ => apply update_documents_alter in Hu as [-> _]
  end. simpl.
  apply (ev_closed _ (is_stale now) SessionExpired se_ReleasedAt); [|done].
  intros s _. unfold is_stale, session_is_active. rewrite andb_true_iff, bool_decide_eq_true. tauto.
Qed.

Lemma select_one_some {R} (p : R -> bool) l x : select_one p l = Some x -> x ∈ l /\ p x = true.
Proof.
  unfold select_one. destruct (bfilter p l) as [|y k] eqn:E; [done|]. intros [= ->].
  assert (x ∈ bfilter p l) as Hx by (rewrite E; left). apply elem_of_bfilter in Hx. tauto.
Qed.

Lemma select_one_none {R} (p : R -> bool) l : select_one p l = None -> forall x, x ∈ l -> p x = false.
Proof.
  unfold select_one. destruct (bfilter p l) as [|y k] eqn:E; [|done]. intros _ x Hx.
  destruct (p x) eqn:Hp; [|done]. assert (x ∈ bfilter p l) as Hin by (by apply elem_of_bfilter).
  rewrite E in Hin. by apply not_elem_of_nil in Hin.
Qed.

Lemma document_is_true id tenant d : document_is id tenant d = true <-> dr_id d = id /\ dr_tenant_id d = tenant.
Proof. unfold document_is. by rewrite andb_true_iff, !str_eqb_true. Qed.

Lemma session_is_active_true s : session_is_active s = true <-> se_Status s = SessionActive.
Proof. unfold session_is_active. apply bool_decide_eq_true. Qed.

Lemma AcquireSession_event tenant doc user : tx_event (EditorRepo.AcquireSession tenant doc user).
Proof.
  apply tx_event_intro; [unfold EditorRepo.AcquireSession; seq_steps|]. intros u st a st' Hok Hr.
  unfold EditorRepo.AcquireSession in Hr. tx_inv. destruct (select_one _ _) as [held|] eqn:Hs.
  - destruct (str_eqb (se_UserID held) user); tx_inv; [|by apply quiet_event].
    match goal with Hu : update_sessions _ _ _ = _ |- _ => apply update_sessions_alter in Hu as [-> _] end.
    apply select_one_some in Hs as [Hs Hc]. rewrite andb_true_iff, session_is_active_true in Hc.
    apply ev_extended. intros s' Hs' E. bool_to_prop.
    replace s' with held; [tauto|]. by apply (NoDup_fmap_inj se_ID _ _ _ (ok_session_ids _ Hok)).
  - tx_inv. match goal with Hd : select_one _ _ = Some ?x |- _ => rename x into d; apply select_one_some in Hd as [Hd Hid] end.
    apply document_is_true in Hid as [<- _]. destruct (dr_current_revision_id d) as [rev|] eqn:Hrev; tx_inv.
    match goal with Hu : update_documents _ _ _ = _ |- _ => apply update_documents_alter in Hu as [-> _] end.
    match goal with Hi : insert_session _ _ = _ |- _ => apply insert_session_ok in Hi as (-> & Hf & Hfree) end.
    simpl in *. apply (ev_opened st d (mkSession (dw_uuid u 0) (dr_id d) user (dw_now u) (dw_now u + five_minutes)
                          None rev SessionActive)); auto. apply dw_canonical.
Qed.

(** ** Autosave *)

(** An active session, its document and what it acknowledged are rows. *)
Lemma active_session st s :
  edit_ok st -> s ∈ es_sessions st -> se_Status s = SessionActive ->
  canonical (se_DocumentID s) /\ canonical (se_LastAcknowledgedRevisionID s).
Proof.
  intros Hok Hs Ha. destruct (ok_canonical _ Hok) as (C1 & _ & C3). rewrite Forall_forall in C1. rewrite Forall_forall in C3.
  destruct (elem_of_map_inv _ _ _ (session_document _ _ Hok Hs)) as (d & Hd & E). split.
  - rewrite E. by apply C1.
  - pose proof (ok_acknowledged _ Hok d s Hd Hs E Ha) as Hack.
    destruct (head_revision _ _ _ Hok Hd Hack) as (r & Hr & <- & _). by apply C3.
Qed.

Lemma canonical_param s c : canonical s -> uuid_param s = inr c -> c = s.
Proof. unfold canonical. intros Hs Hc%uuid_param_ok. congruence. Qed.

Lemma PresignReserve_event sess user doc base hash key expires :
  tx_event (PresignReserve sess user doc base hash key expires).
Proof.
  apply tx_event_intro; [unfold PresignReserve; seq_steps|]. intros u st a st' Hok Hr.
  unfold PresignReserve in Hr. tx_inv. destruct (select_one _ (es_pending st)) as [p|]; tx_inv; [by apply quiet_event|].
  match goal with Hi : insert_pending _ _ = _ |- _ => apply insert_pending_ok in Hi as (-> & Hf) end.
  match goal with Hs : select_one _ _ = Some ?x |- _ => rename x into s; apply select_one_some in Hs as [Hin Hid] end.
  bool_to_prop. subst. match goal with Ha : session_is_active s = true |- _ => pose proof (proj1 (session_is_active_true s) Ha) as Ha' end.
  destruct (active_session st s Hok Hin Ha') as [Cd Cb].
  repeat match goal with Hp : uuid_param _ = inr _ |- _ => apply canonical_param in Hp; [subst|done] end.
  by eapply ev_reserved.
Qed.

Lemma pending_by_id_ok pid u s p s' :
  pending_by_id pid u s = (inr p, s') ->
  s' = s /\ p ∈ es_pending (ts_store s) /\ uuid_in pid = Some (pu_ID p).
Proof.
  unfold pending_by_id. intros Hr. tx_inv. match goal with Hp : select_one _ _ = _ |- _ => apply select_one_some in Hp as [Hin Hid] end.
  bool_to_prop. subst. split_and!; try done. by apply uuid_param_ok.
Qed.

Lemma update_head_ok doc rev form now u s x s' :
  update_head doc rev form now u s = (inr x, s') ->
  exists c f, uuid_in doc = Some c
  /\ s' = mkTxState (ts_uuids s) (with_documents
            (alter_rows (fun r => str_eqb (dr_id r) c) (set_head rev f now) (es_documents (ts_store s))) (ts_store s)).
Proof.
  unfold update_head. intros Hr. tx_inv.
  match goal with Hu : update_documents _ _ _ = _ |- _ => apply update_documents_alter in Hu as [-> _] end.
  match goal with Hp : uuid_param _ = _ |- _ => apply uuid_param_ok in Hp end. eauto.
Qed.

Lemma update_ack_ok sess rev u s x s' :
  update_ack sess rev u s = (inr x, s') ->
  exists c, uuid_in sess = Some c
  /\ s' = mkTxState (ts_uuids s) (with_sessions
            (alter_rows (fun r => str_eqb (se_ID r) c) (set_se_Ack rev) (es_sessions (ts_store s))) (ts_store s)).
Proof.
  unfold update_ack. intros Hr. tx_inv.
  match goal with Hu : update_sessions _ _ _ = _ |- _ => apply update_sessions_alter in Hu as [-> _] end.
  match goal with Hp : uuid_param _ = _ |- _ => apply uuid_param_ok in Hp end. eauto.
Qed.

(** The session and the document of an upload are rows. *)
Lemma upload_canonical st p :
  edit_ok st -> p ∈ es_pending st -> canonical (pu_SessionID p) /\ canonical (pu_DocumentID p).
Proof.
  intros Hok Hp. destruct (ok_pending _ Hok _ Hp) as [(s & Hs & <- & <-) _].
  destruct (ok_canonical _ Hok) as (C1 & C2 & _). rewrite Forall_forall in C1. rewrite Forall_forall in C2.
  split; [by apply C2|]. destruct (elem_of_map_inv _ _ _ (session_document _ _ Hok Hs)) as (d & Hd & ->). by apply C1.
Qed.

(** What a successful commit found and did: a replay returns the revision of the
    content, a first commit adds it. *)
Definition replay_of (doc : string) (p : PendingUpload) (res : CommitResult) (st st' : EditStore) : Prop :=
  pu_ConsumedAt p <> None /\ st' = st
  /\ exists r, r ∈ es_revisions st /\ rv_DocumentID r = doc /\ rv_ContentHash r = pu_ContentHash p
  /\ res = mkCommitResult (rv_ID r) (rv_RevisionNum r) true.

Definition commit_of (clock : Time) (user hash : string) (p : PendingUpload) (res : CommitResult)
    (st st' : EditStore) : Prop :=
  pu_ConsumedAt p = None /\ clock <= pu_ExpiresAt p /\ hash = pu_ContentHash p
  /\ exists s r form now, s ∈ es_sessions st /\ se_Status s = SessionActive /\ se_ID s = pu_SessionID p
  /\ se_UserID s = user /\ se_LastAcknowledgedRevisionID s = pu_BaseRevisionID p
  /\ (rv_ID r ∉ rv_ID <$> es_revisions st) /\ canonical (rv_ID r)
  /\ rv_DocumentID r = pu_DocumentID p /\ rv_ParentRevisionID r = Some (pu_BaseRevisionID p)
  /\ rv_ContentHash r = pu_ContentHash p /\ rv_StorageKey r = pu_StorageKey p
  /\ rv_RevisionNum r = es_revision_seq st + 1
  /\ (forall r', r' ∈ es_revisions st -> rv_DocumentID r' = rv_DocumentID r ->
        rv_ContentHash r' <> rv_ContentHash r)
  /\ res = mkCommitResult (rv_ID r) (rv_RevisionNum r) false
  /\ st' = committed p s r form now st.

Lemma CommitUpload_ok clock sess user doc pid hash form u st res st' :
  edit_ok st -> run_tx (CommitUpload clock sess user doc pid hash form) u st = (inr res, st') ->
  exists p, p ∈ es_pending st /\ uuid_in pid = Some (pu_ID p) /\ pu_SessionID p = sess /\ pu_DocumentID p = doc
  /\ (replay_of doc p res st st' \/ commit_of clock user hash p res st st').
Proof.
  intros Hok Hr. unfold CommitUpload in Hr. tx_inv.
  match goal with Hp : pending_by_id _ _ _ = (inr ?x, _) |- _ => rename x into p; apply pending_by_id_ok in Hp as (-> & Hpin & Hid) end.
  bool_to_prop. subst. destruct (upload_canonical st p Hok Hpin) as [Cs Cd].
  exists p. split_and!; try done. destruct (pu_ConsumedAt p) eqn:Hc; tx_inv.
  - left. split; [congruence|]. split; [done|].
    match goal with Hs : select_one _ _ = Some ?x |- _ => rename x into r; apply select_one_some in Hs as [Hin Hr] end.
    unfold same_content in Hr. bool_to_prop. apply canonical_param in H2; [subst|done]. by exists r.
  - right. split; [done|]. match goal with Hx : (_ <? _) = false |- _ => apply Z.ltb_ge in Hx end.
    repeat match goal with Hp : uuid_param _ = inr _ |- _ => apply canonical_param in Hp; [subst|done] end.
    match goal with Hs : select_one _ _ = Some ?x |- _ => rename x into s; apply select_one_some in Hs as [Hin Hsid] end.
    match goal with Hi : insert_revision _ _ = _ |- _ => apply insert_revision_ok in Hi as (-> & Hf & Hnew) end.
    match goal with Hi : update_head _ _ _ _ _ _ = _ |- _ => apply update_head_ok in Hi as (cd & f & Hcd & ->) end.
    match goal with Hi : update_ack _ _ _ _ = _ |- _ => apply update_ack_ok in Hi as (cs & Hcs & ->) end.
    bool_to_prop. unfold canonical in *. simplify_eq. simpl in *.
    destruct (update_where _ _ _) as [e|[n rows]] eqn:Hu; [done|].
    apply (update_where_alter _ _ (set_pu_ConsumedAt (dw_now u))) in Hu as (-> & _ & _); [|by intros q q' [= <-]].
    match goal with Heq : inr _ = inr _ |- _ => injection Heq as <- <- end.
    match goal with Ha : session_is_active s = true |- _ => apply session_is_active_true in Ha end.
    split_and!; [lia|done|]. eexists s, (mkRevision _ _ _ _ _ _ _ _ _), f, (dw_now u). simpl.
    split_and!; try done; [apply dw_canonical|]. unfold committed. simpl. by rewrite Hsid.
Qed.

Lemma commit_of_event clock user hash p res st st' :
  p ∈ es_pending st -> commit_of clock user hash p res st st' -> edit_event st st'.
Proof.
  intros Hp (Hc & _ & _ & s & r & form & now & Hs & Ha & Hid & _ & Hack & Hf & Cr & Hd & Hpar & Hh & _ & Hn & Hnew & _ & ->).
  by apply ev_committed.
Qed.

Lemma CommitUpload_event clock sess user doc pid hash form :
  tx_event (CommitUpload clock sess user doc pid hash form).
Proof.
  apply tx_event_intro; [unfold CommitUpload, pending_by_id, update_head, update_ack; seq_steps|].
  intros u st a st' Hok Hr. destruct (CommitUpload_ok _ _ _ _ _ _ _ _ _ _ _ Hok Hr) as (p & Hp & _ & _ & _ & [Hc|Hc]).
  - destruct Hc as (_ & -> & _). by apply quiet_event.
  - by eapply commit_of_event.
Qed.

Lemma DeleteExpiredPending_event t : tx_event (DeleteExpiredPending t).
Proof.
  apply tx_event_intro; [unfold DeleteExpiredPending; seq_steps|]. intros u st a st' Hok Hr.
  unfold DeleteExpiredPending in Hr. tx_inv. match goal with Heq : inr _ = inr _ |- _ => injection Heq as <- <- end.
  apply ev_swept. intros p _ [_ Hc]%andb_true_iff. by destruct (pu_ConsumedAt p).
Qed.

(** ** Checkpoints *)

Lemma CreateCheckpoint_event doc actor label : tx_event (EditorRepo.CreateCheckpoint doc actor label).
Proof.
  apply tx_event_intro; [unfold EditorRepo.CreateCheckpoint; seq_steps|]. intros u st a st' Hok Hr.
  unfold EditorRepo.CreateCheckpoint in Hr. tx_inv.
  match goal with Hs : select_one _ _ = Some ?x |- _ => rename x into d; apply select_one_some in Hs as [Hin Hid] end.
  match goal with Hi : insert_checkpoint _ _ = _ |- _ => apply insert_checkpoint_ok in Hi as -> end.
  bool_to_prop. subst. destruct (dr_current_revision_id d) as [rev|] eqn:Hrev; [|done]. simplify_eq.
  match goal with Hv : int4_param _ = inr _ |- _ => unfold int4_param in Hv; destruct (_ || _) eqn:Hb in Hv; [done|]; injection Hv as <- end.
  eapply ev_checkpointed; try done. simpl. apply orb_false_iff in Hb as [_ Hb]. by apply Z.ltb_ge.
Qed.

(** The revision of a content is the only one. *)
Lemma select_content st r :
  edit_ok st -> r ∈ es_revisions st ->
  select_one (same_content (rv_DocumentID r) (rv_ContentHash r)) (es_revisions st) = Some r.
Proof.
  intros Hok Hr. destruct (select_one _ _) as [r'|] eqn:Hs.
  - apply select_one_some in Hs as [Hin Hc]. unfold same_content in Hc. rewrite andb_true_iff, !str_eqb_true in Hc.
    f_equal. apply (NoDup_fmap_inj _ _ _ _ (ok_contents _ Hok)); [done|done|]. destruct Hc. congruence.
  - eapply select_one_none in Hs; [|exact Hr]. unfold same_content in Hs. by rewrite !str_eqb_refl in Hs.
Qed.

Lemma checkpoint_revision_ok st doc n r :
  edit_ok st -> checkpoint_revision doc n st = Some r -> r ∈ es_revisions st /\ rv_DocumentID r = doc.
Proof.
  unfold checkpoint_revision. intros Hok Hr. destruct (select_one _ (es_checkpoints st)) as [c|] eqn:Hc; [|done].
  simpl in Hr. apply select_one_some in Hc as [Hcin Hcd]. rewrite andb_true_iff, str_eqb_true in Hcd.
  apply select_one_some in Hr as [Hrin Hid]. rewrite str_eqb_true in Hid. split; [done|].
  destruct (ok_checkpoint _ Hok _ Hcin) as (r' & Hr' & Hid' & Hdoc).
  replace r with r'; [by destruct Hcd; congruence|].
  apply (NoDup_fmap_inj _ _ _ _ (ok_revision_ids _ Hok)); [done|done|congruence].
Qed.

(** Every checkpoint is of a revision of its document, so the insert of a
    restoration always meets the content it restores. *)
Lemma RestoreCheckpoint_ok doc actor n u st res st' :
  edit_ok st -> run_tx (EditorRepo.RestoreCheckpoint doc actor n) u st = (inr res, st') ->
  rr_Idempotent res = true /\ rr_NewRevisionID res = rr_CheckpointRevID res
  /\ st' = with_seq (es_revision_seq st + 1) st.
Proof.
  intros Hok Hr. unfold EditorRepo.RestoreCheckpoint, upsert_revision in Hr. tx_inv.
  match goal with Hs : checkpoint_revision _ _ _ = Some ?x |- _ => rename x into cp; destruct (checkpoint_revision_ok _ _ _ _ Hok Hs) as [Hin <-] end.
  rewrite (select_content st cp Hok Hin) in *. tx_inv. simplify_eq. by tx_inv.
Qed.

Lemma RestoreCheckpoint_event doc actor n : tx_event (EditorRepo.RestoreCheckpoint doc actor n).
Proof.
  apply tx_event_intro; [unfold EditorRepo.RestoreCheckpoint, upsert_revision, update_head, update_ack; seq_steps|].
  intros u st a st' Hok Hr. destruct (RestoreCheckpoint_ok _ _ _ _ _ _ _ Hok Hr) as (_ & _ & ->).
  apply quiet_event; simpl; try done. lia.
Qed.

(** ** Comments and queries *)

Lemma comments_event st rows : edit_event st (with_comments rows st).
Proof. by apply quiet_event. Qed.

Lemma CreateComment_event tenant doc author inp : tx_event (CreateComment tenant doc author inp).
Proof.
  apply tx_event_intro; [unfold CreateComment; seq_steps|]. intros u st a st' Hok Hr.
  unfold CreateComment in Hr. tx_inv.
  match goal with Hi : insert_comment _ _ = _ |- _ => apply insert_comment_ok in Hi as -> end.
  apply comments_event.
Qed.

Lemma UpdateComment_event clock tenant doc lib user inp :
  tx_event (UpdateComment clock tenant doc lib user inp).
Proof.
  apply tx_event_intro; [unfold UpdateComment; seq_steps|]. intros u st a st' Hok Hr.
  unfold UpdateComment in Hr. tx_inv. destruct (update_where _ _ _) as [e|[n rows]]; [done|].
  match goal with Heq : inr _ = inr _ |- _ => injection Heq as <- <- end. apply comments_event.
Qed.

Lemma DeleteComment_event tenant doc lib : tx_event (DeleteComment tenant doc lib).
Proof.
  apply tx_event_intro; [unfold DeleteComment; seq_steps|]. intros u st a st' Hok Hr.
  unfold DeleteComment in Hr. tx_inv.
  match goal with Heq : inr _ = inr _ |- _ => injection Heq as <- <- end. apply comments_event.
Qed.

(** Queries leave the tables alone. *)
Definition reads {A} (m : TX A) : Prop := forall u s r s', m u s = (r, s') -> ts_store s' = ts_store s.

Lemma reads_bind {A B} (m : TX A) (f : A -> TX B) : reads m -> (forall a, reads (f a)) -> reads (m ≫= f).
Proof.
  intros Hm Hf u s r s'. unfold mbind, TX_bind. destruct (m u s) as [[e|a] s1] eqn:Hs.
  - intros [= <- <-]. by eapply Hm.
  - intros Hr. etrans; [by eapply Hf|by eapply Hm].
Qed.

Lemma reads_pure {A} (m : TX A) : (forall u s, ts_store (m u s).2 = ts_store s) -> reads m.
Proof. intros Hm u s r s' Hr. specialize (Hm u s). by rewrite Hr in Hm. Qed.

Lemma reads_tmap_err {A} f (m : TX A) : reads m -> reads (tmap_err f m).
Proof.
  intros Hm u s r s'. unfold tmap_err. destruct (m u s) as [[e|a] s1] eqn:Hs; intros [= <- <-]; by eapply Hm.
Qed.

Lemma reads_event {A} (m : TX A) : reads m -> tx_event m.
Proof.
  intros Hm u st r st' Hok. unfold run_tx. destruct (m u (mkTxState 0 st)) as [[e|a] s] eqn:Hs;
    apply Hm in Hs; simpl in Hs; rewrite Hs; intros [= _ <-]; by apply quiet_event.
Qed.
End methods.
