(* ===== verification/EditorRefinement.v ===== *)
(** * Editor: the services implement the specification

    Every operation of every request is an event of [EditorSpec], so a system
    that serves requests in any interleaving is a run of events. *)
From S2P Require Import Prelude Tables Programs ProgramLogic ApprovalDomain Database Schema Sha256 ContentHash EditorDomain EditorTables EditorRepo Editor EditorRuns EditorLogic EditorSpec EditorInvariant EditorSafety.
From stdpp Require Import relations.
Import DocStates.
Local Open Scope Z_scope.

Section refinement.
Context `{UuidText} `{JsonbText} `{SignedURL} `{Collaborators} `{!UuidLaws}.

Abbreviation EM := (PM EditOp).

Definition op_ok {B} (o : EditOp B) : Prop :=
  match o with Transaction m => forall t, tx_event (m t) | _ => True end.

Fixpoint prog_ok {A} (p : Prog EditOp A) : Prop :=
  match p with Ret _ => True | Vis o k => op_ok o /\ forall b, prog_ok (k b) end.

Lemma run_op_event {B} (o : EditOp B) t u st r st' :
  op_ok o -> edit_ok st -> run_op o t u st = (r, st') -> edit_event st st'.
Proof.
  assert (forall st x, edit_event st (with_objects x st)) as Hobj by (intros; by apply quiet_event).
  assert (forall st, edit_event st st) as Hid by (intros; by apply quiet_event).
  destruct o; simpl; intros Ho Hok Hr.
  - by eapply Ho.
  - by injection Hr as <- <-.
  - destruct (f t) as [e|[hash content]]; injection Hr as <- <-; [done|apply Hobj].
  - by injection Hr as <- <-.
  - by injection Hr as <- <-.
  - by injection Hr as <- <-.
  - unfold changed, AdoptTempObject in Hr. destruct (_ !! _); injection Hr as <- <-; [apply Hobj|done].
  - injection Hr as <- <-. apply Hobj.
  - injection Hr as <- <-. by apply quiet_event.
  - by injection Hr as <- <-.
  - by injection Hr as <- <-.
Qed.

Lemma answers_event {B} (o : EditOp B) st b st' :
  op_ok o -> edit_ok st -> answers o st b st' -> edit_event st st'.
Proof.
  intros Ho Hok [t u r st1 Hr|e _|e t u r st1 _ Hr]; [|by apply quiet_event|]; by eapply (run_op_event o t u).
Qed.

Lemma outside_event st st' : outside st st' -> edit_event st st'.
Proof.
  intros [key content st1|docs st1 HF]; [by apply quiet_event|]. apply ev_other; try done.
  eapply Forall2_impl; [exact HF|]. intros d d' E. unfold same_editor_columns, editor_columns in E.
  injection E as E1 E2 _ _ _ E3 E4 E5 E6 E7. unfold same_pointers, document_key. by rewrite E1, E2, E3, E4, E5, E6, E7.
Qed.

(** ** Programs made of such operations *)

Lemma prog_ok_bind {A B} (p : Prog EditOp A) (f : A -> Prog EditOp B) :
  prog_ok p -> (forall a, prog_ok (f a)) -> prog_ok (prog_bind f p).
Proof.
  induction p as [a|C o k IH]; simpl; [auto|]. intros [Ho Hk] Hf. split; [done|]. intros b. by apply IH.
Qed.

Lemma prog_ok_mbind {A B} (m : EM A) (f : A -> EM B) :
  prog_ok m -> (forall a, prog_ok (f a)) -> prog_ok (mbind f m).
Proof. intros Hm Hf. apply prog_ok_bind; [done|]. intros [e|a]; [done|apply Hf]. Qed.

Lemma prog_ok_map_err {A} f (m : EM A) : prog_ok m -> prog_ok (pmap_err f m).
Proof. intros Hm. apply prog_ok_bind; [done|]. by intros [e|a]. Qed.

Lemma prog_ok_tx {A} (m : TX A) : tx_event m -> prog_ok (tx m).
Proof. intros Hm. split; [intros _; exact Hm|by intros [e|a]]. Qed.
End refinement.

Ltac reads_steps :=
  repeat first
    [ apply reads_bind; [|intros] | apply reads_tmap_err | apply reads_pure; done
    | match goal with |- reads (twhen ?b _) => destruct b end ].

Section queries.
Context `{UuidText} `{JsonbText}.

Lemma GetDocument_event tenant id : tx_event (EditorRepo.GetDocument tenant id).
Proof. apply reads_event. unfold EditorRepo.GetDocument. reads_steps. Qed.

Lemma ListDocuments_event tenant : tx_event (EditorRepo.ListDocuments tenant).
Proof. apply reads_event. unfold EditorRepo.ListDocuments. reads_steps. Qed.

Lemma ListDocumentsForUser_event tenant user : tx_event (EditorRepo.ListDocumentsForUser tenant user).
Proof. apply reads_event. unfold EditorRepo.ListDocumentsForUser. reads_steps. Qed.

Lemma IsDocumentOwner_event tenant doc user : tx_event (EditorRepo.IsDocumentOwner tenant doc user).
Proof. apply reads_event. unfold EditorRepo.IsDocumentOwner. reads_steps. Qed.

Lemma GetPendingForCommit_event pid : tx_event (GetPendingForCommit pid).
Proof. apply reads_event. unfold GetPendingForCommit, pending_by_id. reads_steps. Qed.

Lemma ListCheckpoints_event doc : tx_event (EditorRepo.ListCheckpoints doc).
Proof. apply reads_event. unfold EditorRepo.ListCheckpoints. reads_steps. Qed.

Lemma GetRevision_event doc rev : tx_event (GetRevision doc rev).
Proof. apply reads_event. unfold GetRevision. reads_steps. Qed.

Lemma ListComments_event tenant doc : tx_event (ListComments tenant doc).
Proof. apply reads_event. unfold ListComments. reads_steps. Qed.

Lemma ReleaseSession_event sess user : tx_event (EditorRepo.ReleaseSession sess user).
Proof. by apply close_session_event. Qed.

Lemma ForceReleaseSession_event sess : tx_event (EditorRepo.ForceReleaseSession sess).
Proof. by apply close_session_event. Qed.
End queries.

Create HintDb tx_event discriminated.
Create HintDb prog_ok discriminated.
#[export] Hint Resolve CreateDocument_event SetRevisionStorageKey_event UpdateDocumentName_event
  UpdateDocumentStatus_event WriteSnapshot_event AcquireSession_event HeartbeatSession_event
  ReleaseSession_event ForceReleaseSession_event ExpireStaleSessions_event PresignReserve_event
  CommitUpload_event DeleteExpiredPending_event CreateCheckpoint_event RestoreCheckpoint_event
  CreateComment_event UpdateComment_event DeleteComment_event GetDocument_event ListDocuments_event
  ListDocumentsForUser_event IsDocumentOwner_event GetPendingForCommit_event ListCheckpoints_event
  GetRevision_event ListComments_event : tx_event.

Section requests_ok.
Context `{UuidText} `{JsonbText} `{SignedURL} `{Collaborators} `{!UuidLaws}.

Abbreviation EM := (PM EditOp).

Ltac prog_step :=
  first
    [ exact I
    | solve [auto with prog_ok nocore]
    | apply prog_ok_mbind; [|intros] | apply prog_ok_map_err
    | apply prog_ok_tx; solve [auto with tx_event]
    | match goal with |- prog_ok (call (Transaction _)) => split; [intros ?; cbv beta; solve [auto with tx_event]|by intros [?|?]] end
    | match goal with |- prog_ok (call _) => by split; [|intros [?|?]] end
    | match goal with |- prog_ok (attempt _) => by split; [|intros [?|?]] end
    | match goal with |- prog_ok (pguard ?b _) => by destruct b end
    | match goal with |- prog_ok (plift ?r) => by destruct r end
    | match goal with |- prog_ok (unless ?b _) => unfold unless; destruct b end
    | match goal with |- prog_ok (match ?x with _ => _ end) => destruct x end
    | progress cbv zeta ].
Ltac prog_steps := repeat prog_step.

Lemma audit_ok tenant actor action doc : prog_ok (audit tenant actor action doc).
Proof. unfold audit. prog_steps. Qed.
Hint Resolve audit_ok : prog_ok.

Lemma or_cleanup_ok {A} key (p : EM A) : prog_ok p -> prog_ok (or_cleanup key p).
Proof. intros Hp. apply prog_ok_bind; [done|]. intros [e|a]; prog_steps. Qed.

Lemma finish_create_ok cmd template key ids : prog_ok (finish_create cmd template key ids).
Proof. unfold finish_create, SnapshotFromTemplate. prog_steps. Qed.
Hint Resolve finish_create_ok : prog_ok.

Lemma CreateDocument_ok cmd : prog_ok (CreateDocument cmd).
Proof.
  unfold CreateDocument, resolve_template. apply prog_ok_mbind; [prog_steps|]. intros [[[cd template] dk] sk].
  destruct docgen; repeat first [apply or_cleanup_ok | prog_step].
Qed.

Hint Resolve CreateDocument_ok : prog_ok.

Lemma serve_ok c : prog_ok (serve c).
Proof.
  destruct c; cbn [serve]; unfold done_reply, reply; (apply prog_ok_mbind; [|intros; exact I]);
    try apply CreateDocument_ok.
  all: try unfold DuplicateDocument; try unfold GetDocument; try unfold ListDocuments;
    try unfold ListDocumentsForUser; try unfold RenameDocument; try unfold IsDocumentOwner;
    try unfold AcquireSession; try unfold HeartbeatSession; try unfold ReleaseSession;
    try unfold ForceReleaseSession; try unfold PresignAutosave; try unfold CommitAutosave;
    try unfold CreateCheckpoint; try unfold ListCheckpoints; try unfold RestoreCheckpoint;
    try unfold Finalize; try unfold Archive; try unfold SignedRevisionURL;
    try unfold ListDocumentComments; try unfold AddDocumentComment; try unfold UpdateDocumentComment;
    try unfold DeleteDocumentComment; try unfold sweep_sessions; try unfold sweep_pending.
  all: prog_steps.
Qed.

(** ** Runs of the system are runs of events *)

Lemma pool_step_event pool pool' :
  pool_step pool pool' -> edit_ok (pool_store pool) -> Forall prog_ok (pool_threads pool) ->
  edit_event (pool_store pool) (pool_store pool') /\ Forall prog_ok (pool_threads pool').
Proof.
  intros [c ts st|ts st i B o k b st' Hi Ha|ts st st' Ho] Hok Hts; simpl in *.
  - split; [by apply quiet_event|]. apply Forall_app. split; [done|]. apply Forall_singleton, serve_ok.
  - destruct (Forall_lookup_1 _ _ _ _ Hts Hi) as [Hop Hk]. split; [by eapply answers_event|].
    apply Forall_insert; [done|apply Hk].
  - split; [by apply outside_event|done].
Qed.

Lemma pool_events pool pool' :
  rtc pool_step pool pool' -> edit_ok (pool_store pool) -> Forall prog_ok (pool_threads pool) ->
  rtc edit_event (pool_store pool) (pool_store pool').
Proof.
  induction 1 as [pool|pool p1 p2 Hs _ IH]; intros Hok Hts; [done|].
  destruct (pool_step_event _ _ Hs Hok Hts) as [He Hts1]. eapply rtc_l; [exact He|].
  apply IH; [|done]. by eapply edit_event_ok.
Qed.

Lemma interleaved_events st st' : interleaved st st' -> edit_ok st -> rtc edit_event st st'.
Proof. intros [ts Hr] Hok. by apply (pool_events _ _ Hr). Qed.

Lemma events_sound st st' : rtc edit_event st st' -> edit_ok st -> edit_ok st' /\ edit_extends st st'.
Proof.
  induction 1 as [st|st st1 st2 He _ IH]; intros Hok; [split; [done|reflexivity]|].
  destruct (edit_event_sound _ _ He Hok) as [Hok1 Hx]. destruct (IH Hok1) as [? ?]. split; [done|by etrans].
Qed.

Lemma editor_sound st st' : interleaved st st' -> edit_ok st -> edit_ok st' /\ edit_extends st st'.
Proof. intros Hi Hok. apply events_sound; [by apply interleaved_events|done]. Qed.

(** The start: no rows. *)
Definition no_documents : EditStore := mkEditStore [] [] [] [] [] [] 0 ∅ [].

Lemma no_documents_ok : edit_ok no_documents.
Proof.
  split; simpl; try (by apply NoDup_nil_2); try (by constructor); try by intros ? ?%not_elem_of_nil.
  all: by intros ? ? ?%not_elem_of_nil.
Qed.

(** From the start to a state, and on from there with the requests in flight. *)
Lemma from_start ts st : rtc pool_step (mkPool [] no_documents) (mkPool ts st) -> edit_ok st /\ Forall prog_ok ts.
Proof.
  intros Hr. assert (forall pool pool', rtc pool_step pool pool' -> edit_ok (pool_store pool) ->
    Forall prog_ok (pool_threads pool) -> edit_ok (pool_store pool') /\ Forall prog_ok (pool_threads pool')) as Hall.
  { induction 1 as [|pool p1 p2 Hs _ IH]; [done|]. intros Hok Hts. destruct (pool_step_event _ _ Hs Hok Hts) as [He Hts1].
    apply IH; [by eapply edit_event_ok|done]. }
  apply (Hall _ _ Hr); [apply no_documents_ok|done].
Qed.

Lemma later_sound ts st ts' st' :
  rtc pool_step (mkPool [] no_documents) (mkPool ts st) -> rtc pool_step (mkPool ts st) (mkPool ts' st') ->
  edit_ok st /\ edit_ok st' /\ edit_extends st st'.
Proof.
  intros Hst Hr. destruct (from_start _ _ Hst) as [Hok Hts]. split; [done|].
  apply events_sound; [|done]. by apply (pool_events _ _ Hr).
Qed.

Lemma started_ok st : interleaved no_documents st -> edit_ok st.
Proof. intros [ts Hr]. by apply from_start in Hr as [? _]. Qed.

(** ** The protocol of a request among others *)

Definition edit_protocol : Protocol EditStore := mkProtocol edit_extends edit_extends edit_ok.

Lemma wp_prog_ok {A} (p : Prog EditOp A) st : prog_ok p -> wp edit_protocol p (fun _ _ => True) st.
Proof.
  revert st. induction p as [a|B o k IH]; intros st; simpl; [done|]. intros [Ho Hk] st1 _ Hok b st2 Ha.
  destruct (edit_event_sound _ _ (answers_event _ _ _ _ Ho Hok Ha) Hok) as [? ?]. auto.
Qed.

Lemma serve_protocol c st : pr_inv edit_protocol st -> wpe edit_protocol (serve c) (fun _ _ => True) st.
Proof. intros _. apply wpe_true, wp_prog_ok, serve_ok. Qed.

Lemma outside_protocol st st' :
  outside st st' -> pr_inv edit_protocol st -> pr_inv edit_protocol st' /\ pr_guar edit_protocol st st'.
Proof. intros Ho Hok. apply edit_event_sound; [by apply outside_event|done]. Qed.

(** A transaction of a program: it finds a later state that is well formed. *)
Lemma wpe_transaction {A} (m : Time -> TX A) (Q : A -> EditStore -> Prop) st :
  (forall t, tx_event (m t)) ->
  (forall st1 t u a st2, edit_extends st st1 -> edit_ok st1 -> run_tx (m t) u st1 = (inr a, st2) -> Q a st2) ->
  wpe edit_protocol (call (Transaction m)) Q st.
Proof.
  intros Hm HQ. apply wpe_call; [tc_solve|]. intros st1 t u r st2 Hr Hok Hs.
  change (step (Transaction m) t u st1) with (run_tx (m t) u st1) in Hs.
  destruct (edit_event_sound _ _ (Hm t _ _ _ _ Hok Hs) Hok) as [? ?]. split_and!; [done..|].
  destruct r as [e|a]; [done|]. by eapply HQ.
Qed.

(** An operation of which nothing is kept. *)
Lemma wpe_other {B} (o : EditOp B) (Q : B -> EditStore -> Prop) st :
  op_ok o -> (forall b st', Q b st') -> wpe edit_protocol (call o) Q st.
Proof.
  intros Ho HQ. apply wpe_call; [tc_solve|]. intros st1 t u r st2 Hr Hok Hs.
  destruct (edit_event_sound _ _ (run_op_event o t u _ _ _ Ho Hok Hs) Hok) as [? ?]. split_and!; [done..|].
  by destruct r.
Qed.
End requests_ok.
