(* ===== verification/EditorContract.v ===== *)
(** * Editor: the contract

    What the editor promises its users: in any interleaving of requests, ticks
    of the sweepers, crashes and work of the other modules. *)
From S2P Require Import Prelude Tables Programs ProgramLogic ApprovalDomain Database Schema Sha256 ContentHash EditorDomain EditorTables EditorRepo Editor EditorRuns EditorLogic EditorSpec EditorInvariant EditorSafety EditorRefinement.
From stdpp Require Import relations.
Import DocStates.
Local Open Scope Z_scope.

Section contract.
Context `{UuidText} `{JsonbText} `{SignedURL} `{Collaborators} `{!UuidLaws}.


Lemma revisions_of_sublist doc st : sublist (revisions_of doc st) (es_revisions st).
Proof. apply sublist_filter. Qed.

Lemma sorted_sublist l l' : sublist l l' -> StronglySorted Z.lt l' -> StronglySorted Z.lt l.
Proof.
  induction 1 as [|x l l' Hs IH|x l l' Hs IH]; [done| |]; intros [Hl Hx]%StronglySorted_inv; [|auto].
  constructor; [auto|]. apply Forall_forall. intros y Hy. rewrite Forall_forall in Hx. apply Hx.
  eapply elem_of_submseteq; [exact Hy|by apply sublist_submseteq].
Qed.


(** C28 Nothing the editor recorded is lost or rewritten while requests are
    served: revisions stay, with the storage key filled in at most once,
    checkpoints stay, a closed session stays as it was closed, and a document
    keeps its tenant, its author and its controlled document. *)
Theorem recorded_work_is_kept ts st ts' st' :
  rtc pool_step (mkPool [] no_documents) (mkPool ts st) -> rtc pool_step (mkPool ts st) (mkPool ts' st') ->
  (exists kept new, es_revisions st' = kept ++ new
     /\ Forall2 (fun r r' => r' = r \/ rv_StorageKey r = "" /\ exists key, r' = set_rv_StorageKey key r)
          (es_revisions st) kept)
  /\ (exists new, es_checkpoints st' = es_checkpoints st ++ new)
  /\ (forall s, s ∈ es_sessions st -> se_Status s <> SessionActive -> s ∈ es_sessions st')
  /\ (forall d, d ∈ es_documents st -> exists d', d' ∈ es_documents st' /\ document_key d' = document_key d).
Proof.
  intros Hst Hr. destruct (later_sound _ _ _ _ Hst Hr) as (_ & _ & [D S R C _]). split_and!.
  - destruct R as (kept & new & Hk & HF). by exists kept, new.
  - destruct C as (kept & new & -> & HF). exists new. by apply list_eq_Forall2 in HF as ->.
  - intros s Hs Hc. destruct S as (kept & new & -> & HF). destruct (updated_forall _ _ _ HF _ Hs) as (s' & Hs' & Hstep).
    apply elem_of_app. left. destruct Hstep as (_ & _ & _ & Hstep). by rewrite <- (Hstep Hc).
  - intros d Hd. destruct D as (kept & new & -> & HF). destruct (updated_forall _ _ _ HF _ Hd) as (d' & Hd' & Hstep).
    exists d'. split; [|done]. apply elem_of_app. by left.
Qed.



(** ** One document per controlled document *)

(** What an event does to the keys of documents. *)
Lemma event_keys st st' :
  edit_event st st' ->
  document_key <$> es_documents st' = document_key <$> es_documents st
  \/ exists d, es_documents st' = es_documents st ++ [d] /\ dr_revision_number d = 1
     /\ forall d' c, d' ∈ es_documents st -> d_controlled_document_id (dr_doc d) = Some c ->
        d_controlled_document_id (dr_doc d') = Some c -> dr_revision_number d' <> 1.
Proof.
  destruct 1; simpl; try (by left); try (left; by apply (alter_rows_fmap document_key)).
  - right. by exists d.
  - left. match goal with HF : Forall2 _ _ _ |- _ => induction HF as [|x y l l' (Hk & _ & _) _ IH]; [done|] end.
    by rewrite !fmap_cons, IH, Hk.
Qed.

Definition one_per_controlled (st : EditStore) : Prop :=
  (forall d, d ∈ es_documents st -> dr_revision_number d = 1)
  /\ forall d d' c, d ∈ es_documents st -> d' ∈ es_documents st ->
     d_controlled_document_id (dr_doc d) = Some c -> d_controlled_document_id (dr_doc d') = Some c ->
     dr_id d = dr_id d'.

Lemma event_one_per_controlled st st' : edit_event st st' -> one_per_controlled st -> one_per_controlled st'.
Proof.
  intros [Hk|(n & Hn & Hone & Hnew)]%event_keys [H1' H2'].
  - assert (forall d', d' ∈ es_documents st' -> exists d, d ∈ es_documents st /\ document_key d = document_key d') as Hin.
    { intros d' Hd'. by apply (view_elem document_key (es_documents st) (es_documents st')). }
    split.
    + intros d' (d & Hd & [= _ _ _ _ <-])%Hin. by apply H1'.
    + intros x y c (x0 & Hx & [= <- _ _ <- _])%Hin (y0 & Hy & [= <- _ _ <- _])%Hin. by apply H2'.
  - unfold one_per_controlled. rewrite Hn. split.
    + intros d [Hd| ->]%elem_of_snoc; [by apply H1'|done].
    + intros x y c [Hx| ->]%elem_of_snoc [Hy| ->]%elem_of_snoc Ex Ey; [by eapply H2'| | |done].
      * destruct (Hnew x c Hx Ey Ex). by apply H1'.
      * destruct (Hnew y c Hy Ex Ey). by apply H1'.
Qed.

Lemma events_keep (P : EditStore -> Prop) st st' :
  (forall st st', edit_event st st' -> P st -> P st') -> rtc edit_event st st' -> P st -> P st'.
Proof. intros HP. induction 1 as [|st st1 st2 He _ IH]; [done|]. intros Hst. by apply IH, (HP st). Qed.

(** A controlled document never has a second document: the revision number of
    a new document is always 1, so a later revision of the controlled document
    cannot be created. *)
Theorem one_document_per_controlled_document st d d' c :
  interleaved no_documents st -> d ∈ es_documents st -> d' ∈ es_documents st ->
  d_controlled_document_id (dr_doc d) = Some c -> d_controlled_document_id (dr_doc d') = Some c ->
  d = d' /\ dr_revision_number d = 1.
Proof.
  intros Hi Hd Hd' Hc Hc'. pose proof (started_ok _ Hi) as Hok.
  destruct (events_keep one_per_controlled no_documents st event_one_per_controlled) as [Hone Huniq].
  - apply interleaved_events; [done|apply no_documents_ok].
  - split; [by intros ? ?%not_elem_of_nil|by intros ? ? ? ?%not_elem_of_nil].
  - split; [|by apply Hone]. apply (NoDup_fmap_inj dr_id _ _ _ (ok_document_ids _ Hok)); [done|done|by eapply Huniq].
Qed.

(** ** Checkpoint numbers *)

Definition versions_of (doc : string) (st : EditStore) : list Z :=
  cp_VersionNum <$> bfilter (checkpoint_of doc) (es_checkpoints st).

Definition versions_count_up (st : EditStore) : Prop :=
  forall doc, versions_of doc st = seqZ 1 (Z.of_nat (length (versions_of doc st)))
    /\ Z.of_nat (length (versions_of doc st)) <= int4_max.

Lemma max_seqZ n m : 0 <= m -> foldr Z.max m (seqZ 1 (Z.of_nat n)) = Z.max m (Z.of_nat n).
Proof.
  revert m. induction n as [|n IH]; intros m Hm; [simpl; lia|]. rewrite seqZ_S, foldr_app. simpl foldr at 2.
  rewrite IH by lia. lia.
Qed.

Lemma max_version_seqZ l n : cp_VersionNum <$> l = seqZ 1 (Z.of_nat n) -> max_version l = Z.of_nat n.
Proof. unfold max_version. intros ->. rewrite max_seqZ by lia. lia. Qed.

Lemma checkpoints_event st st' :
  edit_event st st' ->
  es_checkpoints st' = es_checkpoints st
  \/ exists c, es_checkpoints st' = es_checkpoints st ++ [c] /\ cp_VersionNum c <= int4_max
     /\ cp_VersionNum c = max_version (bfilter (checkpoint_of (cp_DocumentID c)) (es_checkpoints st)) + 1.
Proof. destruct 1; simpl; eauto 6. Qed.

Lemma event_versions st st' : edit_event st st' -> versions_count_up st -> versions_count_up st'.
Proof.
  intros [Hc|(c & Hc & Hmax & Hnum)]%checkpoints_event Hv doc; unfold versions_of; rewrite Hc; [apply Hv|].
  destruct (Hv doc) as [Hs Hl]. unfold versions_of in Hs, Hl.
  rewrite bfilter_app, bfilter_cons. change (bfilter (checkpoint_of doc) []) with (@nil Checkpoint).
  destruct (checkpoint_of doc c) eqn:E; [|by rewrite app_nil_r].
  unfold checkpoint_of in E. apply str_eqb_true in E as <-. rewrite (max_version_seqZ _ _ Hs) in Hnum.
  rewrite fmap_app, length_app, Nat.add_1_r, seqZ_S, <- Hs. simpl. split; [do 2 f_equal; lia|lia].
Qed.

(** C31 The checkpoints of a document are numbered 1, 2, 3 and on without a gap,
    and their number does not leave the INT of its column. *)
Theorem checkpoint_numbers_count_up st doc :
  interleaved no_documents st ->
  versions_of doc st = seqZ 1 (Z.of_nat (length (versions_of doc st)))
  /\ Z.of_nat (length (versions_of doc st)) <= int4_max.
Proof.
  intros Hi. apply (events_keep versions_count_up no_documents st event_versions).
  - apply interleaved_events; [done|apply no_documents_ok].
  - by intros d.
Qed.

(** ** Autosave *)

(** The upload is consumed, by the revision the client was told of. *)
Definition committed_as (pid : string) (res : CommitResult) (st : EditStore) : Prop :=
  exists p r, p ∈ es_pending st /\ uuid_in pid = Some (pu_ID p) /\ pu_ConsumedAt p <> None
  /\ r ∈ es_revisions st /\ rv_DocumentID r = pu_DocumentID p /\ rv_ContentHash r = pu_ContentHash p
  /\ cr_RevisionID res = rv_ID r /\ cr_RevisionNum res = rv_RevisionNum r.

Lemma kept_revision st st' r :
  edit_extends st st' -> r ∈ es_revisions st ->
  exists r', r' ∈ es_revisions st' /\ rv_ID r' = rv_ID r /\ rv_DocumentID r' = rv_DocumentID r
  /\ rv_ContentHash r' = rv_ContentHash r /\ rv_RevisionNum r' = rv_RevisionNum r.
Proof.
  intros [_ _ (kept & new & -> & HF) _ _] Hr. destruct (updated_forall _ _ _ HF _ Hr) as (r' & Hr' & Hstep).
  exists r'. rewrite elem_of_app. split; [by left|]. by destruct Hstep as [->|(_ & key & ->)].
Qed.

Lemma committed_as_later pid res st st' :
  edit_extends st st' -> committed_as pid res st -> committed_as pid res st'.
Proof.
  intros Hx (p & r & Hp & Hid & Hc & Hr & Hd & Hh & E1 & E2).
  destruct (kept_revision _ _ _ Hx Hr) as (r' & Hr' & F1 & F2 & F3 & F4). exists p, r'.
  split_and!; try congruence. by apply (ex_consumed _ _ Hx).
Qed.

Lemma commit_consumes clock sess user doc pid hash form u st res st' :
  edit_ok st -> run_tx (CommitUpload clock sess user doc pid hash form) u st = (inr res, st') ->
  committed_as pid res st'.
Proof.
  intros Hok Hr. destruct (CommitUpload_ok _ _ _ _ _ _ _ _ _ _ _ Hok Hr) as (p & Hp & Hid & _ & Hdoc & [Hc|Hc]).
  - destruct Hc as (Hc & -> & r & Hin & Hd & Hh & ->). exists p, r. split_and!; simpl; congruence.
  - destruct Hc as (_ & _ & _ & s & r & f & now & _ & _ & _ & _ & _ & _ & _ & Hd & _ & Hh & _ & _ & _ & -> & ->).
    exists (set_pu_ConsumedAt now p), r. simpl. split_and!; try done.
    + apply elem_of_alter_rows. exists p. by rewrite str_eqb_refl.
    + apply elem_of_app. right. by left.
Qed.

(** Writing the audit trail keeps what the tables say. *)
Lemma wpe_audit tenant actor action doc (Q : EditStore -> Prop) st :
  (forall st st', edit_extends st st' -> Q st -> Q st') -> Q st ->
  wpe edit_protocol (audit tenant actor action doc) (fun _ st' => Q st') st.
Proof.
  intros HQ Hst. apply wpe_bind, wpe_attempt; [tc_solve| |].
  - intros st1 e Hr _. by apply (HQ st).
  - intros st1 t u r st2 Hr Hok Hs.
    destruct (edit_event_sound _ _ (run_op_event (AuditWrite tenant actor action doc) t u _ _ _ I Hok Hs) Hok) as [? Hx].
    split_and!; [done..| |intros _]; apply (HQ st); try done; by etrans.
Qed.

(** A dropped answer. *)
Lemma wpe_dropped {B} (o : EditOp B) (Q : Result B -> EditStore -> Prop) st :
  op_ok o -> (forall r st', Q r st') -> wpe edit_protocol (attempt o) Q st.
Proof.
  intros Ho HQ. apply wpe_attempt; [tc_solve|by intros|]. intros st1 t u r st2 Hr Hok Hs.
  destruct (edit_event_sound _ _ (run_op_event o t u _ _ _ Ho Hok Hs) Hok) as [? Hx]. by split_and!.
Qed.

Lemma CommitAutosave_commits cmd st :
  wpe edit_protocol (CommitAutosave cmd) (committed_as (ca_PendingUploadID cmd)) st.
Proof.
  unfold CommitAutosave. apply wpe_bind, wpe_transaction; [intros _; apply GetDocument_event|].
  intros st1 _ u doc st2 _ _ _. apply wpe_bind, wpe_guard. intros _.
  apply wpe_bind, wpe_transaction; [intros _; apply GetPendingForCommit_event|]. intros st3 _ u2 meta st4 _ _ _.
  apply wpe_bind, wpe_map_err, wpe_other; [done|]. intros hash st5.
  apply wpe_bind. unfold unless at 1. destruct (str_eqb hash _); [apply wpe_ret|by apply wpe_bind, wpe_dropped].
  apply wpe_bind, wpe_transaction; [intros t; apply CommitUpload_event|]. intros st6 t u3 res st7 Hr Hok Hc.
  apply commit_consumes in Hc; [|done]. apply wpe_bind. unfold unless. destruct (cr_AlreadyConsumed res); [done|].
  eapply wpe_mono; [|apply (wpe_audit _ _ _ _ (committed_as (ca_PendingUploadID cmd) res)); [|done]].
  - intros [] st8. apply wpe_ret.
  - intros ??. apply committed_as_later.
Qed.

Lemma replied_editor (Q : EditReply -> EditStore -> Prop) c ts st ts' st' a :
  (forall r st st', edit_extends st st' -> Q r st -> Q r st') ->
  (forall st, edit_ok st -> wpe edit_protocol (serve c) Q st) ->
  rtc pool_step (mkPool [] no_documents) (mkPool ts st) ->
  rtc pool_step (mkPool (ts ++ [serve c]) st) (mkPool ts' st') ->
  ts' !! length ts = Some (Ret (inr a)) -> Q a st'.
Proof.
  intros HQ Hc. apply (replied_sound edit_protocol serve outside serve_protocol outside_protocol (fun _ _ Hx => Hx));
    [exact HQ|exact Hc|apply no_documents_ok].
Qed.

Lemma committed_once pid pid' res res' st :
  edit_ok st -> uuid_in pid = uuid_in pid' -> committed_as pid res st -> committed_as pid' res' st ->
  cr_RevisionID res = cr_RevisionID res' /\ cr_RevisionNum res = cr_RevisionNum res'.
Proof.
  intros Hok Hid (p & r & Hp & Ep & _ & Hr & Hd & Hh & -> & ->) (q & r' & Hq & Eq & _ & Hr' & Hd' & Hh' & -> & ->).
  assert (p = q) as -> by (apply (NoDup_fmap_inj pu_ID _ _ _ (ok_pending_ids _ Hok)); congruence).
  by replace r' with r by (apply (NoDup_fmap_inj _ _ _ _ (ok_contents _ Hok)); [done..|congruence]).
Qed.

(** C26 Commits are idempotent: all those of one upload that succeed, at once or
    one after the other, a retry after a lost answer included, report the same
    revision. *)
Theorem commit_is_idempotent c1 c2 r1 r2 ts1 st1 ts2 st2 ts3 st3 :
  rtc pool_step (mkPool [] no_documents) (mkPool ts1 st1) ->
  rtc pool_step (mkPool (ts1 ++ [serve (CallCommitAutosave c1)]) st1) (mkPool ts2 st2) ->
  rtc pool_step (mkPool (ts2 ++ [serve (CallCommitAutosave c2)]) st2) (mkPool ts3 st3) ->
  ts3 !! length ts1 = Some (Ret (inr (ReplyCommitted r1))) ->
  ts3 !! length ts2 = Some (Ret (inr (ReplyCommitted r2))) ->
  uuid_in (ca_PendingUploadID c1) = uuid_in (ca_PendingUploadID c2) ->
  cr_RevisionID r1 = cr_RevisionID r2 /\ cr_RevisionNum r1 = cr_RevisionNum r2.
Proof.
  intros Hst Hr1 Hr2 Ha1 Ha2 Hid.
  assert (forall cmd ts st ts' st' res, rtc pool_step (mkPool [] no_documents) (mkPool ts st) ->
    rtc pool_step (mkPool (ts ++ [serve (CallCommitAutosave cmd)]) st) (mkPool ts' st') ->
    ts' !! length ts = Some (Ret (inr (ReplyCommitted res))) ->
    committed_as (ca_PendingUploadID cmd) res st') as Hreplied.
  { intros cmd ts st ts' st' res. apply (replied_editor (fun r st => match r with
      | ReplyCommitted res => committed_as (ca_PendingUploadID cmd) res st | _ => True end)).
    - intros r s1 s2. destruct r; try done. apply committed_as_later.
    - intros s _. apply wpe_bind. eapply wpe_mono; [|apply CommitAutosave_commits]. by intros. }
  assert (rtc pool_step (mkPool [] no_documents) (mkPool ts2 st2)) as Hst2.
  { etrans; [exact Hst|]. eapply rtc_l; [constructor|exact Hr1]. }
  apply (committed_once (ca_PendingUploadID c1) (ca_PendingUploadID c2) _ _ st3); [|done| |by eapply Hreplied].
  - eapply (from_start ts3). etrans; [exact Hst2|]. eapply rtc_l; [constructor|exact Hr2].
  - eapply (Hreplied c1 ts1 st1); [exact Hst| |exact Ha1]. etrans; [exact Hr1|]. eapply rtc_l; [constructor|exact Hr2].
Qed.
End contract.
