(* ===== verification/EditorOutcomes.v ===== *)
(** * Editor: outcomes

    What single requests do, on a state the system can reach: commits, restored
    checkpoints, the sweepers, and the requests that can never succeed. *)
From S2P Require Import Prelude Tables Programs ProgramLogic ApprovalDomain Database Schema Sha256 ContentHash.
From S2P Require Import HttpErrors EditorDomain EditorTables EditorRepo Editor EditorRuns EditorLogic EditorSpec.
From S2P Require Import EditorInvariant EditorSafety EditorRefinement EditorContract.
From stdpp Require Import relations.

Import DocStates.
Local Open Scope Z_scope.

Section sequential.
Context `{UuidText} `{JsonbText} `{SignedURL} `{Collaborators} `{!UuidLaws}.

(** A request on its own: nothing happens between its operations. *)
Definition alone : Protocol EditStore := mkProtocol eq (fun _ _ => True) edit_ok.

#[local] Instance alone_guar_preorder : PreOrder (pr_guar alone).
Proof. by split. Qed.

Lemma alone_finishes {A} (m : PM EditOp A) (Q : A -> EditStore -> Prop) st a st' :
  edit_ok st -> wpe alone m Q st -> finishes m st (inr a) st' -> Q a st'.
Proof.
  intros Hok Hwp Hf. refine (wp_finishes alone m _ st (inr a) st' Hwp Hf Hok).
Qed.

Lemma alone_op {B} (o : EditOp B) (Q : B -> EditStore -> Prop) st :
  op_ok o ->
  (forall t u b st', edit_ok st -> run_op o t u st = (inr b, st') -> edit_ok st' -> Q b st') ->
  wpe alone (call o) Q st.
Proof.
  intros Ho HQ. apply wpe_call; [tc_solve|]. intros st1 t u r st2 <- Hok Hs.
  destruct (edit_event_sound _ _ (run_op_event o t u _ _ _ Ho Hok Hs) Hok) as [Hok2 _].
  split_and!; [done..|]. destruct r as [e|b]; [done|]. by apply (HQ t u).
Qed.

Lemma alone_tx {A} (m : TX A) (Q : A -> EditStore -> Prop) st :
  tx_event m -> (forall u a st', edit_ok st -> run_tx m u st = (inr a, st') -> edit_ok st' -> Q a st') ->
  wpe alone (tx m) Q st.
Proof. intros Hm HQ. apply alone_op; [intros _; exact Hm|]. intros t u a st'. apply HQ. Qed.

(** A query: what it returns, on the same state. *)
Lemma alone_query {A} (m : TX A) (Q : A -> EditStore -> Prop) st :
  reads m -> (forall u a s, edit_ok st -> m u (mkTxState 0 st) = (inr a, s) -> Q a st) -> wpe alone (tx m) Q st.
Proof.
  intros Hm HQ. apply alone_tx; [by apply reads_event|]. intros u a st' Hok Hr _.
  apply run_tx_ok in Hr as (s & Hs & ->). pose proof (Hm _ _ _ _ Hs) as ->. by eapply HQ.
Qed.

Lemma alone_audit tenant actor action doc (Q : EditStore -> Prop) st :
  Q st -> (forall x, Q (with_audit x st)) -> wpe alone (audit tenant actor action doc) (fun _ st' => Q st') st.
Proof.
  intros Hst Hx. apply wpe_bind, wpe_attempt; [tc_solve|by intros st1 e <-|].
  intros st1 t u r st2 <- Hok [= <- <-]. split_and!; [|done|apply Hx|intros e; apply Hx].
  eapply edit_event_ok; [|exact Hok]. by apply quiet_event.
Qed.

Lemma alone_dropped {B} (o : EditOp B) (Q : Result B -> EditStore -> Prop) st :
  op_ok o -> (forall r st', Q r st') -> wpe alone (attempt o) Q st.
Proof.
  intros Ho HQ. apply wpe_attempt; [tc_solve|by intros|]. intros st1 t u r st2 <- Hok Hs.
  destruct (edit_event_sound _ _ (run_op_event o t u _ _ _ Ho Hok Hs) Hok) as [? _]. by split_and!.
Qed.

(** ** Drafts only *)

Lemma reads_GetDocument tenant id : reads (EditorRepo.GetDocument tenant id).
Proof. unfold EditorRepo.GetDocument. reads_steps. Qed.

Lemma reads_GetPendingForCommit pid : reads (GetPendingForCommit pid).
Proof. unfold GetPendingForCommit, pending_by_id. reads_steps. Qed.

Definition is_draft_in (st : EditStore) (tenant doc : string) : Prop :=
  exists d, d ∈ es_documents st /\ uuid_in doc = Some (dr_id d) /\ uuid_in tenant = Some (dr_tenant_id d)
  /\ dr_status d = StateDraft.

(** The guard of the services that change a document. *)
Lemma alone_draft {A} tenant doc (k : PM EditOp A) (Q : A -> EditStore -> Prop) st :
  (is_draft_in st tenant doc -> wpe alone k Q st) ->
  wpe alone (d ← GetDocument tenant doc; pguard (is_draft d) EditorDomain.ErrInvalidStateTransition;; k) Q st.
Proof.
  intros Hk. apply wpe_bind, alone_query; [apply reads_GetDocument|]. intros u d s Hok Hr.
  apply wpe_bind, wpe_guard. intros Hd. apply Hk. unfold EditorRepo.GetDocument in Hr. tx_inv.
  match goal with Hs : select_one _ _ = Some ?x |- _ => rename x into row; apply select_one_some in Hs as [Hin Hid] end.
  apply document_is_true in Hid as [Hi Ht]. exists row.
  repeat match goal with Hp : uuid_param _ = _ |- _ => apply uuid_param_ok in Hp end.
  unfold is_draft in Hd. simpl in Hd. apply bool_decide_eq_true in Hd. split_and!; [done|congruence|congruence|exact Hd].
Qed.

(** ** A commit *)

Lemma HashObject_ok key st hash :
  HashObject key st = inr hash <->
  exists content, es_objects st !! key = Some content /\ hash = sha256_hex content
  /\ Z.of_nat (String.length content) <= maxSizeBytes.
Proof.
  unfold HashObject. destruct (es_objects st !! key) as [c|]; [|naive_solver].
  destruct (maxSizeBytes <? _) eqn:E; split.
  - done.
  - intros (x & [= <-] & _ & Hl). apply Z.ltb_lt in E. lia.
  - intros [= <-]. apply Z.ltb_ge in E. eauto.
  - by intros (x & [= <-] & -> & _).
Qed.

Lemma committed_head st p s r form now d :
  edit_ok st -> p ∈ es_pending st -> d ∈ es_documents st -> dr_id d = pu_DocumentID p ->
  exists d', d' ∈ es_documents (committed p s r form now st) /\ dr_id d' = dr_id d
  /\ dr_current_revision_id d' = Some (rv_ID r) /\ dr_form_data_json d' = form.
Proof.
  intros Hok Hp Hd Hid. exists (set_head (rv_ID r) form now d). split_and!; [|done..].
  apply elem_of_alter_rows. exists d. split; [done|]. by rewrite Hid, str_eqb_refl.
Qed.

(** What a commit found: a draft, the upload of the caller's session with the
    object it announced. *)
Definition verified_upload (cmd : CommitAutosaveCmd) (p : PendingUpload) (st : EditStore) : Prop :=
  p ∈ es_pending st /\ uuid_in (ca_PendingUploadID cmd) = Some (pu_ID p)
  /\ pu_SessionID p = ca_SessionID cmd /\ pu_DocumentID p = ca_DocumentID cmd
  /\ exists content, es_objects st !! pu_StorageKey p = Some content
     /\ sha256_hex content = pu_ContentHash p /\ Z.of_nat (String.length content) <= maxSizeBytes.

(** And what a first commit did. *)
Definition became_head (cmd : CommitAutosaveCmd) (p : PendingUpload) (res : CommitResult) (st st' : EditStore) : Prop :=
  pu_ConsumedAt p = None
  /\ (exists s, s ∈ es_sessions st /\ se_ID s = ca_SessionID cmd /\ se_Status s = SessionActive
      /\ se_UserID s = ca_ActorUserID cmd /\ se_LastAcknowledgedRevisionID s = pu_BaseRevisionID p)
  /\ exists r d, es_revisions st' = es_revisions st ++ [r] /\ rv_ID r = cr_RevisionID res
     /\ rv_StorageKey r = pu_StorageKey p /\ rv_ContentHash r = pu_ContentHash p
     /\ rv_ParentRevisionID r = Some (pu_BaseRevisionID p)
     /\ d ∈ es_documents st' /\ dr_id d = ca_DocumentID cmd /\ dr_current_revision_id d = Some (rv_ID r).

Lemma CommitUpload_verified clock cmd hash u st res st' :
  edit_ok st -> is_draft_in st (ca_TenantID cmd) (ca_DocumentID cmd) ->
  run_tx (CommitUpload clock (ca_SessionID cmd) (ca_ActorUserID cmd) (ca_DocumentID cmd)
            (ca_PendingUploadID cmd) hash (ca_FormDataSnapshot cmd)) u st = (inr res, st') ->
  exists p, p ∈ es_pending st /\ uuid_in (ca_PendingUploadID cmd) = Some (pu_ID p)
  /\ pu_SessionID p = ca_SessionID cmd /\ pu_DocumentID p = ca_DocumentID cmd
  /\ (if cr_AlreadyConsumed res then es_revisions st' = es_revisions st /\ es_documents st' = es_documents st
      else became_head cmd p res st st').
Proof.
  intros Hok (d & Hd & Hid & _) Hr. destruct (CommitUpload_ok _ _ _ _ _ _ _ _ _ _ _ Hok Hr) as (p & Hp & Epid & Es & Ed & Hc).
  exists p. split_and!; try done. destruct Hc as [(_ & -> & r & _ & _ & _ & ->)|Hc]; [done|].
  destruct Hc as (Hc & _ & _ & s & r & f & now & Hs & Ha & Hsid & Hu & Hack & _ & _ & Hrd & Hpar & Hh & Hkey & _ & _ & -> & ->).
  simpl. split; [done|]. destruct (upload_canonical _ _ Hok Hp) as [_ Cd]. unfold canonical in Cd. rewrite Ed, Hid in Cd.
  destruct (committed_head st p s r f now d Hok Hp Hd) as (d' & Hd' & Hid' & Hcur & _); [congruence|].
  split; [exists s; split_and!; congruence|]. exists r, d'. split_and!; try done. congruence.
Qed.

Definition stored (cmd : CommitAutosaveCmd) (st : EditStore) (res : CommitResult) (st' : EditStore) : Prop :=
  is_draft_in st (ca_TenantID cmd) (ca_DocumentID cmd)
  /\ exists p, verified_upload cmd p st
     /\ (if cr_AlreadyConsumed res then es_revisions st' = es_revisions st /\ es_documents st' = es_documents st
         else became_head cmd p res st st').

Lemma stored_audit cmd st res st' x : stored cmd st res st' -> stored cmd st res (with_audit x st').
Proof. intros (Hd & p & Hp & Hr). split; [done|]. exists p. split; [done|]. by destruct (cr_AlreadyConsumed res). Qed.


(** ** Requests that cannot succeed *)

(** A content the document already has cannot be saved again: the upload of
    an earlier content - an edit that was undone - is never committed. *)
Theorem earlier_content_cannot_be_saved_again cmd p r st x st' :
  interleaved no_documents st ->
  p ∈ es_pending st -> uuid_in (ca_PendingUploadID cmd) = Some (pu_ID p) -> pu_ConsumedAt p = None ->
  r ∈ es_revisions st -> rv_DocumentID r = pu_DocumentID p -> rv_ContentHash r = pu_ContentHash p ->
  finishes (CommitAutosave cmd) st x st' -> exists e, x = inl e.
Proof.
  intros Hok%started_ok Hp Hid Hc Hr Hd Hh Hf. destruct x as [e|res]; [by exists e|exfalso]. revert Hf.
  apply (alone_finishes _ (fun _ _ => False)); [done|]. unfold CommitAutosave. apply alone_draft. intros _.
  apply wpe_bind, alone_query; [apply reads_GetPendingForCommit|]. intros u meta s0 _ Hm.
  apply wpe_bind, wpe_map_err, alone_op; [done|]. intros t u1 hash st1 _ Ho _. injection Ho as Ho <-.
  apply wpe_bind. unfold unless at 1. destruct (str_eqb hash (pu_ContentHash meta)); [apply wpe_ret|].
  2:{ by apply wpe_bind, alone_dropped. }
  apply wpe_bind, alone_op; [intros t1; apply CommitUpload_event|]. intros t1 u2 res1 st1 _ Hcm _. exfalso.
  destruct (CommitUpload_ok _ _ _ _ _ _ _ _ _ _ _ Hok Hcm) as (q & Hq & Eq & _ & _ & Hcq).
  assert (q = p) as -> by (apply (NoDup_fmap_inj pu_ID _ _ _ (ok_pending_ids _ Hok)); congruence).
  destruct Hcq as [(Hc' & _)|(_ & _ & _ & s & r' & f & now & _ & _ & _ & _ & _ & _ & _ & Hrd & _ & Hrh & _ & _ & Hnew & _)]; [done|].
  apply (Hnew r); congruence.
Qed.

Lemma set_status_rejected cur next stamp tenant id u st a st' :
  cur <> next -> sql_transition_allowed cur next = false ->
  run_tx (UpdateDocumentStatus tenant id cur next stamp) u st <> (inr a, st').
Proof.
  intros Hne Ht Hr. unfold UpdateDocumentStatus in Hr. tx_inv.
  match goal with Hu : update_documents ?c ?f _ = inr _ |- _ => rename Hu into Hupd; set (cond := c) in *; set (upd := f) in * end.
  unfold update_documents in Hupd. destruct (update_where _ _ _) as [e|[n rows]] eqn:Hu; [done|]. simplify_eq.
  apply update_where_ok in Hu as [HF ->].
  destruct (bcount_exists cond (es_documents st)) as (d & Hd & Hc).
  { intros E. rewrite E in *. done. }
  destruct (updated_forall _ _ _ HF _ Hd) as (d' & _ & Hud). unfold updated in Hud. rewrite Hc in Hud.
  unfold cond in Hc. apply andb_true_iff in Hc as [_ Hs]. rewrite bool_decide_eq_true in Hs.
  destruct (before_update_document _ _ _) as [e|x] eqn:Hb; [done|].
  apply before_update_document_ok in Hb as (_ & Hb & _). revert Hb. unfold enforce_document_transition.
  change (d_status (dr_doc d)) with (dr_status d). rewrite Hs. simpl. rewrite bool_decide_eq_false_2 by done.
  rewrite Ht. destruct (bool_decide _ && bool_decide _) eqn:Eb; [|done].
  apply andb_true_iff in Eb as [E1 E2]. rewrite bool_decide_eq_true in E1. rewrite bool_decide_eq_true in E2. done.
Qed.

(** Finalizing and archiving always fail: the trigger of [documents] knows
    neither status any more. *)
Theorem finalize_and_archive_always_fail tenant doc actor from st x st' :
  interleaved no_documents st ->
  finishes (Finalize tenant doc actor) st x st' \/ finishes (Archive tenant doc actor from) st x st' ->
  exists e, x = inl e.
Proof.
  intros Hok%started_ok Hf. destruct x as [e|a]; [by exists e|exfalso].
  assert (forall cur next (k : unit -> PM EditOp unit), cur = DocStatusDraft \/ cur = DocStatusFinalized ->
    next = DocStatusFinalized /\ cur = DocStatusDraft \/ next = DocStatusArchived ->
    wpe alone (mbind k (tx (UpdateDocumentStatus tenant doc cur next true))) (fun _ _ => False) st) as Hno.
  { intros cur next k Hcur Hn. apply wpe_bind, alone_tx; [apply UpdateDocumentStatus_event|].
    intros u b st1 _ Hr _. exfalso. revert Hr. apply set_status_rejected; destruct Hcur as [->| ->], Hn as [[-> ?]| ->]; done. }
  destruct Hf as [Hf|Hf]; revert Hf; apply (alone_finishes _ (fun _ _ => False)); try done; apply Hno; destruct from; auto.
Qed.

(** Restoring a checkpoint restores nothing: on success it reports the
    revision of the checkpoint as the new one, and documents, sessions and
    revisions are as they were - the current head stays. *)
Theorem restoring_changes_nothing tenant doc actor n st r st' :
  interleaved no_documents st -> finishes (RestoreCheckpoint tenant doc actor n) st (inr r) st' ->
  rr_Idempotent r = true /\ rr_NewRevisionID r = rr_CheckpointRevID r
  /\ es_documents st' = es_documents st /\ es_sessions st' = es_sessions st /\ es_revisions st' = es_revisions st.
Proof.
  intros Hok%started_ok. apply (alone_finishes _ (fun r st' => rr_Idempotent r = true /\ rr_NewRevisionID r = rr_CheckpointRevID r
    /\ es_documents st' = es_documents st /\ es_sessions st' = es_sessions st /\ es_revisions st' = es_revisions st)); [done|].
  apply wpe_bind, alone_tx; [apply RestoreCheckpoint_event|]. intros u res st1 _ Hr _.
  destruct (RestoreCheckpoint_ok _ _ _ _ _ _ _ Hok Hr) as (Hi & Hid & ->).
  apply wpe_bind. eapply wpe_mono; [|apply (alone_audit _ _ _ _ (fun st' => es_documents st' = es_documents st
    /\ es_sessions st' = es_sessions st /\ es_revisions st' = es_revisions st)); done].
  intros [] st2 Hst2. apply wpe_ret. tauto.
Qed.

(** ** A reservation made again *)

(** The upload of a reservation. *)
Definition reserved_by (cmd : PresignAutosaveCmd) (p : PendingUpload) : Prop :=
  uuid_in (pa_SessionID cmd) = Some (pu_SessionID p) /\ pu_BaseRevisionID p = pa_BaseRevisionID cmd
  /\ pu_ContentHash p = pa_ContentHash cmd.

Lemma PresignReserve_ok sess user doc base hash key expires u st pid st' :
  edit_ok st -> run_tx (PresignReserve sess user doc base hash key expires) u st = (inr pid, st') ->
  exists p, p ∈ es_pending st' /\ pu_ID p = pid /\ uuid_in sess = Some (pu_SessionID p)
  /\ pu_BaseRevisionID p = base /\ pu_ContentHash p = hash
  /\ (p ∈ es_pending st \/ pu_ExpiresAt p = expires /\ pu_ConsumedAt p = None
      /\ forall q, q ∈ es_pending st -> pu_SessionID q = pu_SessionID p -> pu_BaseRevisionID q = base -> pu_ContentHash q <> hash).
Proof.
  intros Hok Hr. unfold PresignReserve in Hr. tx_inv.
  match goal with Hs : select_one _ (es_sessions st) = Some ?x |- _ => rename x into s; apply select_one_some in Hs as [Hin Hid] end.
  bool_to_prop. subst. match goal with Ha : session_is_active s = true |- _ => pose proof (proj1 (session_is_active_true s) Ha) as Ha' end.
  destruct (active_session st s Hok Hin Ha') as [Cd Cb].
  repeat match goal with Hp : uuid_param _ = inr (se_LastAcknowledgedRevisionID s) |- _ => clear Hp
    | Hp : uuid_param (se_DocumentID s) = inr _ |- _ => apply canonical_param in Hp; [subst|done]
    | Hp : uuid_param (se_LastAcknowledgedRevisionID s) = inr _ |- _ => apply canonical_param in Hp; [subst|done] end.
  match goal with Hp : uuid_param sess = _ |- _ => apply uuid_param_ok in Hp end.
  destruct (select_one _ (es_pending st)) as [p|] eqn:Hp; tx_inv.
  - apply select_one_some in Hp as [Hp Hc]. bool_to_prop. exists p. split_and!; try done; [congruence|by left].
  - match goal with Hi : insert_pending _ _ = _ |- _ => apply insert_pending_ok in Hi as (-> & _) end. simpl.
    eexists. split; [apply elem_of_app; right; left|]. simpl. split_and!; try done. right. split_and!; [done|done|].
    intros q Hq E1 E2 E3. eapply select_one_none in Hp; [|exact Hq]. by rewrite E1, E2, E3, !str_eqb_refl in Hp.
Qed.

(** Reserving an upload again does not renew it: the client is told of a new
    deadline, but the row keeps the old one, after which its commit fails. *)
Theorem renewed_reservation_keeps_its_deadline cmd p st res st' :
  interleaved no_documents st -> p ∈ es_pending st -> reserved_by cmd p ->
  finishes (PresignAutosave cmd) st (inr res) st' ->
  exists q, q ∈ es_pending st /\ q ∈ es_pending st' /\ reserved_by cmd q /\ pr_PendingUploadID res = pu_ID q.
Proof.
  intros Hok%started_ok Hp (E1 & E2 & E3).
  apply (alone_finishes _ (fun res st' => exists q, q ∈ es_pending st /\ q ∈ es_pending st' /\ reserved_by cmd q
    /\ pr_PendingUploadID res = pu_ID q)); [done|].
  unfold PresignAutosave. apply alone_draft. intros _. cbv zeta.
  apply wpe_bind, alone_op; [done|]. intros t u url st1 _ Ho _. injection Ho as _ <-.
  apply wpe_bind, alone_op; [done|]. intros t1 u1 now st2 _ Ho _. injection Ho as _ <-.
  apply wpe_bind, alone_tx; [apply PresignReserve_event|]. intros u2 pid st3 _ Hr _. apply wpe_ret.
  destruct (PresignReserve_ok _ _ _ _ _ _ _ _ _ _ _ Hok Hr) as (q & Hq & <- & F1 & F2 & F3 & Hor).
  assert (pu_SessionID p = pu_SessionID q) as Es by congruence.
  destruct Hor as [Hin|(_ & _ & Hnew)]; [by exists q|]. by destruct (Hnew p Hp Es E2).
Qed.

(** And the deadline counts: an upload is committed before it, or never. *)
Lemma commit_before_deadline clock sess user doc pid hash form u st res st' p :
  edit_ok st -> p ∈ es_pending st -> uuid_in pid = Some (pu_ID p) -> pu_ConsumedAt p = None ->
  run_tx (CommitUpload clock sess user doc pid hash form) u st = (inr res, st') -> clock <= pu_ExpiresAt p.
Proof.
  intros Hok Hp Hid Hc Hr. destruct (CommitUpload_ok _ _ _ _ _ _ _ _ _ _ _ Hok Hr) as (q & Hq & Eq & _ & _ & Hcq).
  assert (q = p) as -> by (apply (NoDup_fmap_inj pu_ID _ _ _ (ok_pending_ids _ Hok)); congruence).
  by destruct Hcq as [(? & _)|(_ & ? & _)].
Qed.
End sequential.

(** * Editor: abandoned documents

    The session sweeper closes the sessions whose holder went away, and then
    anyone can open the document: what the sweeper and [AcquireSession] do,
    computed forward. *)

Import DocStates.
Local Open Scope Z_scope.

Lemma update_where_total {R} (cond : R -> bool) (chk : R -> Result R) (upd : R -> R) rows :
  (forall r, r ∈ rows -> cond r = true -> chk r = inr (upd r)) ->
  update_where cond chk rows = inr (Z.of_nat (bcount cond rows), alter_rows cond upd rows).
Proof.
  induction rows as [|r rows IH]; intros Hc; [done|]. simpl.
  rewrite IH by (intros x Hx; apply Hc; by right). unfold bcount. rewrite bfilter_cons.
  destruct (cond r) eqn:E; [rewrite Hc; [|by left|done]|]; do 2 f_equal. simpl. lia.
Qed.

Section takeover.
Context `{UuidText} `{JsonbText} `{SignedURL} `{Collaborators} `{!UuidLaws}.

Lemma update_sessions_total cond upd st :
  update_sessions cond upd st
  = inr (Z.of_nat (bcount cond (es_sessions st)), with_sessions (alter_rows cond upd (es_sessions st)) st).
Proof. unfold update_sessions. by rewrite (update_where_total _ _ upd). Qed.

(** The triggers of [documents] accept the row as it is. *)
Definition rows_accepted (st : EditStore) : Prop :=
  forall d, d ∈ es_documents st -> enforce_snapshot_on_submit (dr_doc d) = inr tt.

Lemma before_update_same d : enforce_snapshot_on_submit d = inr tt -> before_update_document no_gucs d d = inr d.
Proof.
  intros Hs. unfold before_update_document, enforce_document_transition, enforce_revision_monotonic.
  rewrite Hs, bool_decide_eq_true_2, Z.ltb_irrefl by done. done.
Qed.

Definition heads_exist (st : EditStore) : Prop :=
  forall d x, d ∈ es_documents st -> dr_current_revision_id d = Some x -> exists_id rv_ID (es_revisions st) x = true.

Lemma edit_ok_heads st : edit_ok st -> heads_exist st.
Proof.
  intros Hok d x Hd Hx. destruct (head_revision _ _ _ Hok Hd Hx) as (r & Hr & <- & _). apply exists_id_true.
  by apply list_elem_of_fmap_2.
Qed.

Lemma update_active_total cond sess now st :
  rows_accepted st -> heads_exist st ->
  match sess with Some x => exists_id se_ID (es_sessions st) x = true | None => True end ->
  update_documents cond (set_active_session sess now) st
  = inr (Z.of_nat (bcount cond (es_documents st)),
         with_documents (alter_rows cond (set_active_session sess now) (es_documents st)) st).
Proof.
  intros Ha Hh Hs. unfold update_documents. rewrite (update_where_total _ _ (set_active_session sess now)); [done|].
  intros d Hd _. cbv zeta. simpl. rewrite before_update_same by by apply Ha.
  replace (match dr_current_revision_id d with Some x => exists_id rv_ID (es_revisions st) x | None => true end) with true
    by (destruct (dr_current_revision_id d) eqn:E; [symmetry; by apply (Hh d)|done]).
  simpl. destruct sess; [by rewrite Hs|done].
Qed.

(** ** The sweeper *)

(** The tables after a tick. *)
Definition swept (now at_ : Time) (st : EditStore) : EditStore :=
  with_documents (alter_rows (points_into (bfilter (is_stale now) (es_sessions st)))
                    (set_active_session None at_) (es_documents st))
    (with_sessions (alter_rows (is_stale now) (fun s => set_se_Status SessionExpired (se_ReleasedAt s) s)
                      (es_sessions st)) st).

Lemma ExpireStaleSessions_run now u st :
  rows_accepted st -> heads_exist st ->
  run_tx (ExpireStaleSessions now) u st
  = (inr (if Z.of_nat (bcount (points_into (bfilter (is_stale now) (es_sessions st))) (es_documents st)) =? 0
          then inl ErrNoRows else inr (Z.of_nat (bcount (is_stale now) (es_sessions st)))),
     swept now (dw_now u) st).
Proof.
  intros Ha Hh. unfold run_tx, ExpireStaleSessions.
  unfold mbind at 1, TX_bind at 1, sql_now at 1. unfold mbind at 1, TX_bind at 1, select at 1.
  unfold mbind at 1, TX_bind at 1, statement at 1. simpl. rewrite update_sessions_total.
  unfold mbind at 1, TX_bind at 1, statement at 1. simpl.
  change (fun d => match dr_active_session_id d with
          | Some x => exists_id se_ID (bfilter (is_stale now) (es_sessions st)) x | None => false end)
    with (points_into (bfilter (is_stale now) (es_sessions st))).
  rewrite update_active_total by done. simpl. unfold bcount. by destruct (_ =? 0).
Qed.

(** A stale session is the one its document points to. *)
Lemma stale_counted now st :
  edit_ok st ->
  bcount (points_into (bfilter (is_stale now) (es_sessions st))) (es_documents st) = 0%nat <->
  bcount (is_stale now) (es_sessions st) = 0%nat.
Proof.
  intros Hok. split; intros Hz.
  - destruct (decide (bcount (is_stale now) (es_sessions st) = 0%nat)) as [|(s & Hs & Hst)%bcount_exists]; [done|].
    unfold is_stale in Hst. apply andb_true_iff in Hst as [Ha Hlt].
    destruct (elem_of_map_inv _ _ _ (session_document _ _ Hok Hs)) as (d & Hd & E).
    assert (points_into (bfilter (is_stale now) (es_sessions st)) d = true) as Hp.
    { apply points_into_spec. exists s. split_and!; [done|by unfold is_stale; rewrite Ha, Hlt|].
      apply (ok_pointed _ Hok _ _ Hd). exists s. by apply session_is_active_true in Ha. }
    unfold bcount in Hz. apply length_zero_iff_nil in Hz.
    assert (d ∈ bfilter (points_into (bfilter (is_stale now) (es_sessions st))) (es_documents st)) as Hin by (by apply elem_of_bfilter).
    rewrite Hz in Hin. by apply not_elem_of_nil in Hin.
  - unfold bcount. rewrite bfilter_none; [done|]. intros d Hd.
    destruct (points_into _ d) eqn:Hp; [|done]. apply points_into_spec in Hp as (s & Hs & Hst & _).
    assert (s ∈ bfilter (is_stale now) (es_sessions st)) as Hin by (by apply elem_of_bfilter).
    unfold bcount in Hz. apply length_zero_iff_nil in Hz. rewrite Hz in Hin. by apply not_elem_of_nil in Hin.
Qed.

(** A tick of the session sweeper closes exactly the stale sessions and
    frees their documents, in one step; it reports how many - and when there are
    none, the error of a query without rows. *)
Theorem sweeper_closes_stale_sessions draw now t st :
  interleaved no_documents st -> rows_accepted st ->
  run_prog draw (sweep_sessions now) t st
  = (if Z.of_nat (bcount (is_stale now) (es_sessions st)) =? 0 then inl ErrNoRows
     else inr (Z.of_nat (bcount (is_stale now) (es_sessions st))), t + 1, swept now (dw_now (draw t)) st)
  /\ forall s, s ∈ es_sessions (swept now (dw_now (draw t)) st) -> se_Status s = SessionActive -> now <= se_ExpiresAt s.
Proof.
  intros Hok%started_ok Ha. split.
  - unfold sweep_sessions. simpl. rewrite ExpireStaleSessions_run by (try done; by apply edit_ok_heads).
    simpl. f_equal. f_equal. pose proof (stale_counted now st Hok) as Hc.
    destruct (bcount (points_into _) _) eqn:E1, (bcount (is_stale now) _) eqn:E2; simpl; try done; lia.
  - intros s (s0 & Hs0 & ->)%elem_of_alter_rows. destruct (is_stale now s0) eqn:E; [done|]. intros Hact.
    unfold is_stale in E. rewrite (proj2 (session_is_active_true s0) Hact) in E. simpl in E. by apply Z.ltb_ge in E.
Qed.

(** ** Opening a free document *)

Lemma swept_ok now at_ st : edit_ok st -> edit_ok (swept now at_ st).
Proof. intros Hok. by apply (closed_ok st (is_stale now) SessionExpired se_ReleasedAt at_). Qed.

Lemma select_document st d tenant :
  edit_ok st -> d ∈ es_documents st -> dr_tenant_id d = tenant ->
  select_one (document_is (dr_id d) tenant) (es_documents st) = Some d.
Proof.
  intros Hok Hd Ht. destruct (select_one _ _) as [d'|] eqn:Hs.
  - apply select_one_some in Hs as [Hin Hid]. apply document_is_true in Hid as [Hid _]. f_equal.
    by apply (NoDup_fmap_inj dr_id _ _ _ (ok_document_ids _ Hok)).
  - eapply select_one_none in Hs; [|exact Hd]. assert (document_is (dr_id d) tenant d = true) by (by apply document_is_true).
    congruence.
Qed.

Lemma current_revision_some st d : edit_ok st -> d ∈ es_documents st -> exists rev, dr_current_revision_id d = Some rev.
Proof.
  intros Hok Hd. destruct (ok_chain _ Hok _ Hd) as (_ & -> & Hne). destruct (revisions_of (dr_id d) st) as [|r l]; [done|].
  simpl. clear. revert r. induction l as [|x l IH]; intros r; simpl; [by eexists|apply IH].
Qed.

Lemma insert_session_total s st :
  se_ID s ∉ se_ID <$> es_sessions st ->
  (forall s', s' ∈ es_sessions st -> se_DocumentID s' = se_DocumentID s -> se_Status s' <> SessionActive) ->
  se_DocumentID s ∈ dr_id <$> es_documents st ->
  insert_session s st = inr (with_sessions (es_sessions st ++ [s]) st).
Proof.
  intros Hf Hfree Hd. unfold insert_session. apply exists_id_false in Hf as ->. apply exists_id_true in Hd as ->.
  replace (existsb _ (es_sessions st)) with false; [by rewrite andb_false_r|].
  symmetry. apply not_true_is_false. intros (s' & Hs' & Hc)%existsb_true_elem.
  apply andb_true_iff in Hc as [Hdoc Hact]. rewrite str_eqb_true in Hdoc. rewrite bool_decide_eq_true in Hact.
  by apply (Hfree s').
Qed.

(** The session, and the tables, of a document opened by nobody. *)
Lemma AcquireSession_run tenant doc user u st d rev :
  edit_ok st -> rows_accepted st -> d ∈ es_documents st ->
  uuid_in doc = Some (dr_id d) -> uuid_in tenant = Some (dr_tenant_id d) ->
  dr_current_revision_id d = Some rev -> dw_uuid u 0 ∉ se_ID <$> es_sessions st ->
  (forall s, s ∈ es_sessions st -> se_DocumentID s = dr_id d -> se_Status s <> SessionActive) ->
  exists st', run_tx (EditorRepo.AcquireSession tenant doc user) u st
  = (inr (mkSession (dw_uuid u 0) doc user 0 (dw_now u + five_minutes) None rev SessionActive, false), st').
Proof.
  intros Hok Ha Hd Hdoc Hten Hrev Hf Hfree. eexists. apply run_tx_ok. eexists. split; [|done].
  unfold EditorRepo.AcquireSession, uuid_param. rewrite Hdoc, Hten.
  do 3 (apply tbind_ok; eexists _, _; split; [done|]). simpl.
  destruct (select_one _ _) as [s|] eqn:Hs.
  { apply select_one_some in Hs as [Hin Hc]. apply andb_true_iff in Hc as [E Hact].
    rewrite str_eqb_true in E. apply session_is_active_true in Hact. by destruct (Hfree s Hin E). }
  apply tbind_ok; eexists _, _; split; [done|].
  apply tbind_ok; eexists d, _; split; [apply select_row_ok; split; [by apply select_document|done]|].
  rewrite Hrev. apply tbind_ok; eexists _, _; split; [done|]. simpl.
  apply tbind_ok; eexists tt, _; split.
  { apply execute_ok. eexists. split; [|done]. simpl. apply insert_session_total; [done|done|].
    simpl. by apply list_elem_of_fmap_2. }
  apply tbind_ok; eexists _, _; split; [|done].
  apply statement_ok. eexists. split; [|done]. simpl. apply update_active_total; [done|exact (edit_ok_heads st Hok)|].
  simpl. apply exists_id_true. rewrite fmap_app. apply elem_of_app. right. by left.
Qed.

(** C29 An abandoned document can be taken over: once the sweeper has run past the
    end of its sessions, any user who asks for the document becomes its writer,
    from its current revision. *)
Theorem abandoned_document_is_taken_over draw now t t' st d doc tenant user :
  interleaved no_documents st -> rows_accepted st -> d ∈ es_documents st ->
  uuid_in doc = Some (dr_id d) -> uuid_in tenant = Some (dr_tenant_id d) ->
  (forall s, s ∈ es_sessions st -> se_DocumentID s = dr_id d -> se_Status s = SessionActive -> se_ExpiresAt s < now) ->
  dw_uuid (draw t') 0 ∉ se_ID <$> es_sessions st ->
  let st1 := (run_prog draw (sweep_sessions now) t st).2 in
  exists s, (run_prog draw (AcquireSession tenant doc user) t' st1).1.1 = inr (s, false)
  /\ se_UserID s = user /\ Some (se_LastAcknowledgedRevisionID s) = dr_current_revision_id d.
Proof.
  intros Hok%started_ok Ha Hd Hdoc Hten Hstale Hf. simpl.
  rewrite ExpireStaleSessions_run by (try done; by apply edit_ok_heads). simpl.
  destruct (current_revision_some st d Hok Hd) as [rev Hrev].
  set (d' := if points_into (bfilter (is_stale now) (es_sessions st)) d then set_active_session None (dw_now (draw t)) d else d).
  assert (dr_id d' = dr_id d /\ dr_tenant_id d' = dr_tenant_id d /\ dr_current_revision_id d' = dr_current_revision_id d) as (E1 & E2 & E3).
  { unfold d'. by destruct (points_into _ d). }
  destruct (AcquireSession_run tenant doc user (draw t') (swept now (dw_now (draw t)) st) d' rev) as [st2 Hst2];
    rewrite ?E1, ?E2, ?E3; try done.
  - by apply swept_ok.
  - intros x (x0 & Hx & ->)%elem_of_alter_rows. specialize (Ha _ Hx). by destruct (points_into _ x0).
  - apply elem_of_alter_rows. by exists d.
  - simpl. by rewrite (alter_rows_fmap se_ID).
  - intros s (s0 & Hs0 & ->)%elem_of_alter_rows. destruct (is_stale now s0) eqn:E; [done|]. intros Hs Hact.
    specialize (Hstale _ Hs0 Hs Hact). unfold is_stale in E. apply andb_false_iff in E as [E|E].
    + apply session_is_active_true in Hact. congruence.
    + apply Z.ltb_ge in E. lia.
  - rewrite Hst2. simpl. eexists. by split_and!.
Qed.
End takeover.
