(* ===== verification/EditorScenario.v ===== *)
(** * Editor: runs the kernel evaluates

    A document created, edited, checkpointed and left behind, and what the
    theorems say of it. *)
From S2P Require Import Prelude Tables Programs ProgramLogic ApprovalDomain Database Schema Sha256 ContentHash EditorDomain EditorTables EditorRepo Editor EditorRuns EditorSpec EditorInvariant EditorSafety EditorRefinement EditorContract EditorOutcomes.
From stdpp Require Import relations pretty.
Import DocStates.
Local Open Scope Z_scope.

Module Demo.
#[export] Instance uuids : UuidText := fun s => if str_eqb s "" then None else Some s.

#[export] Instance uuid_laws : UuidLaws.
Proof. intros s c. unfold uuid_in, uuids. destruct (str_eqb s "") eqn:Hs; [done|]. by intros [= <-]; rewrite Hs. Qed.

#[export] Instance urls : SignedURL := fun method key => method +:+ " " +:+ key.
#[export] Instance jsonb : JsonbText := fun s => if str_eqb s "" then None else Some s.

(** Every controlled document is active, of a profile with a published template
    without a form schema; nothing is rendered. *)
#[export] Instance others : Collaborators := {|
  registry_GetByID := fun _ _ id => inr (mkRegistryDocument id "po" "fin" None "active");
  registry_Duplicate := fun _ _ id _ => inr (mkRegistryDocument (id +:+ "-copy") "po" "fin" None "active");
  authz_Check := fun _ _ _ _ => inr tt;
  profile_Default := fun _ _ _ => inr (Some "tv", Some "published");
  template_GetPublishedVersion := fun _ _ _ => inr ("template.docx", "schema.json", "");
  form_Validate := fun _ _ _ => inr (true, []);
  snapshot_Load := fun _ _ _ => inr (mkTemplateSnapshot "{}" "{}" "bytes" "template.docx");
  docgen := None
|}.

Lemma drawn_canonical t i : uuid_in ("u" +:+ pretty (t : Z) +:+ "-" +:+ pretty (i : nat)) = Some ("u" +:+ pretty t +:+ "-" +:+ pretty i).
Proof. done. Qed.

Definition draw (t : Time) : TxDraw := mkTxDraw _ t (fun i => "u" +:+ pretty t +:+ "-" +:+ pretty i) (drawn_canonical t).

Abbreviation Event := (Programs.Event (Call := EditCall)).
Abbreviation exec := (Programs.exec serve draw).

Definition steps (i n : nat) : list Event := replicate n (Step i).

Definition create : EditCall := CallCreateDocument (mkCreateDocumentInput "acme" "ana" "cd" "" "Order" (Some "{}")).

(** The ids the creation draws. *)
Definition doc : string := "u5-0".
Definition sess : string := "u5-1".
Definition first_rev : string := "u5-2".

Abbreviation EditPool := (Pool (Op := EditOp) (St := EditStore) (Reply := EditReply)).

Definition the_document (p : EditPool) : DocumentRow :=
  nth 0 (es_documents (pool_store p)) (new_document_row "" "" "" "" None (mkNewDocument "" "" "" None "" None None None) 0).

Definition upload (key content : string) (p : EditPool) : EditPool :=
  mkPool (pool_threads p) (put_object key content (pool_store p)).

(** Two contents and their hashes. *)
Definition hash_one : string := Eval vm_compute in sha256_hex "one".
Definition hash_two : string := Eval vm_compute in sha256_hex "two".

Definition reserve (base hash : string) : PresignAutosaveCmd := mkPresignAutosaveCmd "acme" "ana" doc sess base hash.
Definition commit (pending : string) : CommitAutosaveCmd :=
  mkCommitAutosaveCmd "acme" "ana" doc sess pending (Some "{1}").

(** An upload is reserved and its object stored. *)
Definition reserved (t : Time) (base hash content : string) (p : EditPool) : EditPool :=
  upload (revision_key "acme" doc hash) content
    (exec ([Start (CallPresignAutosave (reserve base hash))] ++ steps (length (pool_threads p)) 5) t p).

(** The upload reserved by the request of a time. *)
Definition pending_of (t : Time) : string := "u" +:+ pretty (t + 4) +:+ "-0".

Definition commits (t : Time) (pending : string) (p : EditPool) : EditPool :=
  exec ([Start (CallCommitAutosave (commit pending))] ++ steps (length (pool_threads p)) 6) t p.

Definition second_rev : string := "u114-0".
Definition third_rev : string := "u214-0".

(** The pools of the demonstration, evaluated: the document is created, saved,
    checkpointed, saved again, and its first content written once more. *)
Definition created : EditPool := Eval vm_compute in exec ([Start create] ++ steps 0 12) 0 (mkPool [] no_documents).
Definition uploaded : EditPool := Eval vm_compute in reserved 100 first_rev hash_one "one" created.
Definition saved : EditPool := Eval vm_compute in commits 110 (pending_of 100) uploaded.
Definition checkpointed : EditPool := Eval vm_compute in
  exec ([Start (CallCreateCheckpoint "acme" doc "ana" "before")] ++ steps 3 3) 150 saved.
Definition uploaded_again : EditPool := Eval vm_compute in reserved 200 second_rev hash_two "two" checkpointed.
Definition saved_twice : EditPool := Eval vm_compute in commits 210 (pending_of 200) uploaded_again.
Definition undone : EditPool := Eval vm_compute in reserved 300 third_rev hash_one "one" saved_twice.
End Demo.
Import Demo.

Lemma exec_reach es t p : rtc pool_step p (exec es t p).
Proof. apply (exec_steps serve outside draw). Qed.

Lemma upload_reach key content p : pool_step p (upload key content p).
Proof. destruct p as [ts st]. apply pool_outside. constructor. Qed.

Lemma reserved_reach t base hash content p : rtc pool_step p (reserved t base hash content p).
Proof. unfold reserved. eapply rtc_r; [apply exec_reach|apply upload_reach]. Qed.

Lemma commits_reach t pending p : rtc pool_step p (commits t pending p).
Proof. apply exec_reach. Qed.

(** From the start to the pools of the demonstration. *)
Lemma reach_is (p q q' : EditPool) : q = q' -> rtc pool_step p q -> rtc pool_step p q'.
Proof. by intros ->. Qed.

(** Both sides evaluated, once. *)
Ltac evaluates q := apply (reach_is _ q); [vm_compute; exact eq_refl|].

Lemma created_reach : rtc pool_step (mkPool [] no_documents) created.
Proof. evaluates (exec ([Start create] ++ steps 0 12) 0 (mkPool [] no_documents)). apply exec_reach. Qed.

Lemma uploaded_step : rtc pool_step created uploaded.
Proof. evaluates (reserved 100 first_rev hash_one "one" created). apply reserved_reach. Qed.

Lemma saved_step : rtc pool_step uploaded saved.
Proof. evaluates (commits 110 (pending_of 100) uploaded). apply commits_reach. Qed.

Lemma checkpointed_step : rtc pool_step saved checkpointed.
Proof.
  evaluates (exec ([Start (CallCreateCheckpoint "acme" doc "ana" "before")] ++ steps 3 3) 150 saved).
  apply exec_reach.
Qed.

Lemma saved_twice_step : rtc pool_step checkpointed saved_twice.
Proof.
  etrans; [apply (reserved_reach 200 second_rev hash_two "two")|].
  evaluates (commits 210 (pending_of 200) (reserved 200 second_rev hash_two "two" checkpointed)).
  apply commits_reach.
Qed.

Lemma undone_step : rtc pool_step saved_twice undone.
Proof. evaluates (reserved 300 third_rev hash_one "one" saved_twice). apply reserved_reach. Qed.

Lemma uploaded_reach : rtc pool_step (mkPool [] no_documents) uploaded.
Proof. etrans; [apply created_reach|apply uploaded_step]. Qed.

Lemma saved_reach : rtc pool_step (mkPool [] no_documents) saved.
Proof. etrans; [apply uploaded_reach|apply saved_step]. Qed.

Lemma saved_twice_reach : rtc pool_step (mkPool [] no_documents) saved_twice.
Proof. etrans; [apply saved_reach|etrans; [apply checkpointed_step|apply saved_twice_step]]. Qed.

Lemma undone_reach : rtc pool_step (mkPool [] no_documents) undone.
Proof. etrans; [apply saved_twice_reach|apply undone_step]. Qed.

Lemma pool_interleaved (p : EditPool) :
  rtc pool_step (mkPool [] no_documents) p -> interleaved no_documents (pool_store p).
Proof. destruct p as [ts st]. intros Hr. by exists ts. Qed.

Lemma pool_eta (p : EditPool) : p = mkPool (pool_threads p) (pool_store p).
Proof. by destruct p. Qed.

Lemma reach_parts (R : relation EditPool) (p q : EditPool) :
  R p q -> R (mkPool (pool_threads p) (pool_store p)) (mkPool (pool_threads q) (pool_store q)).
Proof. by rewrite <- !pool_eta. Qed.

(** ** The theorems on these runs *)



Lemma saved_to_twice : rtc pool_step saved saved_twice.
Proof. etrans; [apply checkpointed_step|apply saved_twice_step]. Qed.

Lemma recorded_work_is_kept_witness :
  exists kept new, es_revisions (pool_store saved_twice) = kept ++ new
  /\ Forall2 (fun r r' => r' = r \/ rv_StorageKey r = "" /\ exists key, r' = set_rv_StorageKey key r)
       (es_revisions (pool_store saved)) kept /\ length new = 1%nat.
Proof.
  destruct (recorded_work_is_kept (pool_threads saved) (pool_store saved) (pool_threads saved_twice) (pool_store saved_twice)
    (reach_parts _ _ _ saved_reach) (reach_parts _ _ _ saved_to_twice)) as ((kept & new & Hn & HF) & _).
  exists kept, new. split; [exact Hn|]. split; [exact HF|].
  apply Forall2_length in HF. apply (f_equal length) in Hn. rewrite length_app in Hn.
  assert (length (es_revisions (pool_store saved)) = 2%nat) as E1 by by vm_compute.
  assert (length (es_revisions (pool_store saved_twice)) = 3%nat) as E2 by by vm_compute.
  rewrite E1 in HF. rewrite E2 in Hn. lia.
Defined.



Lemma one_document_per_controlled_document_witness :
  d_controlled_document_id (dr_doc (the_document saved)) = Some "cd" /\ dr_revision_number (the_document saved) = 1.
Proof.
  assert (the_document saved ∈ es_documents (pool_store saved)) as Hd by (vm_compute; left).
  split; [by vm_compute|].
  exact (proj2 (one_document_per_controlled_document _ (the_document saved) (the_document saved) "cd"
    (pool_interleaved _ saved_reach) Hd Hd eq_refl eq_refl)).
Defined.

Lemma checkpoint_numbers_count_up_witness :
  versions_of doc (pool_store saved_twice) = [1]
  /\ Z.of_nat (length (versions_of doc (pool_store saved_twice))) <= int4_max.
Proof.
  split; [by vm_compute|]. exact (proj2 (checkpoint_numbers_count_up _ doc (pool_interleaved _ saved_twice_reach))).
Defined.

(** ** Requests on their own *)

(** A run without failures, as [finishes]. *)
Lemma ran {A} (m : PM EditOp A) t st : finishes m st (Programs.run_prog draw m t st).1.1 (Programs.run_prog draw m t st).2.
Proof. apply run_prog_finishes. Qed.



(** Two commits of one upload in flight at once: the second overtakes. *)
Definition the_commit : EditCall := CallCommitAutosave (commit (pending_of 100)).
Definition with_request (c : EditCall) (p : EditPool) : EditPool := mkPool (pool_threads p ++ [serve c]) (pool_store p).
Definition commit_started : EditPool := exec (steps 2 2) 111 (with_request the_commit uploaded).
Definition both_committed : EditPool := exec (steps 3 6 ++ steps 2 6) 141 (with_request the_commit commit_started).

Lemma started_reach es t c (p q : EditPool) :
  q = exec es t (with_request c p) ->
  rtc pool_step (mkPool (pool_threads p ++ [serve c]) (pool_store p)) (mkPool (pool_threads q) (pool_store q)).
Proof. intros ->. rewrite <- pool_eta. apply exec_reach. Qed.

Lemma commit_is_idempotent_witness :
  let r1 := mkCommitResult "u144-0" 2 true in let r2 := mkCommitResult "u144-0" 2 false in
  pool_threads both_committed !! 2%nat = Some (Ret (inr (ReplyCommitted r1)))
  /\ pool_threads both_committed !! 3%nat = Some (Ret (inr (ReplyCommitted r2)))
  /\ cr_RevisionID r1 = cr_RevisionID r2.
Proof.
  intros r1 r2.
  assert (pool_threads both_committed !! 2%nat = Some (Ret (inr (ReplyCommitted r1)))) as E1 by by vm_compute.
  assert (pool_threads both_committed !! 3%nat = Some (Ret (inr (ReplyCommitted r2)))) as E2 by by vm_compute.
  assert (length (pool_threads uploaded) = 2%nat) as L1 by by vm_compute.
  assert (length (pool_threads commit_started) = 3%nat) as L2 by by vm_compute.
  split_and!; [exact E1|exact E2|]. rewrite <- L1 in E1. rewrite <- L2 in E2.
  refine (proj1 (commit_is_idempotent (commit (pending_of 100)) (commit (pending_of 100)) r1 r2
    (pool_threads uploaded) (pool_store uploaded) (pool_threads commit_started) (pool_store commit_started)
    (pool_threads both_committed) (pool_store both_committed) (reach_parts _ _ _ uploaded_reach) _ _ E1 E2 eq_refl)).
  - apply (started_reach (steps 2 2) 111 the_commit). unfold commit_started. apply eq_refl.
  - apply (started_reach (steps 3 6 ++ steps 2 6) 141 the_commit). unfold both_committed. apply eq_refl.
Defined.


Lemma earlier_content_cannot_be_saved_again_witness :
  exists x st', finishes (CommitAutosave (commit (pending_of 300))) (pool_store undone) x st' /\ exists e, x = inl e.
Proof.
  exists (Programs.run_prog draw (CommitAutosave (commit (pending_of 300))) 310 (pool_store undone)).1.1,
    (Programs.run_prog draw (CommitAutosave (commit (pending_of 300))) 310 (pool_store undone)).2.
  split; [apply ran|].
  refine (earlier_content_cannot_be_saved_again (commit (pending_of 300))
    (nth 2 (es_pending (pool_store undone)) (mkPendingUpload "" "" "" "" "" "" 0 0 None))
    (nth 1 (es_revisions (pool_store undone)) (mkRevision "" "" 0 None "" "" "" None 0))
    (pool_store undone) _ _ (pool_interleaved _ undone_reach) _ _ _ _ _ _ (ran _ _ _));
    try (vm_compute; reflexivity).
  - vm_compute. right. right. left.
  - vm_compute. right. left.
Defined.

Lemma finalize_and_archive_always_fail_witness :
  exists e, (Programs.run_prog draw (Finalize "acme" doc "ana") 200 (pool_store saved)).1.1 = inl e.
Proof.
  exact (finalize_and_archive_always_fail "acme" doc "ana" false (pool_store saved) _ _ (pool_interleaved _ saved_reach)
    (or_introl (ran _ _ _))).
Defined.

Lemma restoring_changes_nothing_witness :
  exists r st', finishes (RestoreCheckpoint "acme" doc "ana" 1) (pool_store saved_twice) (inr r) st'
  /\ rr_CheckpointRevID r = second_rev /\ dr_current_revision_id (the_document saved_twice) = Some third_rev
  /\ es_documents st' = es_documents (pool_store saved_twice).
Proof.
  set (run := Programs.run_prog draw (RestoreCheckpoint "acme" doc "ana" 1) 400 (pool_store saved_twice)).
  pose proof (ran (RestoreCheckpoint "acme" doc "ana" 1) 400 (pool_store saved_twice)) as Hf. fold run in Hf.
  assert (run.1.1 = inr (mkRestoreResult second_rev 2 second_rev true)) as Hr by by vm_compute. rewrite Hr in Hf.
  exists (mkRestoreResult second_rev 2 second_rev true), run.2. split_and!; [exact Hf|done|by vm_compute|].
  exact (proj1 (proj2 (proj2 (restoring_changes_nothing _ _ _ _ _ _ _ (pool_interleaved _ saved_twice_reach) Hf)))).
Defined.

(** The first upload reserved again, a minute later. *)
Lemma renewed_reservation_keeps_its_deadline_witness :
  exists res st' q, finishes (PresignAutosave (reserve first_rev hash_one)) (pool_store uploaded) (inr res) st'
  /\ q ∈ es_pending (pool_store uploaded) /\ q ∈ es_pending st' /\ pr_PendingUploadID res = pu_ID q
  /\ pr_ExpiresAt res = 60 * 10 ^ 9 + 2 + fifteen_minutes
  /\ pu_ExpiresAt (nth 0 (es_pending (pool_store uploaded)) (mkPendingUpload "" "" "" "" "" "" 0 0 None)) = 103 + fifteen_minutes.
Proof.
  set (run := Programs.run_prog draw (PresignAutosave (reserve first_rev hash_one)) (60 * 10 ^ 9) (pool_store uploaded)).
  pose proof (ran (PresignAutosave (reserve first_rev hash_one)) (60 * 10 ^ 9) (pool_store uploaded)) as Hf. fold run in Hf.
  set (res := mkPresignAutosaveResult ("PUT " +:+ revision_key "acme" doc hash_one) (pending_of 100) (60 * 10 ^ 9 + 2 + fifteen_minutes)).
  assert (run.1.1 = inr res) as Hr by by vm_compute. rewrite Hr in Hf. exists res, run.2.
  destruct (renewed_reservation_keeps_its_deadline (reserve first_rev hash_one)
    (nth 0 (es_pending (pool_store uploaded)) (mkPendingUpload "" "" "" "" "" "" 0 0 None))
    (pool_store uploaded) res run.2 (pool_interleaved _ uploaded_reach)) as (q & Hq & Hq' & _ & Hid);
    [vm_compute; left|split_and!; by vm_compute|exact Hf|].
  exists q. split_and!; [exact Hf|exact Hq|exact Hq'|exact Hid|done|by vm_compute].
Defined.

Lemma saved_rows_accepted : rows_accepted (pool_store saved).
Proof.
  intros d Hd. change (es_documents (pool_store saved)) with [the_document saved] in Hd.
  apply list_elem_of_singleton in Hd as ->. by vm_compute.
Qed.

Lemma sweeper_closes_stale_sessions_witness :
  (Programs.run_prog draw (sweep_sessions (10 ^ 12)) 0 (pool_store saved)).1.1 = inr 1
  /\ (Programs.run_prog draw (sweep_sessions 10) 0 (pool_store saved)).1.1 = inl ErrNoRows
  /\ dr_active_session_id (nth 0 (es_documents (swept (10 ^ 12) 0 (pool_store saved))) (the_document created)) = None.
Proof.
  split_and!; [| |by vm_compute].
  - rewrite (proj1 (sweeper_closes_stale_sessions draw (10 ^ 12) 0 _ (pool_interleaved _ saved_reach) saved_rows_accepted)).
    by vm_compute.
  - rewrite (proj1 (sweeper_closes_stale_sessions draw 10 0 _ (pool_interleaved _ saved_reach) saved_rows_accepted)).
    by vm_compute.
Defined.

(** Who opens the document after a tick of the sweeper. *)
Definition next_writer (st : EditStore) : Result (Session * bool) :=
  (Programs.run_prog draw (AcquireSession "acme" doc "bia") (10 ^ 12 + 5)
     (Programs.run_prog draw (sweep_sessions (10 ^ 12)) (10 ^ 12) st).2).1.1.

Lemma abandoned_document_is_taken_over_witness :
  dr_current_revision_id (the_document saved) = Some second_rev
  /\ exists s, next_writer (pool_store saved) = inr (s, false)
  /\ se_UserID s = "bia" /\ Some (se_LastAcknowledgedRevisionID s) = dr_current_revision_id (the_document saved).
Proof.
  split; [by vm_compute|]. unfold next_writer.
  assert (the_document saved ∈ es_documents (pool_store saved)) as Hd by (vm_compute; left).
  assert (uuid_in doc = Some (dr_id (the_document saved))) as Hdoc by by vm_compute.
  assert (uuid_in "acme" = Some (dr_tenant_id (the_document saved))) as Hten by by vm_compute.
  assert (forall s, s ∈ es_sessions (pool_store saved) -> se_DocumentID s = dr_id (the_document saved) ->
    se_Status s = SessionActive -> se_ExpiresAt s < 10 ^ 12) as Hstale.
  { intros s Hs _ _. change (es_sessions (pool_store saved)) with
      [nth 0 (es_sessions (pool_store saved)) (mkSession "" "" "" 0 0 None "" SessionActive)] in Hs.
    apply list_elem_of_singleton in Hs as ->. by vm_compute. }
  assert (dw_uuid (draw (10 ^ 12 + 5)) 0 ∉ se_ID <$> es_sessions (pool_store saved)) as Hfresh.
  { intros Hin. vm_compute in Hin. apply list_elem_of_singleton in Hin. discriminate Hin. }
  exact (abandoned_document_is_taken_over draw (10 ^ 12) (10 ^ 12) (10 ^ 12 + 5) (pool_store saved) (the_document saved)
    doc "acme" "bia" (pool_interleaved _ saved_reach) saved_rows_accepted Hd Hdoc Hten Hstale Hfresh).
Defined.

(** ** A commit overtakes a submission *)

(** The document is put under review, which is the work of the approval core. *)
Definition submit_all (p : EditPool) : EditPool :=
  mkPool (pool_threads p)
    (with_documents (map (fun d => mkDocumentRow (doc_set StateUnderReview (d_revision_version (dr_doc d) + 1) (dr_doc d))
       (dr_template_version_id d) (dr_name d) (dr_form_data_json d) (dr_current_revision_id d) (dr_active_session_id d)
       (dr_finalized_at d) (dr_archived_at d) (dr_created_at d) (dr_updated_at d) (dr_profile_code_snapshot d)
       (dr_code d) (dr_revision_number d)) (es_documents (pool_store p))) (pool_store p)).

Lemma submit_reach p : pool_step p (submit_all p).
Proof.
  destruct p as [ts st]. apply pool_outside, outside_documents.
  apply Forall2_fmap_r, Forall_Forall2_diag, Forall_forall. by intros d _.
Qed.

(** The commit has read the draft; then the document is submitted; then the
    commit writes. *)
Definition overtaken : EditPool := submit_all commit_started.
Definition overtaking : EditPool := exec (steps 2 6) 141 overtaken.

(** The guard of drafts does not hold against a submission at the same time:
    a commit that read the draft before changes the head and the form data of a
    document that is under review. *)
Theorem commit_overtakes_a_submission :
  exists p p' : EditPool,
    rtc pool_step (mkPool [] no_documents) p /\ rtc pool_step p p'
    /\ dr_status (the_document p) = StateUnderReview /\ dr_status (the_document p') = StateUnderReview
    /\ dr_id (the_document p') = dr_id (the_document p)
    /\ dr_current_revision_id (the_document p') <> dr_current_revision_id (the_document p)
    /\ dr_form_data_json (the_document p') <> dr_form_data_json (the_document p).
Proof.
  exists overtaken, overtaking.
  split_and!; [| |by vm_compute|by vm_compute|by vm_compute|by vm_compute|by vm_compute].
  - eapply rtc_r; [|apply submit_reach]. etrans; [apply uploaded_reach|].
    eapply rtc_l; [|apply exec_reach]. apply pool_request.
  - apply exec_reach.
Qed.
