(* ===== verification/AuthDomain.v ===== *)
(** * Authentication: domain

    [iam/domain/model.go], [auth/domain/model.go], [auth/domain/errors.go] and
    the configuration of [auth/application]: roles, identities with their lock
    state, sessions, and the parameters of the user operations. *)
From S2P Require Import Prelude Programs.
Local Open Scope Z_scope.

(** ** Roles *)

Abbreviation Role := string.

Definition RoleAdmin : Role := "admin".
Definition RoleApprover : Role := "approver".
Definition RoleEditor : Role := "editor".
Definition RoleReviewer : Role := "reviewer".
Definition RoleViewer : Role := "viewer".

Definition ErrUserNotFound : Error := Sentinel "iamdomain.ErrUserNotFound".
Definition ErrUserInactive : Error := Sentinel "iamdomain.ErrUserInactive".

(** ** Errors *)

Definition ErrInvalidCredentials : Error := Sentinel "authdomain.ErrInvalidCredentials".
Definition ErrSessionNotFound : Error := Sentinel "authdomain.ErrSessionNotFound".
Definition ErrSessionExpired : Error := Sentinel "authdomain.ErrSessionExpired".
Definition ErrSessionRevoked : Error := Sentinel "authdomain.ErrSessionRevoked".
Definition ErrPasswordPolicy : Error := Sentinel "authdomain.ErrPasswordPolicy".
Definition ErrIdentityLocked : Error := Sentinel "authdomain.ErrIdentityLocked".
Definition ErrIdentityInactive : Error := Sentinel "authdomain.ErrIdentityInactive".
Definition ErrIdentityNotFound : Error := Sentinel "authdomain.ErrIdentityNotFound".
Definition ErrUserAlreadyExists : Error := Sentinel "authdomain.ErrUserAlreadyExists".

(** ** Identities and sessions *)

Record Identity := mkIdentity {
  id_UserID : string;
  id_Username : string;
  id_Email : string;
  id_DisplayName : string;
  id_PasswordHash : string;
  id_PasswordAlgo : string;
  id_MustChangePassword : bool;
  id_LastLoginAt : option Time;
  id_FailedLoginAttempts : Z;
  id_LockedUntil : option Time;
  id_IsActive : bool;
  id_Roles : list Role;
  id_CreatedAt : Time;
  id_UpdatedAt : Time
}.

Record Session := mkSession {
  ss_SessionID : string;
  ss_UserID : string;
  ss_CreatedAt : Time;
  ss_ExpiresAt : Time;
  ss_RevokedAt : option Time;
  ss_IPAddress : string;
  ss_UserAgent : string;
  ss_LastSeenAt : Time
}.

Definition touch_session (seenAt : Time) (s : Session) : Session :=
  mkSession (ss_SessionID s) (ss_UserID s) (ss_CreatedAt s) (ss_ExpiresAt s) (ss_RevokedAt s)
    (ss_IPAddress s) (ss_UserAgent s) seenAt.

Definition revoke_session (revokedAt : Time) (s : Session) : Session :=
  mkSession (ss_SessionID s) (ss_UserID s) (ss_CreatedAt s) (ss_ExpiresAt s) (Some revokedAt)
    (ss_IPAddress s) (ss_UserAgent s) (ss_LastSeenAt s).

Record OnlineUser := mkOnlineUser {
  ou_UserID : string;
  ou_Username : string;
  ou_DisplayName : string;
  ou_LastSeenAt : Time
}.

Record ManagedUser := mkManagedUser {
  mu_UserID : string;
  mu_Username : string;
  mu_Email : string;
  mu_DisplayName : string;
  mu_IsActive : bool;
  mu_MustChangePassword : bool;
  mu_LastLoginAt : option Time;
  mu_FailedLoginAttempts : Z;
  mu_LockedUntil : option Time;
  mu_Roles : list Role;
  mu_CreatedAt : Time;
  mu_UpdatedAt : Time
}.

(** The fields of a [ManagedUser] are those of its [Identity]. *)
Definition managed (i : Identity) : ManagedUser :=
  mkManagedUser (id_UserID i) (id_Username i) (id_Email i) (id_DisplayName i) (id_IsActive i)
    (id_MustChangePassword i) (id_LastLoginAt i) (id_FailedLoginAttempts i) (id_LockedUntil i)
    (id_Roles i) (id_CreatedAt i) (id_UpdatedAt i).

(** ** Parameters of the repository *)

Record CreateUserParams := mkCreateUserParams {
  cu_UserID : string;
  cu_Username : string;
  cu_Email : string;
  cu_DisplayName : string;
  cu_PasswordHash : string;
  cu_PasswordAlgo : string;
  cu_MustChangePassword : bool;
  cu_IsActive : bool;
  cu_Roles : list Role;
  cu_CreatedBy : string
}.

Record UpdateUserParams := mkUpdateUserParams {
  up_UserID : string;
  up_DisplayName : option string;
  up_Email : option string;
  up_IsActive : option bool;
  up_NewPasswordHash : option string;
  up_MustChangePassword : option bool;
  up_ResetLockState : bool
}.

Record BootstrapAdminParams := mkBootstrapAdminParams {
  ba_UserID : string;
  ba_Username : string;
  ba_Email : string;
  ba_DisplayName : string;
  ba_PasswordHash : string;
  ba_PasswordAlgo : string;
  ba_MustChangePassword : bool
}.

Record CurrentUser := mkCurrentUser {
  cr_UserID : string;
  cr_Username : string;
  cr_Email : string;
  cr_DisplayName : string;
  cr_MustChangePassword : bool;
  cr_Roles : list Role
}.

Record AuthenticatedSession := mkAuthenticatedSession {
  as_RawToken : string;
  as_CurrentUser : CurrentUser;
  as_ExpiresAt : Time
}.

(** ** Configuration *)

Record Config := mkConfig {
  cfg_SessionCookieName : string;
  cfg_SessionTTL : Z;
  cfg_SessionSecret : string;
  cfg_PasswordMinLength : Z;
  cfg_LoginMaxFailedAttempts : Z;
  cfg_LoginLockDuration : Z;
  cfg_LegacyHeaderEnabled : bool;
  cfg_OriginProtection : bool;
  cfg_TrustedOrigins : list string;
  cfg_BootstrapAdminEnabled : bool;
  cfg_BootstrapAdminUserID : string;
  cfg_BootstrapAdminUsername : string;
  cfg_BootstrapAdminEmail : string;
  cfg_BootstrapAdminPassword : string;
  cfg_BootstrapAdminName : string;
  cfg_CookieSecure : bool
}.

(** * Authentication: ports

    What the authentication service calls: the identity repository
    ([auth/domain/port.go]), the role provider and the role administration
    ([iam/domain/port.go]), the clock, [crypto/rand] and bcrypt, as the
    operations of one port; and what is a parameter of both stores. *)

(** [golang.org/x/crypto/bcrypt]: the hash of a password with a salt, which may
    fail (passwords over 72 bytes), and the comparison. *)
Class Bcrypt := {
  bcrypt_hash : string -> string -> Result string;
  bcrypt_compare : string -> string -> bool
}.

(** The comparison accepts the password the hash was made from. *)
Class BcryptLaws `{Bcrypt} :=
  bcrypt_accepts : forall salt p h, bcrypt_hash salt p = inr h -> bcrypt_compare h p = true.

(** [strings.ToLower] on Unicode text, and [lower] in the collation of the
    database. *)
Class LetterCase := {
  go_lower : string -> string;
  sql_lower : string -> string
}.

(** What an operation draws: SQL [NOW()], 32 bytes of [rand.Read], a salt. *)
Record AuthDraw := mkAuthDraw {
  ad_now : Time;
  ad_bytes : list Z;
  ad_salt : string;
  ad_length : length ad_bytes = 32%nat
}.

Inductive AuthOp : Type -> Type :=
  | FindIdentityByIdentifier (identifier : string) : AuthOp Identity
  | FindIdentityByUserID (userID : string) : AuthOp Identity
  | CreateSession (session : Session) : AuthOp unit
  | FindSession (sessionID : string) : AuthOp Session
  | TouchSession (sessionID : string) (seenAt : Time) : AuthOp unit
  | RevokeSession (sessionID : string) (revokedAt : Time) : AuthOp unit
  | RevokeSessionsByUserID (userID : string) (revokedAt : Time) : AuthOp unit
  | RecordSuccessfulLogin (userID : string) (loginAt : Time) : AuthOp unit
  | RecordFailedLogin (userID : string) (failedAttempts : Z) (lockedUntil : option Time) : AuthOp unit
  | CreateUserOp (params : CreateUserParams) : AuthOp unit
  | ListUsersOp : AuthOp (list ManagedUser)
  | UpdateUserOp (params : UpdateUserParams) : AuthOp unit
  | ListOnlineUsersOp (activeSince : Time) : AuthOp (list OnlineUser)
  | BootstrapAdmin (params : BootstrapAdminParams) : AuthOp bool
  | RolesByUserID (userID : string) : AuthOp (list Role)
  | HasAnyRole (role : Role) : AuthOp bool
  | UpsertUserAndAssignRole (userID displayName : string) (role : Role) (assignedBy : string) : AuthOp unit
  | ReplaceUserRoles (userID displayName : string) (roles : list Role) (assignedBy : string) : AuthOp unit
  | TimeNow : AuthOp Time
  | RandRead : AuthOp (list Z)
  | GenerateFromPassword (password : string) : AuthOp string.

(** Reading the clock does not fail. *)
Definition auth_fallible {B} (o : AuthOp B) : bool :=
  match o with TimeNow => false | _ => true end.
