(* ===== verification/AuthToken.v ===== *)
(** * Session tokens

    A session cookie is a random token and its signature: [newSessionToken],
    [tokenHashFromCookieValue], [signToken] and [hashToken] of
    [auth/application], with the HMAC and the unpadded URL base64 of Go's
    standard library. The store knows a session by the hash of its token. *)
From S2P Require Import Prelude Text Sha256 AuthDomain.
From Stdlib Require Import Ascii.
Local Open Scope Z_scope.

(** ** base64.RawURLEncoding *)

Definition b64_char (d : Z) : Ascii.ascii :=
  char_of (Z.to_nat (if d <? 26 then d + 65 else if d <? 52 then d + 71
                     else if d <? 62 then d - 4 else if d =? 62 then 45 else 95)).

(** The six bits of [v] from bit [n]. *)
Definition sextet (v : Z) (n : Z) : Ascii.ascii := b64_char (Z.land (Z.shiftr v n) 63).

Fixpoint RawURLEncode (bytes : list Z) : string :=
  match bytes with
  | a :: b :: c :: rest =>
      let v := Z.lor (Z.shiftl a 16) (Z.lor (Z.shiftl b 8) c) in
      String (sextet v 18) (String (sextet v 12) (String (sextet v 6) (String (sextet v 0)
        (RawURLEncode rest))))
  | [a; b] =>
      let v := Z.lor (Z.shiftl a 16) (Z.shiftl b 8) in
      String (sextet v 18) (String (sextet v 12) (String (sextet v 6) ""))
  | [a] =>
      let v := Z.shiftl a 16 in String (sextet v 18) (String (sextet v 12) "")
  | [] => ""
  end.

(** ** crypto/hmac with SHA-256 *)

Definition hmac_key (key : list Z) : list Z :=
  let k := if Nat.ltb 64 (length key) then Sum256 key else key in
  k ++ replicate (64 - length k) 0.

Definition hmac_sha256 (key msg : list Z) : list Z :=
  let k := hmac_key key in
  Sum256 ((Z.lxor 92 <$> k) ++ Sum256 ((Z.lxor 54 <$> k) ++ msg)).

(** RFC 4231, test case 2. *)
Example hmac_sha256_rfc4231 :
  EncodeToString (hmac_sha256 (bytes_of_string "Jefe") (bytes_of_string "what do ya want for nothing?"))
  = "5bdcc146bf60754e6a042426089575c75a003f089d2739839dec58b964ec3843".
Proof. vm_compute. reflexivity. Qed.

(** ** Cookies *)

Definition signToken (secret token : string) : string :=
  RawURLEncode (hmac_sha256 (bytes_of_string secret) (bytes_of_string token)).

Definition hashToken (raw : string) : string := sha256_hex raw.

(** From the bytes of [rand.Read]: the cookie and the identifier of the session. *)
Definition newSessionToken (secret : string) (buf : list Z) : string * string :=
  let token := RawURLEncode buf in
  (token +:+ "." +:+ signToken secret token, hashToken token).

Definition dot : Ascii.ascii := char_of 46.

Definition tokenHashFromCookieValue (secret raw : string) : Result string :=
  match Split (TrimSpace raw) dot with
  | [token; signature] =>
      if str_eqb token "" || str_eqb signature "" then inl ErrSessionNotFound
      else if negb (str_eqb signature (signToken secret token)) then inl ErrSessionNotFound
      else inr (hashToken token)
  | _ => inl ErrSessionNotFound
  end.

(** ** Facts *)

(** Characters of the encoding: visible, and never a dot. *)
Definition token_char (c : Ascii.ascii) : bool := visible c && negb (Ascii.eqb c dot).

Lemma sextet_token v n : token_char (sextet v n) = true.
Proof.
  unfold sextet. assert (0 <= Z.land (Z.shiftr v n) 63 < 64) as Hr.
  { change 63 with (Z.ones 6). rewrite Z.land_ones by lia. apply Z.mod_pos_bound. lia. }
  revert Hr. generalize (Z.land (Z.shiftr v n) 63). intros d Hd.
  assert (forallb (fun k => token_char (b64_char (Z.of_nat k))) (seq 0 64) = true) as HF by by vm_compute.
  rewrite forallb_forall in HF. rewrite <- (Z2Nat.id d) by lia. apply HF, in_seq. lia.
Qed.

Definition all_token (s : string) : Prop := Forall (fun c => token_char c = true) (chars s).

Lemma RawURLEncode_token bytes : all_token (RawURLEncode bytes).
Proof.
  assert (forall n bs, (length bs <= n)%nat -> all_token (RawURLEncode bs)) as H;
    [|by apply (H (length bytes))].
  intros n. induction n as [|n IH]; intros bs Hn.
  { destruct bs; [constructor|simpl in Hn; lia]. }
  destruct bs as [|a [|b [|c bs]]]; simpl; [constructor|..];
    repeat (constructor; [apply sextet_token|]); try constructor.
  apply IH. simpl in Hn. lia.
Qed.

Lemma RawURLEncode_nonempty bytes : bytes <> [] -> RawURLEncode bytes <> "".
Proof. by destruct bytes as [|a [|b [|c bs]]]. Qed.

Lemma all_token_no_dot s : all_token s -> dot ∉ chars s.
Proof.
  intros Hs Hd. unfold all_token in Hs. rewrite Forall_forall in Hs. by specialize (Hs dot Hd).
Qed.

Lemma all_token_starts s t : all_token s -> s <> "" -> starts_visible (s +:+ t) = true.
Proof.
  intros Hs Hne. destruct s as [|c s]; [done|]. inversion Hs as [|? ? Hc]; subst.
  by apply andb_true_iff in Hc as [Hv _].
Qed.

Lemma all_token_rev s : all_token s -> all_token (rev_string s).
Proof.
  unfold all_token, chars, rev_string. rewrite String.list_ascii_of_string_of_list_ascii.
  apply Forall_rev.
Qed.

Lemma signToken_token secret token : all_token (signToken secret token).
Proof. apply RawURLEncode_token. Qed.

Lemma signToken_nonempty secret token : signToken secret token <> "".
Proof.
  apply RawURLEncode_nonempty. unfold hmac_sha256. intros H.
  match type of H with Sum256 ?m = _ => destruct (Sum256_shape m) as [Hl _] end.
  by rewrite H in Hl.
Qed.

Lemma rev_string_nonempty s : s <> "" -> rev_string s <> "".
Proof. intros Hs H. apply Hs. by rewrite <- (rev_string_involutive s), H. Qed.

(** What a session cookie is: the value names the session of a token if
    and only if, white space aside, it is that token, a dot, and the signature
    of the token under the secret. *)
Theorem cookies_are_signed_tokens secret raw h :
  tokenHashFromCookieValue secret raw = inr h <->
  exists token, token <> "" /\ dot ∉ chars token /\
    TrimSpace raw = token +:+ "." +:+ signToken secret token /\ h = hashToken token.
Proof.
  unfold tokenHashFromCookieValue. split.
  - destruct (Split (TrimSpace raw) dot) as [|t [|sg [|]]] eqn:Hs; try done.
    apply Split_two in Hs as (Hraw & Ht & _).
    destruct (str_eqb t "" || str_eqb sg "") eqn:He; [done|].
    destruct (str_eqb sg (signToken secret t)) eqn:Hsig; [|done]. intros [= <-].
    bool_to_prop. subst sg. by exists t.
  - intros (t & Hne & Ht & Hraw & ->).
    assert (Split (TrimSpace raw) dot = [t; signToken secret t]) as ->.
    { apply Split_two. split_and!; [done|done|]. apply all_token_no_dot, signToken_token. }
    pose proof (signToken_nonempty secret t) as Hsig.
    apply str_eqb_false in Hne as ->. apply str_eqb_false in Hsig as ->.
    by rewrite str_eqb_refl.
Qed.

Lemma cookie_trimmed secret buf :
  buf <> [] -> TrimSpace (newSessionToken secret buf).1 = (newSessionToken secret buf).1
               /\ (newSessionToken secret buf).1 <> "".
Proof.
  intros Hb. pose proof (RawURLEncode_token buf) as Ht. pose proof (RawURLEncode_nonempty buf Hb) as Hne.
  cbn [newSessionToken fst]. split; [|by destruct (RawURLEncode buf)].
  apply TrimSpace_visible; [by apply all_token_starts|].
  rewrite !rev_string_app, string_app_assoc.
  apply all_token_starts; [apply all_token_rev, signToken_token|].
  apply rev_string_nonempty, signToken_nonempty.
Qed.

Lemma cookie_accepted secret buf :
  buf <> [] ->
  tokenHashFromCookieValue secret (newSessionToken secret buf).1 = inr (newSessionToken secret buf).2.
Proof.
  intros Hb. unfold tokenHashFromCookieValue. rewrite (proj1 (cookie_trimmed secret buf Hb)).
  pose proof (RawURLEncode_nonempty buf Hb) as Hne. pose proof (signToken_nonempty secret (RawURLEncode buf)) as Hs.
  assert (Split (newSessionToken secret buf).1 dot = [RawURLEncode buf; signToken secret (RawURLEncode buf)]) as ->.
  { apply Split_two. split_and!; [done|apply all_token_no_dot..]; [apply RawURLEncode_token|apply signToken_token]. }
  apply str_eqb_false in Hne as ->. apply str_eqb_false in Hs as ->. by rewrite str_eqb_refl.
Qed.

(** The round trip: the cookie made from random bytes, whatever white space
    surrounds it in the header, is accepted and names the session it was made
    with. *)
Theorem new_cookies_are_accepted secret buf raw :
  buf <> [] -> TrimSpace raw = (newSessionToken secret buf).1 ->
  tokenHashFromCookieValue secret raw = inr (newSessionToken secret buf).2.
Proof.
  intros Hb Hraw. pose proof (cookie_accepted secret buf Hb) as Ha. unfold tokenHashFromCookieValue in *.
  by rewrite Hraw, <- (proj1 (cookie_trimmed secret buf Hb)).
Qed.
