(* ===== verification/AuthMemory.v ===== *)
(** * Authentication: the store in memory

    [auth/infrastructure/memory/repository.go], which is the identity
    repository, the role provider and the role administration of a server that
    runs without a database: three maps under one mutex. *)
From S2P Require Import Prelude Text Programs AuthDomain.
Local Open Scope Z_scope.

Record MemStore := mkMemStore {
  ms_users : gmap string Identity;
  ms_byLogin : gmap string string;
  ms_sessions : gmap string Session
}.

Definition NewRepository : MemStore := mkMemStore ∅ ∅ ∅.

Definition with_users x m := mkMemStore x (ms_byLogin m) (ms_sessions m).
Definition with_byLogin x m := mkMemStore (ms_users m) x (ms_sessions m).
Definition with_mem_sessions x m := mkMemStore (ms_users m) (ms_byLogin m) x.

(** ** Updates of an identity *)

Definition set_login (loginAt : Time) (i : Identity) : Identity :=
  mkIdentity (id_UserID i) (id_Username i) (id_Email i) (id_DisplayName i) (id_PasswordHash i)
    (id_PasswordAlgo i) (id_MustChangePassword i) (Some loginAt) 0 None (id_IsActive i)
    (id_Roles i) (id_CreatedAt i) loginAt.

Definition set_failed (n : Z) (lockedUntil : option Time) (now : Time) (i : Identity) : Identity :=
  mkIdentity (id_UserID i) (id_Username i) (id_Email i) (id_DisplayName i) (id_PasswordHash i)
    (id_PasswordAlgo i) (id_MustChangePassword i) (id_LastLoginAt i) n lockedUntil (id_IsActive i)
    (id_Roles i) (id_CreatedAt i) now.

(** The SET clauses of [UpdateUser] in memory. *)
Definition set_user (p : UpdateUserParams) (now : Time) (i : Identity) : Identity :=
  mkIdentity (id_UserID i) (id_Username i)
    (match up_Email p with Some e => TrimSpace e | None => id_Email i end)
    (match up_DisplayName p with Some n => TrimSpace n | None => id_DisplayName i end)
    (default (id_PasswordHash i) (up_NewPasswordHash p))
    (match up_NewPasswordHash p with Some _ => "bcrypt" | None => id_PasswordAlgo i end)
    (default (id_MustChangePassword i) (up_MustChangePassword p))
    (id_LastLoginAt i)
    (if up_ResetLockState p then 0 else id_FailedLoginAttempts i)
    (if up_ResetLockState p then None else id_LockedUntil i)
    (default (id_IsActive i) (up_IsActive p))
    (id_Roles i) (id_CreatedAt i) now.

Definition set_roles (displayName : string) (roles : list Role) (now : Time) (i : Identity) : Identity :=
  mkIdentity (id_UserID i) (id_Username i) (id_Email i)
    (if str_eqb (TrimSpace displayName) "" then id_DisplayName i else TrimSpace displayName)
    (id_PasswordHash i) (id_PasswordAlgo i) (id_MustChangePassword i) (id_LastLoginAt i)
    (id_FailedLoginAttempts i) (id_LockedUntil i) true roles (id_CreatedAt i) now.

(** ** Operations *)

Section memory.
Context `{LetterCase} `{Bcrypt}.

Definition login_key (s : string) : string := go_lower (TrimSpace s).

Definition mem_find_identifier (identifier : string) (m : MemStore) : Result Identity :=
  match ms_byLogin m !! login_key identifier with
  | None => inl ErrIdentityNotFound
  | Some userID =>
      match ms_users m !! userID with Some i => inr i | None => inl ErrIdentityNotFound end
  end.

Definition mem_find_user (userID : string) (m : MemStore) : Result Identity :=
  match ms_users m !! TrimSpace userID with Some i => inr i | None => inl ErrIdentityNotFound end.

(** Look up, change, store back. *)
Definition mem_update_user (userID : string) (f : Identity -> Identity) (m : MemStore)
    : Result unit * MemStore :=
  match ms_users m !! userID with
  | None => (inl ErrIdentityNotFound, m)
  | Some i => (inr tt, with_users (<[userID := f i]> (ms_users m)) m)
  end.

Definition mem_touch (sessionID : string) (seenAt : Time) (m : MemStore) : Result unit * MemStore :=
  match ms_sessions m !! sessionID with
  | None => (inl ErrSessionNotFound, m)
  | Some s => (inr tt, with_mem_sessions (<[sessionID := touch_session seenAt s]> (ms_sessions m)) m)
  end.

Definition mem_revoke (sessionID : string) (revokedAt : Time) (m : MemStore) : MemStore :=
  match ms_sessions m !! sessionID with
  | None => m
  | Some s => with_mem_sessions (<[sessionID := revoke_session revokedAt s]> (ms_sessions m)) m
  end.

Definition live_session_of (userID : string) (s : Session) : bool :=
  str_eqb (ss_UserID s) userID && bool_decide (ss_RevokedAt s = None).

Definition mem_revoke_user (userID : string) (revokedAt : Time) (m : MemStore) : MemStore :=
  with_mem_sessions
    ((fun s => if live_session_of userID s then revoke_session revokedAt s else s) <$> ms_sessions m) m.

Definition mem_create_user (p : CreateUserParams) (now : Time) (m : MemStore) : Result unit * MemStore :=
  let refuse := (inl ErrUserAlreadyExists, m) in
  match ms_users m !! cu_UserID p with
  | Some _ => refuse
  | None =>
      let loginKey := go_lower (cu_Username p) in
      let emailKey := login_key (cu_Email p) in
      if str_eqb loginKey "" then refuse
      else if bool_decide (is_Some (ms_byLogin m !! loginKey)) then refuse
      else if negb (str_eqb emailKey "") && bool_decide (is_Some (ms_byLogin m !! emailKey)) then refuse
      else
        let byLogin := if str_eqb emailKey "" then ms_byLogin m
                       else <[emailKey := cu_UserID p]> (ms_byLogin m) in
        (inr tt, mkMemStore
          (<[cu_UserID p := mkIdentity (cu_UserID p) (cu_Username p) (cu_Email p) (cu_DisplayName p)
               (cu_PasswordHash p) (cu_PasswordAlgo p) (cu_MustChangePassword p) None 0 None
               (cu_IsActive p) (cu_Roles p) now now]> (ms_users m))
          (<[loginKey := cu_UserID p]> byLogin) (ms_sessions m))
  end.

(** The login keys after a change of email. *)
Definition rekey (i : Identity) (email : option string) (byLogin : gmap string string)
    : gmap string string :=
  match email with
  | None => byLogin
  | Some e =>
      let old := login_key (id_Email i) in
      let cleared := if str_eqb old "" then byLogin else delete old byLogin in
      let new := login_key (TrimSpace e) in
      if str_eqb new "" then cleared else <[new := id_UserID i]> cleared
  end.

Definition mem_change_user (p : UpdateUserParams) (now : Time) (m : MemStore) : Result unit * MemStore :=
  match ms_users m !! up_UserID p with
  | None => (inl ErrIdentityNotFound, m)
  | Some i =>
      (inr tt, mkMemStore (<[up_UserID p := set_user p now i]> (ms_users m))
                 (rekey i (up_Email p) (ms_byLogin m)) (ms_sessions m))
  end.

Definition holds_role (role : Role) (i : Identity) : bool := bool_decide (role ∈ id_Roles i).

Definition mem_any_role (role : Role) (m : MemStore) : bool :=
  existsb (fun e => holds_role role e.2) (map_to_list (ms_users m)).

Definition mem_bootstrap (p : BootstrapAdminParams) (now : Time) (m : MemStore) : bool * MemStore :=
  if mem_any_role RoleAdmin m then (false, m)
  else
    let byLogin := <[go_lower (ba_Username p) := ba_UserID p]> (ms_byLogin m) in
    let email := login_key (ba_Email p) in
    (true, mkMemStore
      (<[ba_UserID p := mkIdentity (ba_UserID p) (ba_Username p) (ba_Email p) (ba_DisplayName p)
           (ba_PasswordHash p) (ba_PasswordAlgo p) (ba_MustChangePassword p) None 0 None true
           [RoleAdmin] now now]> (ms_users m))
      (if str_eqb email "" then byLogin else <[email := ba_UserID p]> byLogin) (ms_sessions m)).

Definition mem_roles (userID : string) (m : MemStore) : Result (list Role) :=
  match ms_users m !! userID with
  | None => inl ErrUserNotFound
  | Some i =>
      if negb (id_IsActive i) then inl ErrUserInactive
      else match id_Roles i with [] => inl ErrUserNotFound | rs => inr rs end
  end.

(** The identity a role is given to: a new one has no password. *)
Definition mem_role_user (userID displayName : string) (now : Time) (m : MemStore) : Identity * MemStore :=
  match ms_users m !! userID with
  | Some i => (i, m)
  | None =>
      (mkIdentity userID userID "" displayName "" "" false None 0 None true [] now now,
       with_byLogin (<[go_lower userID := userID]> (ms_byLogin m)) m)
  end.

Definition mem_grant (userID displayName : string) (f : list Role -> list Role) (now : Time)
    (m : MemStore) : MemStore :=
  let '(i, m1) := mem_role_user userID displayName now m in
  with_users (<[userID := set_roles displayName (f (id_Roles i)) now i]> (ms_users m1)) m1.

Definition add_role (role : Role) (roles : list Role) : list Role :=
  if bool_decide (role ∈ roles) then roles else roles ++ [role].

(** ** Who is online *)

Definition is_online (now cutoff : Time) (s : Session) : bool :=
  bool_decide (ss_RevokedAt s = None) && negb (ss_ExpiresAt s <? now) && negb (ss_LastSeenAt s <? cutoff).

Definition later_seen (latest : gmap string Time) (s : Session) : gmap string Time :=
  match latest !! ss_UserID s with
  | Some current =>
      if current <? ss_LastSeenAt s then <[ss_UserID s := ss_LastSeenAt s]> latest else latest
  | None => <[ss_UserID s := ss_LastSeenAt s]> latest
  end.

Definition latest_by_user (l : list Session) : gmap string Time := fold_left later_seen l ∅.

Definition mem_online (activeSince now : Time) (m : MemStore) : list OnlineUser :=
  let latest := latest_by_user (bfilter (is_online now activeSince) (map_to_list (ms_sessions m)).*2) in
  omap (fun e =>
    match ms_users m !! e.1 with
    | Some i => if id_IsActive i then Some (mkOnlineUser (id_UserID i) (id_Username i) (id_DisplayName i) e.2) else None
    | None => None
    end) (map_to_list latest).

(** ** The port *)

Definition read_mem {A} (r : Result A) (m : MemStore) : Result A * MemStore := (r, m).

Definition mem_step {B} (o : AuthOp B) (now : Time) (u : AuthDraw) (m : MemStore) : Result B * MemStore :=
  match o in AuthOp B return Result B * MemStore with
  | FindIdentityByIdentifier identifier => read_mem (mem_find_identifier identifier m) m
  | FindIdentityByUserID userID => read_mem (mem_find_user userID m) m
  | CreateSession s => (inr tt, with_mem_sessions (<[ss_SessionID s := s]> (ms_sessions m)) m)
  | FindSession sessionID =>
      read_mem (match ms_sessions m !! sessionID with Some s => inr s | None => inl ErrSessionNotFound end) m
  | TouchSession sessionID seenAt => mem_touch sessionID seenAt m
  | RevokeSession sessionID revokedAt => (inr tt, mem_revoke sessionID revokedAt m)
  | RevokeSessionsByUserID userID revokedAt => (inr tt, mem_revoke_user userID revokedAt m)
  | RecordSuccessfulLogin userID loginAt => mem_update_user userID (set_login loginAt) m
  | RecordFailedLogin userID n lockedUntil => mem_update_user userID (set_failed n lockedUntil now) m
  | CreateUserOp p => mem_create_user p now m
  | ListUsersOp => read_mem (inr ((fun e => managed e.2) <$> map_to_list (ms_users m))) m
  | UpdateUserOp p => mem_change_user p now m
  | ListOnlineUsersOp since => read_mem (inr (mem_online since now m)) m
  | BootstrapAdmin p => let '(b, m') := mem_bootstrap p now m in (inr b, m')
  | RolesByUserID userID => read_mem (mem_roles userID m) m
  | HasAnyRole role => read_mem (inr (mem_any_role role m)) m
  | UpsertUserAndAssignRole userID displayName role _ =>
      (inr tt, mem_grant userID displayName (add_role role) now m)
  | ReplaceUserRoles userID displayName roles _ =>
      (inr tt, mem_grant userID displayName (fun _ => roles) now m)
  | TimeNow => read_mem (inr now) m
  | RandRead => read_mem (inr (ad_bytes u)) m
  | GenerateFromPassword p => read_mem (bcrypt_hash (ad_salt u) p) m
  end.

#[export] Instance mem_ports : Ports AuthOp MemStore AuthDraw :=
  {| step := @mem_step; fallible := @auth_fallible |}.
End memory.
