(* ===== verification/AuthPostgres.v ===== *)
(** * Authentication: the store in PostgreSQL

    [auth/infrastructure/postgres/repository.go] over [auth_identities] and
    [auth_sessions] (migrations 0021 and 0036), and the role provider and role
    administration of [iam/infrastructure/postgres] over [iam_users] and
    [iam_user_roles] (migrations 0002 and 0003). A method is one transaction;
    when it fails nothing of it stays. *)
From S2P Require Import Prelude Text Tables Programs AuthDomain.
Local Open Scope Z_scope.

(** ** Tables *)

Record IdentityRow := mkIdentityRow {
  ir_user_id : string;
  ir_username : string;
  ir_email : option string;
  ir_display_name : string;
  ir_is_active : bool;
  ir_password_hash : string;
  ir_password_algo : string;
  ir_must_change_password : bool;
  ir_last_login_at : option Time;
  ir_failed_login_attempts : Z;
  ir_locked_until : option Time;
  ir_created_at : Time;
  ir_updated_at : Time
}.

Record IamUser := mkIamUser { iu_user_id : string; iu_display_name : string; iu_is_active : bool }.

Record UserRole := mkUserRole { ur_user_id : string; ur_role_code : string; ur_assigned_by : string }.

Record PgStore := mkPgStore {
  ps_identities : list IdentityRow;
  ps_sessions : list Session;
  ps_users : list IamUser;
  ps_roles : list UserRole
}.

Definition with_identities x s := mkPgStore x (ps_sessions s) (ps_users s) (ps_roles s).
Definition with_pg_sessions x s := mkPgStore (ps_identities s) x (ps_users s) (ps_roles s).
Definition with_roles x s := mkPgStore (ps_identities s) (ps_sessions s) (ps_users s) x.
Definition with_iam_users x s := mkPgStore (ps_identities s) (ps_sessions s) x (ps_roles s).

(** [loadIdentity]: the columns of a row, in the order of the SELECT. *)
Definition identity_of_row (r : IdentityRow) : Identity :=
  mkIdentity (ir_user_id r) (ir_username r) (default "" (ir_email r)) (ir_display_name r)
    (ir_password_hash r) (ir_password_algo r) (ir_must_change_password r) (ir_last_login_at r)
    (ir_failed_login_attempts r) (ir_locked_until r) (ir_is_active r) [] (ir_created_at r) (ir_updated_at r).

(** ** Statements *)

Section postgres.
Context `{LetterCase} `{Bcrypt}.

Definition user_is (userID : string) (r : IdentityRow) : bool := str_eqb (ir_user_id r) userID.

Definition username_key (r : IdentityRow) : string := sql_lower (ir_username r).
Definition email_key (r : IdentityRow) : option string := sql_lower <$> ir_email r.

Definition same_username (r q : IdentityRow) : bool := str_eqb (username_key q) (username_key r).
Definition same_email (r q : IdentityRow) : bool :=
  match email_key r, email_key q with Some a, Some b => str_eqb a b | _, _ => false end.

(** The two unique indexes, for a row that is new or changed. *)
Definition identity_fits (others : list IdentityRow) (r : IdentityRow) : Result unit :=
  check! constraint (negb (existsb (same_username r) others)) (unique_violation "uq_auth_identities_username_ci");
  check! constraint (negb (existsb (same_email r) others)) (unique_violation "uq_auth_identities_email_ci");
  check! int4_param (ir_failed_login_attempts r);
  inr tt.

Definition others_than (userID : string) (s : PgStore) : list IdentityRow :=
  bfilter (fun r => negb (user_is userID r)) (ps_identities s).

Definition insert_identity (r : IdentityRow) (s : PgStore) : Result PgStore :=
  check! constraint (negb (existsb (user_is (ir_user_id r)) (ps_identities s)))
           (unique_violation "auth_identities_pkey");
  check! identity_fits (ps_identities s) r;
  inr (with_identities (ps_identities s ++ [r]) s).

(** [UPDATE auth_identities SET ... WHERE user_id = $1]. *)
Definition update_identity (userID : string) (f : IdentityRow -> IdentityRow) (s : PgStore) : Result PgStore :=
  let upd r := check! identity_fits (others_than userID s) (f r); inr (f r) in
  match update_where (user_is userID) upd (ps_identities s) with
  | inl e => inl e
  | inr (_, rows) => inr (with_identities rows s)
  end.

(** The INSERT writes NULL into [revoked_at]. *)
Definition unrevoked (x : Session) : Session :=
  mkSession (ss_SessionID x) (ss_UserID x) (ss_CreatedAt x) (ss_ExpiresAt x) None
    (ss_IPAddress x) (ss_UserAgent x) (ss_LastSeenAt x).

Definition insert_auth_session (x : Session) (s : PgStore) : Result PgStore :=
  check! constraint (negb (existsb (fun r => str_eqb (ss_SessionID r) (ss_SessionID x)) (ps_sessions s)))
           (unique_violation "auth_sessions_pkey");
  check! constraint (existsb (user_is (ss_UserID x)) (ps_identities s)) (fk_violation "fk_auth_sessions_identity");
  inr (with_pg_sessions (ps_sessions s ++ [unrevoked x]) s).

Definition update_sessions (cond : Session -> bool) (f : Session -> Session) (s : PgStore) : PgStore :=
  with_pg_sessions ((fun x => if cond x then f x else x) <$> ps_sessions s) s.

Definition session_is (sessionID : string) (x : Session) : bool := str_eqb (ss_SessionID x) sessionID.

Definition open_session_of (userID : string) (x : Session) : bool :=
  str_eqb (ss_UserID x) userID && bool_decide (ss_RevokedAt x = None).

(** ** Identities *)

(** [QueryRowContext(...).Scan(...)]: the first row there is. *)
Definition loadIdentity (cond : IdentityRow -> bool) (s : PgStore) : Result Identity :=
  match select_one cond (ps_identities s) with
  | Some r => inr (identity_of_row r)
  | None => inl ErrIdentityNotFound
  end.

Definition login_matches (identifier : string) (r : IdentityRow) : bool :=
  str_eqb (username_key r) (sql_lower identifier)
  || str_eqb (sql_lower (default "" (ir_email r))) (sql_lower identifier).

Definition ensureUniqueIdentity (userID username email : string) (s : PgStore) : Result unit :=
  let taken (cond : IdentityRow -> bool) :=
    match select_one cond (ps_identities s) with
    | Some r => negb (str_eqb (ir_user_id r) (TrimSpace userID))
    | None => false
    end in
  check! (if str_eqb (TrimSpace username) "" then inr tt
          else constraint (negb (taken (fun r => str_eqb (username_key r) (sql_lower username)))) ErrUserAlreadyExists);
  check! (if str_eqb (TrimSpace email) "" then inr tt
          else constraint (negb (taken (fun r => bool_decide (email_key r = Some (sql_lower email))))) ErrUserAlreadyExists);
  inr tt.

Definition nullif_empty (s : string) : option string := if str_eqb s "" then None else Some s.

Definition pg_wrap {A} (fmt : string) (r : Result A) : Result A := map_error (Wrapf fmt []) r.

Definition pg_create_user (p : CreateUserParams) (now : Time) (s : PgStore) : Result PgStore :=
  check! ensureUniqueIdentity (cu_UserID p) (cu_Username p) (cu_Email p) s;
  pg_wrap "insert auth identity: %w" (insert_identity
    (mkIdentityRow (cu_UserID p) (cu_Username p) (nullif_empty (cu_Email p)) (cu_DisplayName p)
       (cu_IsActive p) (cu_PasswordHash p) (cu_PasswordAlgo p) (cu_MustChangePassword p) None 0 None now now) s).

Definition set_row_login (loginAt : Time) (r : IdentityRow) : IdentityRow :=
  mkIdentityRow (ir_user_id r) (ir_username r) (ir_email r) (ir_display_name r) (ir_is_active r)
    (ir_password_hash r) (ir_password_algo r) (ir_must_change_password r) (Some loginAt) 0 None
    (ir_created_at r) loginAt.

Definition set_row_failed (n : Z) (lockedUntil : option Time) (now : Time) (r : IdentityRow) : IdentityRow :=
  mkIdentityRow (ir_user_id r) (ir_username r) (ir_email r) (ir_display_name r) (ir_is_active r)
    (ir_password_hash r) (ir_password_algo r) (ir_must_change_password r) (ir_last_login_at r) n lockedUntil
    (ir_created_at r) now.

(** The first UPDATE of [UpdateUser]: display name and activity. *)
Definition set_row_profile (p : UpdateUserParams) (now : Time) (r : IdentityRow) : IdentityRow :=
  mkIdentityRow (ir_user_id r) (ir_username r) (ir_email r)
    (match up_DisplayName p with Some n => TrimSpace n | None => ir_display_name r end)
    (default (ir_is_active r) (up_IsActive p))
    (ir_password_hash r) (ir_password_algo r) (ir_must_change_password r) (ir_last_login_at r)
    (ir_failed_login_attempts r) (ir_locked_until r) (ir_created_at r) now.

(** The second: email, password and the lock. *)
Definition set_row_credentials (p : UpdateUserParams) (now : Time) (r : IdentityRow) : IdentityRow :=
  let hash := TrimSpace <$> up_NewPasswordHash p in
  let reset := bool_decide (is_Some hash) || up_ResetLockState p in
  mkIdentityRow (ir_user_id r) (ir_username r)
    (match up_Email p with Some e => Some (TrimSpace e) | None => ir_email r end)
    (ir_display_name r) (ir_is_active r)
    (default (ir_password_hash r) hash)
    (match hash with Some _ => "bcrypt" | None => ir_password_algo r end)
    (default (ir_must_change_password r) (up_MustChangePassword p))
    (ir_last_login_at r)
    (if reset then 0 else ir_failed_login_attempts r)
    (if reset then None else ir_locked_until r)
    (ir_created_at r) now.

Definition pg_change_user (p : UpdateUserParams) (now : Time) (s : PgStore) : Result PgStore :=
  let! s1 :=
    (if bool_decide (is_Some (up_DisplayName p)) || bool_decide (is_Some (up_IsActive p)) then
       pg_wrap "update auth identity profile: %w" (update_identity (up_UserID p) (set_row_profile p now) s)
     else inr s) in
  if bool_decide (is_Some (up_Email p)) || bool_decide (is_Some (up_NewPasswordHash p))
     || bool_decide (is_Some (up_MustChangePassword p)) then
    check! (match up_Email p with
            | Some e => ensureUniqueIdentity (up_UserID p) "" (TrimSpace e) s1
            | None => inr tt
            end);
    pg_wrap "update auth identity: %w" (update_identity (up_UserID p) (set_row_credentials p now) s1)
  else inr s1.

(** [INSERT ... ON CONFLICT (user_id) DO UPDATE]. *)
Definition pg_bootstrap (p : BootstrapAdminParams) (now : Time) (s : PgStore) : Result PgStore :=
  check! ensureUniqueIdentity (ba_UserID p) (ba_Username p) (ba_Email p) s;
  pg_wrap "bootstrap auth identity: %w"
    (if existsb (user_is (ba_UserID p)) (ps_identities s) then
       update_identity (ba_UserID p) (fun r =>
         mkIdentityRow (ir_user_id r) (ba_Username p) (nullif_empty (ba_Email p)) (ba_DisplayName p) true
           (ba_PasswordHash p) (ba_PasswordAlgo p) (ba_MustChangePassword p) (ir_last_login_at r)
           (ir_failed_login_attempts r) (ir_locked_until r) (ir_created_at r) now) s
     else
       insert_identity (mkIdentityRow (ba_UserID p) (ba_Username p) (nullif_empty (ba_Email p))
         (ba_DisplayName p) true (ba_PasswordHash p) (ba_PasswordAlgo p) (ba_MustChangePassword p)
         None 0 None now now) s).

(** [ORDER BY created_at DESC]. *)
Definition pg_list_users (s : PgStore) : list ManagedUser :=
  managed <$> (identity_of_row <$> order_by (fun r => - ir_created_at r) (ps_identities s)).

(** ** Who is online *)

Definition online_sessions (userID : string) (activeSince now : Time) (s : PgStore) : list Session :=
  bfilter (fun x => str_eqb (ss_UserID x) userID && bool_decide (ss_RevokedAt x = None)
                    && (now <? ss_ExpiresAt x) && (activeSince <=? ss_LastSeenAt x)) (ps_sessions s).

(** One row per active identity with a session seen since, latest first. *)
Definition pg_online (activeSince now : Time) (s : PgStore) : list OnlineUser :=
  order_by (fun o => - ou_LastSeenAt o)
    (omap (fun r =>
       match online_sessions (ir_user_id r) activeSince now s with
       | x :: xs =>
           if ir_is_active r then
             Some (mkOnlineUser (ir_user_id r) (ir_username r) (ir_display_name r)
                     (foldr Z.max (ss_LastSeenAt x) (ss_LastSeenAt <$> xs)))
           else None
       | [] => None
       end) (ps_identities s)).

(** ** Roles *)

Definition iam_user_is (userID : string) (x : IamUser) : bool := str_eqb (iu_user_id x) userID.
Definition role_of_user (userID : string) (x : UserRole) : bool := str_eqb (ur_user_id x) userID.

(** [ORDER BY role_code]: the order of bytes. *)
Fixpoint insert_role (r : string) (l : list string) : list string :=
  match l with
  | [] => [r]
  | x :: l' => if String.ltb r x then r :: l else x :: insert_role r l'
  end.

Definition sort_roles (l : list string) : list string := foldr insert_role [] l.

Definition pg_roles (userID : string) (s : PgStore) : Result (list Role) :=
  match select_one (iam_user_is userID) (ps_users s) with
  | None => inl ErrUserNotFound
  | Some x =>
      if negb (iu_is_active x) then inl ErrUserInactive
      else match sort_roles (ur_role_code <$> bfilter (role_of_user userID) (ps_roles s)) with
           | [] => inl ErrUserNotFound
           | rs => inr rs
           end
  end.

(** The CHECK of migration 0003. *)
Definition role_code_allowed (code : string) : bool :=
  bool_decide (code ∈ [RoleAdmin; RoleEditor; RoleReviewer; RoleViewer]).

(** [INSERT INTO iam_users ... ON CONFLICT (user_id) DO UPDATE]; [activate]
    says whether the update makes the user active again. *)
Definition upsert_iam_user (userID displayName : string) (activate : bool) (s : PgStore) : PgStore :=
  if existsb (iam_user_is userID) (ps_users s) then
    with_iam_users ((fun x => if iam_user_is userID x
                              then mkIamUser userID displayName (activate || iu_is_active x) else x) <$> ps_users s) s
  else with_iam_users (ps_users s ++ [mkIamUser userID displayName true]) s.

(** [INSERT INTO iam_user_roles ... ON CONFLICT (user_id, role_code) DO UPDATE]. *)
Definition upsert_iam_role (userID role assignedBy : string) (s : PgStore) : Result PgStore :=
  let is_it x := role_of_user userID x && str_eqb (ur_role_code x) role in
  check! constraint (role_code_allowed role) (check_violation "chk_iam_user_roles_role_code");
  inr (with_roles
    (if existsb is_it (ps_roles s)
     then (fun x => if is_it x then mkUserRole userID role assignedBy else x) <$> ps_roles s
     else ps_roles s ++ [mkUserRole userID role assignedBy]) s).

Definition pg_assign_role (userID displayName role assignedBy : string) (s : PgStore) : Result PgStore :=
  pg_wrap "upsert iam role: %w"
    (upsert_iam_role userID role assignedBy (upsert_iam_user userID displayName true s)).

(** The roles asked for: trimmed, without blanks and repetitions. *)
Fixpoint desired_roles (seen : list string) (roles : list Role) : list string :=
  match roles with
  | [] => []
  | r :: rest =>
      let code := TrimSpace r in
      if str_eqb code "" || bool_decide (code ∈ seen) then desired_roles seen rest
      else code :: desired_roles (code :: seen) rest
  end.

Fixpoint upsert_iam_roles (userID : string) (codes : list string) (assignedBy : string) (s : PgStore)
    : Result PgStore :=
  match codes with
  | [] => inr s
  | c :: rest =>
      let! s1 := upsert_iam_role userID c assignedBy s in upsert_iam_roles userID rest assignedBy s1
  end.

Definition pg_replace_roles (userID displayName : string) (roles : list Role) (assignedBy : string)
    (s : PgStore) : Result PgStore :=
  let desired := desired_roles [] roles in
  let! s1 := pg_wrap "upsert replaced iam role: %w"
               (upsert_iam_roles userID desired assignedBy (upsert_iam_user userID displayName false s)) in
  inr (with_roles (bfilter (fun x => negb (role_of_user userID x && negb (bool_decide (ur_role_code x ∈ desired))))
                     (ps_roles s1)) s1).

(** ** The port *)

Definition read_pg {A} (r : Result A) (s : PgStore) : Result A * PgStore := (r, s).

Definition wrote (r : Result PgStore) (s : PgStore) : Result unit * PgStore :=
  match r with inl e => (inl e, s) | inr s' => (inr tt, s') end.

Definition pg_step {B} (o : AuthOp B) (now : Time) (u : AuthDraw) (s : PgStore) : Result B * PgStore :=
  match o in AuthOp B return Result B * PgStore with
  | FindIdentityByIdentifier identifier => read_pg (loadIdentity (login_matches identifier) s) s
  | FindIdentityByUserID userID => read_pg (loadIdentity (user_is userID) s) s
  | CreateSession x => wrote (pg_wrap "insert auth session: %w" (insert_auth_session x s)) s
  | FindSession sessionID =>
      read_pg (match select_one (session_is sessionID) (ps_sessions s) with
               | Some x => inr x
               | None => inl ErrSessionNotFound
               end) s
  | TouchSession sessionID seenAt => (inr tt, update_sessions (session_is sessionID) (touch_session seenAt) s)
  | RevokeSession sessionID revokedAt =>
      (inr tt, update_sessions (session_is sessionID) (revoke_session revokedAt) s)
  | RevokeSessionsByUserID userID revokedAt =>
      (inr tt, update_sessions (open_session_of userID) (revoke_session revokedAt) s)
  | RecordSuccessfulLogin userID loginAt =>
      wrote (pg_wrap "update successful login: %w" (update_identity userID (set_row_login loginAt) s)) s
  | RecordFailedLogin userID n lockedUntil =>
      wrote (pg_wrap "update failed login: %w"
               (update_identity userID (set_row_failed n lockedUntil (ad_now u)) s)) s
  | CreateUserOp p => wrote (pg_create_user p (ad_now u) s) s
  | ListUsersOp =>
      read_pg (inr (pg_list_users s)) s
  | UpdateUserOp p => wrote (pg_change_user p (ad_now u) s) s
  | ListOnlineUsersOp since => read_pg (inr (pg_online since (ad_now u) s)) s
  | BootstrapAdmin p =>
      match pg_bootstrap p (ad_now u) s with inl e => (inl e, s) | inr s' => (inr true, s') end
  | RolesByUserID userID => read_pg (pg_roles userID s) s
  | HasAnyRole role => read_pg (inr (existsb (fun x => str_eqb (ur_role_code x) role) (ps_roles s))) s
  | UpsertUserAndAssignRole userID displayName role assignedBy =>
      wrote (pg_assign_role userID displayName role assignedBy s) s
  | ReplaceUserRoles userID displayName roles assignedBy =>
      wrote (pg_replace_roles userID displayName roles assignedBy s) s
  | TimeNow => read_pg (inr now) s
  | RandRead => read_pg (inr (ad_bytes u)) s
  | GenerateFromPassword p => read_pg (bcrypt_hash (ad_salt u) p) s
  end.

#[export] Instance pg_ports : Ports AuthOp PgStore AuthDraw :=
  {| step := @pg_step; fallible := @auth_fallible |}.
End postgres.
