(* ===== verification/AuthService.v ===== *)
(** * Authentication: the service

    [auth/application/service.go], each method as a program over the ports. The
    role administration is always wired, so the checks for a missing one are
    not modelled. *)
From S2P Require Import Prelude Text Programs Sha256 AuthDomain AuthToken.
From stdpp Require Import relations.
Local Open Scope Z_scope.

Definition passwordAlgoBcrypt : string := "bcrypt".

(** What the service reads of an HTTP request. *)
Record ClientInfo := mkClientInfo {
  ci_ForwardedFor : string;
  ci_RemoteAddr : string;
  ci_UserAgent : string
}.

Definition truncate (value : string) (max : nat) : string :=
  if Nat.leb (String.length value) max then value else String.substring 0 max value.

Definition remoteIP (r : ClientInfo) : string :=
  let direct :=
    match SplitHostPort (TrimSpace (ci_RemoteAddr r)) with
    | Some (host, _) => truncate host 128
    | None => truncate (TrimSpace (ci_RemoteAddr r)) 128
    end in
  let forwarded := TrimSpace (ci_ForwardedFor r) in
  if str_eqb forwarded "" then direct
  else match Split forwarded (char_of 44) with
       | p :: _ => truncate (TrimSpace p) 128
       | [] => direct
       end.

Section service.
Context `{Bcrypt} (cfg : Config).

Abbreviation AM := (PM AuthOp).

Definition validatePassword (password : string) : AM unit :=
  pguard (negb (Z.of_nat (String.length (TrimSpace password)) <? cfg_PasswordMinLength cfg))
    (Wrapf "%w: password must contain at least %d characters" [AInt (cfg_PasswordMinLength cfg)] ErrPasswordPolicy).

Definition hashPassword (password : string) : AM string :=
  pmap_err (Wrapf "hash password: %w" []) (call (GenerateFromPassword password)).

Definition buildCurrentUser (userID : string) : AM CurrentUser :=
  identity ← call (FindIdentityByUserID userID);
  roles ← call (RolesByUserID userID);
  mret (mkCurrentUser (id_UserID identity) (id_Username identity) (id_Email identity)
          (id_DisplayName identity) (id_MustChangePassword identity) roles).

(** ** Logging in and out *)

Definition BootstrapLocalAdmin : AM unit :=
  let password := TrimSpace (cfg_BootstrapAdminPassword cfg) in
  if negb (cfg_BootstrapAdminEnabled cfg) || str_eqb password "" then mret tt
  else
    hasAdmin ← call (HasAnyRole RoleAdmin);
    if (hasAdmin : bool) then mret tt
    else
      passwordHash ← hashPassword password;
      created ← call (BootstrapAdmin
        (mkBootstrapAdminParams (TrimSpace (cfg_BootstrapAdminUserID cfg))
           (TrimSpace (cfg_BootstrapAdminUsername cfg)) (TrimSpace (cfg_BootstrapAdminEmail cfg))
           (TrimSpace (cfg_BootstrapAdminName cfg)) passwordHash passwordAlgoBcrypt true));
      if negb (created : bool) then mret tt
      else call (UpsertUserAndAssignRole (TrimSpace (cfg_BootstrapAdminUserID cfg))
                   (TrimSpace (cfg_BootstrapAdminName cfg)) RoleAdmin "bootstrap").

(** The lock is compared with the clock only when there is one. *)
Definition check_lock (identity : Identity) : AM unit :=
  match id_LockedUntil identity with
  | None => mret tt
  | Some lock => now ← call TimeNow; pguard (negb (now <? lock)) ErrIdentityLocked
  end.

(** A wrong password: count it, and lock at the limit. The count is the one
    read before the comparison, plus one; whether it is stored is not looked
    at. *)
Definition reject_password (identity : Identity) : AM AuthenticatedSession :=
  let attempts := wrap64 (id_FailedLoginAttempts identity + 1) in
  lockedUntil ← (if cfg_LoginMaxFailedAttempts cfg <=? attempts
                 then now ← call TimeNow; mret (Some (now + cfg_LoginLockDuration cfg))
                 else mret None);
  attempt (RecordFailedLogin (id_UserID identity) attempts lockedUntil);;
  fail ErrInvalidCredentials.

Definition open_session (identity : Identity) (r : ClientInfo) : AM AuthenticatedSession :=
  now ← call TimeNow;
  call (RecordSuccessfulLogin (id_UserID identity) now);;
  buf ← pmap_err (Wrapf "generate session token: %w" []) (call RandRead);
  let '(rawToken, sessionID) := newSessionToken (cfg_SessionSecret cfg) buf in
  let session := mkSession sessionID (id_UserID identity) now (now + cfg_SessionTTL cfg) None
                   (remoteIP r) (truncate (TrimSpace (ci_UserAgent r)) 512) now in
  call (CreateSession session);;
  user ← buildCurrentUser (id_UserID identity);
  mret (mkAuthenticatedSession rawToken user (ss_ExpiresAt session)).

Definition Authenticate (identifier password : string) (r : ClientInfo) : AM AuthenticatedSession :=
  let identifier := TrimSpace identifier in
  let password := TrimSpace password in
  pguard (negb (str_eqb identifier "" || str_eqb password "")) ErrInvalidCredentials;;
  identity ← call (FindIdentityByIdentifier identifier);
  pguard (id_IsActive identity) ErrIdentityInactive;;
  check_lock identity;;
  if bcrypt_compare (id_PasswordHash identity) password
  then open_session identity r
  else reject_password identity.

Definition ResolveSession (rawToken : string) : AM CurrentUser :=
  let token := TrimSpace rawToken in
  pguard (negb (str_eqb token "")) ErrSessionNotFound;;
  sessionID ← plift (tokenHashFromCookieValue (cfg_SessionSecret cfg) token);
  session ← call (FindSession sessionID);
  pguard (bool_decide (ss_RevokedAt session = None)) ErrSessionRevoked;;
  now ← call TimeNow;
  pguard (negb (ss_ExpiresAt session <? now)) ErrSessionExpired;;
  seen ← call TimeNow;
  call (TouchSession sessionID seen);;
  buildCurrentUser (ss_UserID session).

Definition Logout (rawToken : string) : AM unit :=
  let token := TrimSpace rawToken in
  if str_eqb token "" then mret tt
  else match tokenHashFromCookieValue (cfg_SessionSecret cfg) token with
       | inl _ => mret tt
       | inr sessionID => now ← call TimeNow; call (RevokeSession sessionID now)
       end.

(** ** Passwords *)

Definition ChangePasswordForUser (currentUser : CurrentUser) (currentPassword newPassword : string) : AM unit :=
  let userID := TrimSpace (TrimSpace (cr_UserID currentUser)) in
  let currentPassword := TrimSpace currentPassword in
  let newPassword := TrimSpace newPassword in
  pguard (negb (str_eqb userID "")) ErrInvalidCredentials;;
  validatePassword newPassword;;
  identity ← call (FindIdentityByUserID userID);
  let matches := bcrypt_compare (id_PasswordHash identity) currentPassword in
  pguard (cr_MustChangePassword currentUser || (negb (str_eqb currentPassword "") && matches))
    ErrInvalidCredentials;;
  pguard (negb (cr_MustChangePassword currentUser && negb (str_eqb currentPassword "") && negb matches))
    ErrInvalidCredentials;;
  passwordHash ← hashPassword newPassword;
  call (UpdateUserOp (mkUpdateUserParams userID None None None (Some passwordHash) (Some false) false)).

Definition ChangePassword (userID currentPassword newPassword : string) : AM unit :=
  ChangePasswordForUser (mkCurrentUser userID "" "" "" false []) currentPassword newPassword.

Definition AdminResetPassword (userID newPassword : string) : AM unit :=
  let newPassword := TrimSpace newPassword in
  validatePassword newPassword;;
  passwordHash ← hashPassword newPassword;
  call (UpdateUserOp (mkUpdateUserParams (TrimSpace userID) None None None (Some passwordHash) (Some true) true));;
  now ← call TimeNow;
  call (RevokeSessionsByUserID (TrimSpace userID) now).

Definition UnlockUser (userID : string) : AM unit :=
  call (UpdateUserOp (mkUpdateUserParams (TrimSpace userID) None None None None None true)).

(** ** Users *)

Definition set_mu_Roles (roles : list Role) (u : ManagedUser) : ManagedUser :=
  mkManagedUser (mu_UserID u) (mu_Username u) (mu_Email u) (mu_DisplayName u) (mu_IsActive u)
    (mu_MustChangePassword u) (mu_LastLoginAt u) (mu_FailedLoginAttempts u) (mu_LockedUntil u)
    roles (mu_CreatedAt u) (mu_UpdatedAt u).

Fixpoint fill_roles (items : list ManagedUser) : AM (list ManagedUser) :=
  match items with
  | [] => mret []
  | u :: rest =>
      r ← attempt (RolesByUserID (mu_UserID u));
      match r : Result (list Role) with
      | inl e =>
          if errors_Is e ErrUserNotFound
          then us ← fill_roles rest; mret (set_mu_Roles [] u :: us)
          else fail e
      | inr roles => us ← fill_roles rest; mret (set_mu_Roles roles u :: us)
      end
  end.

Definition ListUsers : AM (list ManagedUser) :=
  items ← call ListUsersOp; fill_roles items.

Definition ListOnlineUsers (activeSince : Time) : AM (list OnlineUser) :=
  call (ListOnlineUsersOp activeSince).

Definition or_else (value fallback : string) : string := if str_eqb value "" then fallback else value.

Definition CreateUser (userID username email displayName password : string) (roles : list Role)
    (createdBy : string) : AM unit :=
  let username := TrimSpace username in
  let userID := or_else (TrimSpace userID) username in
  pguard (negb (str_eqb username "")) ErrUserAlreadyExists;;
  let displayName := or_else (TrimSpace displayName) username in
  let createdBy := or_else (TrimSpace createdBy) "system" in
  validatePassword password;;
  passwordHash ← hashPassword password;
  call (CreateUserOp (mkCreateUserParams userID username (TrimSpace email) displayName passwordHash
                        passwordAlgoBcrypt true true [] createdBy));;
  call (ReplaceUserRoles userID displayName roles createdBy).

Definition UpdateUser (params : UpdateUserParams) (newPassword : string) : AM unit :=
  let newPassword := TrimSpace newPassword in
  if str_eqb newPassword "" then call (UpdateUserOp params)
  else
    validatePassword newPassword;;
    passwordHash ← hashPassword newPassword;
    call (UpdateUserOp (mkUpdateUserParams (up_UserID params) (up_DisplayName params) (up_Email params)
            (up_IsActive params) (Some passwordHash) (up_MustChangePassword params) (up_ResetLockState params))).
End service.

(** * Authentication: requests

    The methods the HTTP layer calls, as requests to serve. No other part of
    the system writes the tables of the store. *)

Inductive AuthCall :=
  | CallBootstrap
  | CallAuthenticate (identifier password : string) (r : ClientInfo)
  | CallResolveSession (rawToken : string)
  | CallLogout (rawToken : string)
  | CallChangePassword (user : CurrentUser) (currentPassword newPassword : string)
  | CallListUsers
  | CallListOnlineUsers (activeSince : Time)
  | CallCreateUser (userID username email displayName password : string) (roles : list Role) (createdBy : string)
  | CallUpdateUser (params : UpdateUserParams) (newPassword : string)
  | CallAdminResetPassword (userID newPassword : string)
  | CallUnlockUser (userID : string)
  | CallCurrentUser (userID : string).

Inductive AuthReply :=
  | RepDone
  | RepSession (s : AuthenticatedSession)
  | RepUser (u : CurrentUser)
  | RepUsers (l : list ManagedUser)
  | RepOnline (l : list OnlineUser).

Section requests.
Context `{Bcrypt} (cfg : Config).

Abbreviation AM := (PM AuthOp).

Definition auth_reply {A} (f : A -> AuthReply) (m : AM A) : AM AuthReply := a ← m; mret (f a).

Definition auth_serve (c : AuthCall) : AM AuthReply :=
  match c with
  | CallBootstrap => auth_reply (fun _ => RepDone) (BootstrapLocalAdmin cfg)
  | CallAuthenticate identifier password r => auth_reply RepSession (Authenticate cfg identifier password r)
  | CallResolveSession rawToken => auth_reply RepUser (ResolveSession cfg rawToken)
  | CallLogout rawToken => auth_reply (fun _ => RepDone) (Logout cfg rawToken)
  | CallChangePassword user cur new => auth_reply (fun _ => RepDone) (ChangePasswordForUser cfg user cur new)
  | CallListUsers => auth_reply RepUsers ListUsers
  | CallListOnlineUsers since => auth_reply RepOnline (ListOnlineUsers since)
  | CallCreateUser uid un em dn pw roles by_ =>
      auth_reply (fun _ => RepDone) (CreateUser cfg uid un em dn pw roles by_)
  | CallUpdateUser p pw => auth_reply (fun _ => RepDone) (UpdateUser cfg p pw)
  | CallAdminResetPassword uid pw => auth_reply (fun _ => RepDone) (AdminResetPassword cfg uid pw)
  | CallUnlockUser uid => auth_reply (fun _ => RepDone) (UnlockUser uid)
  | CallCurrentUser uid => auth_reply RepUser (buildCurrentUser uid)
  end.
End requests.
