(* ===== verification/AuthStore.v ===== *)
(** * Authentication: what a store promises

    The interface between the service and its store: what an [AuthStore] lets
    one look up, and the laws the service relies on when it logs users in, as
    a class; and its two instances, the store in memory and the one in
    PostgreSQL. *)
From S2P Require Import Prelude Text Tables Programs AuthDomain AuthMemory AuthPostgres.
Local Open Scope Z_scope.

(** The attempts an INT column holds. *)
Definition countable (n : Z) : Prop := 0 <= n <= int4_max.

Class AuthStore (St : Type) `{!Ports AuthOp St AuthDraw} := {
  find_identifier : string -> St -> Result Identity;
  find_user : string -> St -> Result Identity;
  find_session : string -> St -> Result Session;
  roles_of : string -> St -> Result (list Role);
  store_ok : St -> Prop
}.

(** What an operation leaves alone: sessions, and the roles of users. *)
Definition same_sessions `{AuthStore St} (st st' : St) : Prop :=
  forall sid, find_session sid st' = find_session sid st.
Definition same_roles `{AuthStore St} (st st' : St) : Prop :=
  forall uid, roles_of uid st' = roles_of uid st.
Definition same_identities `{AuthStore St} (st st' : St) : Prop :=
  (forall x, find_identifier x st' = find_identifier x st) /\
  (forall uid, find_user uid st' = find_user uid st).

Class AuthStoreLaws `{Bcrypt} (St : Type) `{AuthStore St} := {
  step_find_identifier x t u (st : St) :
    step (FindIdentityByIdentifier x) t u st = (find_identifier x st, st);
  step_find_user uid t u (st : St) : step (FindIdentityByUserID uid) t u st = (find_user uid st, st);
  step_find_session sid t u (st : St) : step (FindSession sid) t u st = (find_session sid st, st);
  step_roles uid t u (st : St) : step (RolesByUserID uid) t u st = (roles_of uid st, st);
  (** Who has no role is not found. *)
  roles_some uid (st : St) roles : roles_of uid st = inr roles -> roles <> [];
  step_now t u (st : St) : step TimeNow t u st = (inr t, st);
  step_rand t u (st : St) : step RandRead t u st = (inr (ad_bytes u), st);
  step_hash p t u (st : St) : step (GenerateFromPassword p) t u st = (bcrypt_hash (ad_salt u) p, st);
  (** An identity found by its login is the one found by its user. *)
  find_same x (st : St) i :
    store_ok st -> find_identifier x st = inr i -> find_user (id_UserID i) st = inr i;
  (** The counters of an identity that exists can be written. *)
  step_failed x n lock t u (st : St) i :
    store_ok st -> find_identifier x st = inr i -> countable n ->
    exists now st', step (RecordFailedLogin (id_UserID i) n lock) t u st = (inr tt, st') /\
      store_ok st' /\ find_identifier x st' = inr (set_failed n lock now i) /\
      same_sessions st st' /\ same_roles st st';
  step_login x loginAt t u (st : St) i :
    store_ok st -> find_identifier x st = inr i ->
    exists st', step (RecordSuccessfulLogin (id_UserID i) loginAt) t u st = (inr tt, st') /\
      store_ok st' /\ find_identifier x st' = inr (set_login loginAt i) /\
      same_sessions st st' /\ same_roles st st';
  (** A session under an identifier that is free. *)
  step_create s t u (st : St) i :
    store_ok st -> find_user (ss_UserID s) st = inr i -> id_UserID i = ss_UserID s ->
    ss_RevokedAt s = None ->
    (exists e, find_session (ss_SessionID s) st = inl e) ->
    exists st', step (CreateSession s) t u st = (inr tt, st') /\ store_ok st' /\
      find_session (ss_SessionID s) st' = inr s /\ same_identities st st' /\ same_roles st st';
  step_touch sid at_ t u (st : St) s :
    store_ok st -> find_session sid st = inr s ->
    exists st', step (TouchSession sid at_) t u st = (inr tt, st') /\ store_ok st' /\
      same_identities st st' /\ same_roles st st'
}.

(** ** In memory *)

(** Users and sessions are stored under their identifiers, without white
    space around them. *)
Record mem_ok (m : MemStore) : Prop := {
  mem_user_key : forall k i, ms_users m !! k = Some i -> id_UserID i = k /\ TrimSpace k = k;
  mem_session_key : forall k s, ms_sessions m !! k = Some s -> ss_SessionID s = k
}.

Section memory.
Context `{LetterCase} `{Bcrypt}.

#[export] Instance mem_store : AuthStore MemStore := {|
  find_identifier := mem_find_identifier;
  find_user := mem_find_user;
  find_session sid m :=
    match ms_sessions m !! sid with Some s => inr s | None => inl ErrSessionNotFound end;
  roles_of := mem_roles;
  store_ok := mem_ok
|}.

Lemma mem_found x m i :
  mem_ok m -> mem_find_identifier x m = inr i ->
  ms_byLogin m !! login_key x = Some (id_UserID i) /\ ms_users m !! id_UserID i = Some i
  /\ TrimSpace (id_UserID i) = id_UserID i.
Proof.
  intros Hok. unfold mem_find_identifier. destruct (ms_byLogin m !! login_key x) as [uid|]; [|done].
  destruct (ms_users m !! uid) as [j|] eqn:Hj; [|done]. intros [= <-].
  by destruct (mem_user_key m Hok _ _ Hj) as [-> ->].
Qed.

(** A change of an identity that keeps its user. *)
Lemma mem_update_found x m i f :
  mem_ok m -> mem_find_identifier x m = inr i ->
  id_UserID (f i) = id_UserID i -> id_IsActive (f i) = id_IsActive i -> id_Roles (f i) = id_Roles i ->
  exists m', mem_update_user (id_UserID i) f m = (inr tt, m') /\ mem_ok m' /\
    mem_find_identifier x m' = inr (f i) /\ same_sessions m m' /\ same_roles m m'.
Proof.
  intros Hok Hfind Hid Hact Hrol. destruct (mem_found x m i Hok Hfind) as (Hl & Hu & Ht).
  unfold mem_update_user. rewrite Hu. eexists. split; [done|]. split_and!.
  - split; simpl; [|apply Hok]. intros k j Hj.
    destruct (decide (k = id_UserID i)) as [->|Hne].
    + rewrite lookup_insert_eq in Hj. by injection Hj as <-.
    + rewrite lookup_insert_ne in Hj by done. by apply Hok.
  - unfold mem_find_identifier. simpl. by rewrite Hl, lookup_insert_eq.
  - done.
  - intros uid. cbn. unfold mem_roles. simpl.
    destruct (decide (uid = id_UserID i)) as [->|Hne].
    + by rewrite lookup_insert_eq, Hu, Hact, Hrol.
    + by rewrite lookup_insert_ne by done.
Qed.

#[export] Instance mem_laws : AuthStoreLaws MemStore.
Proof.
  split; try done.
  - intros uid m roles. cbn. unfold mem_roles. destruct (ms_users m !! uid) as [i|]; [|done].
    destruct (negb (id_IsActive i)); [done|]. destruct (id_Roles i); [done|]. by intros [= <-].
  - intros x m i Hok Hfind. destruct (mem_found x m i Hok Hfind) as (_ & Hu & Ht).
    cbn. unfold mem_find_user. by rewrite Ht, Hu.
  - intros x n lock t u m i Hok Hfind _.
    destruct (mem_update_found x m i (set_failed n lock t) Hok Hfind) as (m' & ? & ? & ? & ? & ?); [done..|].
    by exists t, m'.
  - intros x at_ t u m i Hok Hfind.
    by destruct (mem_update_found x m i (set_login at_) Hok Hfind) as (m' & ? & ? & ? & ? & ?); [done..|exists m'].
  - intros s t u m i Hok _ _ _ _. eexists. split; [done|]. split_and!; [|cbn; by rewrite lookup_insert_eq|done..].
    split; simpl; [apply Hok|]. intros k q. destruct (decide (k = ss_SessionID s)) as [->|Hne].
    + rewrite lookup_insert_eq. by intros [= <-].
    + rewrite lookup_insert_ne by done. apply Hok.
  - intros sid at_ t u m s Hok Hfind. cbn in Hfind |- *. unfold mem_touch.
    destruct (ms_sessions m !! sid) as [q|] eqn:Hq; [|done]. injection Hfind as ->.
    eexists. split; [done|]. split; [|done]. split; simpl; [apply Hok|].
    intros k q. destruct (decide (k = sid)) as [->|Hne].
    + rewrite lookup_insert_eq. intros [= <-]. by apply Hok in Hq.
    + rewrite lookup_insert_ne by done. apply Hok.
Qed.
End memory.

(** ** In PostgreSQL *)

(** Keys and unique indexes; a session belongs to an identity. *)
Record pg_ok `{LetterCase} (s : PgStore) : Prop := {
  pg_users_distinct : NoDup (ir_user_id <$> ps_identities s);
  pg_logins_distinct : forall r q, r ∈ ps_identities s -> q ∈ ps_identities s ->
    ir_user_id r <> ir_user_id q -> same_username r q = false /\ same_email r q = false;
  pg_counters : forall r, r ∈ ps_identities s -> countable (ir_failed_login_attempts r);
  pg_sessions_distinct : NoDup (ss_SessionID <$> ps_sessions s)
}.

Section postgres.
Context `{LetterCase} `{Bcrypt}.

#[export] Instance pg_store : AuthStore PgStore := {|
  find_identifier x := loadIdentity (login_matches x);
  find_user uid := loadIdentity (user_is uid);
  find_session sid s :=
    match select_one (session_is sid) (ps_sessions s) with Some x => inr x | None => inl ErrSessionNotFound end;
  roles_of := pg_roles;
  store_ok := pg_ok
|}.

Lemma loadIdentity_ok cond s i :
  loadIdentity cond s = inr i <->
  exists r, select_one cond (ps_identities s) = Some r /\ i = identity_of_row r.
Proof.
  unfold loadIdentity. destruct (select_one cond (ps_identities s)) as [r|].
  - split; [intros [= <-]; eauto|by intros (? & [= <-] & ->)].
  - split; [done|by intros (? & ? & _)].
Qed.

(** A change of one row that keeps its keys. *)
Definition keeps_keys (f : IdentityRow -> IdentityRow) : Prop := forall r,
  ir_user_id (f r) = ir_user_id r /\ ir_username (f r) = ir_username r /\ ir_email (f r) = ir_email r
  /\ (countable (ir_failed_login_attempts r) -> countable (ir_failed_login_attempts (f r))).

Definition change_row (uid : string) (f : IdentityRow -> IdentityRow) (r : IdentityRow) : IdentityRow :=
  if user_is uid r then f r else r.

Lemma change_row_keys uid f r :
  keeps_keys f -> ir_user_id (change_row uid f r) = ir_user_id r /\
  ir_username (change_row uid f r) = ir_username r /\ ir_email (change_row uid f r) = ir_email r.
Proof. intros Hf. unfold change_row. destruct (user_is uid r); [|done]. by destruct (Hf r) as (? & ? & ? & _). Qed.

Lemma update_identity_keeps uid f s :
  pg_ok s -> keeps_keys f ->
  update_identity uid f s = inr (with_identities (change_row uid f <$> ps_identities s) s).
Proof.
  intros Hok Hf. unfold update_identity.
  rewrite (update_where_map _ f); [done|]. intros r Hr Hu.
  destruct (Hf r) as (Hid & Hun & Hem & Hn).
  assert (identity_fits (others_than uid s) (f r) = inr tt) as ->; [|done].
  assert (forall q, q ∈ others_than uid s ->
    same_username (f r) q = false /\ same_email (f r) q = false) as Hfit.
  { intros q [Hq1 Hq2]%elem_of_bfilter. unfold user_is in *. bool_to_prop.
    unfold same_username, same_email, username_key, email_key. rewrite Hun, Hem.
    apply (pg_logins_distinct s Hok r q); congruence. }
  assert (forall P : IdentityRow -> bool, (forall q, q ∈ others_than uid s -> P q = false) ->
    existsb P (others_than uid s) = false) as Hno.
  { intros P HP. apply not_true_iff_false. intros (q & Hq & HPq)%existsb_true_elem. by rewrite HP in HPq. }
  unfold identity_fits. rewrite (Hno (same_username (f r))), (Hno (same_email (f r))) by naive_solver.
  destruct (Hn (pg_counters s Hok r Hr)) as [H1 H2]. simpl. unfold int4_param.
  destruct (Z.ltb_spec (ir_failed_login_attempts (f r)) (-2147483648)); [lia|].
  by destruct (Z.ltb_spec int4_max (ir_failed_login_attempts (f r))); [lia|].
Qed.

Lemma change_row_ok uid f s :
  pg_ok s -> keeps_keys f -> pg_ok (with_identities (change_row uid f <$> ps_identities s) s).
Proof.
  intros Hok Hf. split; simpl; [| | |apply Hok].
  - rewrite <- list_fmap_compose. erewrite list_fmap_ext; [apply Hok|].
    intros i r _. simpl. by destruct (change_row_keys uid f r Hf) as (-> & _).
  - intros ? ? (r & Hr & ->)%elem_of_map_inv (q & Hq & ->)%elem_of_map_inv.
    unfold same_username, same_email, username_key, email_key.
    destruct (change_row_keys uid f r Hf) as (-> & -> & ->), (change_row_keys uid f q Hf) as (-> & -> & ->).
    by apply Hok.
  - intros ? (r & Hr & ->)%elem_of_map_inv. unfold change_row.
    destruct (user_is uid r); [|by apply Hok]. by apply Hf, Hok.
Qed.

Lemma login_matches_change x uid f r : keeps_keys f -> login_matches x (change_row uid f r) = login_matches x r.
Proof.
  intros Hf. unfold login_matches, username_key.
  by destruct (change_row_keys uid f r Hf) as (_ & -> & ->).
Qed.

Lemma pg_update_found x s i f :
  pg_ok s -> loadIdentity (login_matches x) s = inr i -> keeps_keys f ->
  exists r s', identity_of_row r = i /\ update_identity (id_UserID i) f s = inr s' /\ pg_ok s' /\
    loadIdentity (login_matches x) s' = inr (identity_of_row (f r)) /\ same_sessions s s' /\ same_roles s s'.
Proof.
  intros Hok (r & Hr & ->)%loadIdentity_ok Hf. exists r. eexists. split; [done|].
  split; [by apply update_identity_keeps|]. split; [by apply change_row_ok|]. split; [|done].
  apply loadIdentity_ok. simpl. rewrite select_one_fmap by (intros q; by apply login_matches_change).
  rewrite Hr. simpl. eexists. split; [done|]. unfold change_row, user_is. simpl. by rewrite str_eqb_refl.
Qed.

Lemma set_row_failed_keys n lock now : countable n -> keeps_keys (set_row_failed n lock now).
Proof. done. Qed.

Lemma set_row_login_keys at_ : keeps_keys (set_row_login at_).
Proof. intros r. split_and!; [done..|]. intros _. simpl. unfold countable, int4_max. lia. Qed.

Lemma pg_found_user uid s r : pg_ok s -> r ∈ ps_identities s -> ir_user_id r = uid ->
  loadIdentity (user_is uid) s = inr (identity_of_row r).
Proof.
  intros Hok Hr Hu. apply loadIdentity_ok. exists r. split; [|done].
  by apply (select_one_unique ir_user_id); [apply Hok|..].
Qed.

#[export] Instance pg_laws : AuthStoreLaws PgStore.
Proof.
  split; try done.
  - intros uid s roles. cbn. unfold pg_roles. destruct (select_one (iam_user_is uid) (ps_users s)) as [x|]; [|done].
    destruct (negb (iu_is_active x)); [done|]. destruct (sort_roles _); [done|]. by intros [= <-].
  - intros x s i Hok (r & Hr & ->)%loadIdentity_ok. apply select_one_Some in Hr as [Hr _].
    by apply pg_found_user.
  - intros x n lock t u s i Hok Hfind Hn.
    destruct (pg_update_found x s i (set_row_failed n lock (ad_now u)) Hok Hfind) as (r & s' & <- & Hup & Hok' & Hf & ? & ?);
      [by apply set_row_failed_keys|].
    exists (ad_now u), s'. split; [|done]. cbn. unfold wrote, pg_wrap. simpl in Hup. by rewrite Hup.
  - intros x at_ t u s i Hok Hfind.
    destruct (pg_update_found x s i (set_row_login at_) Hok Hfind) as (r & s' & <- & Hup & Hok' & Hf & ? & ?);
      [by apply set_row_login_keys|].
    exists s'. split; [|done]. cbn. unfold wrote, pg_wrap. simpl in Hup. by rewrite Hup.
  - intros x t u s i Hok (r & Hr & ->)%loadIdentity_ok Hid Hrev [e Hfree]. simpl in Hid.
    assert (Hnone : select_one (session_is (ss_SessionID x)) (ps_sessions s) = None).
    { cbn in Hfree. by destruct (select_one (session_is _) _). }
    assert (Hun : unrevoked x = x) by (destruct x; simpl in *; by rewrite Hrev).
    rewrite select_one_None in Hnone.
    assert (Hins : insert_auth_session x s = inr (with_pg_sessions (ps_sessions s ++ [x]) s)).
    { unfold insert_auth_session. rewrite Hun.
      assert (existsb (fun q => str_eqb (ss_SessionID q) (ss_SessionID x)) (ps_sessions s) = false) as ->.
      { apply not_true_iff_false. intros (q & Hq & Heq)%existsb_true_elem. specialize (Hnone q Hq); unfold session_is in Hnone; congruence. }
      apply select_one_Some in Hr as [Hr Hru].
      assert (existsb (user_is (ss_UserID x)) (ps_identities s) = true) as ->; [|done].
      apply existsb_exists. exists r. split; [by apply list_elem_of_In|done]. }
    eexists. split; [cbn; by rewrite Hins|]. split_and!; [|cbn|done..].
    + destruct Hok. split; [done..|]. simpl. apply NoDup_fmap_snoc; [done|].
      intros y Hy Heq. specialize (Hnone y Hy). unfold session_is in Hnone. by rewrite Heq, str_eqb_refl in Hnone.
    + unfold select_one. rewrite bfilter_app, (bfilter_none _ (ps_sessions s)) by done.
      simpl. unfold session_is. rewrite bfilter_cons, str_eqb_refl. done.
  - intros sid at_ t u s x Hok Hfind. eexists. split; [done|]. split; [|done].
    destruct Hok. split; [done..|]. simpl. rewrite <- list_fmap_compose.
    erewrite list_fmap_ext; [done|]. intros i y _. simpl. by destruct (session_is sid y).
Qed.
End postgres.
