(* ===== verification/AuthLogin.v ===== *)
(** * Authentication: logging in

    What a login does, on any store that keeps the promises of [AuthStore]: the
    right password opens a session the cookie resolves to, wrong ones are
    counted and lock the account, and a locked account accepts no password. *)
From S2P Require Import Prelude Text Programs Sha256 AuthDomain AuthToken AuthMemory AuthService AuthStore.
Local Open Scope Z_scope.

Section login.
Context {St : Type} `{AuthStoreLaws St} (cfg : Config) (draw_at : Time -> AuthDraw).

Abbreviation run := (run_prog draw_at).

(** One operation whose answer [tac] knows. *)
Tactic Notation "run_step" tactic3(tac) := erewrite run_call by tac; cbv beta iota.

Lemma run_check_lock i {A} (f : unit -> PM AuthOp A) t (st : St) :
  (forall lock, id_LockedUntil i = Some lock -> lock <= t) ->
  exists t1, t <= t1 <= t + 1 /\ run (check_lock i ≫= f) t st = run (f tt) t1 st.
Proof.
  intros Hl. rewrite run_bind. unfold check_lock. destruct (id_LockedUntil i) as [lock|].
  - exists (t + 1). split; [lia|]. rewrite (run_call _ _ _ _ _ _ _ (step_now _ _ _)), <- run_bind.
    rewrite run_guard. specialize (Hl lock eq_refl). destruct (Z.ltb_spec t lock); [lia|done].
  - exists t. split; [lia|done].
Qed.

Lemma run_buildCurrentUser uid i roles t (st : St) :
  find_user uid st = inr i -> roles_of uid st = inr roles ->
  run (buildCurrentUser uid) t st
  = (inr (mkCurrentUser (id_UserID i) (id_Username i) (id_Email i) (id_DisplayName i)
            (id_MustChangePassword i) roles), t + 1 + 1, st).
Proof.
  intros Hi Hr. unfold buildCurrentUser. run_step (apply step_find_user). rewrite Hi.
  run_step (apply step_roles). by rewrite Hr.
Qed.

(** The session a login opens: what the cookie and the store hold. *)
Lemma run_open_session x i roles r t (st : St) :
  store_ok st -> find_identifier x st = inr i -> roles_of (id_UserID i) st = inr roles ->
  (forall u, exists e, find_session (hashToken (RawURLEncode (ad_bytes (draw_at u)))) st = inl e) ->
  exists buf st', buf <> [] /\
    let s := mkSession (hashToken (RawURLEncode buf)) (id_UserID i) t (t + cfg_SessionTTL cfg) None
               (remoteIP r) (truncate (TrimSpace (ci_UserAgent r)) 512) t in
    let i' := set_login t i in
    run (open_session cfg i r) t st
    = (inr (mkAuthenticatedSession (newSessionToken (cfg_SessionSecret cfg) buf).1
              (mkCurrentUser (id_UserID i) (id_Username i) (id_Email i) (id_DisplayName i)
                 (id_MustChangePassword i) roles) (t + cfg_SessionTTL cfg)), t + 6, st') /\
    store_ok st' /\ find_session (ss_SessionID s) st' = inr s /\
    find_identifier x st' = inr i' /\ find_user (id_UserID i) st' = inr i' /\
    roles_of (id_UserID i) st' = inr roles.
Proof.
  intros Hok Hi Hr Hfree. exists (ad_bytes (draw_at (t + 1 + 1))).
  destruct (step_login x t (t + 1) (draw_at (t + 1)) st i Hok Hi) as (st1 & Hlog & Hok1 & Hi1 & Hs1 & Hr1).
  set (s := mkSession _ _ _ _ _ _ _ _).
  destruct (step_create s (t + 1 + 1 + 1) (draw_at (t + 1 + 1 + 1)) st1 (set_login t i))
    as (st2 & Hcre & Hok2 & Hs2 & [Hid2 Hu2] & Hr2); [done|exact (find_same x st1 _ Hok1 Hi1)|done|done|..].
  { rewrite Hs1. apply Hfree. }
  exists st2. split.
  { intros Hb. pose proof (ad_length (draw_at (t + 1 + 1))) as Hl. by rewrite Hb in Hl. }
  assert (Hu : find_user (id_UserID i) st2 = inr (set_login t i)).
  { rewrite Hu2. exact (find_same x st1 _ Hok1 Hi1). }
  assert (Hro : roles_of (id_UserID i) st2 = inr roles) by (by rewrite Hr2, Hr1).
  cbv zeta. split_and!; [|done|done|by rewrite Hid2|done|done].
  unfold open_session. run_step (apply step_now).
  run_step (exact Hlog).
  erewrite run_map_err by (simpl; rewrite step_rand; reflexivity).
  cbn [newSessionToken]. run_step (exact Hcre). rewrite run_bind.
  erewrite run_buildCurrentUser by done. rewrite run_ret. do 2 f_equal; lia.
Qed.

Lemma run_resolve raw sid s i roles t (st : St) :
  tokenHashFromCookieValue (cfg_SessionSecret cfg) (TrimSpace raw) = inr sid ->
  TrimSpace raw <> "" -> store_ok st -> find_session sid st = inr s -> ss_RevokedAt s = None ->
  t + 1 <= ss_ExpiresAt s ->
  find_user (ss_UserID s) st = inr i -> roles_of (ss_UserID s) st = inr roles ->
  exists st', run (ResolveSession cfg raw) t st
    = (inr (mkCurrentUser (id_UserID i) (id_Username i) (id_Email i) (id_DisplayName i)
              (id_MustChangePassword i) roles), t + 6, st').
Proof.
  intros Hh Hne Hok Hs Hrev Hexp Hi Hr.
  destruct (step_touch sid (t + 1 + 1) (t + 1 + 1 + 1) (draw_at (t + 1 + 1 + 1)) st s Hok Hs)
    as (st1 & Htouch & _ & [_ Hu1] & Hr1).
  exists st1. unfold ResolveSession. rewrite run_guard. apply str_eqb_false in Hne as ->. simpl negb. cbv iota.
  rewrite Hh. rewrite run_bind. cbn [plift run_prog].
  run_step (apply step_find_session). rewrite Hs, run_guard, Hrev, bool_decide_eq_true_2 by done.
  run_step (apply step_now). rewrite run_guard.
  destruct (Z.ltb_spec (ss_ExpiresAt s) (t + 1)); [lia|]. simpl negb. cbv iota.
  run_step (apply step_now). run_step (exact Htouch).
  erewrite run_buildCurrentUser; [|by rewrite Hu1|by rewrite Hr1]. do 2 f_equal; lia.
Qed.

(** C8 A login and the requests after it: on any store, the right password of
    an active identity that is not locked opens a session, and until it
    expires the cookie resolves to the very user the login returned. *)
Theorem login_then_resolve identifier password r i roles t (st : St) :
  store_ok st -> TrimSpace identifier <> "" -> TrimSpace password <> "" ->
  find_identifier (TrimSpace identifier) st = inr i -> id_IsActive i = true ->
  (forall lock, id_LockedUntil i = Some lock -> lock <= t) ->
  bcrypt_compare (id_PasswordHash i) (TrimSpace password) = true ->
  roles_of (id_UserID i) st = inr roles ->
  (forall u, exists e, find_session (hashToken (RawURLEncode (ad_bytes (draw_at u)))) st = inl e) ->
  exists s t1 st1,
    run (Authenticate cfg identifier password r) t st = (inr s, t1, st1) /\
    cr_UserID (as_CurrentUser s) = id_UserID i /\ cr_Roles (as_CurrentUser s) = roles /\
    t + cfg_SessionTTL cfg <= as_ExpiresAt s <= t1 + cfg_SessionTTL cfg /\
    forall t2, t2 + 1 <= as_ExpiresAt s ->
      (run (ResolveSession cfg (as_RawToken s)) t2 st1).1.1 = inr (as_CurrentUser s).
Proof.
  intros Hok Hid Hpw Hi Hact Hlock Hcmp Hroles Hfree.
  destruct (run_check_lock i (fun _ => open_session cfg i r) (t + 1) st) as (t0 & Ht0 & Hrun).
  { intros lock Hl. specialize (Hlock lock Hl). lia. }
  destruct (run_open_session (TrimSpace identifier) i roles r t0 st Hok Hi Hroles Hfree)
    as (buf & st1 & Hbuf & Hopen & Hok1 & Hs & _ & Hu & Hr).
  eexists _, _, st1. split.
  { unfold Authenticate. rewrite run_guard. apply str_eqb_false in Hid as ->. apply str_eqb_false in Hpw as ->.
    simpl negb. cbv iota. run_step (apply step_find_identifier). rewrite Hi, run_guard, Hact.
    rewrite Hcmp, Hrun. exact Hopen. }
  simpl. split_and!; [done|done|lia|lia|]. intros t2 Ht2.
  destruct (cookie_trimmed (cfg_SessionSecret cfg) buf Hbuf) as [Htrim Hne].
  edestruct (run_resolve (newSessionToken (cfg_SessionSecret cfg) buf).1 (hashToken (RawURLEncode buf)))
    as [st2 ->]; [| |exact Hok1|exact Hs|done|done|exact Hu|exact Hr|done]; rewrite Htrim; [|done].
  by apply cookie_accepted.
Qed.

(** ** Wrong passwords *)

Lemma wrap64_countable n : countable n -> wrap64 n = n.
Proof. unfold countable, int4_max, wrap64. intros Hn. rewrite Z.mod_small; lia. Qed.

Lemma run_wrong_password identifier password r i t (st : St) :
  let n := id_FailedLoginAttempts i + 1 in
  store_ok st -> TrimSpace identifier <> "" -> TrimSpace password <> "" ->
  find_identifier (TrimSpace identifier) st = inr i -> id_IsActive i = true -> id_LockedUntil i = None ->
  countable n -> bcrypt_compare (id_PasswordHash i) (TrimSpace password) = false ->
  exists t1 st1 now, t <= t1 /\
    run (Authenticate cfg identifier password r) t st = (inl ErrInvalidCredentials, t1, st1) /\ store_ok st1 /\
    exists lock, find_identifier (TrimSpace identifier) st1 = inr (set_failed n lock now i) /\
      if cfg_LoginMaxFailedAttempts cfg <=? n then exists tl, t <= tl /\ lock = Some (tl + cfg_LoginLockDuration cfg)
      else lock = None.
Proof.
  cbv zeta. intros Hok Hid Hpw Hi Hact Hlock Hn Hcmp.
  apply str_eqb_false in Hid. apply str_eqb_false in Hpw.
  assert (Hrun : forall t0 lock, t + 1 <= t0 ->
    exists t1 st1 now, t <= t1 /\
    run (attempt (RecordFailedLogin (id_UserID i) (id_FailedLoginAttempts i + 1) lock) ≫=
         fun _ => (fail ErrInvalidCredentials : PM AuthOp AuthenticatedSession)) t0 st
    = (inl ErrInvalidCredentials, t1, st1) /\ store_ok st1 /\
    find_identifier (TrimSpace identifier) st1
      = inr (set_failed (id_FailedLoginAttempts i + 1) lock now i)).
  { intros t0 lock Ht0.
    destruct (step_failed (TrimSpace identifier) _ lock t0 (draw_at t0) st i Hok Hi Hn)
      as (now & st1 & Hs & Hok1 & Hi1 & _).
    exists (t0 + 1), st1, now. split_and!; [lia| |done|done]. by erewrite run_attempt by exact Hs. }
  unfold Authenticate. rewrite run_guard, Hid, Hpw. simpl negb. cbv iota.
  run_step (apply step_find_identifier). rewrite Hi, run_guard, Hact.
  unfold check_lock. rewrite Hlock, run_bind, run_ret, Hcmp. unfold reject_password.
  rewrite wrap64_countable by done.
  destruct (cfg_LoginMaxFailedAttempts cfg <=? id_FailedLoginAttempts i + 1).
  - rewrite run_bind. run_step (apply step_now). rewrite run_ret.
    destruct (Hrun (t + 1 + 1) (Some (t + 1 + cfg_LoginLockDuration cfg)) ltac:(lia))
      as (t1 & st1 & now & ? & ? & ? & ?).
    exists t1, st1, now. split_and!; [done..|]. eexists. split; [done|]. exists (t + 1). split; [lia|done].
  - rewrite run_bind, run_ret.
    destruct (Hrun (t + 1) None ltac:(lia)) as (t1 & st1 & now & ? & ? & ? & ?).
    exists t1, st1, now. split_and!; [done..|]. by eexists.
Qed.

(** While the lock lasts no password is looked at. *)
Lemma run_locked identifier password r i lock t (st : St) :
  TrimSpace identifier <> "" -> TrimSpace password <> "" ->
  find_identifier (TrimSpace identifier) st = inr i -> id_IsActive i = true ->
  id_LockedUntil i = Some lock -> t + 1 < lock ->
  run (Authenticate cfg identifier password r) t st = (inl ErrIdentityLocked, t + 1 + 1, st).
Proof.
  intros Hid Hpw Hi Hact Hlock Ht. apply str_eqb_false in Hid. apply str_eqb_false in Hpw.
  unfold Authenticate. rewrite run_guard, Hid, Hpw. simpl negb. cbv iota.
  run_step (apply step_find_identifier). rewrite Hi, run_guard, Hact, run_bind.
  unfold check_lock. rewrite Hlock. run_step (apply step_now).
  by destruct (Z.ltb_spec (t + 1) lock); [|lia].
Qed.

Definition wrong_for (i : Identity) (password : string) : Prop :=
  TrimSpace password <> "" /\ bcrypt_compare (id_PasswordHash i) (TrimSpace password) = false.

(** C15 Lockout: on any store, when an active account has as many wrong
    passwords sent for it, one request after the other, as its counter still
    allows, every one is refused as invalid, the last one locks it, and until
    the lock runs out every password, the right one too, is refused without
    being looked at. *)
Theorem wrong_passwords_lock_the_account identifier passwords r i t (st : St) :
  store_ok st -> TrimSpace identifier <> "" ->
  find_identifier (TrimSpace identifier) st = inr i -> id_IsActive i = true -> id_LockedUntil i = None ->
  0 <= id_FailedLoginAttempts i < cfg_LoginMaxFailedAttempts cfg -> cfg_LoginMaxFailedAttempts cfg <= int4_max ->
  Z.of_nat (length passwords) = cfg_LoginMaxFailedAttempts cfg - id_FailedLoginAttempts i ->
  Forall (wrong_for i) passwords ->
  exists st' lock,
    run_calls (auth_serve cfg) draw_at ((fun p => CallAuthenticate identifier p r) <$> passwords) t st
    = ((fun _ => inl ErrInvalidCredentials) <$> passwords, st') /\
    t + cfg_LoginLockDuration cfg <= lock /\
    forall password r' t', TrimSpace password <> "" -> t' + 1 < lock ->
      run (Authenticate cfg identifier password r') t' st' = (inl ErrIdentityLocked, t' + 1 + 1, st').
Proof.
  intros Hok Hid Hi Hact Hlock Ha Hmax Hlen HF. revert i t st Hok Hi Hact Hlock Ha Hlen HF.
  induction passwords as [|p passwords IH]; intros i t st Hok Hi Hact Hlock Ha Hlen HF; [simpl in Hlen; lia|].
  inversion HF as [|? ? [Hne Hcmp] HF']; subst. rewrite !fmap_cons.
  destruct (run_wrong_password identifier p r i t st) as (t1 & st1 & now & Ht1 & Hrun & Hok1 & lock & Hi1 & Hl);
    try done; [unfold countable; lia|].
  erewrite run_calls_cons by (unfold auth_serve, auth_reply; rewrite run_bind, Hrun; reflexivity).
  destruct passwords as [|q passwords].
  - simpl in Hlen. destruct (Z.leb_spec (cfg_LoginMaxFailedAttempts cfg) (id_FailedLoginAttempts i + 1)); [|lia].
    destruct Hl as (tl & Htl & ->). eexists st1, _. split_and!; [done|..].
    { apply Z.add_le_mono_r. exact Htl. }
    intros password r' t' Hp Ht'. by eapply run_locked.
  - simpl in Hlen. destruct (Z.leb_spec (cfg_LoginMaxFailedAttempts cfg) (id_FailedLoginAttempts i + 1)); [lia|].
    subst lock. destruct (IH (set_failed (id_FailedLoginAttempts i + 1) None now i) t1 st1)
      as (st' & lock & Hrest & Hlo & Hafter); try done; [simpl; lia|simpl; lia|].
    rewrite Hrest. exists st', lock. split_and!; [done|lia|done].
Qed.
End login.
