(* ===== verification/AuthSafety.v ===== *)
(** * Authentication: safety of sessions

    Who gets a session and which cookies resolve, on any store and whatever
    fails; and, in PostgreSQL, that a revoked session stays revoked whatever
    other requests are in flight. *)
From S2P Require Import Prelude Text Tables Programs ProgramLogic Sha256 AuthDomain AuthToken AuthMemory AuthPostgres AuthService AuthStore AuthLogin.
From stdpp Require Import relations.
Local Open Scope Z_scope.

Section any_store.
Context {St : Type} `{AuthStoreLaws St} (cfg : Config) (draw_at : Time -> AuthDraw).

(** Nothing is asked of the operations: only what the program returns counts. *)
Definition results : Protocol St := mkProtocol eq (fun _ _ => True) (fun _ => True).

#[local] Instance results_guar : PreOrder (pr_guar results).
Proof. done. Qed.

Lemma results_call {B} (o : AuthOp B) (Q : B -> St -> Prop) st :
  (forall t u b st', step o t u st = (inr b, st') -> Q b st') -> wpe results (call o) Q st.
Proof.
  intros HQ. apply wpe_call; [tc_solve|]. intros st1 t u r st2 <- _ Hs. split_and!; [done..|].
  destruct r; [done|]. by eapply HQ.
Qed.

(** C14 No session without the password: whatever fails on the way, a login
    that returns a session was for a stored identity that is active and whose
    hash accepts the password sent. *)
Theorem sessions_need_the_password identifier password r (st : St) s st' :
  finishes (Authenticate cfg identifier password r) st (inr s) st' ->
  exists i, find_identifier (TrimSpace identifier) st = inr i /\ id_IsActive i = true /\
    TrimSpace password <> "" /\ bcrypt_compare (id_PasswordHash i) (TrimSpace password) = true.
Proof.
  intros Hf.
  assert (wpe results (Authenticate cfg identifier password r) (fun _ _ =>
    exists i, find_identifier (TrimSpace identifier) st = inr i /\ id_IsActive i = true /\
      TrimSpace password <> "" /\ bcrypt_compare (id_PasswordHash i) (TrimSpace password) = true) st) as Hwp.
  { unfold Authenticate. apply wpe_bind, wpe_guard. intros Hne. bool_to_prop.
    apply wpe_bind, results_call. intros t u i st1. rewrite step_find_identifier. intros [= Hi <-].
    apply wpe_bind, wpe_guard. intros Hact. apply wpe_bind.
    eapply wpe_mono; [|apply wpe_true, wp_any; done]. intros _ st1 _.
    destruct (bcrypt_compare (id_PasswordHash i) (TrimSpace password)) eqn:Hcmp.
    - eapply wpe_mono; [|apply wpe_true, wp_any; done]. intros _ st2 _. by exists i.
    - unfold reject_password. apply wpe_bind. eapply wpe_mono; [|apply wpe_true, wp_any; done].
      intros lock st2 _. apply wpe_bind. eapply wpe_mono; [|apply wpe_true, wp_any; done].
      intros ? ? _. apply wpe_fail. }
  by apply (wp_finishes results _ _ _ _ _ Hwp Hf).
Qed.
End any_store.

(** ** Which cookies resolve *)

Section resolving.
Context {St : Type} `{AuthStoreLaws St} (cfg : Config) (draw_at : Time -> AuthDraw).

(** The user a store knows. *)
Definition current_user (uid : string) (st : St) : Result CurrentUser :=
  let! i := find_user uid st in
  let! roles := roles_of uid st in
  inr (mkCurrentUser (id_UserID i) (id_Username i) (id_Email i) (id_DisplayName i)
         (id_MustChangePassword i) roles).

(** What a cookie resolves to at a time. *)
Definition resolution (raw : string) (now : Time) (st : St) : Result CurrentUser :=
  let! sid := tokenHashFromCookieValue (cfg_SessionSecret cfg) (TrimSpace raw) in
  let! s := find_session sid st in
  if bool_decide (ss_RevokedAt s = None) then
    if ss_ExpiresAt s <? now then inl ErrSessionExpired else current_user (ss_UserID s) st
  else inl ErrSessionRevoked.

Lemma run_current_user uid t (st : St) :
  (run_prog draw_at (buildCurrentUser uid) t st).1.1 = current_user uid st.
Proof.
  unfold buildCurrentUser, current_user. erewrite run_call by apply step_find_user.
  destruct (find_user uid st) as [e|i]; [done|]. cbv beta iota.
  erewrite run_call by apply step_roles. by destruct (roles_of uid st).
Qed.

Lemma run_current_user_state uid t (st : St) :
  (run_prog draw_at (buildCurrentUser uid) t st).2 = st.
Proof.
  unfold buildCurrentUser. erewrite run_call by apply step_find_user.
  destruct (find_user uid st) as [e|i]; [done|]. cbv beta iota.
  erewrite run_call by apply step_roles. by destruct (roles_of uid st).
Qed.

Lemma run_resolution raw t (st : St) :
  store_ok st ->
  exists t' st', run_prog draw_at (ResolveSession cfg raw) t st = (resolution raw (t + 1) st, t', st') /\
    same_identities st st' /\ same_roles st st'.
Proof.
  intros Hok. assert (same_identities st st /\ same_roles st st) as Hsame by done.
  unfold ResolveSession, resolution. rewrite run_guard.
  destruct (str_eqb (TrimSpace raw) "") eqn:Hne.
  { apply str_eqb_true in Hne. rewrite Hne. by eexists t, st. }
  simpl negb. cbv iota. rewrite run_bind. cbn [plift run_prog].
  destruct (tokenHashFromCookieValue _ _) as [e|sid]; [by eexists t, st|].
  erewrite run_call by apply step_find_session.
  destruct (find_session sid st) as [e|s] eqn:Hs; [by eexists (t + 1), st|].
  cbv beta iota. rewrite run_guard. destruct (bool_decide (ss_RevokedAt s = None)); [|by eexists (t + 1), st].
  erewrite run_call by apply step_now. cbv beta iota. rewrite run_guard.
  destruct (ss_ExpiresAt s <? t + 1); [by eexists (t + 1 + 1), st|]. simpl negb. cbv iota.
  erewrite run_call by apply step_now. cbv beta iota.
  destruct (step_touch sid (t + 1 + 1) (t + 1 + 1 + 1) (draw_at (t + 1 + 1 + 1)) st s Hok Hs)
    as (st1 & Htouch & _ & [Hi Hu] & Hr).
  erewrite run_call by exact Htouch. cbv beta iota.
  pose proof (run_current_user (ss_UserID s) (t + 1 + 1 + 1 + 1) st1) as Hcur.
  pose proof (run_current_user_state (ss_UserID s) (t + 1 + 1 + 1 + 1) st1) as Hst.
  destruct (run_prog _ _ _ _) as [[r t'] st'] eqn:Hrun. simpl in Hcur, Hst. subst.
  exists t', st1. split; [|done]. unfold current_user. by rewrite Hu, Hr.
Qed.

(** C16 [ResolveSession] decides exactly this, on any store: the cookie must be
    signed, its session stored, not revoked and not expired; then the user is
    the stored one, with the roles of the moment. *)
Theorem resolve_session_decides raw t (st : St) :
  store_ok st ->
  (run_prog draw_at (ResolveSession cfg raw) t st).1.1 = resolution raw (t + 1) st.
Proof. intros Hok. by destruct (run_resolution raw t st Hok) as (t' & st' & -> & _). Qed.
End resolving.

(** ** Revocation *)

Section revocation.
Context `{LetterCase} `{Bcrypt} (cfg : Config).

(** How a stored session may change: its identity and its deadline do not, and
    a revocation is not undone. *)
Definition session_evolves (x y : Session) : Prop :=
  ss_SessionID y = ss_SessionID x /\ ss_UserID y = ss_UserID x /\ ss_ExpiresAt y = ss_ExpiresAt x /\
  (ss_RevokedAt x <> None -> ss_RevokedAt y <> None).

#[export] Instance session_evolves_preorder : PreOrder session_evolves.
Proof.
  split; [by intros x|]. intros x y z (? & ? & ? & ?) (? & ? & ? & ?).
  split_and!; [congruence..|auto].
Qed.

Definition sessions_evolve (s s' : PgStore) : Prop := grows session_evolves (ps_sessions s) (ps_sessions s').

#[export] Instance sessions_evolve_preorder : PreOrder sessions_evolve.
Proof.
  split; [intros s; unfold sessions_evolve; reflexivity|]. intros a b c. unfold sessions_evolve. by etrans.
Qed.

Definition distinct_sessions (s : PgStore) : Prop := NoDup (ss_SessionID <$> ps_sessions s).

(** The statements on the other tables. *)
Lemma insert_identity_sessions r s s' : insert_identity r s = inr s' -> ps_sessions s' = ps_sessions s.
Proof. unfold insert_identity. repeat case_match; try done. by intros [= <-]. Qed.

Lemma update_identity_sessions uid f s s' : update_identity uid f s = inr s' -> ps_sessions s' = ps_sessions s.
Proof. unfold update_identity. cbv zeta. repeat case_match; try done. by intros [= <-]. Qed.

Lemma pg_wrap_ok {A} fmt (r : Result A) a : pg_wrap fmt r = inr a -> r = inr a.
Proof. apply map_error_ok. Qed.

Lemma create_user_sessions p now s s' : pg_create_user p now s = inr s' -> ps_sessions s' = ps_sessions s.
Proof.
  unfold pg_create_user. case_match; [done|]. intros Hw%pg_wrap_ok. by eapply insert_identity_sessions.
Qed.

Lemma change_user_sessions p now s s' : pg_change_user p now s = inr s' -> ps_sessions s' = ps_sessions s.
Proof.
  unfold pg_change_user.
  assert (Hfirst : forall s1,
    (if bool_decide (is_Some (up_DisplayName p)) || bool_decide (is_Some (up_IsActive p)) then
       pg_wrap "update auth identity profile: %w" (update_identity (up_UserID p) (set_row_profile p now) s)
     else inr s) = inr s1 -> ps_sessions s1 = ps_sessions s).
  { intros s1. destruct (_ || _); [intros Hw%pg_wrap_ok; by eapply update_identity_sessions|by intros [= <-]]. }
  revert Hfirst. generalize (if bool_decide (is_Some (up_DisplayName p)) || bool_decide (is_Some (up_IsActive p)) then
       pg_wrap "update auth identity profile: %w" (update_identity (up_UserID p) (set_row_profile p now) s)
     else inr s). intros [e|s1] Hfirst; [done|]. rewrite <- (Hfirst s1 eq_refl).
  case_match; [|by intros [= <-]]. case_match; [done|].
  intros Hw%pg_wrap_ok. by eapply update_identity_sessions.
Qed.

Lemma bootstrap_sessions p now s s' : pg_bootstrap p now s = inr s' -> ps_sessions s' = ps_sessions s.
Proof.
  unfold pg_bootstrap. case_match; [done|]. intros Hw%pg_wrap_ok. case_match.
  - by eapply update_identity_sessions.
  - by eapply insert_identity_sessions.
Qed.

Lemma upsert_user_sessions uid dn act s : ps_sessions (upsert_iam_user uid dn act s) = ps_sessions s.
Proof. unfold upsert_iam_user. by case_match. Qed.

Lemma upsert_role_sessions uid c by_ s s' : upsert_iam_role uid c by_ s = inr s' -> ps_sessions s' = ps_sessions s.
Proof. unfold upsert_iam_role. cbv zeta. repeat case_match; try done; by intros [= <-]. Qed.

Lemma assign_role_sessions uid dn r by_ s s' : pg_assign_role uid dn r by_ s = inr s' -> ps_sessions s' = ps_sessions s.
Proof. intros Hw%pg_wrap_ok%upsert_role_sessions. by rewrite Hw, upsert_user_sessions. Qed.

Lemma upsert_roles_sessions uid cs by_ s s' : upsert_iam_roles uid cs by_ s = inr s' -> ps_sessions s' = ps_sessions s.
Proof.
  revert s. induction cs as [|c cs IH]; intros s; simpl; [by intros [= <-]|].
  destruct (upsert_iam_role uid c by_ s) as [e|s1] eqn:H1; [done|]. intros Hc%IH.
  by rewrite Hc, (upsert_role_sessions _ _ _ _ _ H1).
Qed.

Lemma replace_roles_sessions uid dn rs by_ s s' : pg_replace_roles uid dn rs by_ s = inr s' -> ps_sessions s' = ps_sessions s.
Proof.
  unfold pg_replace_roles. cbv zeta. destruct (pg_wrap _ _) as [e|s1] eqn:H1; [done|]. intros [= <-]. simpl.
  apply pg_wrap_ok, upsert_roles_sessions in H1. by rewrite H1, upsert_user_sessions.
Qed.

Lemma insert_session_evolves x s s' :
  insert_auth_session x s = inr s' -> sessions_evolve s s' /\ (distinct_sessions s -> distinct_sessions s').
Proof.
  unfold insert_auth_session. destruct (existsb _ (ps_sessions s)) eqn:Hx; [done|]. simpl.
  case_match; [done|]. intros [= <-]. split; [apply grows_append; tc_solve|].
  intros Hd. apply NoDup_fmap_snoc; [done|]. intros y Hy Heq.
  apply (existsb_false_elem _ _ y) in Hx; [|done]. cbv beta in Hx. by rewrite Heq, str_eqb_refl in Hx.
Qed.

Lemma update_sessions_evolves cond f s :
  (forall x, session_evolves x (f x)) ->
  sessions_evolve s (update_sessions cond f s) /\ (distinct_sessions s -> distinct_sessions (update_sessions cond f s)).
Proof.
  intros Hf. split.
  - apply grows_update. simpl. apply Forall2_fmap_r, Forall_Forall2_diag, Forall_forall. intros x _.
    simpl. destruct (cond x); [apply Hf|reflexivity].
  - unfold distinct_sessions. simpl. rewrite <- list_fmap_compose. erewrite list_fmap_ext; [done|].
    intros i x _. simpl. destruct (cond x); [|done]. by destruct (Hf x).
Qed.

(** Whatever the operation. *)
Lemma op_evolves {B} (o : AuthOp B) t u s r s' :
  pg_step o t u s = (r, s') -> sessions_evolve s s' /\ (distinct_sessions s -> distinct_sessions s').
Proof.
  assert (Hsame : forall s s', ps_sessions s' = ps_sessions s ->
    sessions_evolve s s' /\ (distinct_sessions s -> distinct_sessions s')).
  { intros a b Hab. unfold sessions_evolve, distinct_sessions. by rewrite Hab. }
  assert (Hwrote : forall (w : Result PgStore) (s : PgStore) r s', wrote w s = (r, s') ->
    (forall s'', w = inr s'' -> sessions_evolve s s'' /\ (distinct_sessions s -> distinct_sessions s'')) ->
    sessions_evolve s s' /\ (distinct_sessions s -> distinct_sessions s')).
  { intros w a q b Hw HP. destruct w as [e|a']; injection Hw as <- <-; [by apply Hsame|by apply HP]. }
  destruct o; cbn; unfold read_pg; try (intros [= _ <-]; by apply Hsame).
  - intros Hw. eapply Hwrote; [exact Hw|]. intros s2 Hi%pg_wrap_ok. by eapply insert_session_evolves.
  - intros [= _ <-]. by apply update_sessions_evolves.
  - intros [= _ <-]. by apply update_sessions_evolves.
  - intros [= _ <-]. by apply update_sessions_evolves.
  - intros Hw. eapply Hwrote; [exact Hw|]. intros s2 Hi%pg_wrap_ok. apply Hsame. by eapply update_identity_sessions.
  - intros Hw. eapply Hwrote; [exact Hw|]. intros s2 Hi%pg_wrap_ok. apply Hsame. by eapply update_identity_sessions.
  - intros Hw. eapply Hwrote; [exact Hw|]. intros s2 Hi. apply Hsame. by eapply create_user_sessions.
  - intros Hw. eapply Hwrote; [exact Hw|]. intros s2 Hi. apply Hsame. by eapply change_user_sessions.
  - destruct (pg_bootstrap params (ad_now u) s) as [e|s2] eqn:Hb; intros [= _ <-]; [by apply Hsame|].
    apply Hsame. by eapply bootstrap_sessions.
  - intros Hw. eapply Hwrote; [exact Hw|]. intros s2 Hi. apply Hsame. by eapply assign_role_sessions.
  - intros Hw. eapply Hwrote; [exact Hw|]. intros s2 Hi. apply Hsame. by eapply replace_roles_sessions.
Qed.

(** The state while a session is revoked, whoever runs. *)
Definition revoked_in (sid : string) (s : PgStore) : Prop :=
  distinct_sessions s /\ exists x, x ∈ ps_sessions s /\ ss_SessionID x = sid /\ ss_RevokedAt x <> None.

Definition while_revoked (sid : string) : Protocol PgStore :=
  mkProtocol sessions_evolve sessions_evolve (revoked_in sid).

Lemma revoked_evolves sid s s' :
  revoked_in sid s -> sessions_evolve s s' -> (distinct_sessions s -> distinct_sessions s') -> revoked_in sid s'.
Proof.
  intros [Hd (x & Hx & Hid & Hrev)] (l1 & new & Heq & HF) Hd'. split; [by apply Hd'|].
  apply list_elem_of_lookup in Hx as [k Hk].
  destruct (Forall2_lookup_l _ _ _ _ _ HF Hk) as (y & Hy & Hy1 & _ & _ & Hy2).
  exists y. split_and!; [|congruence|by apply Hy2].
  rewrite Heq. apply elem_of_app. left. by eapply list_elem_of_lookup_2.
Qed.

Lemma op_while_revoked sid B (o : AuthOp B) t u s r s' :
  step o t u s = (r, s') -> revoked_in sid s -> revoked_in sid s' /\ sessions_evolve s s'.
Proof.
  intros Hs Hi. destruct (op_evolves o t u s r s' Hs) as [He Hd]. split; [|done].
  by eapply revoked_evolves.
Qed.

Lemma resolve_while_revoked sid raw s :
  tokenHashFromCookieValue (cfg_SessionSecret cfg) (TrimSpace raw) = inr sid ->
  wpe (while_revoked sid) (ResolveSession cfg raw) (fun _ _ => False) s.
Proof.
  intros Hh. unfold ResolveSession. apply wpe_bind, wpe_guard. intros _.
  apply wpe_bind, wpe_lift. rewrite Hh. intros h [= <-]. apply wpe_bind.
  eapply (wpe_read _ _ (find_session sid)); [done|]. intros s1 x _ [Hd (y & Hy & Hid & Hrev)] Hx.
  apply wpe_bind, wpe_guard. intros Hnone. bool_to_prop. cbn in Hx.
  rewrite (select_one_unique ss_SessionID sid _ y) in Hx by done. congruence.
Qed.

(** C17 Revocation is final: once a session is revoked, a request that arrives
    with its cookie is never answered with a user, whatever requests are in
    flight or arrive, whichever of their operations fail, and however they
    interleave. *)
Theorem revoked_sessions_stay_closed raw sid x s ts ts' s' a :
  pg_ok s -> tokenHashFromCookieValue (cfg_SessionSecret cfg) (TrimSpace raw) = inr sid ->
  find_session sid s = inr x -> ss_RevokedAt x <> None ->
  rtc (pool_step (auth_serve cfg) (fun _ _ => False))
    (mkPool (ts ++ [auth_serve cfg (CallResolveSession raw)]) s) (mkPool ts' s') ->
  ts' !! length ts <> Some (Ret (inr a)).
Proof.
  intros Hok Hh Hx Hrev Hrun Ha. cbn in Hx.
  destruct (select_one (session_is sid) (ps_sessions s)) as [y|] eqn:Hy; [|done]. injection Hx as ->.
  apply select_one_Some in Hy as [Hy Hid]. unfold session_is in Hid. bool_to_prop.
  assert (Hi : revoked_in sid s) by (split; [apply Hok|by exists x]).
  set (Q := fun (r : Result AuthReply) (_ : PgStore) => match r with inl _ => True | inr _ => False end).
  assert (Hany : forall p : PM AuthOp AuthReply, forall st, wp (while_revoked sid) p (fun _ _ => True) st).
  { intros p st. apply wp_any; [tc_solve|]. apply op_while_revoked. }
  destruct (thread_sound (while_revoked sid) (auth_serve cfg) (fun _ _ => False)
    ltac:(intros c st _; by apply wpe_true) ltac:(done) ltac:(done) Q (length ts) _ _ ltac:(done) Hrun)
    as (_ & p & Hp & Hwp).
  - split; [done|]. simpl. apply Forall_forall. intros p _. apply Hany.
  - exists (auth_serve cfg (CallResolveSession raw)). split; [by apply list_lookup_middle|].
    apply (wpe_bind (while_revoked sid) _ _ (fun _ _ => False)).
    eapply wpe_mono; [|by apply resolve_while_revoked]. done.
  - simpl in Hp. rewrite Ha in Hp. by injection Hp as <-.
Qed.
End revocation.
