(* ===== verification/AuthGaps.v ===== *)
(** * Authentication: where the stores and the service part

    What the account operations do not do: unlocking and deactivating in
    PostgreSQL, passwords with white space around them, and logins taken over
    by an email. *)
From S2P Require Import Prelude Text Tables Programs ProgramLogic Sha256 AuthDomain AuthToken AuthMemory AuthPostgres AuthService AuthStore AuthLogin AuthSafety.
From stdpp Require Import relations.
Local Open Scope Z_scope.

Section gaps.
Context `{LetterCase} `{Bcrypt} (cfg : Config) (draw_at : Time -> AuthDraw).

(** ** Unlocking *)

Lemma unlock_in_postgres uid t (s : PgStore) : run_prog draw_at (UnlockUser uid) t s = (inr tt, t + 1, s).
Proof. done. Qed.

Lemma unlock_in_memory uid x i t (m : MemStore) :
  mem_ok m -> find_identifier x m = inr i -> TrimSpace uid = id_UserID i ->
  exists m', run_prog draw_at (UnlockUser uid) t m = (inr tt, t + 1, m') /\
    find_identifier x m' = inr (set_failed 0 None t i).
Proof.
  intros Hok Hi Huid. destruct (mem_found x m i Hok Hi) as (Hl & Hu & _).
  eexists. unfold UnlockUser. rewrite Huid. split.
  - cbn. unfold mem_change_user. cbn. by rewrite Hu.
  - cbn. unfold mem_find_identifier. cbn. by rewrite Hl, lookup_insert_eq.
Qed.

(** An administrator cannot unlock an account in PostgreSQL: the request
    succeeds and the account stays locked, for the right password too. The
    store in memory does unlock it. *)
Theorem unlocking_does_not_unlock identifier password r uid i lock t t' (s : PgStore) :
  TrimSpace identifier <> "" -> TrimSpace password <> "" ->
  find_identifier (TrimSpace identifier) s = inr i -> id_IsActive i = true ->
  id_LockedUntil i = Some lock -> t' + 1 < lock ->
  exists s', run_prog draw_at (UnlockUser uid) t s = (inr tt, t + 1, s') /\
    run_prog draw_at (Authenticate cfg identifier password r) t' s' = (inl ErrIdentityLocked, t' + 1 + 1, s') /\
    forall m : MemStore, mem_ok m -> find_identifier (TrimSpace identifier) m = inr i ->
      TrimSpace uid = id_UserID i ->
      exists m' i', run_prog draw_at (UnlockUser uid) t m = (inr tt, t + 1, m') /\
        find_identifier (TrimSpace identifier) m' = inr i' /\ id_LockedUntil i' = None.
Proof.
  intros Hid Hpw Hi Hact Hlock Ht. exists s. split_and!; [apply unlock_in_postgres|by eapply run_locked|].
  intros m Hok Hm Huid. destruct (unlock_in_memory uid _ i t m Hok Hm Huid) as (m' & Hr & Hf).
  by exists m', (set_failed 0 None t i).
Qed.

(** ** Deactivating *)

Definition deactivation (uid : string) : UpdateUserParams :=
  mkUpdateUserParams uid None None (Some false) None None false.

Lemma set_row_profile_keys p now : keeps_keys (set_row_profile p now).
Proof. done. Qed.

(** Looking up a user in a table where one row changed. *)
Lemma find_user_change uid v f (s : PgStore) :
  keeps_keys f ->
  loadIdentity (user_is v) (with_identities (change_row uid f <$> ps_identities s) s)
  = let! i := (match select_one (user_is v) (ps_identities s) with
               | Some r => inr (identity_of_row (change_row uid f r))
               | None => inl ErrIdentityNotFound
               end) in inr i.
Proof.
  intros Hf. unfold loadIdentity. simpl. rewrite select_one_fmap; [by destruct (select_one _ _)|].
  intros r. unfold user_is. by destruct (change_row_keys uid f r Hf) as (-> & _).
Qed.

(** A profile change of a user whose keys it leaves. *)
Lemma pg_change_profile p now (s : PgStore) :
  pg_ok s -> is_Some (up_DisplayName p) \/ is_Some (up_IsActive p) ->
  up_Email p = None -> up_NewPasswordHash p = None -> up_MustChangePassword p = None ->
  pg_change_user p now s
  = inr (with_identities (change_row (up_UserID p) (set_row_profile p now) <$> ps_identities s) s).
Proof.
  intros Hok Hp He Hh Hm. unfold pg_change_user, pg_wrap. rewrite He, Hh, Hm.
  rewrite (update_identity_keeps _ _ s Hok (set_row_profile_keys p now)).
  assert (bool_decide (is_Some (up_DisplayName p)) || bool_decide (is_Some (up_IsActive p)) = true) as ->; [|done].
  destruct Hp; [rewrite bool_decide_eq_true_2 by done; done|].
  by rewrite (bool_decide_eq_true_2 (is_Some (up_IsActive p))), orb_true_r by done.
Qed.

Lemma run_update p t (s s' : PgStore) :
  pg_change_user p (ad_now (draw_at t)) s = inr s' ->
  run_prog draw_at (call (UpdateUserOp p)) t s = (inr tt, t + 1, s').
Proof. intros Hp. cbn. by rewrite Hp. Qed.

(** Deactivating a user does not end what is running: in PostgreSQL the
    update succeeds and the user is inactive, but every cookie that resolved
    before resolves to the same user after. *)
Theorem deactivated_users_keep_their_sessions uid t (s : PgStore) :
  pg_ok s ->
  exists s1, run_prog draw_at (UpdateUser cfg (deactivation uid) "") t s = (inr tt, t + 1, s1) /\
    (forall i, find_user uid s1 = inr i -> id_IsActive i = false) /\
    forall raw now, resolution cfg raw now s1 = resolution cfg raw now s.
Proof.
  intros Hok. set (f := set_row_profile (deactivation uid) (ad_now (draw_at t))).
  assert (Hf : keeps_keys f) by apply set_row_profile_keys.
  exists (with_identities (change_row uid f <$> ps_identities s) s). split_and!.
  - change (run_prog draw_at (call (UpdateUserOp (deactivation uid))) t s
            = (inr tt, t + 1, with_identities (change_row uid f <$> ps_identities s) s)).
    apply run_update. rewrite pg_change_profile by (done || (right; by eexists)). done.
  - intros i. cbn. rewrite (find_user_change uid uid f s Hf).
    destruct (select_one (user_is uid) (ps_identities s)) as [r|] eqn:Hr; [|done]. intros [= <-].
    apply select_one_Some in Hr as [_ Hr]. unfold change_row. by rewrite Hr.
  - intros raw now. unfold resolution. destruct (tokenHashFromCookieValue _ _) as [e|sid]; [done|].
    cbn. destruct (select_one (session_is sid) (ps_sessions s)) as [x|]; [|done].
    destruct (bool_decide _); [|done]. destruct (ss_ExpiresAt x <? now); [done|].
    unfold current_user. cbn. rewrite (find_user_change uid (ss_UserID x) f s Hf). unfold loadIdentity.
    destruct (select_one (user_is (ss_UserID x)) (ps_identities s)) as [r|]; [|done].
    unfold change_row. destruct (user_is uid r); [|done]. done.
Qed.
End gaps.

(** ** Counting wrong passwords *)

Section guessing.
Context {St : Type} `{AuthStoreLaws St} (cfg : Config).

Abbreviation auth_step := (pool_step (auth_serve cfg) (fun _ _ : St => False)).

Lemma pool_start (cs : list AuthCall) ts (st : St) :
  rtc auth_step (mkPool ts st) (mkPool (ts ++ (auth_serve cfg <$> cs)) st).
Proof.
  revert ts. induction cs as [|c cs IH]; intros ts; [by rewrite app_nil_r|].
  eapply rtc_l; [apply (pool_request _ _ c)|]. specialize (IH (ts ++ [auth_serve cfg c])).
  by rewrite <- app_assoc in IH.
Qed.

(** Every thread does one operation, in turn, while [R] holds of the store. *)
Lemma pool_phase (R : St -> Prop) ps qs :
  Forall2 (fun p q => forall st, R st -> exists B (o : AuthOp B) k b st',
    p = Vis o k /\ answers o st b st' /\ R st' /\ k b = q) ps qs ->
  forall finished st, R st ->
  exists st', R st' /\ rtc auth_step (mkPool (finished ++ ps) st) (mkPool (finished ++ qs) st').
Proof.
  induction 1 as [|p q ps qs Hpq _ IH]; intros finished st HR; [by exists st|].
  destruct (Hpq st HR) as (B & o & k & b & st1 & -> & Ha & HR1 & <-).
  destruct (IH (finished ++ [k b]) st1 HR1) as (st2 & HR2 & Hrest). exists st2. split; [done|].
  rewrite <- !app_assoc in Hrest. eapply rtc_l; [|exact Hrest].
  pose proof (pool_op (auth_serve cfg) (fun _ _ => False) (finished ++ Vis o k :: ps) st (length finished) B o k b st1) as Hop.
  rewrite list_lookup_middle, insert_app_r_alt, Nat.sub_diag in Hop by done. by apply Hop.
Qed.

Definition some_draw : AuthDraw := mkAuthDraw 0 (replicate 32 0) "" eq_refl.

(** The two operations of a wrong guess that does not reach the limit. *)
Lemma wrong_guess identifier p (r : ClientInfo) i :
  TrimSpace identifier <> "" -> id_IsActive i = true -> id_LockedUntil i = None ->
  countable (id_FailedLoginAttempts i + 1) -> id_FailedLoginAttempts i + 1 < cfg_LoginMaxFailedAttempts cfg ->
  wrong_for i p ->
  exists k k2, auth_serve cfg (CallAuthenticate identifier p r) = Vis (FindIdentityByIdentifier (TrimSpace identifier)) k /\
    k (inr i) = Vis (RecordFailedLogin (id_UserID i) (id_FailedLoginAttempts i + 1) None) k2 /\
    forall b, k2 b = Ret (inl ErrInvalidCredentials).
Proof.
  intros Hid Hact Hlock Hc Hmax [Hne Hcmp]. apply str_eqb_false in Hid. apply str_eqb_false in Hne.
  unfold auth_serve, auth_reply, Authenticate. rewrite Hid, Hne. eexists _, _. split; [reflexivity|].
  cbv beta iota. rewrite Hact. unfold check_lock. rewrite Hlock. cbn -[wrap64]. rewrite Hcmp. unfold reject_password.
  rewrite wrap64_countable by done.
  destruct (Z.leb_spec (cfg_LoginMaxFailedAttempts cfg) (id_FailedLoginAttempts i + 1)); [lia|].
  split; reflexivity.
Qed.

(** The account while the guesses are counted. *)
Definition counted_once (identifier : string) (i : Identity) (st : St) : Prop :=
  store_ok st /\ exists j, find_identifier (TrimSpace identifier) st = inr j /\ id_UserID j = id_UserID i /\
    id_PasswordHash j = id_PasswordHash i /\ id_IsActive j = id_IsActive i /\ id_LockedUntil j = None /\
    id_FailedLoginAttempts j <= id_FailedLoginAttempts i + 1.

(** The limit does not bound the guesses: on any store, however many wrong
    passwords are in flight at once for an account two short of its limit, they
    may all be compared with its hash and count as one, and the account stays
    open. *)
Theorem parallel_guesses_count_as_one identifier passwords (r : ClientInfo) i (st : St) :
  store_ok st -> TrimSpace identifier <> "" -> find_identifier (TrimSpace identifier) st = inr i ->
  id_IsActive i = true -> id_LockedUntil i = None -> countable (id_FailedLoginAttempts i + 1) ->
  id_FailedLoginAttempts i + 1 < cfg_LoginMaxFailedAttempts cfg -> Forall (wrong_for i) passwords ->
  exists st', counted_once identifier i st' /\
    rtc auth_step (mkPool [] st)
      (mkPool ((fun _ => Ret (inl ErrInvalidCredentials)) <$> passwords) st').
Proof.
  intros Hok Hid Hi Hact Hlock Hc Hmax HF.
  assert (exists mid, Forall2 (fun (p : PM AuthOp AuthReply) q => forall st1, st1 = st -> exists B (o : AuthOp B) k b st',
      p = Vis o k /\ answers o st1 b st' /\ st' = st /\ k b = q)
      ((fun p => auth_serve cfg (CallAuthenticate identifier p r)) <$> passwords) mid /\
    Forall2 (fun p q => forall st1, counted_once identifier i st1 -> exists B (o : AuthOp B) k b st',
      p = Vis o k /\ answers o st1 b st' /\ counted_once identifier i st' /\ k b = q)
      mid ((fun _ => Ret (inl ErrInvalidCredentials)) <$> passwords)) as (mid & Hfind & Hrecord).
  { induction HF as [|p passwords Hp _ (mid & IH1 & IH2)]; [by exists []|].
    destruct (wrong_guess identifier p r i) as (k & k2 & Hserve & Hk & Hk2); [done..|].
    exists (k (inr i) :: mid). rewrite !fmap_cons. split; constructor; [|done| |done].
    - intros st1 ->. eexists _, _, k, _, st. split_and!; [done| |done..].
      apply (answer_ok _ _ 0 some_draw). by rewrite step_find_identifier, Hi.
    - intros st1 (Hok1 & j & Hj & Hu & Hh & Ha & Hl & Hn).
      destruct (step_failed (TrimSpace identifier) (id_FailedLoginAttempts i + 1) None 0 some_draw st1 j Hok1 Hj Hc)
        as (now & st2 & Hs & Hok2 & Hj2 & _). rewrite Hu in Hs.
      eexists _, _, k2, _, st2. split_and!; [done|by eapply answer_ok| |done].
      split; [done|]. eexists. split; [exact Hj2|]. simpl. split_and!; [done..|lia]. }
  destruct (pool_phase (fun x => x = st) _ mid Hfind [] st eq_refl) as (? & -> & Hrun1).
  destruct (pool_phase _ _ _ Hrecord [] st) as (st2 & Hcount & Hrun2).
  { split; [done|]. exists i. split_and!; [done..|lia]. }
  exists st2. split; [done|].
  pose proof (pool_start ((fun p => CallAuthenticate identifier p r) <$> passwords) [] st) as Hstart.
  rewrite <- list_fmap_compose in Hstart. etrans; [exact Hstart|]. etrans; [exact Hrun1|exact Hrun2].
Qed.
End guessing.
