(* ===== verification/AuthScenario.v ===== *)
(** * Authentication: runs the kernel evaluates

    A server whose bootstrap created an administrator, in PostgreSQL and in
    memory; what the theorems say of it, and what happens to requests that
    overlap. *)
From S2P Require Import Prelude Text Tables Programs ProgramLogic Sha256 AuthDomain AuthToken AuthMemory AuthPostgres AuthService AuthStore AuthLogin AuthSafety AuthGaps.
From stdpp Require Import relations.
Local Open Scope Z_scope.

Module AuthDemo.
(** A hash that shows its password, for passwords bcrypt takes. *)
#[export] Instance plain_hash : Bcrypt := {|
  bcrypt_hash salt p :=
    if Nat.leb (String.length p) 72 then inr ("$" +:+ p) else inl (Sentinel "bcrypt.ErrPasswordTooLong");
  bcrypt_compare h p := str_eqb h ("$" +:+ p)
|}.

#[export] Instance plain_hash_laws : BcryptLaws.
Proof.
  intros salt p h. unfold bcrypt_hash, bcrypt_compare, plain_hash.
  destruct (Nat.leb _ _); [|done]. intros [= <-]. apply str_eqb_refl.
Qed.

#[export] Instance ascii_case : LetterCase := {| go_lower := ToLower; sql_lower := ToLower |}.

Definition draw (t : Time) : AuthDraw := mkAuthDraw t (t mod 256 :: replicate 31 7) "salt" eq_refl.

(** Three wrong passwords lock for fifteen minutes. *)
Definition cfg : Config :=
  mkConfig "metaldocs_session" 28800 "pepper" 8 3 900 false true [] true "admin" "Admin" "admin@acme.test"
    "changeme-now" "Admin" true.

Definition browser : ClientInfo := mkClientInfo "" "10.0.0.7:40112" "curl".

Definition good : string := "changeme-now".
Definition bad : string := "guess".

Definition no_accounts : PgStore := mkPgStore [] [] [] [].

(** The stores after the bootstrap. *)
Definition pg_started : PgStore := Eval vm_compute in (run_prog draw (BootstrapLocalAdmin cfg) 0 no_accounts).2.
Definition mem_started : MemStore := Eval vm_compute in (run_prog draw (BootstrapLocalAdmin cfg) 0 NewRepository).2.

Definition admin_of (s : PgStore) : Identity :=
  match find_identifier "admin" s with inr i => i | inl _ => mkIdentity "" "" "" "" "" "" false None 0 None false [] 0 0 end.

(** The administrator logs in; the cookie; and logs out. *)
Definition login : AuthCall := CallAuthenticate "ADMIN" good browser.
Definition cookie : string := Eval vm_compute in
  match (run_prog draw (Authenticate cfg "ADMIN" good browser) 100 pg_started).1.1 with
  | inr s => as_RawToken s | inl _ => "" end.
Definition cookie_session : string := Eval vm_compute in
  match tokenHashFromCookieValue (cfg_SessionSecret cfg) cookie with inr sid => sid | inl _ => "" end.
Definition logged_in : PgStore := Eval vm_compute in
  (run_prog draw (Authenticate cfg "ADMIN" good browser) 100 pg_started).2.
Definition logged_out : PgStore := Eval vm_compute in (run_prog draw (Logout cfg cookie) 200 logged_in).2.

(** Three wrong passwords. *)
Definition pg_locked : PgStore := Eval vm_compute in
  (run_calls (auth_serve cfg) draw (replicate 3 (CallAuthenticate "ADMIN" bad browser)) 100 pg_started).2.
Definition mem_locked : MemStore := Eval vm_compute in
  (run_calls (auth_serve cfg) draw (replicate 3 (CallAuthenticate "ADMIN" bad browser)) 100 mem_started).2.
End AuthDemo.
Import AuthDemo.

(** The store holds one administrator. *)
Lemma one_identity_ok (r : IdentityRow) ss us rs :
  countable (ir_failed_login_attempts r) -> NoDup (ss_SessionID <$> ss) -> pg_ok (mkPgStore [r] ss us rs).
Proof.
  intros Hc Hs. split; [|..|done]; simpl.
  - apply NoDup_singleton.
  - by intros a b ->%list_elem_of_singleton ->%list_elem_of_singleton.
  - by intros a ->%list_elem_of_singleton.
Qed.

Lemma pg_started_ok : pg_ok pg_started.
Proof. apply one_identity_ok; [done|constructor]. Qed.

Lemma pg_locked_ok : pg_ok pg_locked.
Proof. apply one_identity_ok; [by split|constructor]. Qed.

Lemma logged_ok x : pg_ok (mkPgStore (ps_identities logged_in) [x] (ps_users logged_in) (ps_roles logged_in)).
Proof. apply one_identity_ok; [done|apply NoDup_singleton]. Qed.

(** ** The theorems on these runs *)

Lemma new_cookies_are_accepted_witness :
  tokenHashFromCookieValue (cfg_SessionSecret cfg) (cookie +:+ " ") = inr cookie_session.
Proof. exact (new_cookies_are_accepted "pepper" (ad_bytes (draw 103)) (cookie +:+ " ") ltac:(done) ltac:(vm_compute; exact eq_refl)). Defined.

Lemma admin_found : find_identifier "ADMIN" pg_started = inr (admin_of pg_started).
Proof. done. Qed.

Lemma login_then_resolve_witness :
  exists s t1 st1, run_prog draw (Authenticate cfg "ADMIN" good browser) 100 pg_started = (inr s, t1, st1) /\
    cr_Roles (as_CurrentUser s) = [RoleAdmin] /\
    (run_prog draw (ResolveSession cfg (as_RawToken s)) 28000 st1).1.1 = inr (as_CurrentUser s).
Proof.
  destruct (login_then_resolve cfg draw "ADMIN" good browser (admin_of pg_started) [RoleAdmin] 100 pg_started)
    as (s & t1 & st1 & Hrun & _ & Hroles & Hexp & Hres);
    [apply pg_started_ok|by vm_compute..|by eexists|].
  exists s, t1, st1. split_and!; [done|done|]. apply Hres. destruct Hexp as [He _]. cbn in He. lia.
Defined.

Lemma wrong_passwords_lock_the_account_witness :
  exists st' lock,
    run_calls (auth_serve cfg) draw (replicate 3 (CallAuthenticate "ADMIN" bad browser)) 100 pg_started
    = (replicate 3 (inl ErrInvalidCredentials), st') /\ 1000 <= lock /\
    run_prog draw (Authenticate cfg "ADMIN" good browser) 900 st' = (inl ErrIdentityLocked, 902, st').
Proof.
  destruct (wrong_passwords_lock_the_account cfg draw "ADMIN" [bad; bad; bad] browser (admin_of pg_started) 100 pg_started)
    as (st' & lock & Hrun & Hlo & Hafter); [apply pg_started_ok|by vm_compute..|by repeat constructor|].
  exists st', lock. cbn in Hlo. split_and!; [exact Hrun|lia|]. apply Hafter; [by vm_compute|lia].
Defined.

Lemma sessions_need_the_password_witness :
  exists i, find_identifier "ADMIN" pg_started = inr i /\ id_IsActive i = true /\
    good <> "" /\ bcrypt_compare (id_PasswordHash i) good = true.
Proof.
  pose proof (run_prog_finishes draw (Authenticate cfg "ADMIN" good browser) 100 pg_started) as Hf.
  destruct (run_prog draw (Authenticate cfg "ADMIN" good browser) 100 pg_started) as [[[e|s] t] st] eqn:Hr;
    [by vm_compute in Hr|].
  exact (sessions_need_the_password cfg "ADMIN" good browser pg_started s st Hf).
Defined.

Lemma resolve_session_decides_witness :
  (run_prog draw (ResolveSession cfg cookie) 300 logged_out).1.1 = inl ErrSessionRevoked.
Proof. rewrite (resolve_session_decides cfg draw cookie 300 logged_out); [by vm_compute|apply (logged_ok _)]. Defined.

(** The resolution of a closed session next to another login. *)
Definition resolving_beside : Pool (Op := AuthOp) (St := PgStore) (Reply := AuthReply) :=
  exec (auth_serve cfg) draw (replicate 3 (Step 0) ++ replicate 6 (Step 1)) 300
    (mkPool [auth_serve cfg login; auth_serve cfg (CallResolveSession cookie)] logged_out).

Lemma pool_parts (p : Pool (Op := AuthOp) (St := PgStore) (Reply := AuthReply)) :
  mkPool (pool_threads p) (pool_store p) = p.
Proof. by destruct p. Qed.

Lemma revoked_sessions_stay_closed_witness :
  pool_threads resolving_beside !! 1%nat = Some (Ret (inl ErrSessionRevoked)) /\
  forall a, pool_threads resolving_beside !! 1%nat <> Some (Ret (inr a)).
Proof.
  split; [vm_compute; exact eq_refl|]. intros a.
  apply (revoked_sessions_stay_closed cfg cookie cookie_session (revoke_session 200 (nth 0 (ps_sessions logged_in) (mkSession "" "" 0 0 None "" "" 0)))
           logged_out [auth_serve cfg login] _ (pool_store resolving_beside)); [apply (logged_ok _)|vm_compute; exact eq_refl..|done|].
  rewrite pool_parts. apply exec_steps.
Defined.

Lemma unlocking_does_not_unlock_witness :
  exists s', run_prog draw (UnlockUser "admin") 200 pg_locked = (inr tt, 201, s') /\
    run_prog draw (Authenticate cfg "ADMIN" good browser) 300 s' = (inl ErrIdentityLocked, 302, s').
Proof.
  destruct (unlocking_does_not_unlock cfg draw "ADMIN" good browser "admin" (admin_of pg_locked)
    (default 0 (id_LockedUntil (admin_of pg_locked))) 200 300 pg_locked) as (s' & H1 & H2 & _); [by vm_compute..|].
  exists s'. split; [exact H1|exact H2].
Defined.

Lemma deactivated_users_keep_their_sessions_witness :
  exists s1, run_prog draw (UpdateUser cfg (deactivation "admin") "") 200 logged_in = (inr tt, 201, s1) /\
    id_IsActive (admin_of s1) = false /\ exists u, resolution cfg cookie 300 s1 = inr u /\ cr_UserID u = "admin".
Proof.
  destruct (deactivated_users_keep_their_sessions cfg draw "admin" 200 logged_in) as (s1 & H1 & H2 & H3); [apply (logged_ok _)|].
  exists s1. split; [done|]. rewrite H3. split; [|eexists; split; [vm_compute; exact eq_refl|done]].
  vm_compute in H1. by injection H1 as <-.
Defined.

Lemma parallel_guesses_count_as_one_witness :
  exists st', counted_once "ADMIN" (admin_of pg_started) st' /\
    rtc (pool_step (auth_serve cfg) (fun _ _ : PgStore => False)) (mkPool [] pg_started)
      (mkPool (replicate 5 (Ret (inl ErrInvalidCredentials))) st').
Proof.
  destruct (parallel_guesses_count_as_one cfg "ADMIN" (replicate 5 bad) browser (admin_of pg_started) pg_started)
    as (st' & H1 & H2);
    [apply pg_started_ok|by vm_compute..|by repeat constructor|].
  exists st'. split; [exact H1|exact H2].
Defined.

(** ** A login that overtakes a reset *)

Definition reset : AuthCall := CallAdminResetPassword "admin" "brand-new-password".

(** The login compares the password and waits; the administrator resets it and
    the sessions of the account are revoked; the login goes on. *)
Definition overtaken : Pool (Op := AuthOp) (St := PgStore) (Reply := AuthReply) :=
  Eval vm_compute in
  exec (auth_serve cfg) draw ([Start login; Start reset; Step 0] ++ replicate 4 (Step 1) ++ replicate 6 (Step 0)) 100
    (mkPool [] pg_started).

(** A password reset does not close what is under way: a login with the old
    password that was compared before the reset opens its session after the
    sessions of the account were revoked, and its cookie resolves. *)
Theorem reset_overtaken_by_a_login :
  rtc (pool_step (auth_serve cfg) (fun _ _ : PgStore => False)) (mkPool [] pg_started) overtaken /\
  (exists s u, pool_threads overtaken = [Ret (inr (RepSession s)); Ret (inr RepDone)] /\
     resolution cfg (as_RawToken s) 500 (pool_store overtaken) = inr u /\ cr_UserID u = "admin") /\
  id_PasswordHash (admin_of (pool_store overtaken)) = "$brand-new-password".
Proof.
  split_and!.
  - assert (overtaken = exec (auth_serve cfg) draw ([Start login; Start reset; Step 0] ++ replicate 4 (Step 1) ++ replicate 6 (Step 0)) 100
      (mkPool [] pg_started)) as -> by (vm_compute; exact eq_refl). apply exec_steps.
  - eexists _, _. split; [reflexivity|]. split; [vm_compute; exact eq_refl|done].
  - done.
Qed.
