(* ===== verification/RateLimit.v ===== *)
(** * Platform: the rate limiter

    [platform/security/ratelimit.go]: a fixed window per identity, in
    nanoseconds. *)
From S2P Require Import Prelude Text.
Local Open Scope Z_scope.

Record WindowCounter := mkWindowCounter { wc_windowStart : Time; wc_count : Z }.

(** [RateLimitConfig] as [NewRateLimiter] keeps it. *)
Record RateLimitConfig := mkRateLimitConfig { rl_Enabled : bool; rl_WindowSeconds : Z; rl_MaxRequests : Z }.

Definition Second : Z := 10 ^ 9.
Definition rl_window (cfg : RateLimitConfig) : Z := rl_WindowSeconds cfg * Second.

(** [strconvSecondsCeil], before [Itoa]; Go's division rounds to zero. *)
Definition secondsCeil (d : Z) : Z :=
  let sec := d ÷ Second in
  let sec := if Z.rem d Second =? 0 then sec else sec + 1 in
  if sec <? 0 then 0 else sec.

(** [allow]: whether the request passes, the seconds to wait, and the counter
    to store; a refused request stores none. *)
Definition allow (cfg : RateLimitConfig) (now : Time) (current : option WindowCounter)
    : bool * Z * option WindowCounter :=
  let fresh := (true, 0, Some (mkWindowCounter now 1)) in
  match current with
  | None => fresh
  | Some c =>
      if rl_window cfg <=? now - wc_windowStart c then fresh
      else if rl_MaxRequests cfg <=? wc_count c then
        let retryAfter := wc_windowStart c + rl_window cfg - now in
        (false, secondsCeil (if retryAfter <? 0 then 0 else retryAfter), None)
      else (true, 0, Some (mkWindowCounter (wc_windowStart c) (wc_count c + 1)))
  end.

Definition shouldSkipRateLimit (path : string) : bool :=
  str_eqb path "/api/v1/health/live" || str_eqb path "/api/v1/health/ready".

(** The counters of all identities. *)
Definition count_request (cfg : RateLimitConfig) (now : Time) (identity : string) (m : gmap string WindowCounter)
    : bool * Z * gmap string WindowCounter :=
  let '(ok, retry, c) := allow cfg now (m !! identity) in
  (ok, retry, match c with Some c => <[identity := c]> m | None => m end).

(** Requests in the order they take the mutex: which ones pass. *)
Fixpoint count_requests (cfg : RateLimitConfig) (reqs : list (Time * string)) (m : gmap string WindowCounter)
    : list bool :=
  match reqs with
  | [] => []
  | (t, identity) :: rest =>
      let '(ok, _, m') := count_request cfg t identity m in ok :: count_requests cfg rest m'
  end.

(** Those of an identity that passed between two times. *)
Fixpoint passed (identity : string) (from to : Time) (reqs : list (Time * string)) (oks : list bool) : Z :=
  match reqs, oks with
  | (t, i) :: reqs, ok :: oks =>
      (if str_eqb i identity && ok && (from <=? t) && (t <? to) then 1 else 0) + passed identity from to reqs oks
  | _, _ => 0
  end.

(** The first request of a window always passes. *)
Definition rl_limit (cfg : RateLimitConfig) : Z := Z.max 1 (rl_MaxRequests cfg).

(** ** How many requests pass *)

Section bound.
Context (cfg : RateLimitConfig) (identity : string) (from : Time).
Hypothesis window_positive : 0 < rl_window cfg.

Let to : Time := from + rl_window cfg.
Let M : Z := rl_limit cfg.

(** What may still pass in the interval, by the counter of the identity. *)
Definition budget (c : option WindowCounter) : Z :=
  match c with
  | Some c =>
      if from <=? wc_windowStart c then M - wc_count c
      else if from <? wc_windowStart c + rl_window cfg then 2 * M - wc_count c else 2 * M
  | None => 2 * M
  end.

Definition counter_ok (c : option WindowCounter) : Prop :=
  match c with Some c => 1 <= wc_count c <= M | None => True end.

Lemma passed_late reqs oks : Forall (fun e => to <= e.1) reqs -> passed identity from to reqs oks = 0.
Proof.
  intros HF. revert oks. induction HF as [|[t i] reqs Ht _ IH]; intros oks; [done|].
  destruct oks as [|ok oks]; [done|]. simpl in *. rewrite IH. destruct (Z.ltb_spec t to); [lia|].
  by rewrite andb_false_r.
Qed.

Lemma passed_le_budget reqs m :
  StronglySorted (fun e f => e.1 <= f.1) reqs -> counter_ok (m !! identity) ->
  passed identity from to reqs (count_requests cfg reqs m) <= budget (m !! identity).
Proof.
  intros Hs. revert m. induction Hs as [|[t i] reqs Hs IH HF]; intros m Hok.
  { simpl. unfold budget. unfold counter_ok in Hok. assert (1 <= M) by (unfold M, rl_limit; lia).
    repeat case_match; lia. }
  assert (HM : 1 <= M) by (unfold M, rl_limit; lia).
  destruct (Z.le_gt_cases to t) as [Hlate|Hin].
  { rewrite passed_late; [unfold budget, counter_ok in *; repeat case_match; lia|].
    constructor; [done|]. eapply Forall_impl; [exact HF|]. simpl. intros e He. lia. }
  simpl. unfold count_request. destruct (allow cfg t (m !! i)) as [[ok retry] c] eqn:Ha. simpl.
  set (m' := match c with Some c => <[i := c]> m | None => m end).
  destruct (str_eqb i identity) eqn:Hi; simpl.
  - bool_to_prop. subst i. destruct (Z.ltb_spec t to); [|lia]. rewrite andb_true_r.
    assert (Hm' : m' !! identity = match c with Some c => Some c | None => m !! identity end).
    { subst m'. destruct c; [by rewrite lookup_insert_eq|done]. }
    assert (HokM : counter_ok (m' !! identity) /\
      (if ok && (from <=? t) then 1 else 0) + budget (m' !! identity) <= budget (m !! identity)).
    { rewrite Hm'. unfold allow in Ha. destruct (m !! identity) as [[ws k]|] eqn:Hc; cbn [wc_windowStart wc_count] in Ha.
      - simpl in Hok. destruct (Z.leb_spec (rl_window cfg) (t - ws)).
        + injection Ha as <- <- <-. simpl. split; [lia|].
          destruct (Z.leb_spec from t), (Z.leb_spec from ws), (Z.ltb_spec from (t + rl_window cfg)),
            (Z.ltb_spec from (ws + rl_window cfg)); subst to; lia.
        + destruct (Z.leb_spec (rl_MaxRequests cfg) k); injection Ha as <- <- <-; simpl.
          * split; [done|]. lia.
          * assert (k + 1 <= M) by (unfold M, rl_limit; lia). split; [lia|].
            destruct (Z.leb_spec from t), (Z.leb_spec from ws), (Z.ltb_spec from (ws + rl_window cfg)); lia.
      - injection Ha as <- <- <-. simpl. split; [lia|].
        destruct (Z.leb_spec from t), (Z.ltb_spec from (t + rl_window cfg)); lia. }
    destruct HokM as [Hok' Hb]. specialize (IH m' Hok'). lia.
  - assert (Hm' : m' !! identity = m !! identity).
    { bool_to_prop. subst m'. destruct c; [by rewrite lookup_insert_ne|done]. }
    rewrite <- Hm'. apply IH. by rewrite Hm'.
Qed.
End bound.


Lemma secondsCeil_spec d : 0 <= d -> d <= secondsCeil d * Second < d + Second.
Proof.
  intros Hd. unfold secondsCeil, Second in *. rewrite Z.quot_div_nonneg, Z.rem_mod_nonneg by lia.
  pose proof (Z.div_mod d (10 ^ 9) ltac:(lia)). pose proof (Z.mod_pos_bound d (10 ^ 9) ltac:(lia)).
  pose proof (Z.div_pos d (10 ^ 9)). destruct (Z.eqb_spec (d mod 10 ^ 9) 0).
  - destruct (Z.ltb_spec (d / 10 ^ 9) 0); lia.
  - destruct (Z.ltb_spec (d / 10 ^ 9 + 1) 0); lia.
Qed.

(** A refusal says when to come back: after that many seconds a request of
    the same identity passes, and a second earlier the window is still open. *)
Theorem retry_after_is_honest cfg now identity m retry m' :
  count_request cfg now identity m = (false, retry, m') ->
  m' = m /\ (forall later, now + retry * Second <= later -> (count_request cfg later identity m).1.1 = true) /\
  forall sooner, now <= sooner -> sooner + Second <= now + retry * Second ->
    (count_request cfg sooner identity m).1.1 = false.
Proof.
  unfold count_request, allow. destruct (m !! identity) as [[ws k]|]; [|done]. cbn [wc_windowStart wc_count].
  destruct (Z.leb_spec (rl_window cfg) (now - ws)); [done|].
  destruct (Z.leb_spec (rl_MaxRequests cfg) k); [|done]. intros [= <- <-]. split; [done|].
  destruct (Z.ltb_spec (ws + rl_window cfg - now) 0); [lia|].
  destruct (secondsCeil_spec (ws + rl_window cfg - now)) as [Hlo Hhi]; [lia|]. split.
  - intros later Hl. destruct (Z.leb_spec (rl_window cfg) (later - ws)); [done|lia].
  - intros sooner Hs1 Hs2. destruct (Z.leb_spec (rl_window cfg) (sooner - ws)); [lia|done].
Qed.

(** ** Witnesses *)

Definition five_per_minute : RateLimitConfig := mkRateLimitConfig true 60 5.

(** One request every five seconds, of two clients. *)
Definition traffic : list (Time * string) :=
  (fun n => (Z.of_nat n * (5 * Second), if Nat.even n then "user:ana" else "user:rui")) <$> seq 0 40.

Example traffic_passed :
  passed "user:ana" (5 * Second) (65 * Second) traffic (count_requests five_per_minute traffic ∅) = 5.
Proof. vm_compute. exact eq_refl. Qed.


(** The counter of a client that used its five requests. *)
Definition used_up : gmap string WindowCounter := <["user:ana" := mkWindowCounter 0 5]> ∅.

Lemma retry_after_is_honest_witness :
  count_request five_per_minute (20 * Second + 1) "user:ana" used_up = (false, 40, used_up) /\
  (count_request five_per_minute (60 * Second + 1) "user:ana" used_up).1.1 = true.
Proof.
  assert (Hr : count_request five_per_minute (20 * Second + 1) "user:ana" used_up = (false, 40, used_up)) by (vm_compute; exact eq_refl).
  split; [exact Hr|]. apply (proj1 (proj2 (retry_after_is_honest _ _ _ _ _ _ Hr))). done.
Defined.
