(* ===== verification/Membership.v ===== *)
(** * IAM: area memberships

    [iam/domain/user_area.go] and [role_capabilities.go], the table
    [user_process_areas] with the constraints and triggers of migrations 0125,
    0136 and 0158, its repository
    ([iam/infrastructure/postgres/user_area_repository.go]), the service
    ([iam/application/area_membership_service.go]; the application wires no
    governance logger) and its endpoints
    ([iam/delivery/http/routes_memberships.go]). *)
From S2P Require Import Prelude Text Tables Programs ProgramLogic AuthDomain.
From stdpp Require Import relations.
Local Open Scope Z_scope.

(** ** Domain *)

Abbreviation Capability := string.

Definition CapDocumentView : Capability := "document.view".
Definition CapDocumentCreate : Capability := "document.create".
Definition CapDocumentEdit : Capability := "document.edit".
Definition CapTemplateView : Capability := "template.view".
Definition CapTemplatePublish : Capability := "template.publish".
Definition CapWorkflowReview : Capability := "workflow.review".
Definition CapWorkflowApprove : Capability := "workflow.approve".

Definition RoleCapabilities : list (Role * list Capability) :=
  [(RoleViewer, [CapDocumentView; CapTemplateView]);
   (RoleEditor, [CapDocumentView; CapDocumentCreate; CapDocumentEdit; CapTemplateView]);
   (RoleReviewer, [CapDocumentView; CapDocumentEdit; CapWorkflowReview; CapTemplateView]);
   (RoleApprover, [CapDocumentView; CapWorkflowApprove; CapTemplateView; CapTemplatePublish])].

Definition role_known (r : Role) : bool := existsb (fun e => str_eqb e.1 r) RoleCapabilities.

(** The capabilities of a role; none for an unknown one. *)
Definition capabilities_of (r : Role) : list Capability :=
  match select_one (fun e => str_eqb e.1 r) RoleCapabilities with Some e => e.2 | None => [] end.

Record UserProcessArea := mkUserProcessArea {
  ua_UserID : string;
  ua_TenantID : string;
  ua_AreaCode : string;
  ua_Role : Role;
  ua_EffectiveFrom : Time;
  ua_EffectiveTo : option Time;
  ua_GrantedBy : option string
}.

Definition UserProcessArea_IsActive (m : UserProcessArea) (now : Time) : bool :=
  if now <? ua_EffectiveFrom m then false
  else match ua_EffectiveTo m with None => true | Some t => now <? t end.

(** ** The table *)

Record AreaRow := mkAreaRow { aw_area : UserProcessArea; aw_revoked_by : option string }.

(** With the tables its foreign keys name: areas and users of a tenant. *)
Record AreaStore := mkAreaStore {
  as_rows : list AreaRow;
  as_areas : list (string * string);
  as_users : list (string * string)
}.

Definition with_rows x s := mkAreaStore x (as_areas s) (as_users s).

Section memberships.
Context `{UuidText}.

Definition upa_role_allowed (role : Role) : bool :=
  bool_decide (role ∈ ["viewer"; "editor"; "reviewer"; "approver"; "author"; "signer"; "area_admin"; "qms_admin"]).

Definition is_none {A} (o : option A) : bool := match o with None => true | Some _ => false end.

(** The CHECK constraints of a row. *)
Definition row_checks (r : AreaRow) : Result unit :=
  let m := aw_area r in
  check! constraint (upa_role_allowed (ua_Role m)) (check_violation "user_process_areas_role_check");
  check! constraint (eqb (is_none (ua_EffectiveTo m)) (is_none (aw_revoked_by r)))
           (check_violation "revoked_by_required_when_revoked");
  check! constraint (match ua_EffectiveTo m with None => true | Some t => ua_EffectiveFrom m <? t end)
           (check_violation "effective_interval_valid");
  inr tt.

Definition same_area (m n : UserProcessArea) : bool :=
  str_eqb (ua_UserID n) (ua_UserID m) && str_eqb (ua_TenantID n) (ua_TenantID m)
  && str_eqb (ua_AreaCode n) (ua_AreaCode m).

Definition open_row (r : AreaRow) : bool := is_none (ua_EffectiveTo (aw_area r)).

Definition in_tenant (l : list (string * string)) (tenant x : string) : bool :=
  existsb (fun e => str_eqb e.1 tenant && str_eqb e.2 x) l.

(** [INSERT INTO user_process_areas]. *)
Definition insert_area (m : UserProcessArea) (s : AreaStore) : Result AreaStore :=
  let! tenant := uuid_param (ua_TenantID m) in
  let m := mkUserProcessArea (ua_UserID m) tenant (ua_AreaCode m) (ua_Role m) (ua_EffectiveFrom m)
             (ua_EffectiveTo m) (ua_GrantedBy m) in
  let r := mkAreaRow m None in
  check! row_checks r;
  check! constraint (negb (existsb (fun q => str_eqb (ua_UserID (aw_area q)) (ua_UserID m)
                       && str_eqb (ua_AreaCode (aw_area q)) (ua_AreaCode m)
                       && (ua_EffectiveFrom (aw_area q) =? ua_EffectiveFrom m)) (as_rows s)))
           (unique_violation "user_process_areas_pkey");
  check! constraint (negb (open_row r && existsb (fun q => open_row q && same_area m (aw_area q)) (as_rows s)))
           (unique_violation "ux_user_process_areas_one_active");
  check! constraint (in_tenant (as_areas s) tenant (ua_AreaCode m)) (fk_violation "user_process_areas_tenant_id_area_code_fkey");
  check! constraint (match ua_GrantedBy m with None => true | Some u => in_tenant (as_users s) tenant u end)
           (fk_violation "user_process_areas_granted_by_same_tenant");
  inr (with_rows (as_rows s ++ [r]) s).

(** [SET effective_to = ...]: only that column changes, so the trigger on the
    identity columns lets it pass; the CHECKs are evaluated on the new row. *)
Definition end_row (effectiveTo : Time) (r : AreaRow) : Result AreaRow :=
  let m := aw_area r in
  let r' := mkAreaRow (mkUserProcessArea (ua_UserID m) (ua_TenantID m) (ua_AreaCode m) (ua_Role m)
                         (ua_EffectiveFrom m) (Some effectiveTo) (ua_GrantedBy m)) (aw_revoked_by r) in
  check! row_checks r'; inr r'.

Definition open_membership_of (userID tenantID areaCode : string) (r : AreaRow) : bool :=
  str_eqb (ua_UserID (aw_area r)) userID && str_eqb (ua_TenantID (aw_area r)) tenantID
  && str_eqb (ua_AreaCode (aw_area r)) areaCode && open_row r.

(** ** The repository *)

(** [effective_from <= $n AND (effective_to IS NULL OR effective_to > $n)]. *)
Definition effective_at (now : Time) (m : UserProcessArea) : bool :=
  (ua_EffectiveFrom m <=? now) && match ua_EffectiveTo m with None => true | Some t => now <? t end.

(** [ORDER BY area_code ASC, effective_from DESC]. *)
Definition area_before (m n : UserProcessArea) : bool :=
  String.ltb (ua_AreaCode m) (ua_AreaCode n)
  || str_eqb (ua_AreaCode m) (ua_AreaCode n) && (ua_EffectiveFrom n <? ua_EffectiveFrom m).

Fixpoint insert_area_sorted (m : UserProcessArea) (l : list UserProcessArea) : list UserProcessArea :=
  match l with
  | [] => [m]
  | x :: l' => if area_before m x then m :: l else x :: insert_area_sorted m l'
  end.

Definition ua_ListActive (userID tenantID : string) (now : Time) (s : AreaStore) : list UserProcessArea :=
  foldr insert_area_sorted []
    (bfilter (fun m => str_eqb (ua_UserID m) userID && str_eqb (ua_TenantID m) tenantID && effective_at now m)
       (aw_area <$> as_rows s)).

Definition ua_Insert (m : UserProcessArea) (s : AreaStore) : Result AreaStore :=
  map_error (Wrapf "insert user process area: %w" []) (insert_area m s).

Definition ua_CloseActive (userID tenantID areaCode : string) (effectiveTo : Time) (s : AreaStore)
    : Result AreaStore :=
  match update_where (open_membership_of userID tenantID areaCode) (end_row effectiveTo) (as_rows s) with
  | inl e => inl (Wrapf "close active user process area: %w" [] e)
  | inr (_, rows) => inr (with_rows rows s)
  end.

(** One transaction. *)
Definition ua_GrantAtomic (old new : UserProcessArea) (s : AreaStore) : Result AreaStore :=
  let is_it r := open_membership_of (ua_UserID old) (ua_TenantID old) (ua_AreaCode old) r
                 && (ua_EffectiveFrom (aw_area r) =? ua_EffectiveFrom old) in
  match update_where is_it (end_row (ua_EffectiveFrom new)) (as_rows s) with
  | inl e => inl (Wrapf "close active membership in grant transaction: %w" [] e)
  | inr (n, rows) =>
      if n =? 0 then inl (Errorf "close active membership in grant transaction: no rows updated" [])
      else map_error (Wrapf "insert membership in grant transaction: %w" []) (insert_area new (with_rows rows s))
  end.

Definition ua_GetActiveByUserAndArea (userID tenantID areaCode : string) (now : Time) (s : AreaStore)
    : option UserProcessArea :=
  head (order_by (fun m => - ua_EffectiveFrom m)
    (bfilter (fun m => str_eqb (ua_UserID m) userID && str_eqb (ua_TenantID m) tenantID
                       && str_eqb (ua_AreaCode m) areaCode && effective_at now m) (aw_area <$> as_rows s))).

(** ** The port *)

Inductive AreaOp : Type -> Type :=
  | AreaListActive (userID tenantID : string) (now : Time) : AreaOp (list UserProcessArea)
  | AreaInsert (m : UserProcessArea) : AreaOp unit
  | AreaCloseActive (userID tenantID areaCode : string) (effectiveTo : Time) : AreaOp unit
  | AreaGrantAtomic (old new : UserProcessArea) : AreaOp unit
  | AreaGetActive (userID tenantID areaCode : string) (now : Time) : AreaOp (option UserProcessArea)
  | AreaNow : AreaOp Time.

Definition area_wrote (r : Result AreaStore) (s : AreaStore) : Result unit * AreaStore :=
  match r with inl e => (inl e, s) | inr s' => (inr tt, s') end.

Definition area_step {B} (o : AreaOp B) (t : Time) (u : unit) (s : AreaStore) : Result B * AreaStore :=
  match o in AreaOp B return Result B * AreaStore with
  | AreaListActive userID tenantID now => (inr (ua_ListActive userID tenantID now s), s)
  | AreaInsert m => area_wrote (ua_Insert m s) s
  | AreaCloseActive userID tenantID areaCode to => area_wrote (ua_CloseActive userID tenantID areaCode to s) s
  | AreaGrantAtomic old new => area_wrote (ua_GrantAtomic old new s) s
  | AreaGetActive userID tenantID areaCode now =>
      (inr (ua_GetActiveByUserAndArea userID tenantID areaCode now s), s)
  | AreaNow => (inr t, s)
  end.

#[export] Instance area_ports : Ports AreaOp AreaStore unit :=
  {| step := @area_step; fallible B o := match o with AreaNow => false | _ => true end |}.

(** ** The service *)

Definition ErrMembershipNotFound : Error := Sentinel "membership_not_found".
Definition ErrUnknownRole : Error := Sentinel "unknown_role".

Definition Membership_ListActive (userID tenantID : string) : PM AreaOp (list UserProcessArea) :=
  now ← call AreaNow; call (AreaListActive userID tenantID now).

Definition Grant (userID tenantID areaCode : string) (role : Role) (grantedBy : string) : PM AreaOp unit :=
  pguard (role_known role) ErrUnknownRole;;
  now ← call AreaNow;
  existing ← pmap_err (Wrapf "get active membership: %w" []) (call (AreaGetActive userID tenantID areaCode now));
  let membership := mkUserProcessArea userID tenantID areaCode role now None
                      (if str_eqb grantedBy "" then None else Some grantedBy) in
  match existing with
  | Some old =>
      if UserProcessArea_IsActive old now
      then pmap_err (Wrapf "grant membership atomically: %w" []) (call (AreaGrantAtomic old membership))
      else pmap_err (Wrapf "insert membership: %w" []) (call (AreaInsert membership))
  | None => pmap_err (Wrapf "insert membership: %w" []) (call (AreaInsert membership))
  end.

Definition Revoke (userID tenantID areaCode revokedBy : string) : PM AreaOp unit :=
  now ← call AreaNow;
  active ← pmap_err (Wrapf "get active membership: %w" []) (call (AreaGetActive userID tenantID areaCode now));
  match active with
  | Some m =>
      pguard (UserProcessArea_IsActive m now) ErrMembershipNotFound;;
      pmap_err (Wrapf "close active membership: %w" []) (call (AreaCloseActive userID tenantID areaCode now))
  | None => fail ErrMembershipNotFound
  end.

(** ** The endpoints *)

(** What the handlers read: the query, the tenant header, the user of the
    context and the decoded body. *)
Record MembershipRequest := mkMembershipRequest {
  mr_userId : string;
  mr_areaCode : string;
  mr_XTenantID : string;
  mr_actor : string;
  mr_body : option (string * string * string)
}.

Inductive MembershipReply :=
  | ReplyMemberships (items : list UserProcessArea)
  | ReplyGranted (userId tenantId areaCode role : string)
  | ReplyRevoked
  | ReplyMembershipError (status : Z) (code : string).

Definition defaultTenantID : string := "ffffffff-ffff-ffff-ffff-ffffffffffff".

Definition tenantIDFromRequest (r : MembershipRequest) : string :=
  if str_eqb (TrimSpace (mr_XTenantID r)) "" then defaultTenantID else TrimSpace (mr_XTenantID r).

(** [authenticatedActor] of [admin_handler.go]. *)
Definition authenticatedActor (actor : string) : string :=
  if str_eqb (TrimSpace actor) "" then "system" else TrimSpace actor.

Definition writeMembershipError (e : Error) : MembershipReply :=
  if errors_Is e ErrMembershipNotFound then ReplyMembershipError 404 "MEMBERSHIP_NOT_FOUND"
  else if errors_Is e ErrUnknownRole then ReplyMembershipError 400 "UNKNOWN_ROLE"
  else ReplyMembershipError 500 "INTERNAL_ERROR".

(** A reply for every outcome. *)
Definition answering {A} (on_error : Error -> MembershipReply) (on_ok : A -> MembershipReply)
    (m : PM AreaOp A) : PM AreaOp MembershipReply :=
  prog_bind (fun r => Ret (inr (match r with inl e => on_error e | inr a => on_ok a end))) m.

Definition listMemberships (r : MembershipRequest) : PM AreaOp MembershipReply :=
  let userID := TrimSpace (mr_userId r) in
  let userID := if str_eqb userID "" then TrimSpace (authenticatedActor (mr_actor r)) else userID in
  if str_eqb userID "" then mret (ReplyMembershipError 400 "VALIDATION_ERROR")
  else answering (fun _ => ReplyMembershipError 500 "INTERNAL_ERROR") ReplyMemberships
         (Membership_ListActive userID (tenantIDFromRequest r)).

Definition grantMembership (r : MembershipRequest) : PM AreaOp MembershipReply :=
  match mr_body r with
  | None => mret (ReplyMembershipError 400 "VALIDATION_ERROR")
  | Some (userID, areaCode, role) =>
      if str_eqb (TrimSpace userID) "" || str_eqb (TrimSpace areaCode) "" || str_eqb (TrimSpace role) ""
      then mret (ReplyMembershipError 400 "VALIDATION_ERROR")
      else
        answering writeMembershipError
          (fun _ => ReplyGranted (TrimSpace userID) (tenantIDFromRequest r) (TrimSpace areaCode) (ToLower (TrimSpace role)))
          (Grant (TrimSpace userID) (tenantIDFromRequest r) (TrimSpace areaCode) (ToLower (TrimSpace role)) (mr_actor r))
  end.

Definition revokeMembership (r : MembershipRequest) : PM AreaOp MembershipReply :=
  let userID := TrimSpace (mr_userId r) in
  let areaCode := TrimSpace (mr_areaCode r) in
  if str_eqb userID "" || str_eqb areaCode "" then mret (ReplyMembershipError 400 "VALIDATION_ERROR")
  else answering writeMembershipError (fun _ => ReplyRevoked)
         (Revoke userID (tenantIDFromRequest r) areaCode (mr_actor r)).

Inductive MembershipCall := GetMemberships (r : MembershipRequest) | PostMembership (r : MembershipRequest)
  | DeleteMembership (r : MembershipRequest).

Definition serve_membership (c : MembershipCall) : PM AreaOp MembershipReply :=
  match c with
  | GetMemberships r => listMemberships r
  | PostMembership r => grantMembership r
  | DeleteMembership r => revokeMembership r
  end.
End memberships.

Lemma elem_of_sorted l x : x ∈ foldr insert_area_sorted [] l <-> x ∈ l.
Proof.
  assert (Hins : forall m k, x ∈ insert_area_sorted m k <-> x = m \/ x ∈ k).
  { intros m k. induction k as [|y k IH]; simpl; [set_solver|]. destruct (area_before m y); set_solver. }
  induction l as [|y l IH]; simpl; [done|]. rewrite Hins, IH. set_solver.
Qed.

(** * IAM: what becomes of a membership

    The service closes a membership without saying who revoked it, which the
    table does not allow: memberships are granted, and then neither revoked nor
    changed, whatever requests come and however they interleave. *)

Section facts.
Context `{UuidText}.

(** The CHECK of migration 0136, on the rows that are open. *)
Definition open_rows_sound (s : AreaStore) : Prop :=
  forall r, r ∈ as_rows s -> open_row r = true -> aw_revoked_by r = None.

Definition rows_kept (s s' : AreaStore) : Prop := exists new, as_rows s' = as_rows s ++ new.

#[export] Instance rows_kept_preorder : PreOrder rows_kept.
Proof.
  split; [intros s; exists []; by rewrite app_nil_r|].
  intros a b c [n1 H1] [n2 H2]. exists (n1 ++ n2). by rewrite H2, H1, app_assoc.
Qed.

Lemma end_row_refused t r : open_row r = true -> aw_revoked_by r = None ->
  exists msg, end_row t r = inl (check_violation msg).
Proof.
  intros _ Hrev. unfold end_row, row_checks. cbv zeta. cbn [aw_area aw_revoked_by ua_EffectiveTo ua_Role].
  rewrite Hrev. unfold constraint. destruct (upa_role_allowed _); by eexists.
Qed.

(** An UPDATE that finds an open row fails. *)
Lemma end_rows_fail (cond : AreaRow -> bool) t rows r :
  (forall r, r ∈ rows -> cond r = true -> open_row r = true /\ aw_revoked_by r = None) ->
  r ∈ rows -> cond r = true -> exists msg, update_where cond (end_row t) rows = inl (check_violation msg).
Proof.
  intros Hc Hr Hcond. induction rows as [|q rows IH]; [by apply not_elem_of_nil in Hr|]. simpl.
  destruct (cond q) eqn:Hq.
  - destruct (Hc q ltac:(left) Hq) as [Ho Hn]. destruct (end_row_refused t q Ho Hn) as [msg ->]. by exists msg.
  - apply elem_of_cons in Hr as [->|Hr]; [congruence|].
    destruct IH as [msg ->]; [intros x Hx; apply Hc; by right|done|]. by exists msg.
Qed.

(** An UPDATE that ends open rows ends none. *)
Lemma end_rows_none (cond : AreaRow -> bool) t rows n rows' :
  (forall r, r ∈ rows -> cond r = true -> open_row r = true /\ aw_revoked_by r = None) ->
  update_where cond (end_row t) rows = inr (n, rows') -> n = 0 /\ rows' = rows.
Proof.
  revert n rows'. induction rows as [|r rows IH]; intros n rows' Hc; simpl; [by intros [= <- <-]|].
  destruct (cond r) eqn:Hr.
  - destruct (Hc r ltac:(left) Hr) as [Ho Hn]. destruct (end_row_refused t r Ho Hn) as [msg ->]. done.
  - destruct (update_where cond (end_row t) rows) as [e|[k rest]]; [done|]. intros [= <- <-].
    destruct (IH k rest) as [-> ->]; [|done|done]. intros q Hq. apply Hc. by right.
Qed.

Lemma open_membership_open u t a s r :
  open_rows_sound s -> r ∈ as_rows s -> open_membership_of u t a r = true ->
  open_row r = true /\ aw_revoked_by r = None.
Proof. intros Hs Hr Ho. unfold open_membership_of in Ho. bool_to_prop. split; [done|by apply Hs]. Qed.

Lemma insert_area_sound m s s' :
  insert_area m s = inr s' -> open_rows_sound s -> open_rows_sound s' /\ rows_kept s s'.
Proof.
  unfold insert_area. destruct (uuid_param _) as [e|tenant]; [done|]. cbv zeta.
  repeat (case_match; [done|]). intros [= <-] Hs. split; [|by eexists].
  intros r [Hr| ->%list_elem_of_singleton]%elem_of_app; [by apply Hs|done].
Qed.

(** Whatever the operation, rows are added and none is changed. *)
Lemma area_step_keeps {B} (o : AreaOp B) t u s r s' :
  area_step o t u s = (r, s') -> open_rows_sound s -> open_rows_sound s' /\ rows_kept s s'.
Proof.
  assert (Hsame : forall s, open_rows_sound s -> open_rows_sound s /\ rows_kept s s) by (split; [done|reflexivity]).
  assert (Hwrote : forall (w : Result AreaStore) s r s', area_wrote w s = (r, s') -> open_rows_sound s ->
    (forall s'', w = inr s'' -> open_rows_sound s'' /\ rows_kept s s'') -> open_rows_sound s' /\ rows_kept s s').
  { intros w a q b Hw Ha HP. destruct w as [e|a']; injection Hw as <- <-; [by apply Hsame|by apply HP]. }
  destruct o; cbn; try (intros [= _ <-]; apply Hsame).
  - intros Hw Hs. eapply Hwrote; [exact Hw|done|]. intros s2 Hi%map_error_ok. by eapply insert_area_sound.
  - intros Hw Hs. eapply Hwrote; [exact Hw|done|]. intros s2. unfold ua_CloseActive.
    destruct (update_where _ _ _) as [e|[n rows]] eqn:Hu; [done|]. intros [= <-].
    apply end_rows_none in Hu as [_ ->]; [by apply Hsame in Hs; destruct s|].
    intros q Hq Ho. by eapply open_membership_open.
  - intros Hw Hs. eapply Hwrote; [exact Hw|done|]. intros s2. unfold ua_GrantAtomic. cbv zeta.
    destruct (update_where _ _ _) as [e|[n rows]] eqn:Hu; [done|].
    apply end_rows_none in Hu as [-> ->]; [done|].
    intros q Hq Ho. bool_to_prop. by eapply open_membership_open.
Qed.

Definition membership_rules : Protocol AreaStore := mkProtocol rows_kept rows_kept open_rows_sound.

Abbreviation membership_step := (pool_step serve_membership (fun _ _ : AreaStore => False)).

(** Memberships are for ever: whatever requests to grant, revoke and list
    memberships are in flight, whichever of their operations fail, and however
    they interleave, every row of the table stays as it is, and one that is in
    effect stays in effect with its role. *)
Theorem memberships_never_end s s' :
  open_rows_sound s -> interleaved serve_membership (fun _ _ => False) s s' ->
  rows_kept s s' /\
  forall r now, r ∈ as_rows s -> effective_at now (aw_area r) = true ->
    r ∈ as_rows s' /\ aw_area r ∈ ua_ListActive (ua_UserID (aw_area r)) (ua_TenantID (aw_area r)) now s'.
Proof.
  intros Hs [ts Hrun].
  assert (Hstep : forall p q : Pool (Op := AreaOp) (St := AreaStore) (Reply := MembershipReply),
    membership_step p q -> open_rows_sound (pool_store p) ->
    open_rows_sound (pool_store q) /\ rows_kept (pool_store p) (pool_store q)).
  { intros p q Hpq Hp. destruct Hpq as [c ts0 st|ts0 st i B o k b st' _ Ha|]; [by split| |done].
    destruct Ha as [t u r st' Hst| |e t u r st' _ Hst]; [|by split|];
      exact (area_step_keeps o t u _ r _ Hst Hp). }
  assert (Hkept : rows_kept s s').
  { cut (forall p q, rtc membership_step p q -> open_rows_sound (pool_store p) ->
           rows_kept (pool_store p) (pool_store q)); [intros Hc; exact (Hc _ _ Hrun Hs)|].
    induction 1 as [p|p q w Hpq _ IH]; [reflexivity|]. intros Hp.
    destruct (Hstep p q Hpq Hp) as [Hq Hk]. etrans; [exact Hk|by apply IH]. }
  split; [done|]. intros r now Hr Heff. destruct Hkept as [new Hnew].
  assert (Hr' : r ∈ as_rows s') by (rewrite Hnew; apply elem_of_app; by left). split; [done|].
  unfold ua_ListActive. rewrite elem_of_sorted, elem_of_bfilter. rewrite !str_eqb_refl, Heff.
  split; [done|]. apply list_elem_of_fmap. by exists r.
Qed.
(** ** What the endpoint answers *)

Lemma get_active_found u t a now s m :
  ua_GetActiveByUserAndArea u t a now s = Some m ->
  exists r, r ∈ as_rows s /\ aw_area r = m /\ ua_UserID m = u /\ ua_TenantID m = t /\ ua_AreaCode m = a
    /\ effective_at now m = true.
Proof.
  unfold ua_GetActiveByUserAndArea. destruct (order_by _ _) as [|x l] eqn:Ho; [done|]. intros [= ->].
  assert (Hm : m ∈ m :: l) by left. rewrite <- Ho, elem_of_order_by, elem_of_bfilter in Hm.
  destruct Hm as [Hc (r & Hr & ->)%elem_of_map_inv]. bool_to_prop. by exists r.
Qed.

(** Revoking always fails: as long as no membership is set to end later, the
    endpoint answers a well-formed DELETE with 404 when the user holds no
    membership of the area and with 500 when there is one to revoke, and never
    changes the table. *)
Theorem revoking_always_fails draw_at r t s :
  open_rows_sound s -> (forall q e, q ∈ as_rows s -> ua_EffectiveTo (aw_area q) = Some e -> e <= t) ->
  TrimSpace (mr_userId r) <> "" -> TrimSpace (mr_areaCode r) <> "" ->
  let held := ua_GetActiveByUserAndArea (TrimSpace (mr_userId r)) (tenantIDFromRequest r) (TrimSpace (mr_areaCode r)) t s in
  exists t', run_prog draw_at (serve_membership (DeleteMembership r)) t s
    = (inr (match held with
            | None => ReplyMembershipError 404 "MEMBERSHIP_NOT_FOUND"
            | Some _ => ReplyMembershipError 500 "INTERNAL_ERROR"
            end), t', s).
Proof.
  intros Hs Hend Hu Ha held. apply str_eqb_false in Hu. apply str_eqb_false in Ha.
  unfold serve_membership, revokeMembership. rewrite Hu, Ha. simpl orb. cbv iota. unfold Revoke, answering.
  cbn -[held]. fold held. destruct held as [m|] eqn:Hheld; [|by eexists].
  destruct (get_active_found _ _ _ _ _ _ Hheld) as (q & Hq & <- & Hqu & Hqt & Hqa & Heff).
  unfold effective_at in Heff. apply andb_true_iff in Heff as [Hfrom Hto].
  assert (Hopen : ua_EffectiveTo (aw_area q) = None).
  { destruct (ua_EffectiveTo (aw_area q)) as [e|] eqn:He; [|done]. specialize (Hend q e Hq He). lia. }
  unfold UserProcessArea_IsActive. destruct (Z.ltb_spec t (ua_EffectiveFrom (aw_area q))); [lia|]. rewrite Hopen.
  cbn. unfold ua_CloseActive.
  destruct (end_rows_fail (open_membership_of (TrimSpace (mr_userId r)) (tenantIDFromRequest r) (TrimSpace (mr_areaCode r)))
              t (as_rows s) q) as [msg ->]; [by intros x; apply open_membership_open|done| |by eexists].
  unfold open_membership_of, open_row. by rewrite Hqu, Hqt, Hqa, Hopen, !str_eqb_refl.
Qed.
End facts.

(** ** On a table with one membership *)

Module MembershipDemo.
#[export] Instance any_uuid : UuidText := fun s => if str_eqb s "" then None else Some s.

Definition ana : UserProcessArea :=
  mkUserProcessArea "ana" defaultTenantID "QA" RoleEditor 10 None (Some "admin").

Definition table : AreaStore :=
  mkAreaStore [mkAreaRow ana None] [(defaultTenantID, "QA"); (defaultTenantID, "HR")] [(defaultTenantID, "admin")].

Definition request (areaCode role : string) : MembershipRequest :=
  mkMembershipRequest "ana" areaCode "" "admin" (Some ("ana", areaCode, role)).

(** A grant in another area, a change of role and a revocation, in flight at
    once. *)
Definition after : Pool (Op := AreaOp) (St := AreaStore) (Reply := MembershipReply) :=
  exec serve_membership (fun _ => tt)
    ([Start (PostMembership (request "HR" "Viewer")); Start (PostMembership (request "QA" "approver"));
      Start (DeleteMembership (request "QA" ""))] ++ [Step 2; Step 1; Step 0; Step 2; Step 1; Step 0; Step 1; Step 2; Step 0])
    20 (mkPool [] table).
End MembershipDemo.
Import MembershipDemo.

Lemma table_sound : open_rows_sound table.
Proof. by intros r ->%list_elem_of_singleton. Qed.

(** What the three requests are answered. *)
Example after_replies : pool_threads after =
  [Ret (inr (ReplyGranted "ana" defaultTenantID "HR" "viewer"));
   Ret (inr (ReplyMembershipError 500 "INTERNAL_ERROR"));
   Ret (inr (ReplyMembershipError 500 "INTERNAL_ERROR"))].
Proof. vm_compute. exact eq_refl. Qed.

Lemma memberships_never_end_witness :
  length (as_rows (pool_store after)) = 2%nat /\
  ana ∈ ua_ListActive "ana" defaultTenantID 1000 (pool_store after).
Proof.
  split; [vm_compute; exact eq_refl|].
  destruct (memberships_never_end table (pool_store after)) as [_ Hkeep]; [apply table_sound| |].
  - pose proof (exec_interleaved serve_membership (fun _ _ : AreaStore => False) (fun _ => tt)
      ([Start (PostMembership (request "HR" "Viewer")); Start (PostMembership (request "QA" "approver"));
        Start (DeleteMembership (request "QA" ""))] ++ [Step 2; Step 1; Step 0; Step 2; Step 1; Step 0; Step 1; Step 2; Step 0])
      20 table) as Hi. exact Hi.
  - exact (proj2 (Hkeep (mkAreaRow ana None) 1000 ltac:(left) eq_refl)).
Defined.

Lemma revoking_always_fails_witness :
  exists t', run_prog (fun _ => tt) (serve_membership (DeleteMembership (request "QA" ""))) 20 table
    = (inr (ReplyMembershipError 500 "INTERNAL_ERROR"), t', table).
Proof.
  destruct (revoking_always_fails (fun _ => tt) (request "QA" "") 20 table) as [t' Hrun];
    [apply table_sound|by intros q e ->%list_elem_of_singleton|by vm_compute..|].
  exists t'. exact Hrun.
Defined.
