(* ===== verification/AuditTrail.v ===== *)
(** * Audit

    The [audit] module: events, the table [audit_events] of migration 0004 with
    its repository ([infrastructure/postgres/writer.go]), the store in memory
    ([infrastructure/memory/writer.go]), the service and the endpoint. *)
From S2P Require Import Prelude Text Tables.
Local Open Scope Z_scope.

Record Event := mkEvent {
  ev_ID : string;
  ev_OccurredAt : Time;
  ev_ActorID : string;
  ev_Action : string;
  ev_ResourceType : string;
  ev_ResourceID : string;
  ev_PayloadJSON : string;
  ev_TraceID : string
}.

Record ListEventsQuery := mkListEventsQuery { lq_ResourceType : string; lq_ResourceID : string; lq_Limit : Z }.

Definition default_limit (limit : Z) : Z := if limit <=? 0 then 50 else limit.

(** An empty filter matches everything. *)
Definition filter_matches (same : string -> string -> bool) (wanted value : string) : bool :=
  str_eqb wanted "" || same value wanted.

Definition event_matches (same : string -> string -> bool) (q : ListEventsQuery) (e : Event) : bool :=
  filter_matches same (TrimSpace (lq_ResourceType q)) (ev_ResourceType e)
  && filter_matches same (TrimSpace (lq_ResourceID q)) (ev_ResourceID e).

(** ** The table *)

(** [ORDER BY occurred_at DESC, id DESC]. *)
Definition listed_before (a b : Event) : Prop :=
  ev_OccurredAt b < ev_OccurredAt a \/ ev_OccurredAt a = ev_OccurredAt b /\ String.le (ev_ID b) (ev_ID a).

#[export] Instance listed_before_dec : RelDecision listed_before.
Proof. intros a b. unfold listed_before. apply _. Defined.

Definition newest_first (l : list Event) : list Event := merge_sort listed_before l.

Definition set_payload (payload : string) (e : Event) : Event :=
  mkEvent (ev_ID e) (ev_OccurredAt e) (ev_ActorID e) (ev_Action e) (ev_ResourceType e) (ev_ResourceID e)
    payload (ev_TraceID e).

Definition Audit_Record `{JsonbText} (e : Event) (rows : list Event) : Result (list Event) :=
  map_error (Wrapf "insert audit event: %w" [])
    (let! payload := jsonb_param (ev_PayloadJSON e) in
     check! constraint (negb (existsb (fun r => str_eqb (ev_ID r) (ev_ID e)) rows))
              (unique_violation "audit_events_pkey");
     inr (rows ++ [set_payload payload e])).

Definition Audit_ListEvents (q : ListEventsQuery) (rows : list Event) : list Event :=
  take (Z.to_nat (default_limit (lq_Limit q))) (newest_first (bfilter (event_matches str_eqb q) rows)).

(** In memory: in the order of the calls, letter case aside
    ([strings.EqualFold] on Unicode text is a parameter). *)
Definition mem_audit_Record (e : Event) (l : list Event) : list Event := l ++ [e].

Definition mem_audit_ListEvents (equal_fold : string -> string -> bool) (q : ListEventsQuery) (l : list Event) : list Event :=
  take (Z.to_nat (default_limit (lq_Limit q))) (bfilter (event_matches equal_fold q) (reverse l)).

(** ** The service and the endpoint *)

Definition normalize_query (q : ListEventsQuery) : ListEventsQuery :=
  let limit := default_limit (lq_Limit q) in
  mkListEventsQuery (TrimSpace (lq_ResourceType q)) (TrimSpace (lq_ResourceID q)) (if 200 <? limit then 200 else limit).

(** The query of a request: its three parameters, and what the handler asks
    the service for, [None] when the limit is invalid. *)
Record EventsRequest := mkEventsRequest { er_limit : string; er_resourceType : string; er_resourceId : string }.

Definition events_query (r : EventsRequest) : option ListEventsQuery :=
  let raw := TrimSpace (er_limit r) in
  let query limit := mkListEventsQuery (TrimSpace (er_resourceType r)) (TrimSpace (er_resourceId r)) limit in
  if str_eqb raw "" then Some (query 50)
  else match Atoi raw with
       | Some n => if n <? 1 then None else Some (query n)
       | None => None
       end.

(** ** What is listed *)

#[export] Instance listed_before_trans : Transitive listed_before.
Proof.
  intros a b c [H1|[H1 I1]] [H2|[H2 I2]]; [left; lia..|]. right. split; [lia|]. by etrans.
Qed.

#[export] Instance listed_before_total : Total listed_before.
Proof.
  intros a b. unfold listed_before.
  destruct (Z.lt_total (ev_OccurredAt a) (ev_OccurredAt b)) as [H|[H|H]]; [by right; left| |by left; left].
  destruct (total String.le (ev_ID a) (ev_ID b)); auto.
Qed.

Lemma newest_first_Permutation l : Permutation (newest_first l) l.
Proof. apply merge_sort_Permutation. Qed.

(** What the audit endpoint lists: events of the table that match, newest
    first and at most 200; a matching event is left out only when the list is
    full of events that come before it. *)
Theorem audit_lists_the_newest q rows :
  let l := Audit_ListEvents (normalize_query q) rows in
  let matches := event_matches str_eqb (normalize_query q) in
  StronglySorted listed_before l /\ (length l <= 200)%nat /\
  (forall e, e ∈ l -> e ∈ rows /\ matches e = true) /\
  (forall e, e ∈ rows -> matches e = true -> e ∉ l ->
     Z.of_nat (length l) = lq_Limit (normalize_query q) /\ forall x, x ∈ l -> listed_before x e).
Proof.
  intros l matches. unfold l, Audit_ListEvents.
  set (lim := default_limit (lq_Limit (normalize_query q))). fold matches.
  assert (lim = lq_Limit (normalize_query q) /\ 0 < lim <= 200) as [Hlim Hr].
  { unfold lim, normalize_query, default_limit. cbn [lq_Limit].
    destruct (Z.leb_spec (lq_Limit q) 0); [done|]. destruct (Z.ltb_spec 200 (lq_Limit q)); [done|].
    destruct (Z.leb_spec (lq_Limit q) 0); lia. }
  set (found := newest_first (bfilter matches rows)).
  assert (StronglySorted listed_before found) as Hsort by apply (StronglySorted_merge_sort _ _).
  assert (forall e, e ∈ found <-> matches e = true /\ e ∈ rows) as Hin.
  { intros e. unfold found. by rewrite newest_first_Permutation, elem_of_bfilter. }
  rewrite <- (take_drop (Z.to_nat lim) found) in Hsort. split_and!.
  - by eapply StronglySorted_app_1_l.
  - rewrite length_take. lia.
  - intros e (i & He & _)%elem_of_take. by apply list_elem_of_lookup_2, Hin in He as [? ?].
  - intros e He Hm Hout. assert (e ∈ found) as Hf by (by apply Hin).
    rewrite <- (take_drop (Z.to_nat lim) found), elem_of_app in Hf. destruct Hf as [Hf|Hf]; [done|].
    split; [|intros x Hx; by eapply StronglySorted_app_1_elem_of].
    rewrite length_take, <- Hlim. enough (Z.to_nat lim <= length found)%nat by lia.
    destruct (Nat.le_gt_cases (Z.to_nat lim) (length found)); [done|].
    rewrite drop_ge in Hf by lia. by apply not_elem_of_nil in Hf.
Qed.
