(* ===== verification/Iam.v ===== *)
(** * IAM: roles, permissions and role administration

    [iam/application]: the static policy ([authorizer.go]), the role cache
    ([cached_role_provider.go]), the role administration ([admin_service.go])
    and the area check ([authorization.go]). What the process keeps in memory,
    the role cache and the request counters, is a state of its own next to the
    store of [auth] and the audit trail; an operation is one of [AuthOp] or one
    on that state. *)
From S2P Require Import Prelude Text Tables Programs AuthDomain Membership RateLimit AuditTrail.
Local Open Scope Z_scope.

(** ** The static policy *)

Abbreviation Permission := string.

Definition PermDocumentCreate : Permission := "document:create".
Definition PermDocumentEdit : Permission := "document:edit".
Definition PermDocumentRead : Permission := "document:read".
Definition PermDocumentUploadAttachment : Permission := "document:upload_attachment".
Definition PermDocumentManagePermissions : Permission := "document:manage_permissions".
Definition PermVersionRead : Permission := "version:read".
Definition PermWorkflowTransition : Permission := "workflow:transition".
Definition PermSearchRead : Permission := "search:read".
Definition PermIAMManageRoles : Permission := "iam:manage_roles".
Definition PermTemplateView : Permission := "template:view".
Definition PermTemplateEdit : Permission := "template:edit".
Definition PermTemplatePublish : Permission := "template:publish".
Definition PermTemplateExport : Permission := "template:export".

Definition policy : list (Role * list Permission) :=
  [(RoleAdmin,
     [PermDocumentCreate; PermDocumentEdit; PermDocumentRead; PermDocumentUploadAttachment;
      PermDocumentManagePermissions; PermVersionRead; PermWorkflowTransition; PermSearchRead;
      PermIAMManageRoles; PermTemplateView; PermTemplateEdit; PermTemplatePublish; PermTemplateExport]);
   (RoleEditor,
     [PermDocumentCreate; PermDocumentEdit; PermDocumentRead; PermDocumentUploadAttachment; PermVersionRead;
      PermWorkflowTransition; PermSearchRead; PermTemplateView; PermTemplateExport]);
   (RoleReviewer,
     [PermDocumentRead; PermVersionRead; PermWorkflowTransition; PermSearchRead; PermTemplateView;
      PermTemplateExport]);
   (RoleViewer, [PermDocumentRead; PermVersionRead; PermSearchRead])].

(** [StaticAuthorizer.Can]. *)
Definition Can (role : Role) (permission : Permission) : bool :=
  match select_one (fun e => str_eqb e.1 role) policy with
  | Some e => bool_decide (permission ∈ e.2)
  | None => false
  end.

Definition hasPermission (roles : list Role) (permission : Permission) : bool :=
  existsb (fun role => Can role permission) roles.

(** ** The process *)

(** [cacheEntry]. *)
Record CacheEntry := mkCacheEntry { ce_roles : list Role; ce_expiresAt : Time }.

Record Process (St : Type) := mkProcess {
  pc_auth : St;
  pc_roles : gmap string CacheEntry;
  pc_requests : gmap string WindowCounter;
  pc_audit : list Event
}.
Arguments mkProcess {St}.
Arguments pc_auth {St}.
Arguments pc_roles {St}.
Arguments pc_requests {St}.
Arguments pc_audit {St}.

Inductive ProcOp : Type -> Type :=
  | AuthStep {B} (o : AuthOp B) : ProcOp B
  | CacheGet (userID : string) : ProcOp (option CacheEntry)
  | CachePut (userID : string) (e : CacheEntry) : ProcOp unit
  | CacheDrop (userID : string) : ProcOp unit
  | CacheClear : ProcOp unit
  | CountRequest (cfg : RateLimitConfig) (identity : string) : ProcOp (bool * Z)
  | RecordEvent (e : Event) : ProcOp unit
  | ReadEvents (q : ListEventsQuery) : ProcOp (list Event).

Section process.
Context {St : Type} `{!Ports AuthOp St AuthDraw} `{JsonbText}.

Definition set_cache x (p : Process St) : Process St := mkProcess (pc_auth p) x (pc_requests p) (pc_audit p).

Definition proc_step {B} (o : ProcOp B) (t : Time) (u : AuthDraw) (p : Process St) : Result B * Process St :=
  match o in ProcOp B return Result B * Process St with
  | AuthStep o =>
      let '(r, st) := step o t u (pc_auth p) in (r, mkProcess st (pc_roles p) (pc_requests p) (pc_audit p))
  | CacheGet userID => (inr (pc_roles p !! userID), p)
  | CachePut userID e => (inr tt, set_cache (<[userID := e]> (pc_roles p)) p)
  | CacheDrop userID => (inr tt, set_cache (delete userID (pc_roles p)) p)
  | CacheClear => (inr tt, set_cache ∅ p)
  | CountRequest cfg identity =>
      let '(ok, retry, counters) := count_request cfg t identity (pc_requests p) in
      (inr (ok, retry), mkProcess (pc_auth p) (pc_roles p) counters (pc_audit p))
  | RecordEvent e =>
      match Audit_Record e (pc_audit p) with
      | inl e => (inl e, p)
      | inr events => (inr tt, mkProcess (pc_auth p) (pc_roles p) (pc_requests p) events)
      end
  | ReadEvents q => (inr (Audit_ListEvents q (pc_audit p)), p)
  end.

Definition proc_fallible {B} (o : ProcOp B) : bool :=
  match o with AuthStep o => fallible o | RecordEvent _ | ReadEvents _ => true | _ => false end.

#[export] Instance proc_ports : Ports ProcOp (Process St) AuthDraw :=
  {| step := @proc_step; fallible := @proc_fallible |}.
End process.

(** A program of [auth], run by the process. *)
Fixpoint lift {A} (p : Prog AuthOp A) : Prog ProcOp A :=
  match p with
  | Ret a => Ret a
  | Vis o k => Vis (AuthStep o) (fun b => lift (k b))
  end.

Abbreviation GM := (PM ProcOp).

(** What a call returned, for the caller to look at. *)
Definition outcome {Op A} (m : PM Op A) : PM Op (Result A) := prog_bind (fun r => Ret (inr r)) m.

(** ** The role cache *)

Section cached.
Context (ttl : Z).

(** [NewCachedRoleProvider]: thirty seconds by default. *)
Definition cache_ttl : Z := if ttl <=? 0 then 30 * 10 ^ 9 else ttl.

Definition Cached_RolesByUserID (userID : string) : GM (list Role) :=
  now ← call (AuthStep TimeNow);
  entry ← call (CacheGet userID);
  match entry : option CacheEntry with
  | Some e =>
      if now <? ce_expiresAt e then mret (ce_roles e)
      else roles ← call (AuthStep (RolesByUserID userID));
           call (CachePut userID (mkCacheEntry roles (now + cache_ttl)));; mret roles
  | None =>
      roles ← call (AuthStep (RolesByUserID userID));
      call (CachePut userID (mkCacheEntry roles (now + cache_ttl)));; mret roles
  end.

Definition InvalidateUser (userID : string) : GM unit := call (CacheDrop userID).
Definition InvalidateAll : GM unit := call CacheClear.
End cached.

(** ** Role administration *)

Definition with_default (value fallback : string) : string := if str_eqb value "" then fallback else value.

Definition Admin_UpsertUserAndAssignRole (userID displayName : string) (role : Role) (assignedBy : string) : GM unit :=
  let userID := TrimSpace userID in
  pguard (negb (str_eqb userID "")) ErrUserNotFound;;
  call (AuthStep (UpsertUserAndAssignRole userID (with_default (TrimSpace displayName) userID) role
                    (with_default (TrimSpace assignedBy) "system")));;
  InvalidateUser userID.

Definition Admin_ReplaceUserRoles (userID displayName : string) (roles : list Role) (assignedBy : string) : GM unit :=
  let userID := TrimSpace userID in
  pguard (negb (str_eqb userID "")) ErrUserNotFound;;
  pguard (match roles with [] => false | _ => true end) ErrUserNotFound;;
  call (AuthStep (ReplaceUserRoles userID (with_default (TrimSpace displayName) userID) roles
                    (with_default (TrimSpace assignedBy) "system")));;
  InvalidateUser userID.

(** ** The area check *)

Definition ErrAccessDenied : Error := Sentinel "iamapp.ErrAccessDenied".
Definition ErrSoDViolation : Error := Sentinel "iamapp.ErrSoDViolation".
Definition ErrAreaRequired : Error := Sentinel "iamapp.ErrAreaRequired".

Record AccessPolicy := mkAccessPolicy { ap_Capability : Capability; ap_Effect : string }.

Record DecisionKey := mkDecisionKey {
  dk_UserID : string;
  dk_TenantID : string;
  dk_AreaCode : string;
  dk_Capability : Capability;
  dk_ResourceID : string
}.

#[export] Instance DecisionKey_eq_dec : EqDecision DecisionKey.
Proof. solve_decision. Defined.

#[export] Instance DecisionKey_countable : Countable DecisionKey.
Proof.
  apply (inj_countable'
    (fun k => (dk_UserID k, dk_TenantID k, dk_AreaCode k, dk_Capability k, dk_ResourceID k))
    (fun '(u, t, a, c, r) => mkDecisionKey u t a c r)).
  by intros [].
Defined.

(** What the check asks: memberships, access policies and, when one is wired,
    whether the user wrote a template version. No implementation of the last
    two is part of the program. *)
Class AreaAnswers := {
  memberships_of : string -> string -> Time -> Result (list UserProcessArea);
  policies_of : string -> string -> string -> Result (list AccessPolicy);
  is_author : option (string -> string -> Result bool)
}.

Section check.
Context `{AreaAnswers}.

Definition override (effect : string) (capability : Capability) (l : list AccessPolicy) : bool :=
  existsb (fun p => str_eqb (ap_Capability p) capability && str_eqb (ToLower (TrimSpace (ap_Effect p))) effect) l.

(** The decision, before any cache: allowed or not, or an error. *)
Definition decide_area (key : DecisionKey) (now : Time) : Result bool :=
  let! memberships := map_error (Wrapf "list active memberships: %w" [])
                        (memberships_of (dk_UserID key) (dk_TenantID key) now) in
  let here := bfilter (fun m => UserProcessArea_IsActive m now && str_eqb (ua_AreaCode m) (dk_AreaCode key)) memberships in
  let granted := existsb (fun m => bool_decide (dk_Capability key ∈ capabilities_of (ua_Role m))) here in
  let! allowed :=
    (match here with
     | [] => inr granted
     | _ =>
         let! policies := map_error (Wrapf "list access policies: %w" [])
                            (policies_of (dk_UserID key) (dk_TenantID key) (dk_AreaCode key)) in
         inr (if override "deny" (dk_Capability key) policies then false
              else if override "allow" (dk_Capability key) policies then true else granted)
     end) in
  match is_author with
  | Some author =>
      if allowed && str_eqb (dk_Capability key) CapTemplatePublish then
        let! wrote := map_error (Wrapf "check template author: %w" []) (author (dk_UserID key) (dk_ResourceID key)) in
        if wrote then inl ErrSoDViolation else inr allowed
      else inr allowed
  | None => inr allowed
  end.

(** [Check], with the cache of the request's context when it has one. *)
Definition Check (cache : option (gmap DecisionKey bool)) (userID tenantID : string) (capability : Capability)
    (areaCode resourceID : string) (now : Time) : Result unit * option (gmap DecisionKey bool) :=
  let key := mkDecisionKey (TrimSpace userID) (TrimSpace tenantID) (TrimSpace areaCode) capability (TrimSpace resourceID) in
  let answer (b : bool) : Result unit := if b then inr tt else inl ErrAccessDenied in
  if str_eqb (dk_AreaCode key) "" then (inl ErrAreaRequired, cache)
  else match cache ≫= (fun c => c !! key) with
       | Some b => (answer b, cache)
       | None =>
           match decide_area key now with
           | inl e => (inl e, cache)
           | inr b => (answer b, (fun c => <[key := b]> c) <$> cache)
           end
       end.
End check.
