(* ===== verification/Permissions.v ===== *)
(** * Permissions of the routes

    Which permission a request needs, and which need no session:
    [apps/api/cmd/metaldocs-api/permissions.go], and the fallback of
    [iam/delivery/http/middleware.go]. A [switch] none of whose cases applies
    falls through to the tests after it, so its cases are tests in the chain. *)
From S2P Require Import Prelude Text AuthDomain Membership RateLimit Iam.

Definition isGET (method : string) : bool := str_eqb method "GET".
Definition isPOST (method : string) : bool := str_eqb method "POST".
Definition isPUT (method : string) : bool := str_eqb method "PUT".
Definition isPATCH (method : string) : bool := str_eqb method "PATCH".
Definition isDELETE (method : string) : bool := str_eqb method "DELETE".

(** The permission a request needs, [None] when it needs none: what
    [newPermissionResolver] returns. *)
Definition newPermissionResolver (method path : string) : option Permission :=
  if str_eqb path "/api/v1/metrics" then Some PermIAMManageRoles else
  if str_eqb path "/api/v1/health/live" || str_eqb path "/api/v1/health/ready" then None else
  if HasPrefix path "/api/v1/auth/" then None else
  if isGET method && str_eqb path "/api/v1/feature-flags" then None else
  if isPOST method && str_eqb path "/api/v1/documents" then Some PermDocumentCreate else
  if isPOST method && HasPrefix path "/api/v1/documents/" && HasSuffix path "/attachments" then Some PermDocumentUploadAttachment else
  if isGET method && str_eqb path "/api/v1/documents" then Some PermDocumentRead else
  if isGET method && str_eqb path "/api/v1/document-types" then Some PermDocumentRead else
  if isGET method && str_eqb path "/api/v1/document-templates" then Some PermDocumentRead else
  if isGET method && HasPrefix path "/api/v1/documents/" && negb (HasSuffix path "/versions") then Some PermDocumentRead else
  if isPOST method && HasPrefix path "/api/v1/documents/" && HasSuffix path "/submit-for-approval" then Some PermWorkflowTransition else
  if isPUT method && HasPrefix path "/api/v1/documents/" && HasSuffix path "/content" then Some PermDocumentEdit else
  if isPOST method && HasPrefix path "/api/v1/documents/" && HasSuffix path "/content/browser" then Some PermDocumentEdit else
  if isPUT method && HasPrefix path "/api/v1/documents/" && HasSuffix path "/template-assignment" then Some PermDocumentEdit else
  if isPOST method && HasPrefix path "/api/v1/documents/" && HasSuffix path "/versions" then Some PermDocumentEdit else
  if isPOST method && HasPrefix path "/api/v1/documents/" && HasSuffix path "/export/docx" then Some PermDocumentRead else
  if isGET method && str_eqb path "/api/v1/search/documents" then Some PermSearchRead else
  if isGET method && str_eqb path "/api/v1/notifications" then Some PermDocumentRead else
  if isPOST method && HasPrefix path "/api/v1/notifications/" && HasSuffix path "/read" then Some PermDocumentRead else
  if isGET method && HasPrefix path "/api/v1/documents/" && Contains path "/versions/diff" then Some PermVersionRead else
  if (isGET method || isPUT method) && str_eqb path "/api/v1/access-policies" then Some PermDocumentManagePermissions else
  if isGET method && HasPrefix path "/api/v1/documents/" && HasSuffix path "/versions" then Some PermVersionRead else
  if isPOST method && HasPrefix path "/api/v1/workflow/documents/" && HasSuffix path "/transitions" then Some PermWorkflowTransition else
  if isGET method && HasPrefix path "/api/v1/workflow/documents/" && HasSuffix path "/approvals" then Some PermDocumentRead else
  if isPOST method && str_eqb path "/api/v1/iam/users" then Some PermIAMManageRoles else
  if isGET method && str_eqb path "/api/v1/iam/users" then Some PermIAMManageRoles else
  if isPATCH method && HasPrefix path "/api/v1/iam/users/" && negb (HasSuffix path "/roles") then Some PermIAMManageRoles else
  if isPOST method && HasPrefix path "/api/v1/iam/users/" && HasSuffix path "/roles" then Some PermIAMManageRoles else
  if isPUT method && HasPrefix path "/api/v1/iam/users/" && HasSuffix path "/roles" then Some PermIAMManageRoles else
  if isPOST method && HasPrefix path "/api/v1/iam/users/" && HasSuffix path "/reset-password" then Some PermIAMManageRoles else
  if isPOST method && HasPrefix path "/api/v1/iam/users/" && HasSuffix path "/unlock" then Some PermIAMManageRoles else
  if isGET method && str_eqb path "/api/v1/iam/admin/overview" then Some PermIAMManageRoles else
  if str_eqb path "/api/v1/templates" || HasPrefix path "/api/v1/templates/" then Some PermTemplateView else
  if HasPrefix path "/api/v2/templates" && isGET method then Some PermTemplateView else
  if HasPrefix path "/api/v2/templates" && isPOST method && str_eqb path "/api/v2/templates" then Some PermTemplateEdit else
  if HasPrefix path "/api/v2/templates" && isPUT method && HasSuffix path "/draft" then Some PermTemplateEdit else
  if HasPrefix path "/api/v2/templates" && isPOST method && HasSuffix path "/publish" then Some PermTemplatePublish else
  if HasPrefix path "/api/v2/templates" && isPOST method && HasSuffix path "/docx-upload-url" then Some PermTemplateEdit else
  if HasPrefix path "/api/v2/templates" && isPOST method && HasSuffix path "/schema-upload-url" then Some PermTemplateEdit else
  if HasPrefix path "/api/v2/templates" && isPOST method && HasSuffix path "/submit" then Some PermTemplateEdit else
  if HasPrefix path "/api/v2/templates" && isPOST method && HasSuffix path "/review" then Some PermTemplatePublish else
  if HasPrefix path "/api/v2/templates" && isPOST method && HasSuffix path "/approve" then Some PermTemplatePublish else
  if HasPrefix path "/api/v2/templates" && isPOST method && HasSuffix path "/approval-config" then Some PermTemplateEdit else
  if HasPrefix path "/api/v2/documents" && isGET method then Some PermDocumentRead else
  if HasPrefix path "/api/v2/documents" && isPOST method && str_eqb path "/api/v2/documents" then Some PermDocumentCreate else
  if HasPrefix path "/api/v2/documents" && isPOST method && HasSuffix path "/finalize" then Some PermWorkflowTransition else
  if HasPrefix path "/api/v2/documents" && isPOST method && HasSuffix path "/archive" then Some PermDocumentEdit else
  if HasPrefix path "/api/v2/documents" && isPOST method && Contains path "/session/force-release" then Some PermDocumentManagePermissions else
  if HasPrefix path "/api/v2/documents" && isPOST method && Contains path "/session/" then Some PermDocumentEdit else
  if HasPrefix path "/api/v2/documents" && isPOST method && Contains path "/autosave/" then Some PermDocumentEdit else
  if HasPrefix path "/api/v2/documents" && isPOST method && Contains path "/checkpoints/" && HasSuffix path "/restore" then Some PermDocumentEdit else
  if HasPrefix path "/api/v2/documents" && isPOST method && Contains path "/checkpoints" then Some PermDocumentEdit else
  if HasPrefix path "/api/v2/documents" && isPOST method && HasSuffix path "/export/pdf" then Some PermDocumentRead else
  if HasPrefix path "/api/v2/documents" && isPUT method && Contains path "/placeholders/" then Some PermDocumentEdit else
  if HasPrefix path "/api/v2/documents" && isPATCH method then Some PermDocumentEdit else
  if HasPrefix path "/api/v2/documents" && isPOST method && HasSuffix path "/submit" then Some PermWorkflowTransition else
  if HasPrefix path "/api/v2/documents" && isPOST method && HasSuffix path "/signoff" then Some PermWorkflowTransition else
  if HasPrefix path "/api/v2/documents" && isPOST method && HasSuffix path "/cancel" then Some PermWorkflowTransition else
  if HasPrefix path "/api/v2/documents" && isGET method && HasSuffix path "/approval-instance" then Some PermDocumentRead else
  if HasPrefix path "/api/v2/documents" && isPOST method && HasSuffix path "/reconstruct" then Some PermDocumentEdit else
  if HasPrefix path "/api/v2/taxonomy/profiles" && isGET method then Some PermDocumentRead else
  if HasPrefix path "/api/v2/taxonomy/profiles" && (isPOST method || isPATCH method || isPUT method || isDELETE method) then Some PermIAMManageRoles else
  if HasPrefix path "/api/v2/taxonomy/areas" && isGET method then Some PermDocumentRead else
  if HasPrefix path "/api/v2/taxonomy/areas" && (isPOST method || isPUT method || isDELETE method) then Some PermIAMManageRoles else
  if HasPrefix path "/api/v2/controlled-documents" && isGET method then Some PermDocumentRead else
  if HasPrefix path "/api/v2/controlled-documents" && isPOST method && str_eqb path "/api/v2/controlled-documents" then Some PermDocumentCreate else
  if HasPrefix path "/api/v2/controlled-documents" && isPUT method && HasSuffix path "/obsolete" then Some PermDocumentEdit else
  if HasPrefix path "/api/v2/controlled-documents" && isPUT method && HasSuffix path "/supersede" then Some PermDocumentEdit else
  if HasPrefix path "/api/v2/iam/area-memberships" then Some PermIAMManageRoles else
  if isGET method && str_eqb path "/api/v2/signed" then Some PermTemplateView else
  if HasPrefix path "/api/v2/approval/" && isGET method then Some PermDocumentRead else
  if HasPrefix path "/api/v2/approval/" && (isPOST method || isPUT method || isDELETE method) then Some PermWorkflowTransition else
  None.

(** The fallback, which the application replaces. *)
Definition requiredPermission (method path : string) : option Permission :=
  if str_eqb path "/api/v1/health/live" || str_eqb path "/api/v1/health/ready" || str_eqb path "/api/v1/metrics" then (if str_eqb path "/api/v1/metrics" then Some PermIAMManageRoles else None) else
  if HasPrefix path "/api/v1/auth/" then None else
  if isPOST method && str_eqb path "/api/v1/documents" then Some PermDocumentCreate else
  if isPOST method && HasPrefix path "/api/v1/documents/" && HasSuffix path "/attachments" then Some PermDocumentUploadAttachment else
  if isGET method && HasPrefix path "/api/v1/documents/" && HasSuffix path "/collaboration/presence" then Some PermDocumentRead else
  if isPOST method && HasPrefix path "/api/v1/documents/" && HasSuffix path "/collaboration/presence" then Some PermDocumentRead else
  if isGET method && HasPrefix path "/api/v1/documents/" && HasSuffix path "/collaboration/lock" then Some PermDocumentRead else
  if isPOST method && HasPrefix path "/api/v1/documents/" && HasSuffix path "/collaboration/lock" then Some PermDocumentEdit else
  if isDELETE method && HasPrefix path "/api/v1/documents/" && HasSuffix path "/collaboration/lock" then Some PermDocumentEdit else
  if isGET method && str_eqb path "/api/v1/documents" then Some PermDocumentRead else
  if isGET method && str_eqb path "/api/v1/document-types" then Some PermDocumentRead else
  if isGET method && str_eqb path "/api/v1/document-profiles" then Some PermDocumentRead else
  if isGET method && HasPrefix path "/api/v1/document-profiles/" then Some PermDocumentRead else
  if isPOST method && str_eqb path "/api/v1/document-profiles" then Some PermIAMManageRoles else
  if isPOST method && HasPrefix path "/api/v1/document-profiles/" then Some PermIAMManageRoles else
  if isPUT method && HasPrefix path "/api/v1/document-profiles/" then Some PermIAMManageRoles else
  if isDELETE method && HasPrefix path "/api/v1/document-profiles/" then Some PermIAMManageRoles else
  if isGET method && str_eqb path "/api/v1/process-areas" then Some PermDocumentRead else
  if isGET method && str_eqb path "/api/v1/document-subjects" then Some PermDocumentRead else
  if isPOST method && str_eqb path "/api/v1/process-areas" then Some PermIAMManageRoles else
  if isPOST method && str_eqb path "/api/v1/document-subjects" then Some PermIAMManageRoles else
  if isPUT method && HasPrefix path "/api/v1/process-areas/" then Some PermIAMManageRoles else
  if isDELETE method && HasPrefix path "/api/v1/process-areas/" then Some PermIAMManageRoles else
  if isPUT method && HasPrefix path "/api/v1/document-subjects/" then Some PermIAMManageRoles else
  if isDELETE method && HasPrefix path "/api/v1/document-subjects/" then Some PermIAMManageRoles else
  if isGET method && HasPrefix path "/api/v1/documents/" && negb (HasSuffix path "/versions") then Some PermDocumentRead else
  if isPOST method && HasPrefix path "/api/v1/documents/" && HasSuffix path "/versions" then Some PermDocumentEdit else
  if isGET method && str_eqb path "/api/v1/search/documents" then Some PermSearchRead else
  if isGET method && str_eqb path "/api/v1/notifications" then Some PermDocumentRead else
  if isGET method && str_eqb path "/api/v1/operations/stream" then Some PermDocumentRead else
  if isPOST method && HasPrefix path "/api/v1/notifications/" && HasSuffix path "/read" then Some PermDocumentRead else
  if isGET method && HasPrefix path "/api/v1/documents/" && Contains path "/versions/diff" then Some PermVersionRead else
  if (isGET method || isPUT method) && str_eqb path "/api/v1/access-policies" then Some PermDocumentManagePermissions else
  if isGET method && HasPrefix path "/api/v1/documents/" && HasSuffix path "/versions" then Some PermVersionRead else
  if isPOST method && HasPrefix path "/api/v1/workflow/documents/" && HasSuffix path "/transitions" then Some PermWorkflowTransition else
  if isGET method && HasPrefix path "/api/v1/workflow/documents/" && HasSuffix path "/approvals" then Some PermDocumentRead else
  if isPOST method && str_eqb path "/api/v1/iam/users" then Some PermIAMManageRoles else
  if isGET method && str_eqb path "/api/v1/iam/users" then Some PermIAMManageRoles else
  if isPATCH method && HasPrefix path "/api/v1/iam/users/" && negb (HasSuffix path "/roles") then Some PermIAMManageRoles else
  if isPOST method && HasPrefix path "/api/v1/iam/users/" && HasSuffix path "/roles" then Some PermIAMManageRoles else
  if isPUT method && HasPrefix path "/api/v1/iam/users/" && HasSuffix path "/roles" then Some PermIAMManageRoles else
  if isPOST method && HasPrefix path "/api/v1/iam/users/" && HasSuffix path "/reset-password" then Some PermIAMManageRoles else
  if isPOST method && HasPrefix path "/api/v1/iam/users/" && HasSuffix path "/unlock" then Some PermIAMManageRoles else
  None.

Definition requiresSessionButNoPermission (method path : string) : bool :=
  if isGET method && str_eqb path "/api/v1/auth/me" then true else
  if isPOST method && str_eqb path "/api/v1/auth/change-password" then true else
  if HasPrefix path "/api/v2/" then true else
  false.

(** [newPublicPathChecker]. *)
Definition newPublicPathChecker (resolver : string -> string -> option Permission) (method path : string) : bool :=
  if requiresSessionButNoPermission method path then false
  else match resolver method path with Some _ => false | None => true end.

(** [defaultPublicPaths] of [auth/delivery/http/middleware.go], when no checker
    is injected. *)
Definition defaultPublicPaths (method path : string) : bool :=
  str_eqb path "/api/v1/health/live" || str_eqb path "/api/v1/health/ready"
  || isPOST method && str_eqb path "/api/v1/auth/login"
  || isPOST method && str_eqb path "/api/v1/auth/logout".

Definition isPasswordChangeAllowedPath (path method : string) : bool :=
  isGET method && str_eqb path "/api/v1/auth/me"
  || isPOST method && str_eqb path "/api/v1/auth/change-password"
  || isPOST method && str_eqb path "/api/v1/auth/logout".
