(* ===== verification/Gate.v ===== *)
(** * The gate: middleware before the handlers

    What a request passes before a handler sees it, in the order of
    [apps/api/cmd/metaldocs-api/main.go]: CORS and origin protection
    ([platform/security]), the session ([auth/delivery/http/middleware.go]),
    the permission ([iam/delivery/http/middleware.go]) and the rate limiter
    ([platform/security/ratelimit.go]). A middleware maps a handler to a
    handler, as its [Wrap] does. *)
From S2P Require Import Prelude Text Tables Programs AuthDomain AuthToken AuthService RateLimit Iam Permissions.
Local Open Scope Z_scope.

(** [net/url.Parse]: the scheme and the host of a URL. *)
Class UrlParse := url_Parse : string -> option (string * string).

(** What the middleware reads of a request. *)
Record Request := mkRequest {
  rq_Method : string;
  rq_Path : string;
  rq_Host : string;
  rq_TLS : bool;
  rq_RemoteAddr : string;
  rq_Cookies : list (string * string);
  rq_Origin : string;
  rq_Referer : string;
  rq_XForwardedProto : string;
  rq_XUserId : string
}.

(** [r.Cookie]: the first one of the name. *)
Definition Cookie (name : string) (r : Request) : option string :=
  if str_eqb name "" then None
  else snd <$> select_one (fun c => str_eqb c.1 name) (rq_Cookies r).

(** A request with its context: the user [auth] put there, and the user and
    roles of [iam]. *)
Record Ctx := mkCtx {
  cx_request : Request;
  cx_user : option CurrentUser;
  cx_auth : option (string * list Role)
}.

Definition UserIDFromContext (c : Ctx) : string := match cx_auth c with Some a => a.1 | None => "" end.
Definition RolesFromContext (c : Ctx) : list Role := match cx_auth c with Some a => a.2 | None => [] end.

(** A refusal with its error code, a preflight answer, or what the handler
    answered. *)
Inductive Response (R : Type) :=
  | Refused (status : Z) (code : string)
  | Preflight (status : Z)
  | Served (r : R).
Arguments Refused {R} status code.
Arguments Preflight {R} status.
Arguments Served {R} r.

Definition Handler (R : Type) := Ctx -> PM ProcOp (Response R).

Definition is_served {R} (x : Response R) : bool := match x with Served _ => true | _ => false end.

Record CORSConfig := mkCORSConfig { co_Enabled : bool; co_AllowedOrigins : list string }.

(** The configuration of the process: [authn.Enabled] switches the two
    middlewares of sessions and permissions together. *)
Record GateConfig := mkGateConfig {
  gc_cors : CORSConfig;
  gc_auth : Config;
  gc_authEnabled : bool;
  gc_cacheTTL : Z;
  gc_rate : RateLimitConfig
}.

Section gate.
Context `{UrlParse} `{LetterCase} (cfg : GateConfig).

Definition refuse {R} (status : Z) (code : string) : PM ProcOp (Response R) := mret (Refused status code).

(** ** [cors.go] *)

Definition isAllowedOrigin (origin : string) : bool :=
  bool_decide ("*" ∈ co_AllowedOrigins (gc_cors cfg)) || bool_decide (origin ∈ co_AllowedOrigins (gc_cors cfg)).

Definition cors_Wrap {R} (next : Handler R) : Handler R := fun c =>
  let r := cx_request c in
  let origin := TrimSpace (rq_Origin r) in
  if negb (co_Enabled (gc_cors cfg)) || str_eqb origin "" then next c
  else if isAllowedOrigin origin then
    if str_eqb (rq_Method r) "OPTIONS" then mret (Preflight 204) else next c
  else if str_eqb (rq_Method r) "OPTIONS" then mret (Preflight 403) else next c.

(** ** [origin_protection.go] *)

Definition normalizeOrigin (origin : string) : string :=
  let value := TrimSpace origin in
  if str_eqb value "" then ""
  else match url_Parse value with
       | Some (scheme, host) =>
           if str_eqb scheme "" || str_eqb host "" then "" else go_lower scheme +:+ "://" +:+ go_lower host
       | None => ""
       end.

Definition originFromReferer (referer : string) : string :=
  let ref := TrimSpace referer in
  if str_eqb ref "" then ""
  else match url_Parse ref with
       | Some (scheme, host) =>
           if str_eqb scheme "" || str_eqb host "" then "" else normalizeOrigin (scheme +:+ "://" +:+ host)
       | None => ""
       end.

Definition sameOrigin (r : Request) : string :=
  let forwarded := TrimSpace (rq_XForwardedProto r) in
  let scheme := if negb (str_eqb forwarded "") then go_lower forwarded
                else if rq_TLS r then "https" else "http" in
  let host := TrimSpace (rq_Host r) in
  if str_eqb host "" then "" else normalizeOrigin (scheme +:+ "://" +:+ host).

(** The normalised trusted origins, without the malformed. *)
Definition trustedOrigins : list string :=
  bfilter (fun o => negb (str_eqb o "")) (normalizeOrigin <$> cfg_TrustedOrigins (gc_auth cfg)).

Definition requiresOriginProtection (r : Request) : bool :=
  isPOST (rq_Method r) || isPUT (rq_Method r) || isPATCH (rq_Method r) || isDELETE (rq_Method r).

Definition trusted (r : Request) (origin : string) : bool :=
  str_eqb origin (sameOrigin r) || bool_decide (origin ∈ trustedOrigins).

(** The origin a request claims: its [Origin], else that of its [Referer]. *)
Definition claimed_origin (r : Request) : string :=
  let origin := normalizeOrigin (rq_Origin r) in
  if negb (str_eqb origin "") then origin else originFromReferer (rq_Referer r).

Definition origin_Wrap {R} (next : Handler R) : Handler R := fun c =>
  let r := cx_request c in
  let cookieName := TrimSpace (cfg_SessionCookieName (gc_auth cfg)) in
  if negb (cfg_OriginProtection (gc_auth cfg)) || str_eqb cookieName "" then next c
  else if negb (requiresOriginProtection r) then next c
  else match Cookie cookieName r with
       | None => next c
       | Some _ =>
           let origin := normalizeOrigin (rq_Origin r) in
           if negb (str_eqb origin "") then
             if trusted r origin then next c else refuse 403 "AUTH_INVALID_ORIGIN"
           else
             let refererOrigin := originFromReferer (rq_Referer r) in
             if negb (str_eqb refererOrigin "") then
               if trusted r refererOrigin then next c else refuse 403 "AUTH_INVALID_ORIGIN"
             else refuse 403 "AUTH_INVALID_ORIGIN"
       end.

(** ** [auth/delivery/http/middleware.go] *)

Definition isPublic (r : Request) : bool :=
  newPublicPathChecker newPermissionResolver (rq_Method r) (rq_Path r).

Definition session_error (e : Error) : bool :=
  errors_Is e ErrSessionNotFound || errors_Is e ErrSessionExpired || errors_Is e ErrSessionRevoked.

Definition auth_Wrap {R} (next : Handler R) : Handler R := fun c =>
  let r := cx_request c in
  if negb (gc_authEnabled cfg) then next c
  else if isPublic r then next c
  else if cfg_LegacyHeaderEnabled (gc_auth cfg) && negb (str_eqb (TrimSpace (rq_XUserId r)) "") then next c
  else match Cookie (cfg_SessionCookieName (gc_auth cfg)) r with
       | None => refuse 401 "AUTH_UNAUTHORIZED"
       | Some value =>
           if str_eqb (TrimSpace value) "" then refuse 401 "AUTH_UNAUTHORIZED"
           else
             user ← outcome (lift (ResolveSession (gc_auth cfg) value));
             match user : Result CurrentUser with
             | inl e => if session_error e then refuse 401 "AUTH_UNAUTHORIZED" else refuse 500 "INTERNAL_ERROR"
             | inr u =>
                 if cr_MustChangePassword u && negb (isPasswordChangeAllowedPath (rq_Path r) (rq_Method r))
                 then refuse 403 "AUTH_PASSWORD_CHANGE_REQUIRED"
                 else next (mkCtx r (Some u) (Some (cr_UserID u, cr_Roles u)))
             end
       end.

(** ** [iam/delivery/http/middleware.go] *)

Definition without_user_header (r : Request) : Request :=
  mkRequest (rq_Method r) (rq_Path r) (rq_Host r) (rq_TLS r) (rq_RemoteAddr r) (rq_Cookies r)
    (rq_Origin r) (rq_Referer r) (rq_XForwardedProto r) "".

Definition iam_Wrap {R} (next : Handler R) : Handler R := fun c =>
  let r := cx_request c in
  if negb (gc_authEnabled cfg) then next c
  else match newPermissionResolver (rq_Method r) (rq_Path r) with
       | None => next c
       | Some perm =>
           let userID := UserIDFromContext c in
           let userID := if str_eqb userID "" && cfg_LegacyHeaderEnabled (gc_auth cfg)
                         then TrimSpace (rq_XUserId r) else userID in
           let admit_with roles :=
             if hasPermission roles perm then
               next (mkCtx (without_user_header r) (cx_user c)
                       (match cx_user c with Some _ => cx_auth c | None => Some (userID, roles) end))
             else refuse 403 "AUTH_FORBIDDEN" in
           if str_eqb userID "" then refuse 401 "AUTH_UNAUTHORIZED"
           else match RolesFromContext c with
                | [] =>
                    resolved ← outcome (Cached_RolesByUserID (gc_cacheTTL cfg) userID);
                    match resolved : Result (list Role) with
                    | inl e =>
                        if errors_Is e ErrUserNotFound || errors_Is e ErrUserInactive
                        then refuse 401 "AUTH_UNAUTHORIZED" else refuse 500 "INTERNAL_ERROR"
                    | inr roles => admit_with roles
                    end
                | roles => admit_with roles
                end
       end.

(** ** [ratelimit.go] *)

Definition requestIdentity (c : Ctx) : string :=
  let of_iam :=
    let userID := TrimSpace (UserIDFromContext c) in
    if negb (str_eqb userID "") then "user:" +:+ userID
    else match SplitHostPort (TrimSpace (rq_RemoteAddr (cx_request c))) with
         | Some (host, _) => if str_eqb host "" then "ip:unknown" else "ip:" +:+ host
         | None => "ip:unknown"
         end in
  match cx_user c with
  | Some u => if str_eqb (TrimSpace (cr_UserID u)) "" then of_iam else "user:" +:+ TrimSpace (cr_UserID u)
  | None => of_iam
  end.

Definition rate_Wrap {R} (next : Handler R) : Handler R := fun c =>
  if negb (rl_Enabled (gc_rate cfg)) || shouldSkipRateLimit (rq_Path (cx_request c)) then next c
  else
    counted ← call (CountRequest (gc_rate cfg) (requestIdentity c));
    if (counted : bool * Z).1 then next c else refuse 429 "RATE_LIMITED".

(** ** The chain *)

Definition gate {R} (mux : Handler R) : Handler R :=
  cors_Wrap (origin_Wrap (auth_Wrap (iam_Wrap (rate_Wrap mux)))).

Definition incoming (r : Request) : Ctx := mkCtx r None None.
End gate.
