(* ===== verification/IdentityHttp.v ===== *)
(** * The endpoints of identity

    The handlers of [auth/delivery/http/handler.go],
    [iam/delivery/http/admin_handler.go] and [audit/delivery/http/handler.go],
    whole, over the services; and the requests they serve behind the gate. The
    texts of error messages are not modelled; the administration always has
    its services. *)
From S2P Require Import Prelude Text Tables Programs ContentHash.
From S2P Require Import AuthDomain AuthService RateLimit Membership AuditTrail Iam Permissions Gate.
Local Open Scope Z_scope.

(** ** Requests and replies *)

(** What the handlers read besides [Request]: the trace header, the client,
    the first JSON value of the body, and the query of the audit endpoint. *)
Record ApiRequest := mkApiRequest {
  aq_request : Request;
  aq_XTraceId : string;
  aq_client : ClientInfo;
  aq_body : option Any;
  aq_events : EventsRequest
}.

Record SetCookie := mkSetCookie {
  sc_Name : string;
  sc_Value : string;
  sc_Path : string;
  sc_HttpOnly : bool;
  sc_SameSiteLax : bool;
  sc_Secure : bool;
  sc_Expires : Time;
  sc_MaxAge : Z
}.

Inductive ReplyBody :=
  | BodyNone
  | BodyError (code : string)
  | BodyLogin (user : CurrentUser) (expiresAt : Time)
  | BodyUser (user : CurrentUser)
  | BodyChanged (user : CurrentUser)
  | BodyUsers (items : list ManagedUser)
  | BodyOverview (users : list ManagedUser) (online : list OnlineUser) (events : list Event)
  | BodyCreated (userId : string)
  | BodyUpdated (userId : string)
  | BodyRole (userId role displayName : string)
  | BodyRoles (userId displayName : string) (roles : list Role)
  | BodyReset (userId : string)
  | BodyUnlocked (userId : string)
  | BodyEvents (items : list Event).

Record HttpReply := mkHttpReply { hr_status : Z; hr_body : ReplyBody; hr_cookie : option SetCookie }.

Definition reply (status : Z) (body : ReplyBody) : HttpReply := mkHttpReply status body None.
Definition api_error (status : Z) (code : string) : HttpReply := reply status (BodyError code).
Definition MethodNotAllowed : HttpReply := reply 405 BodyNone.

Definition answer (x : HttpReply) : PM ProcOp (Response HttpReply) := mret (Served x).

Definition requestTraceID (a : ApiRequest) : string :=
  let traceID := TrimSpace (aq_XTraceId a) in
  if str_eqb traceID "" then "trace-local" else traceID.

(** ** Bodies *)

Record LoginRequest := mkLoginRequest { lr_Identifier : string; lr_Password : string }.
Definition login_fields :=
  [("identifier", string_field (fun s r => mkLoginRequest s (lr_Password r)));
   ("password", string_field (fun s r => mkLoginRequest (lr_Identifier r) s))].

Record ChangePasswordRequest := mkChangePasswordRequest { cp_Current : string; cp_New : string }.
Definition change_password_fields :=
  [("currentPassword", string_field (fun s r => mkChangePasswordRequest s (cp_New r)));
   ("newPassword", string_field (fun s r => mkChangePasswordRequest (cp_Current r) s))].

Record UpsertUserRoleRequest := mkUpsertUserRoleRequest {
  ur_DisplayName : string; ur_Role : string; ur_AssignedBy : string }.
Definition upsert_fields :=
  [("displayName", string_field (fun s r => mkUpsertUserRoleRequest s (ur_Role r) (ur_AssignedBy r)));
   ("role", string_field (fun s r => mkUpsertUserRoleRequest (ur_DisplayName r) s (ur_AssignedBy r)));
   ("assignedBy", string_field (fun s r => mkUpsertUserRoleRequest (ur_DisplayName r) (ur_Role r) s))].

Record ReplaceUserRolesRequest := mkReplaceUserRolesRequest {
  rr_DisplayName : string; rr_Roles : list string; rr_AssignedBy : string }.
Definition replace_fields :=
  [("displayName", string_field (fun s r => mkReplaceUserRolesRequest s (rr_Roles r) (rr_AssignedBy r)));
   ("roles", strings_field (fun l r => mkReplaceUserRolesRequest (rr_DisplayName r) l (rr_AssignedBy r)));
   ("assignedBy", string_field (fun s r => mkReplaceUserRolesRequest (rr_DisplayName r) (rr_Roles r) s))].

Record CreateUserRequest := mkCreateUserRequest {
  cq_UserID : string; cq_Username : string; cq_Email : string; cq_DisplayName : string;
  cq_Password : string; cq_Roles : list string }.
Definition create_fields :=
  [("userId", string_field (fun s r => mkCreateUserRequest s (cq_Username r) (cq_Email r) (cq_DisplayName r) (cq_Password r) (cq_Roles r)));
   ("username", string_field (fun s r => mkCreateUserRequest (cq_UserID r) s (cq_Email r) (cq_DisplayName r) (cq_Password r) (cq_Roles r)));
   ("email", string_field (fun s r => mkCreateUserRequest (cq_UserID r) (cq_Username r) s (cq_DisplayName r) (cq_Password r) (cq_Roles r)));
   ("displayName", string_field (fun s r => mkCreateUserRequest (cq_UserID r) (cq_Username r) (cq_Email r) s (cq_Password r) (cq_Roles r)));
   ("password", string_field (fun s r => mkCreateUserRequest (cq_UserID r) (cq_Username r) (cq_Email r) (cq_DisplayName r) s (cq_Roles r)));
   ("roles", strings_field (fun l r => mkCreateUserRequest (cq_UserID r) (cq_Username r) (cq_Email r) (cq_DisplayName r) (cq_Password r) l))].

Record UpdateUserRequest := mkUpdateUserRequest {
  uq_DisplayName : option string; uq_Email : option string; uq_IsActive : option bool;
  uq_NewPassword : string; uq_MustChangePassword : option bool }.
Definition update_fields :=
  [("displayName", string_ptr_field (fun s r => mkUpdateUserRequest s (uq_Email r) (uq_IsActive r) (uq_NewPassword r) (uq_MustChangePassword r)));
   ("email", string_ptr_field (fun s r => mkUpdateUserRequest (uq_DisplayName r) s (uq_IsActive r) (uq_NewPassword r) (uq_MustChangePassword r)));
   ("isActive", bool_ptr_field (fun b r => mkUpdateUserRequest (uq_DisplayName r) (uq_Email r) b (uq_NewPassword r) (uq_MustChangePassword r)));
   ("newPassword", string_field (fun s r => mkUpdateUserRequest (uq_DisplayName r) (uq_Email r) (uq_IsActive r) s (uq_MustChangePassword r)));
   ("mustChangePassword", bool_ptr_field (fun b r => mkUpdateUserRequest (uq_DisplayName r) (uq_Email r) (uq_IsActive r) (uq_NewPassword r) b))].

Definition reset_fields : list (string * (Any -> string -> Result string)) :=
  [("newPassword", string_field (fun s _ => s))].

(** Decoding that answers an invalid payload itself. *)
Definition decoding {T} (fields : list (string * (Any -> T -> Result T))) (zero : T) (a : ApiRequest)
    (k : T -> PM ProcOp (Response HttpReply)) : PM ProcOp (Response HttpReply) :=
  match decode_body fields zero (aq_body a) with
  | inl _ => answer (api_error 400 "VALIDATION_ERROR")
  | inr x => k x
  end.

Section endpoints.
Context `{Bcrypt} (cfg : Config) (cacheTTL : Z).

(** ** [auth/delivery/http/handler.go] *)

(** 1 January 1970. *)
Definition unix_epoch : Time := 62135596800 * 10 ^ 9.

Definition SessionCookie (rawToken : string) (expiresAt now : Time) : SetCookie :=
  mkSetCookie (cfg_SessionCookieName cfg) rawToken "/" true true (cfg_CookieSecure cfg) expiresAt
    ((expiresAt - now) ÷ Second).

Definition ExpiredSessionCookie : SetCookie :=
  mkSetCookie (cfg_SessionCookieName cfg) "" "/" true true (cfg_CookieSecure cfg) unix_epoch (-1).

Definition login_error (e : Error) : Z * string :=
  if errors_Is e ErrInvalidCredentials then (401, "AUTH_INVALID_CREDENTIALS")
  else if errors_Is e ErrIdentityNotFound then (401, "AUTH_INVALID_CREDENTIALS")
  else if errors_Is e ErrIdentityLocked then (403, "AUTH_ACCOUNT_LOCKED")
  else if errors_Is e ErrPasswordPolicy then (400, "VALIDATION_ERROR")
  else if errors_Is e ErrIdentityInactive then (403, "AUTH_ACCOUNT_INACTIVE")
  else (500, "INTERNAL_ERROR").

Definition handleLogin (a : ApiRequest) : Handler HttpReply := fun c =>
  if negb (isPOST (rq_Method (cx_request c))) then answer MethodNotAllowed
  else decoding login_fields (mkLoginRequest "" "") a (fun req =>
    session ← outcome (lift (Authenticate cfg (lr_Identifier req) (lr_Password req) (aq_client a)));
    match session : Result AuthenticatedSession with
    | inl e => answer (mkHttpReply (login_error e).1 (BodyError (login_error e).2) (Some ExpiredSessionCookie))
    | inr s =>
        now ← call (AuthStep TimeNow);
        answer (mkHttpReply 200 (BodyLogin (as_CurrentUser s) (as_ExpiresAt s))
                  (Some (SessionCookie (as_RawToken s) (as_ExpiresAt s) now)))
    end).

Definition handleLogout : Handler HttpReply := fun c =>
  if negb (isPOST (rq_Method (cx_request c))) then answer MethodNotAllowed
  else
    match Cookie (cfg_SessionCookieName cfg) (cx_request c) with
    | Some value => _ ← outcome (lift (Logout cfg value)); mret tt
    | None => mret tt
    end;;
    answer (mkHttpReply 204 BodyNone (Some ExpiredSessionCookie)).

Definition handleMe : Handler HttpReply := fun c =>
  if negb (isGET (rq_Method (cx_request c))) then answer MethodNotAllowed
  else match cx_user c with
       | None => answer (api_error 401 "AUTH_UNAUTHORIZED")
       | Some user => answer (reply 200 (BodyUser user))
       end.

Definition handleChangePassword (a : ApiRequest) : Handler HttpReply := fun c =>
  if negb (isPOST (rq_Method (cx_request c))) then answer MethodNotAllowed
  else match cx_user c with
  | None => answer (api_error 401 "AUTH_UNAUTHORIZED")
  | Some user =>
      decoding change_password_fields (mkChangePasswordRequest "" "") a (fun req =>
        changed ← outcome (lift (ChangePasswordForUser cfg user (cp_Current req) (cp_New req)));
        match changed : Result unit with
        | inl e => answer (api_error (login_error e).1 (login_error e).2)
        | inr _ =>
            current ← outcome (lift (buildCurrentUser (cr_UserID user)));
            match current : Result CurrentUser with
            | inl _ => answer (api_error 500 "INTERNAL_ERROR")
            | inr u => answer (reply 200 (BodyChanged u))
            end
        end)
  end.

(** ** [iam/delivery/http/admin_handler.go] *)

Definition admin_error (e : Error) : HttpReply :=
  if errors_Is e ErrPasswordPolicy then api_error 400 "VALIDATION_ERROR"
  else if errors_Is e ErrUserAlreadyExists then api_error 409 "CONFLICT_ERROR"
  else if errors_Is e ErrIdentityNotFound then api_error 404 "NOT_FOUND"
  else api_error 500 "INTERNAL_ERROR".

Definition actor_of (c : Ctx) : string := authenticatedActor (UserIDFromContext c).

(** The identifier of an event: the digits of its time, to the nanosecond. *)
Definition event_id (now : Time) : string :=
  "evt_" +:+ String.string_of_list_ascii
    (bfilter (fun x => match digit_value x with Some _ => true | None => false end)
       (String.list_ascii_of_string (format_RFC3339 now)))
  +:+ pad_digits 9 (now mod Second).

(** Whether the event is stored is not looked at. *)
Definition recordAudit (a : ApiRequest) (c : Ctx) (userID action : string) (payload : list (string * Any)) : GM unit :=
  match json_Marshal (AnyMap payload) with
  | inl _ => mret tt
  | inr payloadJSON =>
      now ← call (AuthStep TimeNow);
      occurredAt ← call (AuthStep TimeNow);
      attempt (RecordEvent (mkEvent (event_id now) occurredAt (actor_of c) action "user" userID
                              payloadJSON (requestTraceID a)));;
      mret tt
  end.

Definition assignable (role : Role) : bool :=
  bool_decide (role ∈ [RoleAdmin; RoleEditor; RoleReviewer; RoleViewer]).

(** Each role once, in order of appearance. *)
Fixpoint parse_roles (items : list string) (out : list Role) : option (list Role) :=
  match items with
  | [] => Some out
  | item :: rest =>
      let role := ToLower (TrimSpace item) in
      if negb (assignable role) then None
      else parse_roles rest (if bool_decide (role ∈ out) then out else out ++ [role])
  end.

Definition parseRoles (items : list string) : option (list Role) :=
  match parse_roles items [] with
  | Some [] | None => None
  | Some out => Some out
  end.

Definition assigned_by (c : Ctx) (assignedBy : string) : string :=
  let by_ := TrimSpace assignedBy in if str_eqb by_ "" then actor_of c else by_.

Definition handleListUsers : Handler HttpReply := fun c =>
  items ← outcome (lift ListUsers);
  match items : Result (list ManagedUser) with
  | inl _ => answer (api_error 500 "INTERNAL_ERROR")
  | inr items => answer (reply 200 (BodyUsers items))
  end.

Definition handleCreateUser (a : ApiRequest) : Handler HttpReply := fun c =>
  decoding create_fields (mkCreateUserRequest "" "" "" "" "" []) a (fun req =>
    match parseRoles (cq_Roles req) with
    | None => answer (api_error 400 "VALIDATION_ERROR")
    | Some roles =>
        created ← outcome (lift (CreateUser cfg (cq_UserID req) (cq_Username req) (cq_Email req)
                     (cq_DisplayName req) (cq_Password req) roles (actor_of c)));
        match created : Result unit with
        | inl e => answer (admin_error e)
        | inr _ =>
            answer (reply 201 (BodyCreated
              (TrimSpace (with_default (TrimSpace (cq_UserID req)) (TrimSpace (cq_Username req))))))
        end
    end).

Definition handleUsers (a : ApiRequest) : Handler HttpReply := fun c =>
  let method := rq_Method (cx_request c) in
  if isGET method then handleListUsers c
  else if isPOST method then handleCreateUser a c
  else answer MethodNotAllowed.

Definition ten_minutes : Z := 600 * Second.

Definition handleAdminOverview : Handler HttpReply := fun c =>
  if negb (isGET (rq_Method (cx_request c))) then answer MethodNotAllowed
  else
    now ← call (AuthStep TimeNow);
    users ← outcome (lift ListUsers);
    match users : Result (list ManagedUser) with
    | inl _ => answer (api_error 500 "INTERNAL_ERROR")
    | inr users =>
        online ← outcome (lift (ListOnlineUsers (now - ten_minutes)));
        match online : Result (list OnlineUser) with
        | inl _ => answer (api_error 500 "INTERNAL_ERROR")
        | inr online =>
            events ← outcome (call (ReadEvents (mkListEventsQuery "" "" 25)));
            match events : Result (list Event) with
            | inl _ => answer (api_error 500 "INTERNAL_ERROR")
            | inr events => answer (reply 200 (BodyOverview users online events))
            end
        end
    end.

Definition handlePatchUser (a : ApiRequest) (userID : string) : Handler HttpReply := fun c =>
  decoding update_fields (mkUpdateUserRequest None None None "" None) a (fun req =>
    updated ← outcome (lift (UpdateUser cfg (mkUpdateUserParams userID (uq_DisplayName req) (uq_Email req)
                 (uq_IsActive req) None (uq_MustChangePassword req) false) (uq_NewPassword req)));
    match updated : Result unit with
    | inl e => answer (admin_error e)
    | inr _ =>
        let text o := match o with Some s => AnyString s | None => AnyNil end in
        let flag o := match o with Some b => AnyBool b | None => AnyNil end in
        recordAudit a c userID "iam.user.updated"
          [("displayName", text (uq_DisplayName req)); ("email", text (uq_Email req));
           ("isActive", flag (uq_IsActive req)); ("mustChangePassword", flag (uq_MustChangePassword req))];;
        answer (reply 200 (BodyUpdated userID))
    end).

Definition handleUserRoleUpsert (a : ApiRequest) (userID : string) : Handler HttpReply := fun c =>
  if negb (isPOST (rq_Method (cx_request c))) then answer MethodNotAllowed
  else decoding upsert_fields (mkUpsertUserRoleRequest "" "" "") a (fun req =>
    let role := ToLower (TrimSpace (ur_Role req)) in
    if str_eqb role "" then answer (api_error 400 "VALIDATION_ERROR")
    else if negb (assignable role) then answer (api_error 400 "VALIDATION_ERROR")
    else
      done ← outcome (Admin_UpsertUserAndAssignRole userID (ur_DisplayName req) role (assigned_by c (ur_AssignedBy req)));
      match done : Result unit with
      | inl _ => answer (api_error 500 "INTERNAL_ERROR")
      | inr _ => answer (reply 200 (BodyRole userID role (TrimSpace (ur_DisplayName req))))
      end).

Definition handleReplaceUserRoles (a : ApiRequest) (userID : string) : Handler HttpReply := fun c =>
  decoding replace_fields (mkReplaceUserRolesRequest "" [] "") a (fun req =>
    match parseRoles (rr_Roles req) with
    | None => answer (api_error 400 "VALIDATION_ERROR")
    | Some roles =>
        done ← outcome (Admin_ReplaceUserRoles userID (rr_DisplayName req) roles (assigned_by c (rr_AssignedBy req)));
        match done : Result unit with
        | inl _ => answer (api_error 500 "INTERNAL_ERROR")
        | inr _ =>
            recordAudit a c userID "iam.user.roles.replaced" [("roles", AnySlice (AnyString <$> roles))];;
            answer (reply 200 (BodyRoles userID (TrimSpace (rr_DisplayName req)) roles))
        end
    end).

Definition handleResetPassword (a : ApiRequest) (userID : string) : Handler HttpReply := fun c =>
  decoding reset_fields "" a (fun newPassword =>
    done ← outcome (lift (AdminResetPassword cfg userID newPassword));
    match done : Result unit with
    | inl e => answer (admin_error e)
    | inr _ =>
        recordAudit a c userID "auth.user.password_reset" [("mustChangePassword", AnyBool true)];;
        answer (reply 200 (BodyReset userID))
    end).

Definition handleUnlockUser (a : ApiRequest) (userID : string) : Handler HttpReply := fun c =>
  done ← outcome (lift (UnlockUser userID));
  match done : Result unit with
  | inl e => answer (admin_error e)
  | inr _ =>
      recordAudit a c userID "auth.user.unlocked" [];;
      answer (reply 200 (BodyUnlocked userID))
  end.

Definition handleUserRoute (a : ApiRequest) : Handler HttpReply := fun c =>
  let method := rq_Method (cx_request c) in
  match Split (TrimPrefix (rq_Path (cx_request c)) "/api/v1/iam/users/") (char_of 47) with
  | [id; action] =>
      let userID := TrimSpace id in
      if str_eqb userID "" then answer (api_error 404 "INTERNAL_ERROR")
      else if str_eqb action "roles" then
        if isPOST method then handleUserRoleUpsert a userID c
        else if isPUT method then handleReplaceUserRoles a userID c
        else answer MethodNotAllowed
      else if str_eqb action "reset-password" && isPOST method then handleResetPassword a userID c
      else if str_eqb action "unlock" && isPOST method then handleUnlockUser a userID c
      else answer (api_error 404 "INTERNAL_ERROR")
  | [id] =>
      let userID := TrimSpace id in
      if negb (str_eqb userID "") && isPATCH method then handlePatchUser a userID c
      else answer (api_error 404 "INTERNAL_ERROR")
  | _ => answer (api_error 404 "INTERNAL_ERROR")
  end.

(** ** [audit/delivery/http/handler.go] *)

Definition handleEvents (a : ApiRequest) : Handler HttpReply := fun c =>
  if negb (isGET (rq_Method (cx_request c))) then answer MethodNotAllowed
  else match events_query (aq_events a) with
       | None => answer (api_error 400 "VALIDATION_ERROR")
       | Some q =>
           items ← outcome (call (ReadEvents (normalize_query q)));
           match items : Result (list Event) with
           | inl _ => answer (api_error 500 "INTERNAL_ERROR")
           | inr items => answer (reply 200 (BodyEvents items))
           end
       end.

(** ** The mux, on the paths of these modules *)

Definition identity_mux (a : ApiRequest) : Handler HttpReply := fun c =>
  let path := rq_Path (cx_request c) in
  if str_eqb path "/api/v1/auth/login" then handleLogin a c
  else if str_eqb path "/api/v1/auth/logout" then handleLogout c
  else if str_eqb path "/api/v1/auth/me" then handleMe c
  else if str_eqb path "/api/v1/auth/change-password" then handleChangePassword a c
  else if str_eqb path "/api/v1/iam/users" then handleUsers a c
  else if str_eqb path "/api/v1/iam/admin/overview" then handleAdminOverview c
  else if HasPrefix path "/api/v1/iam/users/" then handleUserRoute a c
  else if str_eqb path "/api/v1/audit/events" then handleEvents a c
  else answer (reply 404 BodyNone).
End endpoints.

(** A request to these modules, from the gate to the handler. *)
Definition serve_identity `{Bcrypt} `{UrlParse} `{LetterCase} (cfg : GateConfig) (a : ApiRequest)
    : PM ProcOp (Response HttpReply) :=
  gate cfg (identity_mux (gc_auth cfg) a) (incoming (aq_request a)).
