(* ===== verification/Routes.v ===== *)
(** * Routes and their permissions

    The resolver as a table of rules, evaluated on patterns: a pattern stands
    for the paths that put an identifier for each of its wildcards, and the
    evaluation says, where it can, what the resolver answers for all of them.
    With it, the permission of every route the modules register. *)
From S2P Require Import Prelude Text AuthDomain Iam Permissions.
From Stdlib Require Import Ascii.

(** * Paths

    Request paths as segments, and what Go's tests on prefixes, suffixes and
    substrings say of the segments. *)

Definition slash : Ascii.ascii := char_of 47.

Definition slash_free (s : string) : Prop := slash ∉ chars s.

Fixpoint path_of (segs : list string) : string :=
  match segs with
  | [] => ""
  | s :: rest => String slash (s +:+ path_of rest)
  end.

(** ** Prefixes and substrings *)

Lemma prefix_cons c d p s : String.prefix (String c p) (String d s) = (if Ascii.eqb c d then String.prefix p s else false).
Proof. simpl. destruct (Ascii.ascii_dec c d) as [->|Hne]; [by rewrite Ascii.eqb_refl|by apply Ascii.eqb_neq in Hne as ->]. Qed.

Lemma slash_free_cons c s : slash_free (String c s) <-> c <> slash /\ slash_free s.
Proof.
  unfold slash_free, chars. simpl. rewrite not_elem_of_cons.
  split; intros [H1 H2]; split; congruence.
Qed.

(** A slash-free prefix of text that a path follows. *)
Lemma prefix_segment w s segs : slash_free w -> String.prefix w (s +:+ path_of segs) = String.prefix w s.
Proof.
  revert s. induction w as [|c w IH]; intros s Hw; [by destruct s, segs|].
  apply slash_free_cons in Hw as [Hc Hw]. destruct s as [|d s].
  - destruct segs as [|x segs]; [done|]. change (path_of (x :: segs)) with (String slash (x +:+ path_of segs)).
    change ("" +:+ String slash (x +:+ path_of segs)) with (String slash (x +:+ path_of segs)).
    rewrite prefix_cons. apply Ascii.eqb_neq in Hc. by rewrite Hc.
  - change (String d s +:+ path_of segs) with (String d (s +:+ path_of segs)). rewrite !prefix_cons. by rewrite IH.
Qed.

Lemma prefix_two w p s segs : slash_free w -> slash_free s ->
  String.prefix (w +:+ String slash p) (s +:+ path_of segs) = str_eqb s w && String.prefix (String slash p) (path_of segs).
Proof.
  revert s. induction w as [|c w IH]; intros s Hw Hs.
  - change ("" +:+ String slash p) with (String slash p).
    destruct s as [|d s]; [done|]. apply slash_free_cons in Hs as [Hd _].
    change (String d s +:+ path_of segs) with (String d (s +:+ path_of segs)). rewrite prefix_cons.
    apply not_eq_sym, Ascii.eqb_neq in Hd. by rewrite Hd.
  - apply slash_free_cons in Hw as [Hc Hw]. change (String c w +:+ String slash p) with (String c (w +:+ String slash p)).
    destruct s as [|d s].
    + destruct segs as [|x segs]; [done|]. change ("" +:+ path_of (x :: segs)) with (String slash (x +:+ path_of segs)).
      rewrite prefix_cons. apply Ascii.eqb_neq in Hc. by rewrite Hc.
    + apply slash_free_cons in Hs as [Hd Hs]. change (String d s +:+ path_of segs) with (String d (s +:+ path_of segs)).
      rewrite prefix_cons. destruct (Ascii.eqb_spec c d) as [->|Hne].
      * rewrite IH by done. f_equal. unfold str_eqb. apply bool_decide_ext. split; [by intros ->|by intros [= ->]].
      * assert (str_eqb (String d s) (String c w) = false) as ->; [|done]. apply str_eqb_false. congruence.
Qed.

(** Segments that continue a path: equal, but for the last, a prefix. *)
Fixpoint seg_prefix (ws segs : list string) : bool :=
  match ws, segs with
  | [], _ => true
  | _ :: _, [] => false
  | [w], s :: _ => HasPrefix s w
  | w :: ws', s :: segs' => str_eqb s w && seg_prefix ws' segs'
  end.

Fixpoint seg_contains (ws segs : list string) : bool :=
  seg_prefix ws segs || match segs with [] => false | _ :: rest => seg_contains ws rest end.

Lemma HasPrefix_path ws segs : Forall slash_free ws -> Forall slash_free segs ->
  HasPrefix (path_of segs) (path_of ws) = seg_prefix ws segs.
Proof.
  intros Hw. revert segs. unfold HasPrefix. induction Hw as [|w ws Hw Hws IH]; intros segs Hs; [by destruct segs|].
  destruct Hs as [|s segs Hs Hsegs]; [by destruct ws|].
  change (path_of (s :: segs)) with (String slash (s +:+ path_of segs)).
  change (path_of (w :: ws)) with (String slash (w +:+ path_of ws)). rewrite prefix_cons, Ascii.eqb_refl.
  destruct ws as [|v ws].
  - simpl. by rewrite string_app_nil, prefix_segment.
  - change (path_of (v :: ws)) with (String slash (v +:+ path_of ws)). rewrite prefix_two by done.
    change (String slash (v +:+ path_of ws)) with (path_of (v :: ws)). by rewrite IH.
Qed.

Lemma Contains_skip s p t : slash_free s -> Contains (s +:+ t) (String slash p) = Contains t (String slash p).
Proof.
  induction s as [|c s IH]; intros Hs; [done|]. apply slash_free_cons in Hs as [Hc Hs].
  change (String c s +:+ t) with (String c (s +:+ t)). cbn [Contains]. rewrite prefix_cons.
  apply not_eq_sym, Ascii.eqb_neq in Hc. rewrite Hc. by apply IH.
Qed.

Lemma Contains_path w ws segs : Forall slash_free (w :: ws) -> Forall slash_free segs ->
  Contains (path_of segs) (path_of (w :: ws)) = seg_contains (w :: ws) segs.
Proof.
  intros Hw Hs. pose proof (fun segs => HasPrefix_path (w :: ws) segs Hw) as Hp.
  induction Hs as [|s segs Hs Hsegs IH]; [by destruct ws|].
  specialize (Hp (s :: segs) ltac:(by constructor)).
  change (seg_contains (w :: ws) (s :: segs)) with (seg_prefix (w :: ws) (s :: segs) || seg_contains (w :: ws) segs).
  rewrite <- Hp, <- IH. change (path_of (s :: segs)) with (String slash (s +:+ path_of segs)) at 1. cbn [Contains].
  f_equal. change (path_of (w :: ws)) with (String slash (w +:+ path_of ws)). by apply Contains_skip.
Qed.

Lemma drop_chars_app p t : drop_chars (String.length p) (p +:+ t) = t.
Proof. by induction p. Qed.

(** ** Suffixes *)

Lemma prefix_true p s : String.prefix p s = true <-> exists t, s = p +:+ t.
Proof.
  split.
  - revert s. induction p as [|c p IH]; intros s; [by exists s|]. destruct s as [|d s]; [done|].
    rewrite prefix_cons. destruct (Ascii.eqb_spec c d) as [->|]; [|done]. intros [t ->]%IH. by exists t.
  - intros [t ->]. induction p as [|c p IH]; [by destruct t|]. change (String c p +:+ t) with (String c (p +:+ t)).
    by rewrite prefix_cons, Ascii.eqb_refl.
Qed.

Lemma HasSuffix_true s p : HasSuffix s p = true <-> exists t, s = t +:+ p.
Proof.
  unfold HasSuffix. rewrite prefix_true. split.
  - intros [t Ht]. exists (rev_string t). by rewrite <- (rev_string_involutive s), Ht, rev_string_app, rev_string_involutive.
  - intros [t ->]. exists (rev_string t). apply rev_string_app.
Qed.

Lemma path_of_app l k : path_of (l ++ k) = path_of l +:+ path_of k.
Proof.
  induction l as [|s l IH]; [done|].
  change (String slash (s +:+ path_of (l ++ k)) = String slash ((s +:+ path_of l) +:+ path_of k)).
  by rewrite IH, string_app_assoc.
Qed.

Lemma Split_app_slash s t : Split (s +:+ String slash t) slash = Split s slash ++ Split t slash.
Proof.
  induction s as [|c s IH]; [done|]. change (String c s +:+ String slash t) with (String c (s +:+ String slash t)).
  simpl. rewrite IH. destruct (Ascii.eqb c slash); [done|].
  destruct (Split s slash) as [|q qs] eqn:Hq; [by destruct (Split_not_nil s slash)|done].
Qed.

Lemma Split_path segs : Forall slash_free segs -> Split (path_of segs) slash = "" :: segs.
Proof.
  intros Hs. assert (forall s, slash_free s -> Split (s +:+ path_of segs) slash = s :: segs) as Hgen.
  { induction Hs as [|x segs Hx _ IH]; intros s Hs; [rewrite string_app_nil; by apply Split_none|].
    change (path_of (x :: segs)) with (String slash (x +:+ path_of segs)).
    by rewrite Split_app_slash, (Split_none s), IH. }
  apply (Hgen ""). apply not_elem_of_nil.
Qed.

Lemma Split_one s c b : Split s c = [b] -> s = b /\ c ∉ chars s.
Proof.
  revert b. induction s as [|d s IH]; intros b; simpl.
  { intros [= <-]. split; [done|apply not_elem_of_nil]. }
  destruct (Ascii.eqb_spec d c) as [->|Hne]; [intros [= _ H]; by destruct (Split_not_nil s c)|].
  destruct (Split s c) as [|q qs] eqn:Hs; [by destruct (Split_not_nil s c)|].
  intros [= <- ->]. destruct (IH q eq_refl) as [-> Hc]. split; [done|].
  by intros [->|H]%elem_of_cons.
Qed.

Definition ends_with (ws segs : list string) : bool :=
  Nat.leb (length ws) (length segs) && bool_decide (drop (length segs - length ws) segs = ws).

Lemma HasSuffix_path w ws segs : Forall slash_free (w :: ws) -> Forall slash_free segs ->
  HasSuffix (path_of segs) (path_of (w :: ws)) = ends_with (w :: ws) segs.
Proof.
  intros Hw Hs. apply eq_true_iff_eq. rewrite HasSuffix_true. unfold ends_with.
  rewrite andb_true_iff, Nat.leb_le, bool_decide_eq_true. split.
  - intros [t Ht]. pose proof (Split_path segs Hs) as Hsplit. rewrite Ht in Hsplit.
    change (path_of (w :: ws)) with (String slash (w +:+ path_of ws)) in Hsplit.
    rewrite Split_app_slash in Hsplit.
    assert (Split (w +:+ path_of ws) slash = w :: ws) as Hws.
    { pose proof (Split_path (w :: ws) Hw) as H0. change (path_of (w :: ws)) with ("" +:+ String slash (w +:+ path_of ws)) in H0.
      rewrite Split_app_slash in H0. by injection H0. }
    rewrite Hws in Hsplit. destruct (Split t slash) as [|q qs] eqn:Hq; [by destruct (Split_not_nil t slash)|].
    injection Hsplit as _ Hsegs. rewrite <- Hsegs. rewrite length_app. split; [lia|].
    rewrite drop_app_length'; [done|lia].
  - intros [Hlen Hd]. exists (path_of (take (length segs - length (w :: ws)) segs)).
    rewrite <- path_of_app. f_equal. rewrite <- Hd at 2. symmetry. apply take_drop.
Qed.

(** ** Identifiers in paths *)

(** The characters of a UUID. *)
Definition uuid_char (c : Ascii.ascii) : bool :=
  let n := Ascii.nat_of_ascii c in
  (Nat.leb 48 n && Nat.leb n 57 || Nat.leb 97 n && Nat.leb n 102 || Nat.eqb n 45)%bool.

Definition opaque (id : string) : bool := negb (str_eqb id "") && forallb uuid_char (chars id).

Lemma opaque_slash_free id : opaque id = true -> slash_free id.
Proof.
  unfold opaque, slash_free. intros [_ Hid]%andb_true_iff Hs. rewrite forallb_forall in Hid.
  apply list_elem_of_In, Hid in Hs. done.
Qed.

Lemma opaque_prefix w id : opaque id = true -> HasPrefix id w = true -> forallb uuid_char (chars w) = true.
Proof.
  unfold opaque, HasPrefix. intros [_ Hid]%andb_true_iff [t ->]%prefix_true. unfold chars in Hid.
  rewrite list_ascii_app, forallb_app in Hid. by apply andb_true_iff in Hid as [? _].
Qed.

(** ** Tests on a request *)

Inductive Test :=
  | TMethod (m : string)
  | TEq (s : string)
  | TPrefix (s : string)
  | TSuffix (s : string)
  | TContains (s : string)
  | TNot (t : Test)
  | TAnd (t u : Test)
  | TOr (t u : Test).

Fixpoint holds (method path : string) (t : Test) : bool :=
  match t with
  | TMethod m => str_eqb method m
  | TEq s => str_eqb path s
  | TPrefix s => HasPrefix path s
  | TSuffix s => HasSuffix path s
  | TContains s => Contains path s
  | TNot t => negb (holds method path t)
  | TAnd t u => holds method path t && holds method path u
  | TOr t u => holds method path t || holds method path u
  end.

Fixpoint first_match (method path : string) (rules : list (Test * option Permission)) : option Permission :=
  match rules with
  | [] => None
  | (t, perm) :: rest => if holds method path t then perm else first_match method path rest
  end.

Definition resolver_rules : list (Test * option Permission) :=
  [(TEq "/api/v1/metrics", Some PermIAMManageRoles);
   (TOr (TEq "/api/v1/health/live") (TEq "/api/v1/health/ready"), None);
   (TPrefix "/api/v1/auth/", None);
   (TAnd (TMethod "GET") (TEq "/api/v1/feature-flags"), None);
   (TAnd (TMethod "POST") (TEq "/api/v1/documents"), Some PermDocumentCreate);
   (TAnd (TAnd (TMethod "POST") (TPrefix "/api/v1/documents/")) (TSuffix "/attachments"), Some PermDocumentUploadAttachment);
   (TAnd (TMethod "GET") (TEq "/api/v1/documents"), Some PermDocumentRead);
   (TAnd (TMethod "GET") (TEq "/api/v1/document-types"), Some PermDocumentRead);
   (TAnd (TMethod "GET") (TEq "/api/v1/document-templates"), Some PermDocumentRead);
   (TAnd (TAnd (TMethod "GET") (TPrefix "/api/v1/documents/")) (TNot (TSuffix "/versions")), Some PermDocumentRead);
   (TAnd (TAnd (TMethod "POST") (TPrefix "/api/v1/documents/")) (TSuffix "/submit-for-approval"), Some PermWorkflowTransition);
   (TAnd (TAnd (TMethod "PUT") (TPrefix "/api/v1/documents/")) (TSuffix "/content"), Some PermDocumentEdit);
   (TAnd (TAnd (TMethod "POST") (TPrefix "/api/v1/documents/")) (TSuffix "/content/browser"), Some PermDocumentEdit);
   (TAnd (TAnd (TMethod "PUT") (TPrefix "/api/v1/documents/")) (TSuffix "/template-assignment"), Some PermDocumentEdit);
   (TAnd (TAnd (TMethod "POST") (TPrefix "/api/v1/documents/")) (TSuffix "/versions"), Some PermDocumentEdit);
   (TAnd (TAnd (TMethod "POST") (TPrefix "/api/v1/documents/")) (TSuffix "/export/docx"), Some PermDocumentRead);
   (TAnd (TMethod "GET") (TEq "/api/v1/search/documents"), Some PermSearchRead);
   (TAnd (TMethod "GET") (TEq "/api/v1/notifications"), Some PermDocumentRead);
   (TAnd (TAnd (TMethod "POST") (TPrefix "/api/v1/notifications/")) (TSuffix "/read"), Some PermDocumentRead);
   (TAnd (TAnd (TMethod "GET") (TPrefix "/api/v1/documents/")) (TContains "/versions/diff"), Some PermVersionRead);
   (TAnd (TOr (TMethod "GET") (TMethod "PUT")) (TEq "/api/v1/access-policies"), Some PermDocumentManagePermissions);
   (TAnd (TAnd (TMethod "GET") (TPrefix "/api/v1/documents/")) (TSuffix "/versions"), Some PermVersionRead);
   (TAnd (TAnd (TMethod "POST") (TPrefix "/api/v1/workflow/documents/")) (TSuffix "/transitions"), Some PermWorkflowTransition);
   (TAnd (TAnd (TMethod "GET") (TPrefix "/api/v1/workflow/documents/")) (TSuffix "/approvals"), Some PermDocumentRead);
   (TAnd (TMethod "POST") (TEq "/api/v1/iam/users"), Some PermIAMManageRoles);
   (TAnd (TMethod "GET") (TEq "/api/v1/iam/users"), Some PermIAMManageRoles);
   (TAnd (TAnd (TMethod "PATCH") (TPrefix "/api/v1/iam/users/")) (TNot (TSuffix "/roles")), Some PermIAMManageRoles);
   (TAnd (TAnd (TMethod "POST") (TPrefix "/api/v1/iam/users/")) (TSuffix "/roles"), Some PermIAMManageRoles);
   (TAnd (TAnd (TMethod "PUT") (TPrefix "/api/v1/iam/users/")) (TSuffix "/roles"), Some PermIAMManageRoles);
   (TAnd (TAnd (TMethod "POST") (TPrefix "/api/v1/iam/users/")) (TSuffix "/reset-password"), Some PermIAMManageRoles);
   (TAnd (TAnd (TMethod "POST") (TPrefix "/api/v1/iam/users/")) (TSuffix "/unlock"), Some PermIAMManageRoles);
   (TAnd (TMethod "GET") (TEq "/api/v1/iam/admin/overview"), Some PermIAMManageRoles);
   (TOr (TEq "/api/v1/templates") (TPrefix "/api/v1/templates/"), Some PermTemplateView);
   (TAnd (TPrefix "/api/v2/templates") (TMethod "GET"), Some PermTemplateView);
   (TAnd (TAnd (TPrefix "/api/v2/templates") (TMethod "POST")) (TEq "/api/v2/templates"), Some PermTemplateEdit);
   (TAnd (TAnd (TPrefix "/api/v2/templates") (TMethod "PUT")) (TSuffix "/draft"), Some PermTemplateEdit);
   (TAnd (TAnd (TPrefix "/api/v2/templates") (TMethod "POST")) (TSuffix "/publish"), Some PermTemplatePublish);
   (TAnd (TAnd (TPrefix "/api/v2/templates") (TMethod "POST")) (TSuffix "/docx-upload-url"), Some PermTemplateEdit);
   (TAnd (TAnd (TPrefix "/api/v2/templates") (TMethod "POST")) (TSuffix "/schema-upload-url"), Some PermTemplateEdit);
   (TAnd (TAnd (TPrefix "/api/v2/templates") (TMethod "POST")) (TSuffix "/submit"), Some PermTemplateEdit);
   (TAnd (TAnd (TPrefix "/api/v2/templates") (TMethod "POST")) (TSuffix "/review"), Some PermTemplatePublish);
   (TAnd (TAnd (TPrefix "/api/v2/templates") (TMethod "POST")) (TSuffix "/approve"), Some PermTemplatePublish);
   (TAnd (TAnd (TPrefix "/api/v2/templates") (TMethod "POST")) (TSuffix "/approval-config"), Some PermTemplateEdit);
   (TAnd (TPrefix "/api/v2/documents") (TMethod "GET"), Some PermDocumentRead);
   (TAnd (TAnd (TPrefix "/api/v2/documents") (TMethod "POST")) (TEq "/api/v2/documents"), Some PermDocumentCreate);
   (TAnd (TAnd (TPrefix "/api/v2/documents") (TMethod "POST")) (TSuffix "/finalize"), Some PermWorkflowTransition);
   (TAnd (TAnd (TPrefix "/api/v2/documents") (TMethod "POST")) (TSuffix "/archive"), Some PermDocumentEdit);
   (TAnd (TAnd (TPrefix "/api/v2/documents") (TMethod "POST")) (TContains "/session/force-release"), Some PermDocumentManagePermissions);
   (TAnd (TAnd (TPrefix "/api/v2/documents") (TMethod "POST")) (TContains "/session/"), Some PermDocumentEdit);
   (TAnd (TAnd (TPrefix "/api/v2/documents") (TMethod "POST")) (TContains "/autosave/"), Some PermDocumentEdit);
   (TAnd (TAnd (TAnd (TPrefix "/api/v2/documents") (TMethod "POST")) (TContains "/checkpoints/")) (TSuffix "/restore"), Some PermDocumentEdit);
   (TAnd (TAnd (TPrefix "/api/v2/documents") (TMethod "POST")) (TContains "/checkpoints"), Some PermDocumentEdit);
   (TAnd (TAnd (TPrefix "/api/v2/documents") (TMethod "POST")) (TSuffix "/export/pdf"), Some PermDocumentRead);
   (TAnd (TAnd (TPrefix "/api/v2/documents") (TMethod "PUT")) (TContains "/placeholders/"), Some PermDocumentEdit);
   (TAnd (TPrefix "/api/v2/documents") (TMethod "PATCH"), Some PermDocumentEdit);
   (TAnd (TAnd (TPrefix "/api/v2/documents") (TMethod "POST")) (TSuffix "/submit"), Some PermWorkflowTransition);
   (TAnd (TAnd (TPrefix "/api/v2/documents") (TMethod "POST")) (TSuffix "/signoff"), Some PermWorkflowTransition);
   (TAnd (TAnd (TPrefix "/api/v2/documents") (TMethod "POST")) (TSuffix "/cancel"), Some PermWorkflowTransition);
   (TAnd (TAnd (TPrefix "/api/v2/documents") (TMethod "GET")) (TSuffix "/approval-instance"), Some PermDocumentRead);
   (TAnd (TAnd (TPrefix "/api/v2/documents") (TMethod "POST")) (TSuffix "/reconstruct"), Some PermDocumentEdit);
   (TAnd (TPrefix "/api/v2/taxonomy/profiles") (TMethod "GET"), Some PermDocumentRead);
   (TAnd (TPrefix "/api/v2/taxonomy/profiles") (TOr (TOr (TOr (TMethod "POST") (TMethod "PATCH")) (TMethod "PUT")) (TMethod "DELETE")), Some PermIAMManageRoles);
   (TAnd (TPrefix "/api/v2/taxonomy/areas") (TMethod "GET"), Some PermDocumentRead);
   (TAnd (TPrefix "/api/v2/taxonomy/areas") (TOr (TOr (TMethod "POST") (TMethod "PUT")) (TMethod "DELETE")), Some PermIAMManageRoles);
   (TAnd (TPrefix "/api/v2/controlled-documents") (TMethod "GET"), Some PermDocumentRead);
   (TAnd (TAnd (TPrefix "/api/v2/controlled-documents") (TMethod "POST")) (TEq "/api/v2/controlled-documents"), Some PermDocumentCreate);
   (TAnd (TAnd (TPrefix "/api/v2/controlled-documents") (TMethod "PUT")) (TSuffix "/obsolete"), Some PermDocumentEdit);
   (TAnd (TAnd (TPrefix "/api/v2/controlled-documents") (TMethod "PUT")) (TSuffix "/supersede"), Some PermDocumentEdit);
   (TPrefix "/api/v2/iam/area-memberships", Some PermIAMManageRoles);
   (TAnd (TMethod "GET") (TEq "/api/v2/signed"), Some PermTemplateView);
   (TAnd (TPrefix "/api/v2/approval/") (TMethod "GET"), Some PermDocumentRead);
   (TAnd (TPrefix "/api/v2/approval/") (TOr (TOr (TMethod "POST") (TMethod "PUT")) (TMethod "DELETE")), Some PermWorkflowTransition)].

Lemma resolver_is_rules method path : newPermissionResolver method path = first_match method path resolver_rules.
Proof. reflexivity. Qed.

(** ** Patterns *)

(** A segment: itself, an identifier (the characters of a UUID), or any text
    without a slash that is none of some words. *)
Inductive Seg := Lit (s : string) | Id | Other (words : list string).

Definition stands_for (g : Seg) (x : string) : Prop :=
  match g with
  | Lit s => x = s
  | Id => opaque x = true
  | Other words => x <> "" /\ slash_free x /\ x ∉ words
  end.

Definition seg_ok (g : Seg) : bool := match g with Lit s => bool_decide (slash ∉ chars s) | _ => true end.

Lemma stands_slash_free g x : seg_ok g = true -> stands_for g x -> slash_free x.
Proof.
  destruct g as [s| |words]; simpl; [|intros _; apply opaque_slash_free|by intros _ (_ & ? & _)].
  by intros Hs%bool_decide_eq_true ->.
Qed.

(** Three values: known to hold, known to fail, unknown. *)
Definition and3 (a b : option bool) : option bool :=
  match a, b with
  | Some false, _ | _, Some false => Some false
  | Some true, Some true => Some true
  | _, _ => None
  end.
Definition or3 (a b : option bool) : option bool :=
  match a, b with
  | Some true, _ | _, Some true => Some true
  | Some false, Some false => Some false
  | _, _ => None
  end.

Definition knows (o : option bool) (b : bool) : Prop := forall x, o = Some x -> b = x.

Lemma knows_and a b x y : knows a x -> knows b y -> knows (and3 a b) (x && y).
Proof.
  unfold knows. intros Ha Hb z. destruct a as [[]|], b as [[]|]; simpl; intros [= <-];
    rewrite ?(Ha _ eq_refl), ?(Hb _ eq_refl), ?andb_false_r; done.
Qed.

Lemma knows_or a b x y : knows a x -> knows b y -> knows (or3 a b) (x || y).
Proof.
  unfold knows. intros Ha Hb z. destruct a as [[]|], b as [[]|]; simpl; intros [= <-];
    rewrite ?(Ha _ eq_refl), ?(Hb _ eq_refl), ?orb_true_r; done.
Qed.

Definition seg_eq3 (g : Seg) (w : string) : option bool :=
  match g with
  | Lit s => Some (str_eqb s w)
  | Id => if opaque w then None else Some false
  | Other words => if str_eqb w "" || bool_decide (w ∈ words) then Some false else None
  end.

Definition seg_prefix3 (g : Seg) (w : string) : option bool :=
  match g with
  | Lit s => Some (HasPrefix s w)
  | Id => if str_eqb w "" then Some true else if forallb uuid_char (chars w) then None else Some false
  | Other _ => if str_eqb w "" then Some true else None
  end.

Fixpoint eq3 (pat : list Seg) (ws : list string) : option bool :=
  match pat, ws with
  | [], [] => Some true
  | g :: pat, w :: ws => and3 (seg_eq3 g w) (eq3 pat ws)
  | _, _ => Some false
  end.

Fixpoint prefix3 (ws : list string) (pat : list Seg) : option bool :=
  match ws, pat with
  | [], _ => Some true
  | _ :: _, [] => Some false
  | [w], g :: _ => seg_prefix3 g w
  | w :: ws', g :: pat' => and3 (seg_eq3 g w) (prefix3 ws' pat')
  end.

Fixpoint contains3 (ws : list string) (pat : list Seg) : option bool :=
  or3 (prefix3 ws pat) (match pat with [] => Some false | _ :: rest => contains3 ws rest end).

Definition ends3 (ws : list string) (pat : list Seg) : option bool :=
  if Nat.leb (length ws) (length pat) then eq3 (drop (length pat - length ws) pat) ws else Some false.

(** The segments of a path written in a rule. *)
Definition segs_of (s : string) : list string := tail (Split s slash).

Fixpoint holds3 (method : string) (pat : list Seg) (t : Test) : option bool :=
  match t with
  | TMethod m => Some (str_eqb method m)
  | TEq s => eq3 pat (segs_of s)
  | TPrefix s => prefix3 (segs_of s) pat
  | TSuffix s => ends3 (segs_of s) pat
  | TContains s => contains3 (segs_of s) pat
  | TNot t => negb <$> holds3 method pat t
  | TAnd t u => and3 (holds3 method pat t) (holds3 method pat u)
  | TOr t u => or3 (holds3 method pat t) (holds3 method pat u)
  end.

(** [None] when some test that matters is unknown. *)
Fixpoint first3 (method : string) (pat : list Seg) (rules : list (Test * option Permission))
    : option (option Permission) :=
  match rules with
  | [] => Some None
  | (t, perm) :: rest =>
      match holds3 method pat t with
      | Some true => Some perm
      | Some false => first3 method pat rest
      | None => None
      end
  end.

(** ** The evaluation is right *)

Definition literal_ok (s : string) : bool :=
  match segs_of s with [] => false | _ => true end && str_eqb (path_of (segs_of s)) s
  && forallb (fun w => bool_decide (slash ∉ chars w)) (segs_of s).

Fixpoint test_ok (t : Test) : bool :=
  match t with
  | TMethod _ => true
  | TEq s | TPrefix s | TSuffix s | TContains s => literal_ok s
  | TNot t => test_ok t
  | TAnd t u | TOr t u => test_ok t && test_ok u
  end.

Lemma knows_seg_eq g x w : stands_for g x -> knows (seg_eq3 g w) (str_eqb x w).
Proof.
  intros Hg z. destruct g as [s| |words]; simpl in *.
  - subst. by intros [= <-].
  - destruct (opaque w) eqn:Hw; [done|]. intros [= <-]. apply str_eqb_false. congruence.
  - destruct Hg as (Hne & _ & Hnot). destruct (str_eqb w "" || bool_decide (w ∈ words)) eqn:Hw; [|done].
    intros [= <-]. apply str_eqb_false. intros ->. apply orb_true_iff in Hw as [Hw|Hw]; [by apply str_eqb_true in Hw|].
    by apply bool_decide_eq_true in Hw.
Qed.

Lemma knows_seg_prefix g x w : stands_for g x -> knows (seg_prefix3 g w) (HasPrefix x w).
Proof.
  intros Hg z. assert (w = "" -> HasPrefix x w = true) as Hempty by (intros ->; by destruct x).
  destruct g as [s| |words]; simpl in *.
  - subst. by intros [= <-].
  - destruct (str_eqb w "") eqn:He; [apply str_eqb_true in He; intros [= <-]; auto|].
    destruct (forallb uuid_char (chars w)) eqn:Hw; [done|]. intros [= <-].
    apply not_true_iff_false. intros Hp. pose proof (opaque_prefix w x Hg Hp). congruence.
  - destruct (str_eqb w "") eqn:He; [|done]. apply str_eqb_true in He. intros [= <-]. auto.
Qed.

Lemma knows_eq pat xs ws : Forall2 stands_for pat xs -> knows (eq3 pat ws) (bool_decide (xs = ws)).
Proof.
  intros HF. revert ws. induction HF as [|g x pat xs Hg _ IH]; intros [|w ws]; simpl; try (by intros z [= <-]).
  assert (bool_decide (x :: xs = w :: ws) = str_eqb x w && bool_decide (xs = ws)) as ->.
  { unfold str_eqb. rewrite <- bool_decide_and. apply bool_decide_ext. split; [by intros [= -> ->]|by intros [-> ->]]. }
  apply knows_and; [by apply knows_seg_eq|apply IH].
Qed.

Lemma knows_prefix ws pat xs : Forall2 stands_for pat xs -> knows (prefix3 ws pat) (seg_prefix ws xs).
Proof.
  intros HF. revert ws. induction HF as [|g x pat xs Hg _ IH]; intros ws.
  - destruct ws as [|w [|v ws]]; by intros z [= <-].
  - destruct ws as [|w [|v ws]]; [by intros z [= <-]|by apply knows_seg_prefix|].
    apply knows_and; [by apply knows_seg_eq|exact (IH (v :: ws))].
Qed.

Lemma knows_contains ws pat xs : Forall2 stands_for pat xs -> knows (contains3 ws pat) (seg_contains ws xs).
Proof.
  intros HF. pose proof (knows_prefix ws _ _ HF) as Hp. revert Hp.
  induction HF as [|g x pat xs Hg HF IH]; intros Hp; (apply knows_or; [exact Hp|]); [by intros z [= <-]|].
  apply IH. by apply knows_prefix.
Qed.

Lemma knows_ends ws pat xs : Forall2 stands_for pat xs -> knows (ends3 ws pat) (ends_with ws xs).
Proof.
  intros HF. unfold ends3, ends_with. rewrite (Forall2_length _ _ _ HF).
  destruct (Nat.leb (length ws) (length xs)); [|by intros z [= <-]]. apply knows_eq. by apply Forall2_drop.
Qed.

Lemma instance_slash_free pat xs :
  forallb seg_ok pat = true -> Forall2 stands_for pat xs -> Forall slash_free xs.
Proof.
  intros Hok HF. induction HF as [|g x p l Hg _ IH]; [constructor|]. simpl in Hok.
  apply andb_true_iff in Hok as [Hg' Hp]. constructor; [by eapply stands_slash_free|by apply IH].
Qed.

Section sound.
Context (method : string) (pat : list Seg) (xs : list string).
Hypothesis pat_ok : forallb seg_ok pat = true.
Hypothesis instance : Forall2 stands_for pat xs.

Lemma literal_path s : literal_ok s = true ->
  exists w ws, segs_of s = w :: ws /\ path_of (w :: ws) = s /\ Forall slash_free (w :: ws).
Proof.
  unfold literal_ok. destruct (segs_of s) as [|w ws]; [done|]. intros [[_ Hp]%andb_true_iff Hs]%andb_true_iff.
  exists w, ws. split_and!; [done|by apply str_eqb_true in Hp|]. rewrite forallb_forall in Hs.
  apply Forall_forall. intros x Hx. apply list_elem_of_In, Hs, bool_decide_eq_true in Hx. exact Hx.
Qed.

Lemma knows_holds t : test_ok t = true -> knows (holds3 method pat t) (holds method (path_of xs) t).
Proof.
  pose proof (instance_slash_free _ _ pat_ok instance) as Hxs.
  induction t as [m|s|s|s|s|t IH|t IHt u IHu|t IHt u IHu]; simpl.
  - by intros _ z [= <-].
  - intros (w & ws & Hs & Hp & Hws)%literal_path. rewrite Hs.
    assert (str_eqb (path_of xs) s = bool_decide (xs = w :: ws)) as ->; [|by apply knows_eq].
    apply bool_decide_ext. rewrite <- Hp. split; [|by intros ->]. intros He%(f_equal (fun p => Split p slash)).
    rewrite !Split_path in He by done. by injection He.
  - intros (w & ws & Hs & Hp & Hws)%literal_path. rewrite Hs, <- Hp, HasPrefix_path by done. by apply knows_prefix.
  - intros (w & ws & Hs & Hp & Hws)%literal_path. rewrite Hs, <- Hp, HasSuffix_path by done. by apply knows_ends.
  - intros (w & ws & Hs & Hp & Hws)%literal_path. rewrite Hs, <- Hp, Contains_path by done. by apply knows_contains.
  - intros Ht z. destruct (holds3 method pat t) as [b|] eqn:Hb; [|done]. intros [= <-]. f_equal. by apply IH.
  - intros [Ht Hu]%andb_true_iff. apply knows_and; auto.
  - intros [Ht Hu]%andb_true_iff. apply knows_or; auto.
Qed.

Lemma first3_sound rules perm :
  forallb (fun e => test_ok e.1) rules = true -> first3 method pat rules = Some perm ->
  first_match method (path_of xs) rules = perm.
Proof.
  induction rules as [|[t p] rules IH]; simpl; [by intros _ [= <-]|]. intros [Ht Hr]%andb_true_iff.
  pose proof (knows_holds t Ht) as Hk. destruct (holds3 method pat t) as [[]|]; [| |done];
    rewrite (Hk _ eq_refl); [by intros [= <-]|by apply IH].
Qed.
End sound.

Lemma resolver_rules_ok : forallb (fun e => test_ok e.1) resolver_rules = true.
Proof. vm_compute. exact eq_refl. Qed.

(** What the resolver answers for every path of a pattern. *)
Lemma resolve_pattern method pat xs perm :
  forallb seg_ok pat = true -> Forall2 stands_for pat xs -> first3 method pat resolver_rules = Some perm ->
  newPermissionResolver method (path_of xs) = perm.
Proof. intros Hok Hpat Hf. rewrite resolver_is_rules. by apply (first3_sound method pat xs Hok Hpat _ _ resolver_rules_ok). Qed.

(** ** Access *)

(** What a request needs: nothing, a session, or a user with a permission. *)
Inductive Access := Public | SessionOnly | Needs (p : Permission).

#[export] Instance Access_eq_dec : EqDecision Access.
Proof. solve_decision. Defined.

Definition access (method path : string) : Access :=
  if newPublicPathChecker newPermissionResolver method path then Public
  else match newPermissionResolver method path with Some p => Needs p | None => SessionOnly end.

Definition session_rules : list (Test * option Permission) :=
  [(TAnd (TMethod "GET") (TEq "/api/v1/auth/me"), Some "");
   (TAnd (TMethod "POST") (TEq "/api/v1/auth/change-password"), Some "");
   (TPrefix "/api/v2/", Some "")].

Lemma session_is_rules method path :
  requiresSessionButNoPermission method path
  = match first_match method path session_rules with Some _ => true | None => false end.
Proof.
  unfold requiresSessionButNoPermission, isGET, isPOST. simpl.
  by repeat case_match.
Qed.

Definition access3 (method : string) (pat : list Seg) : option Access :=
  match first3 method pat session_rules, first3 method pat resolver_rules with
  | Some _, Some (Some p) => Some (Needs p)
  | Some (Some _), Some None => Some SessionOnly
  | Some None, Some None => Some Public
  | _, _ => None
  end.

Lemma session_rules_ok : forallb (fun e => test_ok e.1) session_rules = true.
Proof. vm_compute. exact eq_refl. Qed.

Lemma access_pattern method pat xs a :
  forallb seg_ok pat = true -> Forall2 stands_for pat xs -> access3 method pat = Some a ->
  access method (path_of xs) = a.
Proof.
  intros Hok Hpat. unfold access3, access, newPublicPathChecker.
  rewrite session_is_rules, resolver_is_rules.
  destruct (first3 method pat session_rules) as [s|] eqn:Hs; [|done].
  destruct (first3 method pat resolver_rules) as [r|] eqn:Hr; [|by destruct s].
  rewrite (first3_sound method pat xs Hok Hpat _ s session_rules_ok Hs).
  rewrite (first3_sound method pat xs Hok Hpat _ r resolver_rules_ok Hr).
  by destruct s, r; intros [= <-].
Qed.

(** A route as the code writes it: the method, and the path with its
    wildcards in braces. Codes and placeholders are free text, the others
    identifiers. *)
Definition seg_of (s : string) : Seg :=
  if HasPrefix s "{" then
    if bool_decide (s ∈ ["{code}"; "{pid}"]) then Other [] else Id
  else Lit s.

Definition route_of (route : string) : string * list Seg :=
  match Split route (char_of 32) with
  | [method; path] => (method, seg_of <$> segs_of path)
  | _ => ("", [])
  end.

Definition known_access (route : string) : option Access :=
  let '(method, pat) := route_of route in
  if forallb seg_ok pat then access3 method pat else None.

(** ** The routes of the modules, in the order they are registered; of a legacy
    route, the requests its handler serves *)

(** [documents_v2/delivery/http/handler.go] *)
Definition documents_routes : list (string * Access) :=
  [("GET /api/v2/documents", Needs PermDocumentRead);
   ("POST /api/v2/documents", Needs PermDocumentCreate);
   ("GET /api/v2/documents/{id}", Needs PermDocumentRead);
   ("PATCH /api/v2/documents/{id}", Needs PermDocumentEdit);
   ("POST /api/v2/documents/{id}/finalize", Needs PermWorkflowTransition);
   ("POST /api/v2/documents/{id}/archive", Needs PermDocumentEdit);
   ("POST /api/v2/documents/{id}/duplicate", SessionOnly);
   ("POST /api/v2/documents/{id}/session/acquire", Needs PermDocumentEdit);
   ("POST /api/v2/documents/{id}/session/heartbeat", Needs PermDocumentEdit);
   ("POST /api/v2/documents/{id}/session/release", Needs PermDocumentEdit);
   ("POST /api/v2/documents/{id}/session/force-release", Needs PermDocumentManagePermissions);
   ("POST /api/v2/documents/{id}/autosave/presign", Needs PermDocumentEdit);
   ("POST /api/v2/documents/{id}/autosave/commit", Needs PermDocumentEdit);
   ("GET /api/v2/documents/{id}/checkpoints", Needs PermDocumentRead);
   ("POST /api/v2/documents/{id}/checkpoints", Needs PermDocumentEdit);
   ("POST /api/v2/documents/{id}/checkpoints/{version}/restore", Needs PermDocumentEdit);
   ("GET /api/v2/documents/{id}/revisions/{rid}/url", Needs PermDocumentRead);
   ("GET /api/v2/documents/{id}/comments", Needs PermDocumentRead);
   ("POST /api/v2/documents/{id}/comments", SessionOnly);
   ("PATCH /api/v2/documents/{id}/comments/{libraryID}", Needs PermDocumentEdit);
   ("DELETE /api/v2/documents/{id}/comments/{libraryID}", SessionOnly)].

(** [documents_v2/delivery/http/export_handler.go] *)
Definition export_routes : list (string * Access) :=
  [("POST /api/v2/documents/{id}/export/pdf", Needs PermDocumentRead);
   ("GET /api/v2/documents/{id}/export/docx-url", Needs PermDocumentRead)].

(** [documents_v2/http/fillin_handler.go] *)
Definition fillin_routes : list (string * Access) :=
  [("GET /api/v2/documents/{id}/fill-in-schema", Needs PermDocumentRead);
   ("GET /api/v2/documents/{id}/placeholders", Needs PermDocumentRead);
   ("PUT /api/v2/documents/{id}/placeholders/{pid}", Needs PermDocumentEdit)].

(** [documents_v2/http/view_handler.go] *)
Definition view_routes : list (string * Access) :=
  [("GET /api/v2/documents/{id}/view", Needs PermDocumentRead)].

(** [documents_v2/http/reconstruct_handler.go] *)
Definition reconstruct_routes : list (string * Access) :=
  [("POST /api/v2/documents/{id}/reconstruct", Needs PermDocumentEdit)].

(** [documents_v2/approval/http/router.go] *)
Definition approval_routes : list (string * Access) :=
  [("POST /api/v2/documents/{id}/submit", Needs PermWorkflowTransition);
   ("POST /api/v2/approval/instances/{instance_id}/stages/{stage_id}/signoffs", Needs PermWorkflowTransition);
   ("POST /api/v2/documents/{id}/publish", SessionOnly);
   ("POST /api/v2/documents/{id}/schedule-publish", SessionOnly);
   ("POST /api/v2/documents/{id}/supersede", SessionOnly);
   ("POST /api/v2/documents/{id}/obsolete", SessionOnly);
   ("POST /api/v2/approval/instances/{instance_id}/cancel", Needs PermWorkflowTransition);
   ("GET /api/v2/approval/instances/{instance_id}", Needs PermDocumentRead);
   ("GET /api/v2/documents/{id}/approval-instance", Needs PermDocumentRead);
   ("GET /api/v2/approval/inbox", Needs PermDocumentRead);
   ("POST /api/v2/documents/{id}/signoff", Needs PermWorkflowTransition);
   ("POST /api/v2/documents/{id}/cancel", Needs PermWorkflowTransition);
   ("POST /api/v2/approval/routes", Needs PermWorkflowTransition);
   ("PUT /api/v2/approval/routes/{id}", Needs PermWorkflowTransition);
   ("DELETE /api/v2/approval/routes/{id}", Needs PermWorkflowTransition);
   ("GET /api/v2/approval/routes", Needs PermDocumentRead)].

(** [templates_v2/delivery/http/handler.go] *)
Definition templates_routes : list (string * Access) :=
  [("POST /api/v2/templates", Needs PermTemplateEdit);
   ("POST /api/v2/templates/{id}/versions", SessionOnly);
   ("PUT /api/v2/templates/{id}/versions/{n}/schema", SessionOnly);
   ("POST /api/v2/templates/{id}/versions/{n}/autosave/presign", SessionOnly);
   ("POST /api/v2/templates/{id}/versions/{n}/autosave/commit", SessionOnly);
   ("POST /api/v2/templates/{id}/versions/{n}/submit", Needs PermTemplateEdit);
   ("POST /api/v2/templates/{id}/versions/{n}/review", Needs PermTemplatePublish);
   ("POST /api/v2/templates/{id}/versions/{n}/approve", Needs PermTemplatePublish);
   ("POST /api/v2/templates/{id}/archive", SessionOnly);
   ("PUT /api/v2/templates/{id}/approval-config", SessionOnly);
   ("GET /api/v2/templates", Needs PermTemplateView);
   ("GET /api/v2/templates/{id}", Needs PermTemplateView);
   ("GET /api/v2/templates/{id}/versions/{n}", Needs PermTemplateView);
   ("GET /api/v2/templates/{id}/versions/{n}/docx-url", Needs PermTemplateView);
   ("GET /api/v2/templates/{id}/audit", Needs PermTemplateView);
   ("GET /api/v2/templates/v2/placeholder-catalog", Needs PermTemplateView)].

(** [taxonomy/delivery/http/handler.go] *)
Definition taxonomy_routes : list (string * Access) :=
  [("GET /api/v2/taxonomy/profiles", Needs PermDocumentRead);
   ("POST /api/v2/taxonomy/profiles", Needs PermIAMManageRoles);
   ("GET /api/v2/taxonomy/profiles/{code}", Needs PermDocumentRead);
   ("PATCH /api/v2/taxonomy/profiles/{code}", Needs PermIAMManageRoles);
   ("DELETE /api/v2/taxonomy/profiles/{code}", Needs PermIAMManageRoles);
   ("PUT /api/v2/taxonomy/profiles/{code}/default-template", Needs PermIAMManageRoles);
   ("GET /api/v2/taxonomy/areas", Needs PermDocumentRead);
   ("POST /api/v2/taxonomy/areas", Needs PermIAMManageRoles);
   ("GET /api/v2/taxonomy/areas/{code}", Needs PermDocumentRead);
   ("PUT /api/v2/taxonomy/areas/{code}", Needs PermIAMManageRoles);
   ("DELETE /api/v2/taxonomy/areas/{code}", Needs PermIAMManageRoles)].

(** [registry/delivery/http/handler.go] *)
Definition registry_routes : list (string * Access) :=
  [("GET /api/v2/controlled-documents", Needs PermDocumentRead);
   ("POST /api/v2/controlled-documents", Needs PermDocumentCreate);
   ("GET /api/v2/controlled-documents/{id}", Needs PermDocumentRead);
   ("GET /api/v2/controlled-documents/{id}/active-document", Needs PermDocumentRead);
   ("PUT /api/v2/controlled-documents/{id}/obsolete", Needs PermDocumentEdit);
   ("PUT /api/v2/controlled-documents/{id}/supersede", Needs PermDocumentEdit)].

(** [iam/delivery/http/routes_memberships.go] *)
Definition membership_routes : list (string * Access) :=
  [("GET /api/v2/iam/area-memberships", Needs PermIAMManageRoles);
   ("POST /api/v2/iam/area-memberships", Needs PermIAMManageRoles);
   ("DELETE /api/v2/iam/area-memberships", Needs PermIAMManageRoles)].

(** [auth/delivery/http/handler.go] *)
Definition auth_routes : list (string * Access) :=
  [("POST /api/v1/auth/login", Public);
   ("POST /api/v1/auth/logout", Public);
   ("GET /api/v1/auth/me", SessionOnly);
   ("POST /api/v1/auth/change-password", SessionOnly)].

(** [iam/delivery/http/admin_handler.go] *)
Definition admin_routes : list (string * Access) :=
  [("GET /api/v1/iam/users", Needs PermIAMManageRoles);
   ("POST /api/v1/iam/users", Needs PermIAMManageRoles);
   ("GET /api/v1/iam/admin/overview", Needs PermIAMManageRoles);
   ("POST /api/v1/iam/users/{id}/roles", Needs PermIAMManageRoles);
   ("PUT /api/v1/iam/users/{id}/roles", Needs PermIAMManageRoles);
   ("POST /api/v1/iam/users/{id}/reset-password", Needs PermIAMManageRoles);
   ("POST /api/v1/iam/users/{id}/unlock", Needs PermIAMManageRoles);
   ("PATCH /api/v1/iam/users/{id}", Needs PermIAMManageRoles)].

(** [notifications/delivery/http/handler.go] *)
Definition notification_routes : list (string * Access) :=
  [("GET /api/v1/notifications", Needs PermDocumentRead);
   ("POST /api/v1/notifications/{id}/read", Needs PermDocumentRead);
   ("GET /api/v1/operations/stream", Public)].

(** [audit/delivery/http/handler.go] *)
Definition audit_routes : list (string * Access) :=
  [("GET /api/v1/audit/events", Public)].

(** [search/delivery/http/handler.go] *)
Definition search_routes : list (string * Access) :=
  [("GET /api/v1/search/documents", Needs PermSearchRead)].

(** [workflow/delivery/http/handler.go] *)
Definition workflow_routes : list (string * Access) :=
  [("POST /api/v1/workflow/documents/{id}/transitions", Needs PermWorkflowTransition);
   ("GET /api/v1/workflow/documents/{id}/approvals", Needs PermDocumentRead)].

(** [platform/observability/health.go] *)
Definition health_routes : list (string * Access) :=
  [("GET /api/v1/health/live", Public);
   ("GET /api/v1/health/ready", Public);
   ("GET /healthz", Public)].

(** [platform/featureflags/handler.go] *)
Definition feature_routes : list (string * Access) :=
  [("GET /api/v1/feature-flags", Public)].

Definition all_routes : list (string * Access) :=
  documents_routes ++ export_routes ++ fillin_routes ++ view_routes ++ reconstruct_routes ++
  approval_routes ++ templates_routes ++ taxonomy_routes ++ registry_routes ++ membership_routes ++
  auth_routes ++ admin_routes ++ notification_routes ++ audit_routes ++ search_routes ++
  workflow_routes ++ health_routes ++ feature_routes.

Definition is_public (e : string * Access) : bool := bool_decide (e.2 = Public).
Definition is_session_only (e : string * Access) : bool := bool_decide (e.2 = SessionOnly).

