(* ===== verification/GateFacts.v ===== *)
(** * What the gate lets through

    Programs of [auth] run by the process; and which requests reach a handler,
    on any store: as the decision a request gets, and as what every handler
    may rely on whatever fails. *)
From S2P Require Import Prelude Text Tables Programs ProgramLogic AuthDomain AuthToken AuthService AuthStore AuthSafety.
From S2P Require Import RateLimit AuditTrail Iam Permissions Gate.
From stdpp Require Import relations.
Local Open Scope Z_scope.

(** ** Programs of [auth] in the process *)

Definition set_auth {St} (st : St) (p : Process St) : Process St :=
  mkProcess st (pc_roles p) (pc_requests p) (pc_audit p).

Lemma set_auth_same {St} (p : Process St) : set_auth (pc_auth p) p = p.
Proof. by destruct p. Qed.

Section lifting.
Context {St : Type} `{!Ports AuthOp St AuthDraw} `{JsonbText} (draw_at : Time -> AuthDraw).

Lemma answers_lift {B} (o : AuthOp B) (p : Process St) b p' :
  answers (AuthStep o) p b p' <-> exists st, answers o (pc_auth p) b st /\ p' = set_auth st p.
Proof.
  assert (Hstep : forall t u, step (AuthStep o) t u p
    = (let '(r, st) := step o t u (pc_auth p) in (r, set_auth st p))) by done.
  split.
  - intros [t u r st Hs|e Hf|e t u r st Hf Hs].
    + rewrite Hstep in Hs. destruct (step o t u (pc_auth p)) as [r' st'] eqn:Ho. injection Hs as <- <-.
      exists st'. split; [by eapply answer_ok|done].
    + exists (pc_auth p). split; [by apply answer_failed|by rewrite set_auth_same].
    + rewrite Hstep in Hs. destruct (step o t u (pc_auth p)) as [r' st'] eqn:Ho. injection Hs as <- <-.
      exists st'. split; [by eapply answer_lost|done].
  - intros (st & [t u r st' Hs|e Hf|e t u r st' Hf Hs] & ->).
    + eapply (answer_ok _ _ t u). by rewrite Hstep, Hs.
    + rewrite set_auth_same. by apply answer_failed.
    + eapply (answer_lost _ _ _ t u r); [done|]. by rewrite Hstep, Hs.
Qed.

Lemma run_lift {A} (m : Prog AuthOp A) t (p : Process St) :
  run_prog draw_at (lift m) t p =
  (let '(a, t', st) := run_prog draw_at m t (pc_auth p) in (a, t', set_auth st p)).
Proof.
  revert t p. induction m as [a|B o k IH]; intros t p; simpl; [by rewrite set_auth_same|].
  destruct (step o t (draw_at t) (pc_auth p)) as [r st]. rewrite IH. simpl.
  by destruct (run_prog draw_at (k r) (t + 1) st) as [[? ?] ?].
Qed.

Lemma run_outcome {A B} (m : GM A) (f : Result A -> GM B) t (p : Process St) :
  run_prog draw_at (outcome m ≫= f) t p =
  (let '(r, t1, p1) := run_prog draw_at m t p in run_prog draw_at (f r) t1 p1).
Proof.
  rewrite run_bind. unfold outcome. revert t p. induction m as [r|C o k IH]; intros t p; [done|].
  simpl. destruct (proc_step o t (draw_at t) p) as [r p1]. apply IH.
Qed.

(** A protocol of the process under which a program that keeps [G] on the
    store may run. *)
Context (G : relation St) (P : Protocol (Process St)).
Definition within : Protocol St := mkProtocol eq G (fun _ => True).
Context (Hrely : forall x y, pr_rely P x y -> x = y) (Hinv : forall x, pr_inv P x).
Context (Hguar : forall p st, G (pc_auth p) st -> pr_guar P p (set_auth st p)).

Lemma wp_lift {A} (m : Prog AuthOp A) (Q : A -> Process St -> Prop) p :
  wp within m (fun a st => Q a (set_auth st p)) (pc_auth p) -> wp P (lift m) Q p.
Proof.
  revert p. induction m as [a|B o k IH]; intros p; simpl; [by rewrite set_auth_same|].
  intros Hwp p1 Hr _ b p2 Ha. apply Hrely in Hr as <-. apply answers_lift in Ha as (st & Ha & ->).
  destruct (Hwp (pc_auth p) eq_refl I b st Ha) as (_ & Hg & Hk). split_and!; [done|by apply Hguar|].
  by apply IH.
Qed.

Lemma wp_outcome {A B} (m : GM A) (f : Result A -> GM B) (Q : Result B -> Process St -> Prop) p :
  wp P m (fun r p' => wp P (f r) Q p') p -> wp P (outcome m ≫= f) Q p.
Proof. intros Hm. do 2 apply wp_bind. exact Hm. Qed.
End lifting.

(** ** Sessions behind the gate *)

Section sessions.
Context {St : Type} `{AuthStoreLaws St}.

Definition same_users (x y : St) : Prop := same_identities x y /\ same_roles x y.

#[export] Instance same_users_preorder : PreOrder same_users.
Proof.
  split.
  - by intros x.
  - intros x y z [[I1 U1] R1] [[I2 U2] R2].
    split; [split|]; intros k; [by rewrite I2|by rewrite U2|by rewrite R2].
Qed.

Lemma same_users_current uid (x y : St) : same_users x y -> current_user uid y = current_user uid x.
Proof. intros [[_ Hu] Hr]. unfold current_user. by rewrite Hu, Hr. Qed.

Context (cfg : Config).

(** Whatever fails, a user resolved is the one its cookie resolves to, and
    resolving changes no user. *)
Lemma wp_resolve raw (st : St) :
  store_ok st ->
  wpe (within same_users) (ResolveSession cfg raw)
    (fun u st' => same_users st st' /\ exists now, resolution cfg raw now st = inr u) st.
Proof.
  intros Hok. unfold ResolveSession, resolution.
  apply wpe_bind, wpe_guard. intros _. apply wpe_bind, wpe_lift. intros sid Hsid. rewrite Hsid.
  apply wpe_bind. eapply wpe_read; [apply _|intros; apply step_find_session|]. intros st1 s <- _ Hs. rewrite Hs.
  apply wpe_bind, wpe_guard. intros Hrev. rewrite Hrev.
  apply wpe_bind, wpe_call; [apply _|]. intros st1 t u r st2 <- _. rewrite step_now. intros [= <- <-].
  split_and!; [done|reflexivity|]. apply wpe_bind, wpe_guard. intros Hexp.
  apply wpe_bind, wpe_call; [apply _|]. intros st1 seen u0 r st2 <- _. rewrite step_now. intros [= <- <-].
  split_and!; [done|reflexivity|]. apply wpe_bind, wpe_call; [apply _|].
  intros st1 t1 u1 r st2 <- _ Htouch.
  destruct (step_touch sid seen t1 u1 st s Hok Hs) as (st3 & Htouch' & _ & Hid & Hrol).
  rewrite Htouch in Htouch'. injection Htouch' as -> <-. split_and!; [done|by split|].
  unfold buildCurrentUser. apply wpe_bind. eapply wpe_read; [apply _|intros; apply step_find_user|].
  intros st1 i <- _ Hi. apply wpe_bind. eapply wpe_read; [apply _|intros; apply step_roles|].
  intros st1 roles <- _ Hr. apply wpe_ret. split; [by split|]. exists t.
  apply negb_true_iff in Hexp. rewrite Hexp, <- (same_users_current _ st st2) by (by split).
  unfold current_user. by rewrite Hi, Hr.
Qed.
End sessions.

(** ** The decision *)

Section gate.
Context {St : Type} `{AuthStoreLaws St} `{JsonbText} `{UrlParse} `{LetterCase}.
Context (cfg : GateConfig).
(** The application in production: sessions are checked, the legacy header is off. *)
Hypothesis auth_on : gc_authEnabled cfg = true.
Hypothesis legacy_off : cfg_LegacyHeaderEnabled (gc_auth cfg) = false.

(** The user a request comes from: the one its cookie resolves to. *)
Definition comes_from (r : Request) (u : CurrentUser) (now : Time) (st : St) : Prop :=
  exists raw, Cookie (cfg_SessionCookieName (gc_auth cfg)) r = Some raw /\
    resolution (gc_auth cfg) raw now st = inr u.

(** What a handler may rely on: the request is public and anonymous, or comes
    from the user in its context, who may send it. *)
Definition admitted (st : St) (r : Request) (c : Ctx) : Prop :=
  rq_Method (cx_request c) = rq_Method r /\ rq_Path (cx_request c) = rq_Path r /\
  rq_Cookies (cx_request c) = rq_Cookies r /\
  (isPublic r = true /\ newPermissionResolver (rq_Method r) (rq_Path r) = None /\
   cx_user c = None /\ cx_auth c = None
   \/ exists u now, comes_from r u now st /\ cx_user c = Some u /\ cx_auth c = Some (cr_UserID u, cr_Roles u) /\
     (cr_MustChangePassword u = true -> isPasswordChangeAllowedPath (rq_Path r) (rq_Method r) = true) /\
     forall perm, newPermissionResolver (rq_Method r) (rq_Path r) = Some perm -> hasPermission (cr_Roles u) perm = true).

(** What the gate itself changes: sessions seen, requests counted. *)
Definition quiet (p p' : Process St) : Prop :=
  same_users (pc_auth p) (pc_auth p') /\ pc_roles p' = pc_roles p /\ pc_audit p' = pc_audit p.

Lemma public_unguarded r : isPublic r = true -> newPermissionResolver (rq_Method r) (rq_Path r) = None.
Proof.
  unfold isPublic, newPublicPathChecker. destruct (requiresSessionButNoPermission _ _); [done|].
  by destruct (newPermissionResolver _ _).
Qed.

Lemma resolution_user raw now (st : St) u :
  resolution (gc_auth cfg) raw now st = inr u -> cr_Roles u <> [].
Proof.
  unfold resolution, current_user. destruct (tokenHashFromCookieValue _ _) as [|sid]; [done|].
  destruct (find_session sid st) as [|s]; [done|]. destruct (bool_decide _); [|done].
  destruct (ss_ExpiresAt s <? now); [done|]. destruct (find_user _ st); [done|].
  destruct (roles_of (ss_UserID s) st) as [|roles] eqn:Hr; [done|]. intros [= <-]. by eapply roles_some.
Qed.

(** ** Behind the gate, whatever fails *)

Section behind.
Context {R : Type} (mux : Handler R) (P : Protocol (Process St)) (Q : Result (Response R) -> Process St -> Prop).
Context (Hrely : forall x y, pr_rely P x y -> x = y) (Hinv : forall x, pr_inv P x).
Context (Hguar : forall p p', quiet p p' -> pr_guar P p p').
Context (Hrefused : forall status code p, Q (inr (Refused status code)) p).
Context (Hpreflight : forall status p, Q (inr (Preflight status)) p) (Herror : forall e p, Q (inl e) p).

Lemma quiet_auth p (st : St) : same_users (pc_auth p) st -> quiet p (set_auth st p).
Proof. done. Qed.

Lemma wp_auth (next : Handler R) r p :
  store_ok (pc_auth p) ->
  (isPublic r = true -> wp P (next (incoming r)) Q p) ->
  (forall u now p1, comes_from r u now (pc_auth p) -> quiet p p1 ->
     (cr_MustChangePassword u = true -> isPasswordChangeAllowedPath (rq_Path r) (rq_Method r) = true) ->
     wp P (next (mkCtx r (Some u) (Some (cr_UserID u, cr_Roles u)))) Q p1) ->
  wp P (auth_Wrap cfg next (incoming r)) Q p.
Proof.
  intros Hok Hpub Hnext. unfold auth_Wrap. rewrite auth_on, legacy_off. cbn [cx_request incoming negb andb].
  destruct (isPublic r); [by apply Hpub|].
  destruct (Cookie (cfg_SessionCookieName (gc_auth cfg)) r) as [raw|] eqn:Hcookie; [|apply Hrefused].
  destruct (str_eqb (TrimSpace raw) ""); [apply Hrefused|]. apply wp_outcome.
  apply (wp_lift same_users P); [done|done|intros ? ? ?; by apply Hguar, quiet_auth|].
  eapply wp_mono; [|by apply wp_resolve]. intros [e|u] st.
  - intros _. destruct (session_error e); apply Hrefused.
  - intros [Hsame [now Hres]].
    destruct (cr_MustChangePassword u && negb (isPasswordChangeAllowedPath (rq_Path r) (rq_Method r))) eqn:Hmust;
      [apply Hrefused|].
    eapply Hnext; [by exists raw|by apply quiet_auth|]. intros Hm. rewrite Hm in Hmust. by apply negb_false_iff in Hmust.
Qed.

Lemma wp_iam (next : Handler R) c p :
  (newPermissionResolver (rq_Method (cx_request c)) (rq_Path (cx_request c)) = None -> wp P (next c) Q p) ->
  (forall perm a, newPermissionResolver (rq_Method (cx_request c)) (rq_Path (cx_request c)) = Some perm ->
     cx_auth c = Some a -> a.2 <> [] /\ is_Some (cx_user c) /\
     (hasPermission a.2 perm = true -> wp P (next (mkCtx (without_user_header (cx_request c)) (cx_user c) (cx_auth c))) Q p)) ->
  wp P (iam_Wrap cfg next c) Q p.
Proof.
  intros Hfree Hguarded. unfold iam_Wrap. rewrite auth_on, legacy_off. cbn [negb].
  destruct (newPermissionResolver _ _) as [perm|]; [|by apply Hfree]. rewrite andb_false_r.
  unfold UserIDFromContext, RolesFromContext. destruct (cx_auth c) as [[uid roles]|]; [|apply Hrefused].
  destruct (Hguarded perm (uid, roles) eq_refl eq_refl) as (Hne & [u Hu] & Hnext). cbn [fst snd] in *.
  destruct (str_eqb uid ""); [apply Hrefused|]. destruct roles as [|role roles]; [done|].
  destruct (hasPermission (role :: roles) perm); [|apply Hrefused]. rewrite Hu in Hnext |- *. by apply Hnext.
Qed.

Lemma wp_rate (next : Handler R) c p :
  (forall p1, quiet p p1 -> wp P (next c) Q p1) -> wp P (rate_Wrap cfg next c) Q p.
Proof.
  intros Hnext. assert (forall x : Process St, quiet x x) as Hq by done. unfold rate_Wrap.
  destruct (negb (rl_Enabled (gc_rate cfg)) || shouldSkipRateLimit (rq_Path (cx_request c))); [by apply Hnext|].
  intros p1 Hr _ b p2 Ha. apply Hrely in Hr as <-.
  assert (quiet p p2 /\ exists x, b = inr x) as [Hq2 [[ok retry] ->]].
  { inversion Ha as [t u r st Hs| |]; subst; [|done..]. cbn in Hs.
    destruct (count_request _ _ _ _) as [[ok retry] m]. injection Hs as <- <-. split; [done|by eexists]. }
  split_and!; [done|by apply Hguar|]. simpl. destruct ok; [by apply Hnext|apply Hrefused].
Qed.

(** The gate shields the handlers: to know what a request does, it is enough
    to know it of the requests it admits. *)
Lemma wp_gate r p :
  store_ok (pc_auth p) ->
  (forall c p1, admitted (pc_auth p) r c -> quiet p p1 -> wp P (mux c) Q p1) ->
  wp P (gate cfg mux (incoming r)) Q p.
Proof.
  intros Hok Hmux.
  assert (wp P (auth_Wrap cfg (iam_Wrap cfg (rate_Wrap cfg mux)) (incoming r)) Q p) as Hinner.
  { apply wp_auth; [done|..].
    - intros Hpub. pose proof (public_unguarded r Hpub) as Hnone. apply wp_iam.
      + intros _. apply wp_rate. intros p1 Hq. apply Hmux; [|done]. split_and!; [done..|]. by left.
      + cbn [cx_request incoming]. intros ? ? Hsome. rewrite Hnone in Hsome. done.
    - intros u now p1 Hfrom Hq Hmust.
      assert (forall rq' p2, rq_Method rq' = rq_Method r -> rq_Path rq' = rq_Path r -> rq_Cookies rq' = rq_Cookies r ->
        (forall perm, newPermissionResolver (rq_Method r) (rq_Path r) = Some perm -> hasPermission (cr_Roles u) perm = true) ->
        quiet p1 p2 -> wp P (mux (mkCtx rq' (Some u) (Some (cr_UserID u, cr_Roles u)))) Q p2) as Hthen.
      { intros rq' p2 Hm Hpa Hco Hperm [S2 [R2 A2]]. destruct Hq as [S1 [R1 A1]]. apply Hmux.
        - split_and!; [done..|]. right. by exists u, now.
        - split_and!; [by etrans|congruence..]. }
      apply wp_iam.
      + cbn [cx_request]. intros Hnone. apply wp_rate. intros p2 Hq2. apply Hthen; [done..| |done]. by rewrite Hnone.
      + cbn [cx_request cx_auth]. intros perm a Hp [= <-]. split_and!; [|done|].
        * destruct Hfrom as (raw & _ & Hres). by eapply resolution_user.
        * intros Hhas. apply wp_rate. intros p2 Hq2. apply Hthen; [done..| |done]. rewrite Hp. by intros ? [= <-]. }
  unfold gate, cors_Wrap. cbn [cx_request incoming].
  assert (wp P (origin_Wrap cfg (auth_Wrap cfg (iam_Wrap cfg (rate_Wrap cfg mux))) (incoming r)) Q p) as Horigin.
  { unfold origin_Wrap. cbn [cx_request incoming].
    repeat (case_match; try exact Hinner; try apply Hrefused). }
  repeat (case_match; try exact Horigin; try apply Hpreflight).
Qed.
End behind.

(** ** The theorems *)

Definition anything : Protocol (Process St) := mkProtocol eq (fun _ _ => True) (fun _ => True).

#[local] Instance anything_guar : PreOrder (pr_guar anything).
Proof. done. Qed.

(** C9 What handlers may rely on, whatever fails before them: a request that
    gets past the gate is public and carries no user, or its cookie resolves to
    the user in its context, whose roles, as stored at that moment, grant the
    permission of the route, and who does not have to change the password
    first. Getting there changes no user and no role. *)
Theorem handlers_see_entitled_requests r p c p' :
  store_ok (pc_auth p) ->
  finishes (gate cfg (fun c => mret (Served c)) (incoming r)) p (inr (Served c)) p' ->
  admitted (pc_auth p) r c /\ same_users (pc_auth p) (pc_auth p').
Proof.
  intros Hok Hf.
  assert (wp anything (gate cfg (fun c => mret (Served c)) (incoming r)) (fun x p' =>
    forall c, x = inr (Served c) -> admitted (pc_auth p) r c /\ same_users (pc_auth p) (pc_auth p')) p) as Hwp.
  { apply wp_gate; try done. intros c1 p1 Hadm [Hq _] c2 [= <-]. done. }
  by apply (wp_finishes anything _ _ _ _ _ Hwp Hf).
Qed.

(** The decision on a request, from the store alone. *)
Definition verdict (r : Request) (now : Time) (st : St) : Z * string + Ctx :=
  if isPublic r then inr (incoming r)
  else match Cookie (cfg_SessionCookieName (gc_auth cfg)) r with
  | None => inl (401, "AUTH_UNAUTHORIZED")
  | Some raw =>
      match resolution (gc_auth cfg) raw now st with
      | inl e => inl (if session_error e then (401, "AUTH_UNAUTHORIZED") else (500, "INTERNAL_ERROR"))
      | inr u =>
          if cr_MustChangePassword u && negb (isPasswordChangeAllowedPath (rq_Path r) (rq_Method r))
          then inl (403, "AUTH_PASSWORD_CHANGE_REQUIRED")
          else match newPermissionResolver (rq_Method r) (rq_Path r) with
               | None => inr (mkCtx r (Some u) (Some (cr_UserID u, cr_Roles u)))
               | Some perm =>
                   if str_eqb (cr_UserID u) "" then inl (401, "AUTH_UNAUTHORIZED")
                   else if hasPermission (cr_Roles u) perm
                   then inr (mkCtx (without_user_header r) (Some u) (Some (cr_UserID u, cr_Roles u)))
                   else inl (403, "AUTH_FORBIDDEN")
               end
      end
  end.

(** C12 The two middlewares of sessions and permissions decide exactly this,
    on any store: the handler runs on the context of the verdict, or the
    request gets its refusal. *)
Theorem gate_decides (draw_at : Time -> AuthDraw) r t p :
  store_ok (pc_auth p) ->
  (run_prog draw_at (auth_Wrap cfg (iam_Wrap cfg (fun c => mret (Served c))) (incoming r)) t p).1.1
  = inr (match verdict r (t + 1) (pc_auth p) with inl (status, code) => Refused status code | inr c => Served c end).
Proof.
  intros Hok. unfold auth_Wrap, verdict. rewrite auth_on, legacy_off. cbn [cx_request incoming negb andb].
  destruct (isPublic r) eqn:Hpub.
  { unfold iam_Wrap. rewrite auth_on. cbn [negb cx_request incoming]. by rewrite public_unguarded. }
  destruct (Cookie (cfg_SessionCookieName (gc_auth cfg)) r) as [raw|]; [|done].
  destruct (str_eqb (TrimSpace raw) "") eqn:Hempty.
  { unfold resolution. apply str_eqb_true in Hempty. by rewrite Hempty. }
  rewrite run_outcome, run_lift.
  destruct (run_resolution (gc_auth cfg) draw_at raw t (pc_auth p) Hok) as (t' & st' & Hrun & _). rewrite Hrun.
  destruct (resolution (gc_auth cfg) raw (t + 1) (pc_auth p)) as [e|u] eqn:Hres; [by destruct (session_error e)|].
  destruct (cr_MustChangePassword u && _); [done|].
  unfold iam_Wrap. rewrite auth_on, legacy_off. cbn [cx_request cx_auth cx_user negb UserIDFromContext RolesFromContext].
  destruct (newPermissionResolver _ _) as [perm|]; [|done]. rewrite andb_false_r. cbn [fst snd].
  destruct (str_eqb (cr_UserID u) ""); [done|]. pose proof (resolution_user _ _ _ _ Hres) as Hne.
  destruct (cr_Roles u) as [|role roles] eqn:Hroles; [done|]. by destruct (hasPermission _ perm).
Qed.
End gate.

(** C13 Origin protection: when it is on, a request that writes and carries
    the session cookie gets to the session check exactly when the origin it
    claims, by its [Origin] or else by its [Referer], is the server's own or a
    trusted one; one that claims none is refused as well. *)
Theorem cross_site_writes_are_refused `{UrlParse} `{LetterCase} (cfg : GateConfig) {R} (mux : Handler R) r raw :
  cfg_OriginProtection (gc_auth cfg) = true -> TrimSpace (cfg_SessionCookieName (gc_auth cfg)) <> "" ->
  requiresOriginProtection r = true ->
  Cookie (TrimSpace (cfg_SessionCookieName (gc_auth cfg))) r = Some raw ->
  gate cfg mux (incoming r) =
    if negb (str_eqb (claimed_origin r) "") && trusted cfg r (claimed_origin r)
    then auth_Wrap cfg (iam_Wrap cfg (rate_Wrap cfg mux)) (incoming r)
    else mret (Refused 403 "AUTH_INVALID_ORIGIN").
Proof.
  intros Hon Hname Hwrite Hcookie. apply str_eqb_false in Hname.
  assert (str_eqb (rq_Method r) "OPTIONS" = false) as Hmethod.
  { apply str_eqb_false. intros Hm. unfold requiresOriginProtection in Hwrite. by rewrite Hm in Hwrite. }
  unfold gate, cors_Wrap. cbn [cx_request incoming]. rewrite Hmethod.
  assert (forall (b c : bool) (x : PM ProcOp (Response R)), (if b then x else if c then x else x) = x) as -> by by intros [] [].
  unfold origin_Wrap, claimed_origin. cbn [cx_request incoming]. rewrite Hon, Hname, Hwrite, Hcookie. cbn [negb orb].
  destruct (str_eqb (normalizeOrigin (rq_Origin r)) "") eqn:Ho; cbn [negb].
  - destruct (str_eqb (originFromReferer (rq_Referer r)) ""); cbn [negb andb]; [done|].
    by destruct (trusted cfg r (originFromReferer (rq_Referer r))).
  - rewrite Ho. cbn [negb andb]. by destruct (trusted cfg r (normalizeOrigin (rq_Origin r))).
Qed.
