(* ===== verification/IdentityFacts.v ===== *)
(** * Who may change users

    Which operations of the store change roles and passwords, in PostgreSQL;
    which of them the handlers can reach; and, through the gate, from whom a
    request that changes them must come. *)
From S2P Require Import Prelude Text Tables Programs ProgramLogic ContentHash.
From S2P Require Import AuthDomain AuthToken AuthPostgres AuthService AuthStore AuthSafety.
From S2P Require Import RateLimit Membership AuditTrail Iam Permissions Routes Gate IdentityHttp GateFacts.
From stdpp Require Import relations.
Local Open Scope Z_scope.

(** ** The operations a program may perform *)

Definition all_ops {Op A} (ok : forall B, Op B -> Prop) (p : Prog Op A) : Prop :=
  each_op ok (fun _ _ _ => True) p (fun _ => True).

Section all_ops.
Context {Op : Type -> Type} (ok : forall B, Op B -> Prop).

Lemma all_ops_prog_bind {A B} (f : A -> Prog Op B) (p : Prog Op A) :
  all_ops ok p -> (forall a, all_ops ok (f a)) -> all_ops ok (prog_bind f p).
Proof. intros Hp Hf. apply each_op_prog_bind. eapply each_op_mono; [|exact Hp]. intros a _. apply Hf. Qed.

Lemma all_ops_bind {A B} (f : A -> PM Op B) (m : PM Op A) :
  all_ops ok m -> (forall a, all_ops ok (f a)) -> all_ops ok (m ≫= f).
Proof. intros Hm Hf. apply all_ops_prog_bind; [done|]. by intros [e|a]. Qed.

Lemma all_ops_outcome {A} (m : PM Op A) : all_ops ok m -> all_ops ok (outcome m).
Proof. intros Hm. by apply all_ops_prog_bind. Qed.

Lemma all_ops_map_err {A} g (m : PM Op A) : all_ops ok m -> all_ops ok (pmap_err g m).
Proof. intros Hm. by apply all_ops_prog_bind. Qed.

Lemma all_ops_call {B} (o : Op B) : ok _ o -> all_ops ok (call o).
Proof. by split. Qed.

Lemma all_ops_attempt {B} (o : Op B) : ok _ o -> all_ops ok (attempt o).
Proof. by split. Qed.

Context {St Draw : Type} `{!Ports Op St Draw} (P : Protocol St).
Context `{!Reflexive (pr_guar P)} (Hinv : forall x, pr_inv P x).

Lemma wp_all_ops {A} (p : Prog Op A) st :
  (forall B (o : Op B) t u st r st', ok _ o -> step o t u st = (r, st') -> pr_guar P st st') ->
  all_ops ok p -> wp P p (fun _ _ => True) st.
Proof.
  intros Hop Hp. apply (wp_each_op ok (fun _ _ _ => True) P p); [|done|done].
  intros B o t u s r s' Ho Hs _. split_and!; [done|by eapply Hop|done].
Qed.
End all_ops.

Definition auth_op (ok : forall B, AuthOp B -> Prop) (B : Type) (o : ProcOp B) : Prop :=
  match o with AuthStep o => ok _ o | _ => True end.

Lemma all_ops_lift {A} (ok : forall B, AuthOp B -> Prop) (m : Prog AuthOp A) :
  all_ops ok m -> all_ops (auth_op ok) (lift m).
Proof.
  induction m as [a|B o k IH]; [done|]. intros [Ho Hk]. split; [done|]. intros b _. by apply IH, Hk.
Qed.

(** ** Operations on roles and passwords *)

Definition grants {B} (o : AuthOp B) : bool :=
  match o with
  | CreateUserOp _ | BootstrapAdmin _ | UpsertUserAndAssignRole _ _ _ _ | ReplaceUserRoles _ _ _ _ => true
  | _ => false
  end.

Definition sets_password (uid : string) {B} (o : AuthOp B) : bool :=
  match o with UpdateUserOp p => str_eqb (up_UserID p) uid | o => grants o end.

Definition secret_of {St} `{AuthStore St} (uid : string) (st : St) : option string :=
  match find_user uid st with inr i => Some (id_PasswordHash i) | inl _ => None end.

Section postgres.
Context `{LetterCase} `{Bcrypt}.

Lemma update_identity_rows uid f (s s' : PgStore) :
  update_identity uid f s = inr s' -> s' = with_identities (change_row uid f <$> ps_identities s) s.
Proof.
  unfold update_identity.
  destruct (update_where _ _ (ps_identities s)) as [e|[n rows]] eqn:Hu; [done|]. intros [= <-].
  apply update_where_ok in Hu as [HF _]. f_equal. clear -HF.
  assert (forall l, Forall2 (updated (user_is uid)
    (fun r => check! identity_fits (others_than uid s) (f r); inr (f r))) l rows -> rows = change_row uid f <$> l) as Hgen;
    [|by apply Hgen].
  clear HF. intros l HF. induction HF as [|r r' l l' Hr _ IH]; [done|]. rewrite fmap_cons. f_equal; [|done].
  unfold updated, change_row in *. destruct (user_is uid r); [|done]. cbv beta in Hr.
  destruct (identity_fits (others_than uid s) (f r)); [done|]. by injection Hr as <-.
Qed.

(** The rows of one user change, under the same name. *)
Lemma update_keeps_secret uid uid' f (s s' : PgStore) :
  update_identity uid f s = inr s' -> (forall r, ir_user_id (f r) = ir_user_id r) ->
  (ps_users s' = ps_users s /\ ps_roles s' = ps_roles s) /\
  (uid <> uid' \/ (forall r, ir_password_hash (f r) = ir_password_hash r) -> secret_of uid' s' = secret_of uid' s).
Proof.
  intros ->%update_identity_rows Hid. split; [done|]. intros Hf.
  unfold secret_of. cbn. unfold loadIdentity. simpl. rewrite select_one_fmap.
  2:{ intros r. unfold user_is, change_row, user_is. case_match; [|done]. by rewrite Hid. }
  destruct (select_one (user_is uid') (ps_identities s)) as [r|] eqn:Hr; [|done]. simpl. f_equal.
  apply select_one_Some in Hr as [_ Hr]. unfold change_row, user_is in *. case_match; [|done].
  bool_to_prop. destruct Hf as [Hne|Hf]; [congruence|apply Hf].
Qed.

Lemma pg_change_user_secret p now uid (s s' : PgStore) :
  pg_change_user p now s = inr s' ->
  (ps_users s' = ps_users s /\ ps_roles s' = ps_roles s) /\
  (up_UserID p <> uid -> secret_of uid s' = secret_of uid s).
Proof.
  intros Hp. unfold pg_change_user, pg_wrap in Hp.
  match type of Hp with match ?x with _ => _ end = _ => destruct x as [e|s1] eqn:H1; [done|] end.
  assert ((ps_users s1 = ps_users s /\ ps_roles s1 = ps_roles s) /\
    (up_UserID p <> uid -> secret_of uid s1 = secret_of uid s)) as [[U1 R1] E1].
  { match type of H1 with (if ?b then _ else _) = _ => destruct b; [|by injection H1 as <-] end.
    destruct (update_identity _ _ s) as [|s2] eqn:Hu; [done|]. injection H1 as <-.
    destruct (update_keeps_secret _ uid _ _ _ Hu) as [? E]; [done|]. split; [done|]. intros ?. apply E. by left. }
  match type of Hp with (if ?b then _ else _) = _ => destruct b; [|by injection Hp as <-] end.
  match type of Hp with match ?x with _ => _ end = _ => destruct x; [done|] end.
  destruct (update_identity _ _ s1) as [|s2] eqn:Hu; [done|]. injection Hp as <-.
  destruct (update_keeps_secret _ uid _ _ _ Hu) as [[U2 R2] E2]; [done|]. split; [by rewrite U2, R2|].
  intros Hne. rewrite E2, E1 by auto. done.
Qed.

(** What every other operation leaves alone. *)
Lemma pg_step_keeps {B} (o : AuthOp B) uid t u (s : PgStore) r s' :
  step o t u s = (r, s') ->
  (grants o = false -> ps_users s' = ps_users s /\ ps_roles s' = ps_roles s) /\
  (sets_password uid o = false -> secret_of uid s' = secret_of uid s).
Proof.
  intros Hs. destruct o; cbn in Hs; unfold read_pg, wrote, pg_wrap in Hs;
    try (injection Hs as _ <-; by split_and!).
  all: try (split; [|intros Hf]; done).
  - destruct (insert_auth_session session s) as [e|s1] eqn:Hi; simpl in Hs; injection Hs as _ <-; [by split_and!|].
    unfold insert_auth_session in Hi. do 2 (destruct (constraint _ _) in Hi; [done|]). injection Hi as <-. by split_and!.
  - destruct (update_identity userID (set_row_login loginAt) s) as [e|s1] eqn:Hu; simpl in Hs; injection Hs as _ <-; [by split_and!|].
    destruct (update_keeps_secret _ uid _ _ _ Hu) as [? E]; [done|]. split; [done|]. intros _. apply E. by right.
  - destruct (update_identity userID (set_row_failed failedAttempts lockedUntil (ad_now u)) s) as [e|s1] eqn:Hu;
      simpl in Hs; injection Hs as _ <-; [by split_and!|].
    destruct (update_keeps_secret _ uid _ _ _ Hu) as [? E]; [done|]. split; [done|]. intros _. apply E. by right.
  - destruct (pg_change_user params (ad_now u) s) as [e|s1] eqn:Hu; injection Hs as _ <-; [by split_and!|].
    destruct (pg_change_user_secret _ _ uid _ _ Hu) as [? E]. split; [done|]. simpl. intros Hne. apply E.
    by apply str_eqb_false in Hne.
Qed.
End postgres.

(** ** The paths of the user administration *)

Definition users_prefix : string := "/api/v1/iam/users/".

Lemma has_prefix_split p s : HasPrefix s p = true -> s = p +:+ TrimPrefix s p.
Proof.
  intros Hp. unfold TrimPrefix. rewrite Hp. apply prefix_true in Hp as [t ->]. f_equal.
  symmetry. apply drop_chars_app.
Qed.

(** The requests of [handleUserRoute] that change users are guarded. *)
Lemma user_action_guarded method id action :
  id <> "" -> slash_free id ->
  (method, action) ∈ [("POST", "roles"); ("PUT", "roles"); ("POST", "reset-password"); ("POST", "unlock")] ->
  newPermissionResolver method (users_prefix +:+ id +:+ String slash action) = Some PermIAMManageRoles.
Proof.
  intros Hne Hid Hin.
  assert (users_prefix +:+ id +:+ String slash action = path_of ["api"; "v1"; "iam"; "users"; id; action]) as ->.
  { cbn. by rewrite string_app_nil. }
  apply (resolve_pattern method [Lit "api"; Lit "v1"; Lit "iam"; Lit "users"; Other []; Lit action]).
  - simpl. by repeat (apply elem_of_cons in Hin as [[= -> ->]|Hin]; [done|]); apply not_elem_of_nil in Hin.
  - repeat constructor; [done|done|apply not_elem_of_nil].
  - by repeat (apply elem_of_cons in Hin as [[= -> ->]|Hin]; [by vm_compute|]); apply not_elem_of_nil in Hin.
Qed.

Lemma user_patch_guarded id :
  id <> "" -> slash_free id -> id <> "roles" ->
  newPermissionResolver "PATCH" (users_prefix +:+ id) = Some PermIAMManageRoles.
Proof.
  intros Hne Hid Hr.
  assert (users_prefix +:+ id = path_of ["api"; "v1"; "iam"; "users"; id]) as ->.
  { cbn. by rewrite string_app_nil. }
  apply (resolve_pattern "PATCH" [Lit "api"; Lit "v1"; Lit "iam"; Lit "users"; Other ["roles"]]);
    [done|repeat constructor; [done|done|by rewrite list_elem_of_singleton]|by vm_compute].
Qed.

Lemma only_admins_manage roles : hasPermission roles PermIAMManageRoles = true -> RoleAdmin ∈ roles.
Proof.
  unfold hasPermission. intros (role & Hin & Hcan)%existsb_exists. apply list_elem_of_In in Hin.
  unfold Can, policy, select_one in Hcan. rewrite !bfilter_cons in Hcan. cbn [fst snd] in Hcan.
  destruct (str_eqb RoleAdmin role) eqn:Ha; [apply str_eqb_true in Ha; by subst|].
  cbv iota in Hcan.
  destruct (str_eqb RoleEditor role); [by vm_compute in Hcan|].
  destruct (str_eqb RoleReviewer role); [by vm_compute in Hcan|].
  by destruct (str_eqb RoleViewer role); vm_compute in Hcan.
Qed.

(** ** What the services do to users *)

Definition harmless (B : Type) (o : AuthOp B) : Prop :=
  match o with UpdateUserOp _ => False | o => grants o = false end.

Ltac ops :=
  repeat first
    [ exact I | exact eq_refl | apply all_ops_bind; [|intros] | apply all_ops_call | apply all_ops_attempt
    | apply all_ops_map_err | apply all_ops_outcome | apply all_ops_lift | case_match | done ].

Section services.
Context `{Bcrypt} (cfg : Config).

Lemma ops_current_user uid : all_ops harmless (buildCurrentUser uid).
Proof. unfold buildCurrentUser. ops. Qed.

Lemma ops_Authenticate identifier password r : all_ops harmless (Authenticate cfg identifier password r).
Proof.
  unfold Authenticate, check_lock, open_session, reject_password, pguard. ops; apply ops_current_user.
Qed.

Lemma ops_Logout raw : all_ops harmless (Logout cfg raw).
Proof. unfold Logout. ops. Qed.

Lemma ops_ListUsers : all_ops harmless ListUsers.
Proof.
  unfold ListUsers. ops. match goal with |- all_ops _ (fill_roles ?l) => induction l as [|u l IH] end; [done|].
  cbn [fill_roles]. ops; exact IH.
Qed.

Lemma ops_ListOnlineUsers since : all_ops harmless (ListOnlineUsers since).
Proof. unfold ListOnlineUsers. ops. Qed.

(** A password change updates the user it is for. *)
Lemma ops_ChangePassword user current new (ok : forall B, AuthOp B -> Prop) :
  (forall B (o : AuthOp B), harmless B o -> ok B o) ->
  (forall p, up_UserID p = TrimSpace (TrimSpace (cr_UserID user)) -> ok _ (UpdateUserOp p)) ->
  all_ops ok (ChangePasswordForUser cfg user current new).
Proof.
  intros Hok Hup. unfold ChangePasswordForUser, validatePassword, hashPassword, pguard.
  ops; try (by apply Hok); by apply Hup.
Qed.

Lemma ops_UpdateUser params new (ok : forall B, AuthOp B -> Prop) :
  (forall B (o : AuthOp B), harmless B o -> ok B o) ->
  (forall p, up_UserID p = up_UserID params -> ok _ (UpdateUserOp p)) -> all_ops ok (UpdateUser cfg params new).
Proof.
  intros Hok Hup. unfold UpdateUser, validatePassword, hashPassword, pguard.
  ops; try (by apply Hok); by apply Hup.
Qed.
End services.

Lemma all_ops_mono {Op A} (ok ok' : forall B, Op B -> Prop) (p : Prog Op A) :
  (forall B (o : Op B), ok B o -> ok' B o) -> all_ops ok p -> all_ops ok' p.
Proof.
  intros Hok. induction p as [a|B o k IH]; [done|]. intros [Ho Hk]. split; [by apply Hok|]. intros b _. by apply IH, Hk.
Qed.

Lemma all_ops_any {Op A} (ok : forall B, Op B -> Prop) (p : Prog Op A) : (forall B o, ok B o) -> all_ops ok p.
Proof.
  intros Hok. induction p as [a|B o k IH]; [done|]. split; [apply Hok|]. intros b _. apply IH.
Qed.

(** ** What the handlers do to users *)

Section handlers.
Context `{Bcrypt} (cfg : Config).
(** Whether the request comes from an administrator, and whether it may set
    the password of a user. *)
Context (admin mine : Prop) (uid : string).

Definition permitted (B : Type) (o : AuthOp B) : Prop :=
  (grants o = true -> admin) /\ (sets_password uid o = true -> admin \/ mine).

Lemma harmless_permitted B (o : AuthOp B) : harmless B o -> permitted B o.
Proof. unfold permitted, harmless, sets_password. by destruct o; simpl; intros Ho; rewrite ?Ho. Qed.

Lemma update_permitted p : (up_UserID p = uid -> admin \/ mine) -> permitted _ (UpdateUserOp p).
Proof. intros Hp. split; [done|]. simpl. intros Hu%str_eqb_true. auto. Qed.

Lemma admin_permitted : admin -> forall B (o : AuthOp B), permitted B o.
Proof. intros Ha B o. split; auto. Qed.

Abbreviation ok := (auth_op permitted).

Lemma ok_any {A} (p : Prog ProcOp A) : admin -> all_ops ok p.
Proof. intros Ha. apply all_ops_any. intros B [] ; simpl; try done. by apply admin_permitted. Qed.

Lemma ok_lift {A} (m : Prog AuthOp A) : all_ops harmless m -> all_ops ok (lift m).
Proof. intros Hm. apply all_ops_lift. eapply all_ops_mono; [apply harmless_permitted|done]. Qed.

Lemma ok_decoding {T} fields (zero : T) a k : (forall x, all_ops ok (k x)) -> all_ops ok (decoding fields zero a k).
Proof. intros Hk. unfold decoding. by destruct (decode_body fields zero (aq_body a)). Qed.

Lemma ok_after {A B} (m : PM ProcOp A) (f : Result A -> PM ProcOp B) :
  all_ops ok m -> (forall r, all_ops ok (f r)) -> all_ops ok (outcome m ≫= f).
Proof. intros Hm Hf. apply all_ops_bind; [by apply all_ops_outcome|done]. Qed.

Lemma ok_recordAudit a c userID action payload : all_ops ok (recordAudit a c userID action payload).
Proof. unfold recordAudit. ops; by apply harmless_permitted. Qed.

Lemma ok_login a c : all_ops ok (handleLogin cfg a c).
Proof.
  unfold handleLogin. case_match; [done|]. apply ok_decoding. intros req.
  apply ok_after; [apply ok_lift, ops_Authenticate|]. intros [e|s]; ops; by apply harmless_permitted.
Qed.

Lemma ok_logout c : all_ops ok (handleLogout cfg c).
Proof.
  unfold handleLogout. case_match; [done|]. apply all_ops_bind; [|done]. case_match; [|done].
  apply ok_after; [apply ok_lift, ops_Logout|done].
Qed.

Lemma ok_me c : all_ops ok (handleMe c).
Proof. unfold handleMe. by repeat case_match. Qed.

Lemma ok_change_password a c :
  (forall u, cx_user c = Some u -> isPOST (rq_Method (cx_request c)) = true ->
     TrimSpace (TrimSpace (cr_UserID u)) = uid -> admin \/ mine) ->
  all_ops ok (handleChangePassword cfg a c).
Proof.
  intros Hmine. unfold handleChangePassword.
  destruct (isPOST (rq_Method (cx_request c))) eqn:Hpost; [|done]. cbn [negb].
  destruct (cx_user c) as [u|] eqn:Hu; [|done]. apply ok_decoding. intros req. apply ok_after.
  - apply all_ops_lift, ops_ChangePassword; [apply harmless_permitted|]. intros p Hp. apply update_permitted.
    rewrite Hp. by apply Hmine.
  - intros [e|[]]; [done|]. apply ok_after; [apply ok_lift, ops_current_user|]. by intros [].
Qed.

Lemma ok_users a c :
  (isPOST (rq_Method (cx_request c)) = true -> admin) -> all_ops ok (handleUsers cfg a c).
Proof.
  intros Ha. unfold handleUsers. destruct (isGET (rq_Method (cx_request c))).
  - unfold handleListUsers. apply ok_after; [apply ok_lift, ops_ListUsers|]. by intros [].
  - destruct (isPOST (rq_Method (cx_request c))); [|done]. apply ok_any. by apply Ha.
Qed.

Lemma ok_overview c : all_ops ok (handleAdminOverview c).
Proof.
  unfold handleAdminOverview. case_match; [done|]. apply all_ops_bind; [by apply all_ops_call, harmless_permitted|]. intros now.
  apply ok_after; [apply ok_lift, ops_ListUsers|]. intros [e|users]; [done|].
  apply ok_after; [apply ok_lift, ops_ListOnlineUsers|]. intros [e|online]; [done|].
  apply ok_after; [by split|]. by intros [].
Qed.

Lemma ok_events a c : all_ops ok (handleEvents a c).
Proof.
  unfold handleEvents. case_match; [done|]. case_match; [|done]. apply ok_after; [by split|]. by intros [].
Qed.

Lemma ok_patch a userID c : (userID = uid -> admin \/ mine) -> all_ops ok (handlePatchUser cfg a userID c).
Proof.
  intros Hu. unfold handlePatchUser. apply ok_decoding. intros req. apply ok_after.
  - apply all_ops_lift, ops_UpdateUser; [apply harmless_permitted|]. intros p Hp. apply update_permitted.
    by rewrite Hp.
  - intros [e|[]]; [done|]. apply all_ops_bind; [apply ok_recordAudit|done].
Qed.

Lemma TrimSpace_nonempty s : str_eqb (TrimSpace s) "" = false -> s <> "".
Proof. by intros Hs ->. Qed.

(** The requests under [/api/v1/iam/users/]: those that change users are an
    administrator's, but for the one to change the user "roles". *)
Lemma ok_user_route a c :
  HasPrefix (rq_Path (cx_request c)) users_prefix = true ->
  (newPermissionResolver (rq_Method (cx_request c)) (rq_Path (cx_request c)) = Some PermIAMManageRoles -> admin) ->
  (rq_Method (cx_request c) = "PATCH" -> rq_Path (cx_request c) = users_prefix +:+ "roles" -> uid = "roles" ->
     admin \/ mine) ->
  all_ops ok (handleUserRoute cfg a c).
Proof.
  intros Hpre Hadmin Hroles. apply has_prefix_split in Hpre. unfold handleUserRoute.
  change "/api/v1/iam/users/" with users_prefix. set (rest := TrimPrefix (rq_Path (cx_request c)) users_prefix) in *.
  assert (forall m x, (if str_eqb m x then true else false) = true -> m = x) as Hm.
  { intros m x Hx. apply str_eqb_true. by destruct (str_eqb m x). }
  destruct (Split rest (char_of 47)) as [|id [|action [|]]] eqn:Hsplit; try done.
  - apply Split_one in Hsplit as [Hrest Hfree].
    destruct (str_eqb (TrimSpace id) "") eqn:Hid; [done|]. apply TrimSpace_nonempty in Hid.
    destruct (isPATCH (rq_Method (cx_request c))) eqn:Hmethod; [|done]. cbn [negb andb]. apply str_eqb_true in Hmethod.
    destruct (decide (id = "roles")) as [->|Hne].
    + apply ok_patch. intros Hu. apply Hroles; [done|by rewrite Hpre, Hrest|by rewrite <- Hu].
    + apply ok_any, Hadmin. rewrite Hmethod, Hpre, Hrest. apply user_patch_guarded; [done|by rewrite <- Hrest|done].
  - apply Split_two in Hsplit as (Hrest & Hfree & _).
    destruct (str_eqb (TrimSpace id) "") eqn:Hid; [done|]. apply TrimSpace_nonempty in Hid.
    assert (forall m, (m, action) ∈ [("POST", "roles"); ("PUT", "roles"); ("POST", "reset-password"); ("POST", "unlock")] ->
      rq_Method (cx_request c) = m -> admin) as Hguard.
    { intros m Hin Hmm. apply Hadmin. rewrite Hmm, Hpre, Hrest. by apply user_action_guarded. }
    destruct (str_eqb action "roles") eqn:Hact.
    + apply str_eqb_true in Hact. destruct (isPOST (rq_Method (cx_request c))) eqn:Hmethod.
      { apply ok_any, (Hguard "POST"); [|by apply str_eqb_true in Hmethod]. rewrite Hact. left. }
      destruct (isPUT (rq_Method (cx_request c))) eqn:Hput; [|done].
      apply ok_any, (Hguard "PUT"); [|by apply str_eqb_true in Hput]. rewrite Hact. right. left.
    + destruct (isPOST (rq_Method (cx_request c))) eqn:Hmethod; [|by rewrite !andb_false_r]. rewrite !andb_true_r.
      apply str_eqb_true in Hmethod.
      destruct (str_eqb action "reset-password") eqn:Hreset.
      { apply str_eqb_true in Hreset. apply ok_any, (Hguard "POST"); [|done]. rewrite Hreset. do 2 right. left. }
      destruct (str_eqb action "unlock") eqn:Hunlock; [|done].
      apply str_eqb_true in Hunlock. apply ok_any, (Hguard "POST"); [|done]. rewrite Hunlock. do 3 right. left.
Qed.
End handlers.

(** ** Through the gate *)

Section authority.
Context `{LetterCase} `{Bcrypt} `{JsonbText} `{UrlParse} (cfg : GateConfig).
Hypothesis auth_on : gc_authEnabled cfg = true.
Hypothesis legacy_off : cfg_LegacyHeaderEnabled (gc_auth cfg) = false.

Definition from_admin (r : Request) (s : PgStore) : Prop :=
  exists u now, comes_from cfg r u now s /\ RoleAdmin ∈ cr_Roles u.

Definition from_user (uid : string) (r : Request) (s : PgStore) : Prop :=
  exists u now, comes_from cfg r u now s /\ TrimSpace (TrimSpace (cr_UserID u)) = uid.

Definition changes_own_password (uid : string) (r : Request) (s : PgStore) : Prop :=
  from_user uid r s /\ rq_Method r = "POST" /\ rq_Path r = "/api/v1/auth/change-password".

(** The one request that no rule guards. *)
Definition patches_roles_user (uid : string) (r : Request) : Prop :=
  uid = "roles" /\ rq_Method r = "PATCH" /\ rq_Path r = "/api/v1/iam/users/roles".

Lemma admitted_admin r c (s : PgStore) :
  admitted cfg s r c -> newPermissionResolver (rq_Method (cx_request c)) (rq_Path (cx_request c)) = Some PermIAMManageRoles ->
  from_admin r s.
Proof.
  intros (-> & -> & _ & [(_ & Hnone & _)|(u & now & Hfrom & _ & _ & _ & Hperm)]) Hres; [congruence|].
  exists u, now. split; [done|]. by apply only_admins_manage, Hperm.
Qed.

Lemma ok_identity_mux a uid c (s : PgStore) :
  admitted cfg s (aq_request a) c ->
  all_ops (auth_op (permitted (from_admin (aq_request a) s)
    (changes_own_password uid (aq_request a) s \/ patches_roles_user uid (aq_request a)) uid))
    (identity_mux (gc_auth cfg) a c).
Proof.
  intros Hadm. pose proof (admitted_admin _ _ _ Hadm) as Hadmin. unfold identity_mux.
  destruct (str_eqb _ "/api/v1/auth/login"); [apply ok_login|].
  destruct (str_eqb _ "/api/v1/auth/logout"); [apply ok_logout|].
  destruct (str_eqb _ "/api/v1/auth/me"); [apply ok_me|].
  destruct (str_eqb _ "/api/v1/auth/change-password") eqn:Hchange.
  { apply ok_change_password. intros u Hu Hpost Huid. right. left.
    destruct Hadm as (Hm & Hp & _ & [(_ & _ & Hno & _)|(v & now & Hfrom & Hv & _)]); [congruence|].
    bool_to_prop. apply str_eqb_true in Hpost. split_and!; [|congruence..].
    exists v, now. split; [done|congruence]. }
  destruct (str_eqb _ "/api/v1/iam/users") eqn:Husers.
  { apply ok_users. intros Hpost. apply Hadmin. apply str_eqb_true in Husers, Hpost. rewrite Husers, Hpost. by vm_compute. }
  destruct (str_eqb _ "/api/v1/iam/admin/overview"); [apply ok_overview|].
  destruct (HasPrefix _ "/api/v1/iam/users/") eqn:Hpre.
  { apply ok_user_route; [done|done|]. intros Hm Hp Hu. do 2 right.
    destruct Hadm as (Hm' & Hp' & _). split_and!; [done|congruence|]. rewrite <- Hp', Hp. done. }
  destruct (str_eqb _ "/api/v1/audit/events"); [apply ok_events|done].
Qed.

Definition kept (admin mine : Prop) (uid : string) : Protocol (Process PgStore) :=
  mkProtocol eq (fun p p' =>
    (admin \/ forall v, roles_of v (pc_auth p') = roles_of v (pc_auth p)) /\
    (admin \/ mine \/ secret_of uid (pc_auth p') = secret_of uid (pc_auth p))) (fun _ => True).

#[local] Instance kept_preorder admin mine uid : PreOrder (pr_guar (kept admin mine uid)).
Proof.
  split.
  - intros p. split; auto.
  - intros p q r [[?|R1] E1] [[?|R2] E2]; (split; [auto|]); try (by auto).
    + right. intros v. by rewrite R2.
    + destruct E1 as [?|[?|E1]], E2 as [?|[?|E2]]; auto. right. right. by rewrite E2.
Qed.

Lemma permitted_kept admin mine uid B (o : ProcOp B) t u (p p' : Process PgStore) r :
  auth_op (permitted admin mine uid) B o -> step o t u p = (r, p') -> pr_guar (kept admin mine uid) p p'.
Proof.
  intros Hok Hs. assert (pc_auth p' = pc_auth p -> pr_guar (kept admin mine uid) p p') as Hsame.
  { intros E. simpl. rewrite E. auto. }
  destruct o as [B o|userID|userID e|userID| |rl identity|e|q]; cbn in Hok, Hs;
    try (injection Hs as _ <-; by apply Hsame).
  - destruct (pg_step o t u (pc_auth p)) as [r' s'] eqn:Ho. injection Hs as _ <-. destruct Hok as [Hg Hp].
    destruct (pg_step_keeps o uid t u _ _ _ Ho) as [Hroles Hsecret]. split; simpl.
    + destruct (grants o); [left; by apply Hg|]. right. intros v.
      destruct (Hroles eq_refl) as [E1 E2]. cbn. unfold pg_roles. by rewrite E1, E2.
    + destruct (sets_password uid o); [|right; right; by apply Hsecret]. destruct (Hp eq_refl); auto.
  - destruct (count_request _ _ _ _) as [[? ?] ?]. injection Hs as _ <-. by apply Hsame.
  - destruct (Audit_Record e (pc_audit p)); injection Hs as _ <-; by apply Hsame.
Qed.

(** C10 Who can change users, in PostgreSQL: however a request to the endpoints
    of authentication, user administration or audit ends, finished, failed or
    cut short, it leaves every role as it was unless its cookie resolves to an
    administrator, and the password of a user as it was unless it comes from
    an administrator or from that user, through the endpoint for it. The one
    exception is the user called "roles", whom nothing protects. *)
Theorem users_change_by_authority a uid (p p' : Process PgStore) :
  pg_ok (pc_auth p) -> runs (serve_identity cfg a) p p' ->
  from_admin (aq_request a) (pc_auth p) \/
  (forall v, roles_of v (pc_auth p') = roles_of v (pc_auth p)) /\
  (secret_of uid (pc_auth p') = secret_of uid (pc_auth p)
   \/ changes_own_password uid (aq_request a) (pc_auth p) \/ patches_roles_user uid (aq_request a)).
Proof.
  intros Hok Hruns.
  set (admin := from_admin (aq_request a) (pc_auth p)).
  set (mine := changes_own_password uid (aq_request a) (pc_auth p) \/ patches_roles_user uid (aq_request a)).
  assert (wp (kept admin mine uid) (serve_identity cfg a) (fun _ _ => True) p) as Hwp.
  { unfold serve_identity. apply wp_gate; try done.
    - intros x y [[[_ Hu] Hr] _]. split; right; [exact Hr|right]. unfold secret_of. by rewrite Hu.
    - intros c p1 Hadm _. eapply wp_all_ops; [apply PreOrder_Reflexive|done| |by apply ok_identity_mux].
      intros B o t u x r y Hop Hs. by eapply permitted_kept. }
  destruct (wp_runs _ _ _ _ _ Hwp Hruns I) as [_ [[?|Hr] Hs]]; [by left|].
  destruct Hs as [?|[Hm|Hs]]; [by left| |]; right; (split; [done|]); [by right|by left].
Qed.
End authority.
