(* ===== verification/GateScenario.v ===== *)
(** * The gate: requests the kernel evaluates

    The server of [AuthScenario] behind the gate: what the theorems say of its
    requests, and two that need no session. *)
From S2P Require Import Prelude Text Tables Programs ProgramLogic ContentHash.
From S2P Require Import AuthDomain AuthToken AuthPostgres AuthService AuthStore AuthSafety AuthScenario.
From S2P Require Import RateLimit Membership AuditTrail Iam Permissions Routes Gate IdentityHttp GateFacts IdentityFacts.
Import AuthDemo.
Local Open Scope Z_scope.

Module GateDemo.
(** The scheme before ["://"] and the host up to the next slash. *)
#[export] Instance plain_url : UrlParse := fun s =>
  match String.index 0 "://" s with
  | Some n =>
      let rest := drop_chars (n + 3) s in
      Some (String.substring 0 n s,
            match String.index 0 "/" rest with Some k => String.substring 0 k rest | None => rest end)
  | None => None
  end.

#[export] Instance any_json : JsonbText := fun s => Some s.

Definition gate_cfg : GateConfig :=
  mkGateConfig (mkCORSConfig false []) AuthDemo.cfg true 0 (mkRateLimitConfig true 60 100).

Definition request (method path : string) (cookies : list (string * string)) (origin : string) : Request :=
  mkRequest method path "docs.acme.test" true "10.0.0.7:40112" cookies origin "" "" "".

Definition session_cookie : list (string * string) := [("metaldocs_session", cookie)].

Definition api (r : Request) (body : option Any) : ApiRequest :=
  mkApiRequest r "" browser body (mkEventsRequest "" "" "").

Definition process (s : PgStore) : Process PgStore := mkProcess s ∅ ∅ [].

(** The administrator asks who they are; has to change the password before
    anything else. *)
Definition ask_me : Request := request "GET" "/api/v1/auth/me" session_cookie "".
Definition list_documents : Request := request "GET" "/api/v2/documents" session_cookie "".

(** A page of another site posts with the cookie. *)
Definition forged : Request := request "POST" "/api/v2/documents" session_cookie "https://evil.test".

(** Someone without a session, and a user called "roles". *)
Definition with_roles_user : PgStore := Eval vm_compute in
  (run_prog draw (CreateUser AuthDemo.cfg "" "roles" "" "Rita Oles" "secret-of-rita" ["viewer"] "admin") 100 pg_started).2.
Definition stranger : ApiRequest :=
  api (request "PATCH" "/api/v1/iam/users/roles" [] "") (Some (AnyMap [("newPassword", AnyString "taken-over")])).
Definition reads_events : ApiRequest := api (request "GET" "/api/v1/audit/events" [] "") None.
End GateDemo.
Import GateDemo.

Lemma logged_in_ok : pg_ok logged_in.
Proof. apply one_identity_ok; [done|apply NoDup_singleton]. Qed.

Definition admin_user : CurrentUser := mkCurrentUser "admin" "Admin" "admin@acme.test" "Admin" true [RoleAdmin].

Lemma gate_decides_witness :
  (run_prog draw (auth_Wrap gate_cfg (iam_Wrap gate_cfg (fun c => mret (Served c))) (incoming ask_me)) 200
     (process logged_in)).1.1
    = inr (Served (mkCtx ask_me (Some admin_user) (Some ("admin", [RoleAdmin])))) /\
  (run_prog draw (auth_Wrap gate_cfg (iam_Wrap gate_cfg (fun c => mret (Served c))) (incoming list_documents)) 200
     (process logged_in)).1.1
    = inr (Refused 403 "AUTH_PASSWORD_CHANGE_REQUIRED").
Proof.
  split.
  - etrans; [exact (gate_decides gate_cfg eq_refl eq_refl draw ask_me 200 (process logged_in) logged_in_ok)|].
    vm_compute. exact eq_refl.
  - etrans; [exact (gate_decides gate_cfg eq_refl eq_refl draw list_documents 200 (process logged_in) logged_in_ok)|].
    vm_compute. exact eq_refl.
Defined.

Lemma handlers_see_entitled_requests_witness :
  exists p', finishes (gate gate_cfg (fun c => mret (Served c)) (incoming ask_me)) (process logged_in)
    (inr (Served (mkCtx ask_me (Some admin_user) (Some ("admin", [RoleAdmin]))))) p' /\
  admitted gate_cfg (pc_auth (process logged_in)) ask_me (mkCtx ask_me (Some admin_user) (Some ("admin", [RoleAdmin]))) /\
  same_users (pc_auth (process logged_in)) (pc_auth p').
Proof.
  pose proof (run_prog_finishes draw (gate gate_cfg (fun c => mret (Served c)) (incoming ask_me)) 200 (process logged_in)) as Hf.
  assert ((run_prog draw (gate gate_cfg (fun c => mret (Served c)) (incoming ask_me)) 200 (process logged_in)).1.1
    = inr (Served (mkCtx ask_me (Some admin_user) (Some ("admin", [RoleAdmin]))))) as Hres by (vm_compute; exact eq_refl).
  rewrite Hres in Hf. eexists. split; [exact Hf|].
  exact (handlers_see_entitled_requests gate_cfg eq_refl eq_refl ask_me (process logged_in) _ _ logged_in_ok Hf).
Defined.

Lemma cross_site_writes_are_refused_witness :
  gate gate_cfg (fun c => mret (Served c)) (incoming forged) = mret (Refused 403 "AUTH_INVALID_ORIGIN").
Proof.
  rewrite (cross_site_writes_are_refused gate_cfg (fun c => mret (Served c)) forged cookie).
  - vm_compute. exact eq_refl.
  - exact eq_refl.
  - discriminate.
  - exact eq_refl.
  - vm_compute. exact eq_refl.
Defined.

(** A request without a cookie comes from nobody. *)
Lemma no_cookie_nobody r (s : PgStore) u now :
  Cookie (cfg_SessionCookieName (gc_auth gate_cfg)) r = None -> ~ comes_from gate_cfg r u now s.
Proof. intros Hnone (raw & Hraw & _). congruence. Qed.

(** The stranger changes no role and not the administrator's password. *)
Lemma users_change_by_authority_witness :
  runs (serve_identity gate_cfg stranger) (process logged_in)
    (run_prog draw (serve_identity gate_cfg stranger) 200 (process logged_in)).2 /\
  (forall v, roles_of v (pc_auth (run_prog draw (serve_identity gate_cfg stranger) 200 (process logged_in)).2)
     = roles_of v (pc_auth (process logged_in))) /\
  secret_of "admin" (pc_auth (run_prog draw (serve_identity gate_cfg stranger) 200 (process logged_in)).2)
    = secret_of "admin" (pc_auth (process logged_in)).
Proof.
  pose proof (run_prog_runs draw (serve_identity gate_cfg stranger) 200 (process logged_in)) as Hruns.
  split; [exact Hruns|].
  destruct (users_change_by_authority gate_cfg eq_refl eq_refl stranger "admin" (process logged_in) _ logged_in_ok Hruns)
    as [(u & now & Hfrom & _)|[Hroles [Hsecret|[[(u & now & Hfrom & _) _]|[Hid _]]]]].
  - by apply no_cookie_nobody in Hfrom.
  - by split.
  - by apply no_cookie_nobody in Hfrom.
  - discriminate Hid.
Defined.

(** ** What the rules leave open *)

(** Without a session: the password of a user called "roles" can be set, and
    the audit trail read. *)
Lemma open_to_strangers :
  isPublic (aq_request stranger) = true /\ isPublic (aq_request reads_events) = true /\
  (let '(x, _, p) := run_prog draw (serve_identity gate_cfg stranger) 200 (process with_roles_user) in
   x = inr (Served (reply 200 (BodyUpdated "roles"))) /\
   (exists u, (run_prog draw (Authenticate AuthDemo.cfg "roles" "taken-over" browser) 300 (pc_auth p)).1.1 = inr u) /\
   exists e, (run_prog draw (Authenticate AuthDemo.cfg "roles" "secret-of-rita" browser) 300 (pc_auth p)).1.1 = inl e) /\
  exists events, (run_prog draw (serve_identity gate_cfg reads_events) 200 (process logged_in)).1.1
    = inr (Served (reply 200 (BodyEvents events))).
Proof.
  split; [by vm_compute|]. split; [by vm_compute|]. split.
  - vm_compute. split; [exact eq_refl|]. split; eexists; exact eq_refl.
  - vm_compute. eexists. exact eq_refl.
Qed.

(** Making a document obsolete needs only a session. *)
Definition obsolete_route : string := "POST /api/v2/documents/{id}/obsolete".
Definition obsolete_path : list string := ["api"; "v2"; "documents"; "5f1c-0a"; "obsolete"].

