(* ===== verification/RegistryTables.v ===== *)
(** * Registry and taxonomy: tables

    Profiles and process areas (migrations 0023, 0025, 0035, 0122, 0123),
    controlled documents and the counters of their numbers (0124), governance
    events (0125), and what the modules read of the template versions and of
    the documents without a controlled document; the statements of
    [taxonomy/infrastructure] and [registry/infrastructure] over them. Two
    constraints are written with [ADD CONSTRAINT IF NOT EXISTS], which
    PostgreSQL does not have; they are taken as meant. *)
From S2P Require Import Prelude Text Tables Programs.
From Stdlib Require Import Ascii.
Local Open Scope Z_scope.

(** [text ILIKE pattern]. *)
Class Ilike := ilike : string -> string -> bool.

(** ** Data *)

(** [taxonomy/domain/profile.go]. *)
Record DocumentProfile := mkDocumentProfile {
  dp_Code : string;
  dp_TenantID : string;
  dp_FamilyCode : string;
  dp_Name : string;
  dp_Description : string;
  dp_Alias : string;
  dp_ReviewIntervalDays : Z;
  dp_DefaultTemplateVersionID : option string;
  dp_OwnerUserID : option string;
  dp_EditableByRole : string;
  dp_ArchivedAt : option Time;
  dp_CreatedAt : Time
}.

(** [taxonomy/domain/area.go]. *)
Record ProcessArea := mkProcessArea {
  pa_Code : string;
  pa_TenantID : string;
  pa_Name : string;
  pa_Description : string;
  pa_ParentCode : option string;
  pa_OwnerUserID : option string;
  pa_DefaultApproverRole : option string;
  pa_ArchivedAt : option Time;
  pa_CreatedAt : Time
}.

(** [taxonomy/domain/port.go]. *)
Record GovernanceEvent := mkGovernanceEvent {
  ge_TenantID : string;
  ge_EventType : string;
  ge_ActorUserID : string;
  ge_ResourceType : string;
  ge_ResourceID : string;
  ge_Reason : string;
  ge_PayloadJSON : string
}.

(** [registry/domain/controlled_document.go]. *)
Inductive CDStatus := CDStatusActive | CDStatusObsolete | CDStatusSuperseded.

#[export] Instance CDStatus_eq_dec : EqDecision CDStatus.
Proof. solve_decision. Defined.

Record ControlledDocument := mkControlledDocument {
  cd_ID : string;
  cd_TenantID : string;
  cd_ProfileCode : string;
  cd_ProcessAreaCode : string;
  cd_DepartmentCode : option string;
  cd_Code : string;
  cd_SequenceNum : option Z;
  cd_Title : string;
  cd_OwnerUserID : string;
  cd_OverrideTemplateVersionID : option string;
  cd_Status : CDStatus;
  cd_CreatedAt : Time;
  cd_UpdatedAt : Time
}.

(** A row of [profile_sequence_counters]. *)
Record Counter := mkCounter { sc_tenant : string; sc_profile : string; sc_next_seq : Z }.

(** A template version, joined with its template. *)
Record VersionRow := mkVersionRow { vw_id : string; vw_status : string; vw_doc_type_code : string }.

(** A row of [documents_v2]: its controlled document, if it has one. *)
Record LegacyDocument := mkLegacyDocument {
  ld_id : string;
  ld_tenant : string;
  ld_controlled_document_id : option string;
  ld_created_at : Time
}.

Record RegStore := mkRegStore {
  rg_families : list string;
  rg_versions : list VersionRow;
  rg_profiles : list DocumentProfile;
  rg_areas : list ProcessArea;
  rg_docs : list ControlledDocument;
  rg_counters : list Counter;
  rg_legacy : list LegacyDocument;
  rg_events : list GovernanceEvent
}.

Definition with_profiles x (s : RegStore) :=
  mkRegStore (rg_families s) (rg_versions s) x (rg_areas s) (rg_docs s) (rg_counters s) (rg_legacy s) (rg_events s).
Definition with_areas x (s : RegStore) :=
  mkRegStore (rg_families s) (rg_versions s) (rg_profiles s) x (rg_docs s) (rg_counters s) (rg_legacy s) (rg_events s).
Definition with_docs x (s : RegStore) :=
  mkRegStore (rg_families s) (rg_versions s) (rg_profiles s) (rg_areas s) x (rg_counters s) (rg_legacy s) (rg_events s).
Definition with_counters x (s : RegStore) :=
  mkRegStore (rg_families s) (rg_versions s) (rg_profiles s) (rg_areas s) (rg_docs s) x (rg_legacy s) (rg_events s).
Definition with_legacy x (s : RegStore) :=
  mkRegStore (rg_families s) (rg_versions s) (rg_profiles s) (rg_areas s) (rg_docs s) (rg_counters s) x (rg_events s).
Definition with_events x (s : RegStore) :=
  mkRegStore (rg_families s) (rg_versions s) (rg_profiles s) (rg_areas s) (rg_docs s) (rg_counters s) (rg_legacy s) x.

(** ** Errors *)

Definition ErrProfileNotFound : Error := Sentinel "taxonomy.ErrProfileNotFound".
Definition ErrProfileArchived : Error := Sentinel "taxonomy.ErrProfileArchived".
Definition ErrProfileCodeImmutable : Error := Sentinel "taxonomy.ErrProfileCodeImmutable".
Definition ErrTemplateNotPublished : Error := Sentinel "taxonomy.ErrTemplateNotPublished".
Definition ErrTemplateProfileMismatch : Error := Sentinel "taxonomy.ErrTemplateProfileMismatch".
Definition ErrAreaNotFound : Error := Sentinel "taxonomy.ErrAreaNotFound".
Definition ErrAreaArchived : Error := Sentinel "taxonomy.ErrAreaArchived".
Definition ErrAreaParentCycle : Error := Sentinel "taxonomy.ErrAreaParentCycle".
Definition ErrAreaCodeImmutable : Error := Sentinel "taxonomy.ErrAreaCodeImmutable".
Definition ErrCDNotFound : Error := Sentinel "registry.ErrCDNotFound".
Definition ErrCDCodeTaken : Error := Sentinel "registry.ErrCDCodeTaken".
Definition ErrCDArchivedCodeReuse : Error := Sentinel "registry.ErrCDArchivedCodeReuse".
Definition ErrSequenceCounterNotFound : Error := Sentinel "registry.ErrSequenceCounterNotFound".
Definition ErrManualCodeReasonRequired : Error := Sentinel "registry.ErrManualCodeReasonRequired".
Definition ErrOverrideReasonRequired : Error := Sentinel "registry.ErrOverrideReasonRequired".

(** ** Text *)

(** [length(text)] of SQL: the characters of UTF-8 text. *)
Definition char_length (s : string) : Z :=
  Z.of_nat (length (bfilter (fun c => negb ((128 <=? Z.of_nat (nat_of_ascii c)) && (Z.of_nat (nat_of_ascii c) <=? 191)))
    (String.list_ascii_of_string s))).

Definition lower_letter (c : ascii) : bool :=
  (97 <=? Z.of_nat (nat_of_ascii c)) && (Z.of_nat (nat_of_ascii c) <=? 122).
Definition code_char (c : ascii) : bool :=
  lower_letter c || match digit_value c with Some _ => true | None => false end
  || (Z.of_nat (nat_of_ascii c) =? 95) || (Z.of_nat (nat_of_ascii c) =? 45).

(** [code ~ '^[a-z][a-z0-9_-]{1,63}$']. *)
Definition code_format (code : string) : bool :=
  match String.list_ascii_of_string code with
  | c :: rest => lower_letter c && forallb code_char rest
                 && (1 <=? Z.of_nat (length rest)) && (Z.of_nat (length rest) <=? 63)
  | [] => false
  end.

(** [strings.ToUpper] on ASCII, which the codes of profiles are. *)
Definition ToUpper (s : string) : string :=
  String.string_of_list_ascii ((fun c => if lower_letter c then ascii_of_nat (nat_of_ascii c - 32) else c)
                                 <$> String.list_ascii_of_string s).

(** [AutoCode]: ["%s-%02d"]. *)
Definition AutoCode (profileCode : string) (seq : Z) : string :=
  ToUpper profileCode +:+ "-" +:+ (if (0 <=? seq) && (seq <? 10) then "0" else "") +:+ Itoa seq.

Example AutoCode_five : AutoCode "po" 5 = "PO-05".
Proof. reflexivity. Qed.

Section tables.
Context `{UuidText} `{JsonbText}.

(** ** Profiles *)

Definition profile_is (tenant code : string) (p : DocumentProfile) : bool :=
  str_eqb (dp_TenantID p) tenant && str_eqb (dp_Code p) code.
Definition area_is (tenant code : string) (a : ProcessArea) : bool :=
  str_eqb (pa_TenantID a) tenant && str_eqb (pa_Code a) code.

Definition has_version (s : RegStore) (id : option string) : bool :=
  match id with None => true | Some id => existsb (fun v => str_eqb (vw_id v) id) (rg_versions s) end.
Definition has_profile (s : RegStore) (tenant code : string) : bool := existsb (profile_is tenant code) (rg_profiles s).
Definition has_area (s : RegStore) (tenant code : string) : bool := existsb (area_is tenant code) (rg_areas s).

(** The constraints on the columns of a profile. *)
Definition profile_checks (s : RegStore) (p : DocumentProfile) : Result unit :=
  check! constraint (0 <? dp_ReviewIntervalDays p) (check_violation "document_profiles_review_interval_days_check");
  check! constraint ((1 <=? char_length (dp_Alias p)) && (char_length (dp_Alias p) <=? 24))
           (check_violation "chk_document_profiles_alias_length");
  check! constraint (code_format (dp_Code p)) (check_violation "profile_code_format");
  inr tt.

Definition profile_references (s : RegStore) (p : DocumentProfile) : Result unit :=
  check! constraint (bool_decide (dp_FamilyCode p ∈ rg_families s)) (fk_violation "document_profiles_family_code_fkey");
  check! constraint (has_version s (dp_DefaultTemplateVersionID p))
           (fk_violation "document_profiles_default_template_version_id_fkey");
  inr tt.

(** The row of the parameters. *)
Definition profile_row (p : DocumentProfile) (createdAt : Time) : Result DocumentProfile :=
  let! days := int4_param (dp_ReviewIntervalDays p) in
  let! tenant := uuid_param (dp_TenantID p) in
  let! template := uuid_param_opt (dp_DefaultTemplateVersionID p) in
  inr (mkDocumentProfile (dp_Code p) tenant (dp_FamilyCode p) (dp_Name p) (dp_Description p) (dp_Alias p) days template
         (dp_OwnerUserID p) (dp_EditableByRole p) (dp_ArchivedAt p) createdAt).

Definition Profile_GetByCode (tenantID code : string) (s : RegStore) : Result DocumentProfile :=
  let! tenant := uuid_param tenantID in
  match select_one (profile_is tenant code) (rg_profiles s) with
  | Some p => inr p
  | None => inl ErrProfileNotFound
  end.

(** [ORDER BY code ASC]. *)
Definition by_code {A} (code : A -> string) (l : list A) : list A :=
  merge_sort (fun a b => String.le (code a) (code b)) l.

Definition Profile_List (tenantID : string) (includeArchived : bool) (s : RegStore) : Result (list DocumentProfile) :=
  let! tenant := uuid_param tenantID in
  inr (by_code dp_Code (bfilter (fun p => str_eqb (dp_TenantID p) tenant
         && (includeArchived || bool_decide (dp_ArchivedAt p = None))) (rg_profiles s))).

Definition Profile_Create (p : DocumentProfile) (now : Time) (s : RegStore) : Result RegStore :=
  let! row := profile_row p now in
  check! profile_checks s row;
  check! constraint (negb (existsb (fun q => str_eqb (dp_Code q) (dp_Code row)) (rg_profiles s)))
           (unique_violation "document_profiles_pkey");
  check! profile_references s row;
  inr (with_profiles (rg_profiles s ++ [row]) s).

(** Every column but the code, the tenant and [created_at]. *)
Definition Profile_Update (p : DocumentProfile) (s : RegStore) : Result RegStore :=
  let! row := profile_row p 0 in
  let set (q : DocumentProfile) : Result DocumentProfile :=
    let q' := mkDocumentProfile (dp_Code q) (dp_TenantID q) (dp_FamilyCode row) (dp_Name row) (dp_Description row)
                (dp_Alias row) (dp_ReviewIntervalDays row) (dp_DefaultTemplateVersionID row) (dp_OwnerUserID row)
                (dp_EditableByRole row) (dp_ArchivedAt row) (dp_CreatedAt q) in
    check! profile_checks s q'; check! profile_references s q'; inr q' in
  match update_where (profile_is (dp_TenantID row) (dp_Code row)) set (rg_profiles s) with
  | inl e => inl e
  | inr (n, rows) => if n =? 0 then inl ErrProfileNotFound else inr (with_profiles rows s)
  end.

(** ** Areas *)

Definition area_row (a : ProcessArea) (createdAt : Time) : Result ProcessArea :=
  let! tenant := uuid_param (pa_TenantID a) in
  inr (mkProcessArea (pa_Code a) tenant (pa_Name a) (pa_Description a) (pa_ParentCode a) (pa_OwnerUserID a)
         (pa_DefaultApproverRole a) (pa_ArchivedAt a) createdAt).

(** The foreign key of the parent: an area of the tenant, the row itself
    included. *)
Definition parent_exists (rows : list ProcessArea) (a : ProcessArea) : bool :=
  match pa_ParentCode a with
  | None => true
  | Some parent => existsb (area_is (pa_TenantID a) parent) rows
  end.

Definition Area_GetByCode (tenantID code : string) (s : RegStore) : Result ProcessArea :=
  let! tenant := uuid_param tenantID in
  match select_one (area_is tenant code) (rg_areas s) with
  | Some a => inr a
  | None => inl ErrAreaNotFound
  end.

Definition Area_List (tenantID : string) (includeArchived : bool) (s : RegStore) : Result (list ProcessArea) :=
  let! tenant := uuid_param tenantID in
  inr (by_code pa_Code (bfilter (fun a => str_eqb (pa_TenantID a) tenant
         && (includeArchived || bool_decide (pa_ArchivedAt a = None))) (rg_areas s))).

Definition Area_Create (a : ProcessArea) (now : Time) (s : RegStore) : Result RegStore :=
  let! row := area_row a now in
  check! constraint (code_format (pa_Code row)) (check_violation "area_code_format");
  check! constraint (negb (existsb (fun b => str_eqb (pa_Code b) (pa_Code row)) (rg_areas s)))
           (unique_violation "document_process_areas_pkey");
  check! constraint (parent_exists (rg_areas s ++ [row]) row) (fk_violation "fk_area_parent_tenant");
  inr (with_areas (rg_areas s ++ [row]) s).

Definition Area_Update (a : ProcessArea) (s : RegStore) : Result RegStore :=
  let! row := area_row a 0 in
  let set (b : ProcessArea) : Result ProcessArea :=
    let b' := mkProcessArea (pa_Code b) (pa_TenantID b) (pa_Name row) (pa_Description row) (pa_ParentCode row)
                (pa_OwnerUserID row) (pa_DefaultApproverRole row) (pa_ArchivedAt row) (pa_CreatedAt b) in
    check! constraint (parent_exists (rg_areas s) b') (fk_violation "fk_area_parent_tenant"); inr b' in
  match update_where (area_is (pa_TenantID row) (pa_Code row)) set (rg_areas s) with
  | inl e => inl e
  | inr (n, rows) => if n =? 0 then inl ErrAreaNotFound else inr (with_areas rows s)
  end.

(** [WITH RECURSIVE ancestors]: the areas found last give the next ones, and
    [UNION] drops those found before; there are no more rounds than areas. *)
Definition parent_of (tenant code : string) (rows : list ProcessArea) : option string :=
  select_one (area_is tenant code) rows ≫= pa_ParentCode.

Fixpoint climb (fuel : nat) (tenant : string) (rows : list ProcessArea) (code : string) (found : list string)
    : list string :=
  match fuel with
  | O => found
  | S fuel =>
      match parent_of tenant code rows with
      | Some parent =>
          if existsb (area_is tenant parent) rows && negb (bool_decide (parent ∈ found))
          then climb fuel tenant rows parent (found ++ [parent])
          else found
      | None => found
      end
  end.

Definition ancestors (tenant code : string) (rows : list ProcessArea) : list string :=
  climb (length rows) tenant rows code [].

Definition Area_ListAncestors (tenantID code : string) (s : RegStore) : Result (list string) :=
  let! tenant := uuid_param tenantID in inr (ancestors tenant code (rg_areas s)).

(** ** Template versions *)

(** [taxonomy/infrastructure/template_version_checker.go]. *)
Definition Taxonomy_IsPublished (versionID : string) (s : RegStore) : Result (bool * string) :=
  let! id := uuid_param versionID in
  match select_one (fun v => str_eqb (vw_id v) id) (rg_versions s) with
  | None => inr (false, "")
  | Some v => inr (str_eqb (vw_status v) "published", vw_doc_type_code v)
  end.

(** [GetTemplateVersionState] of the registry selects [t.profile_code], a
    column the table of templates does not have. *)
Definition Registry_GetTemplateVersionState (versionID : string) (s : RegStore) : Result (option string * string) :=
  inl (undefined_column "column t.profile_code does not exist").

(** ** Governance events *)

Definition Governance_Log (e : GovernanceEvent) (s : RegStore) : Result RegStore :=
  let! tenant := uuid_param (ge_TenantID e) in
  let! payload := jsonb_param (if str_eqb (ge_PayloadJSON e) "" then "{}" else ge_PayloadJSON e) in
  inr (with_events (rg_events s ++ [mkGovernanceEvent tenant (ge_EventType e) (ge_ActorUserID e) (ge_ResourceType e)
                                      (ge_ResourceID e) (ge_Reason e) payload]) s).

(** ** Controlled documents *)

Definition cd_has_code (tenant profile code : string) (d : ControlledDocument) : bool :=
  str_eqb (cd_TenantID d) tenant && str_eqb (cd_ProfileCode d) profile && str_eqb (cd_Code d) code.
Definition cd_is (tenant id : string) (d : ControlledDocument) : bool :=
  str_eqb (cd_TenantID d) tenant && str_eqb (cd_ID d) id.

Definition CD_GetByID (tenantID id : string) (s : RegStore) : Result ControlledDocument :=
  let! tenant := uuid_param tenantID in
  let! id := uuid_param id in
  match select_one (cd_is tenant id) (rg_docs s) with Some d => inr d | None => inl ErrCDNotFound end.

Definition CD_GetByCode (tenantID profileCode code : string) (s : RegStore) : Result ControlledDocument :=
  let! tenant := uuid_param tenantID in
  match select_one (cd_has_code tenant profileCode code) (rg_docs s) with
  | Some d => inr d
  | None => inl ErrCDNotFound
  end.

Definition CD_CodeExists (tenantID profileCode code : string) (s : RegStore) : Result bool :=
  let! tenant := uuid_param tenantID in
  inr (existsb (cd_has_code tenant profileCode code) (rg_docs s)).

(** [INSERT INTO controlled_documents]: the row, with the id drawn. *)
Definition cd_row (doc : ControlledDocument) (id : string) : Result ControlledDocument :=
  let! tenant := uuid_param (cd_TenantID doc) in
  let! number := match cd_SequenceNum doc with
                 | None => inr None
                 | Some n => (let! n := int4_param n in inr (Some n))
                 end in
  let! override := uuid_param_opt (cd_OverrideTemplateVersionID doc) in
  inr (mkControlledDocument id tenant (cd_ProfileCode doc) (cd_ProcessAreaCode doc) (cd_DepartmentCode doc)
         (cd_Code doc) number (cd_Title doc) (cd_OwnerUserID doc) override (cd_Status doc)
         (cd_CreatedAt doc) (cd_UpdatedAt doc)).

Definition insert_cd (row : ControlledDocument) (s : RegStore) : Result RegStore :=
  check! constraint ((2 <=? char_length (cd_Code row)) && (char_length (cd_Code row) <=? 100))
           (check_violation "controlled_document_code_format");
  check! constraint (negb (existsb (fun d => str_eqb (cd_ID d) (cd_ID row)) (rg_docs s)))
           (unique_violation "controlled_documents_pkey");
  check! constraint (negb (existsb (cd_has_code (cd_TenantID row) (cd_ProfileCode row) (cd_Code row)) (rg_docs s)))
           (unique_violation "controlled_documents_tenant_id_profile_code_code_key");
  check! constraint (has_version s (cd_OverrideTemplateVersionID row))
           (fk_violation "controlled_documents_override_template_version_id_fkey");
  check! constraint (has_profile s (cd_TenantID row) (cd_ProfileCode row))
           (fk_violation "controlled_documents_tenant_id_profile_code_fkey");
  check! constraint (has_area s (cd_TenantID row) (cd_ProcessAreaCode row))
           (fk_violation "controlled_documents_tenant_id_process_area_code_fkey");
  inr (with_docs (rg_docs s ++ [row]) s).

(** [UPDATE ... SET status, updated_at]: how many rows, for the caller to look at. *)
Definition set_status (status : CDStatus) (updatedAt : Time) (d : ControlledDocument) : ControlledDocument :=
  mkControlledDocument (cd_ID d) (cd_TenantID d) (cd_ProfileCode d) (cd_ProcessAreaCode d) (cd_DepartmentCode d)
    (cd_Code d) (cd_SequenceNum d) (cd_Title d) (cd_OwnerUserID d) (cd_OverrideTemplateVersionID d) status
    (cd_CreatedAt d) updatedAt.

Definition CD_UpdateStatus (tenantID id : string) (status : CDStatus) (updatedAt : Time) (s : RegStore)
    : Result RegStore :=
  let! tenant := uuid_param tenantID in
  let! id := uuid_param id in
  match update_where (cd_is tenant id) (fun d => inr (set_status status updatedAt d)) (rg_docs s) with
  | inl e => inl e
  | inr (n, rows) => if n =? 0 then inl ErrCDNotFound else inr (with_docs rows s)
  end.

(** [registry/domain/port.go]. *)
Record CDFilter := mkCDFilter {
  cf_ProfileCode : option string;
  cf_ProcessAreaCode : option string;
  cf_UserAreaCodes : list string;
  cf_DepartmentCode : option string;
  cf_OwnerUserID : option string;
  cf_Status : option CDStatus;
  cf_Query : option string;
  cf_Limit : Z;
  cf_Offset : Z
}.

Definition asked {A} (wanted : option A) (test : A -> bool) : bool :=
  match wanted with None => true | Some x => test x end.

Definition cd_matches `{Ilike} (tenant : string) (f : CDFilter) (d : ControlledDocument) : bool :=
  str_eqb (cd_TenantID d) tenant
  && asked (cf_ProfileCode f) (str_eqb (cd_ProfileCode d))
  && asked (cf_ProcessAreaCode f) (str_eqb (cd_ProcessAreaCode d))
  && (match cf_UserAreaCodes f with [] => true | codes => bool_decide (cd_ProcessAreaCode d ∈ codes) end)
  && asked (cf_DepartmentCode f) (fun x => bool_decide (cd_DepartmentCode d = Some x))
  && asked (cf_OwnerUserID f) (str_eqb (cd_OwnerUserID d))
  && asked (cf_Status f) (fun x => bool_decide (cd_Status d = x))
  && asked (cf_Query f) (fun q => str_eqb (TrimSpace q) ""
       || ilike (cd_Code d) ("%" +:+ TrimSpace q +:+ "%") || ilike (cd_Title d) ("%" +:+ TrimSpace q +:+ "%")).

(** [ORDER BY created_at DESC], then LIMIT and OFFSET. *)
Definition CD_List `{Ilike} (tenantID : string) (f : CDFilter) (s : RegStore)
    : Result (list ControlledDocument) :=
  let! tenant := uuid_param tenantID in
  let rows := drop (Z.to_nat (cf_Offset f))
                (order_by (fun d => - cd_CreatedAt d) (bfilter (cd_matches tenant f) (rg_docs s))) in
  inr (if 0 <? cf_Limit f then take (Z.to_nat (cf_Limit f)) rows else rows).

(** ** Numbers

    [NextAndIncrement] runs in the transaction that inserts the document: its
    UPDATE locks the row of the counter, what it writes is seen by no one else
    and disappears with the transaction. Here the transaction writes when it
    commits, and a commit finds the counter as [NextAndIncrement] read it: a
    transaction that would read it in between waits for the lock, and so reads
    it after the commit. *)
Definition counter_is (tenant profile : string) (c : Counter) : bool :=
  str_eqb (sc_tenant c) tenant && str_eqb (sc_profile c) profile.

(** The next number: 1 before the first. *)
Definition next_seq (tenant profile : string) (counters : list Counter) : Z :=
  match select_one (counter_is tenant profile) counters with Some c => sc_next_seq c | None => 1 end.

Definition set_next (tenant profile : string) (next : Z) (counters : list Counter) : list Counter :=
  if existsb (counter_is tenant profile) counters
  then (fun c => if counter_is tenant profile c then mkCounter tenant profile next else c) <$> counters
  else counters ++ [mkCounter tenant profile next].

(** [EnsureCounter], alone. *)
Definition Seq_EnsureCounter (tenantID profileCode : string) (s : RegStore) : Result RegStore :=
  let! tenant := uuid_param tenantID in
  if existsb (counter_is tenant profileCode) (rg_counters s) then inr s
  else
    check! constraint (has_profile s tenant profileCode) (fk_violation "profile_sequence_counters_tenant_id_profile_code_fkey");
    inr (with_counters (rg_counters s ++ [mkCounter tenant profileCode 1]) s).

(** The number, in the transaction. *)
Definition Seq_NextAndIncrement (tenantID profileCode : string) (s : RegStore) : Result Z :=
  let! tenant := uuid_param tenantID in
  check! constraint (existsb (counter_is tenant profileCode) (rg_counters s) || has_profile s tenant profileCode)
           (fk_violation "profile_sequence_counters_tenant_id_profile_code_fkey");
  let next := next_seq tenant profileCode (rg_counters s) in
  let! _ := int4_param (next + 1) in
  inr next.

(** What the commit of the transaction does. *)
Definition commit_document (next : Z) (row : ControlledDocument) (s : RegStore) : Result RegStore :=
  let tenant := cd_TenantID row in
  let profile := cd_ProfileCode row in
  check! constraint (next_seq tenant profile (rg_counters s) =? next) (PgError "40001" "" "the counter was not locked");
  let! s := insert_cd row s in
  inr (with_counters (set_next tenant profile (next + 1) (rg_counters s)) s).

(** ** Documents without a controlled document *)

Definition legacy_code (docID : string) : string :=
  "MIG-" +:+ ToUpper (String.substring 0 8 (String.string_of_list_ascii
    (bfilter (fun c => negb (Ascii.eqb c (char_of 45))) (String.list_ascii_of_string docID)))).

(** [ORDER BY created_at ASC]. *)
Definition legacy_documents (s : RegStore) : list LegacyDocument :=
  order_by ld_created_at (bfilter (fun d => bool_decide (ld_controlled_document_id d = None)) (rg_legacy s)).

Definition link_legacy (docID cdID : string) (d : LegacyDocument) : LegacyDocument :=
  if str_eqb (ld_id d) docID && bool_decide (ld_controlled_document_id d = None)
  then mkLegacyDocument (ld_id d) (ld_tenant d) (Some cdID) (ld_created_at d) else d.

(** One document: one transaction. *)
Definition backfill_document (docID tenantID id : string) (now : Time) (s : RegStore) : Result RegStore :=
  let! tenant := uuid_param tenantID in
  let code := legacy_code docID in
  match select_one (cd_has_code tenant "unassigned" code) (rg_docs s) with
  | Some d =>
      inr (with_legacy (link_legacy docID (cd_ID d) <$> rg_legacy s)
             (with_docs ((fun e => if cd_has_code tenant "unassigned" code e then set_status (cd_Status e) now e else e)
                           <$> rg_docs s) s))
  | None =>
      let row := mkControlledDocument id tenant "unassigned" "unassigned" None code None "Legacy backfill" "system"
                   None CDStatusActive now now in
      let! s := insert_cd row s in
      inr (with_legacy (link_legacy docID id <$> rg_legacy s) s)
  end.

(** ** Operations *)

Inductive RegOp : Type -> Type :=
  | GetProfile (tenantID code : string) : RegOp DocumentProfile
  | ListProfiles (tenantID : string) (includeArchived : bool) : RegOp (list DocumentProfile)
  | CreateProfile (p : DocumentProfile) : RegOp unit
  | UpdateProfile (p : DocumentProfile) : RegOp unit
  | GetArea (tenantID code : string) : RegOp ProcessArea
  | ListAreas (tenantID : string) (includeArchived : bool) : RegOp (list ProcessArea)
  | CreateArea (a : ProcessArea) : RegOp unit
  | UpdateArea (a : ProcessArea) : RegOp unit
  | ListAncestors (tenantID code : string) : RegOp (list string)
  | IsPublished (versionID : string) : RegOp (bool * string)
  | GetTemplateVersionState (versionID : string) : RegOp (option string * string)
  | LogEvent (e : GovernanceEvent) : RegOp unit
  | GetDocument (tenantID id : string) : RegOp ControlledDocument
  | GetDocumentByCode (tenantID profileCode code : string) : RegOp ControlledDocument
  | CodeExists (tenantID profileCode code : string) : RegOp bool
  | ListDocuments (tenantID : string) (f : CDFilter) : RegOp (list ControlledDocument)
  | InsertDocument (doc : ControlledDocument) : RegOp ControlledDocument
  | UpdateStatus (tenantID id : string) (status : CDStatus) (updatedAt : Time) : RegOp unit
  | EnsureCounter (tenantID profileCode : string) : RegOp unit
  | BeginTx : RegOp unit
  | TxNext (tenantID profileCode : string) : RegOp Z
  | TxInsert (doc : ControlledDocument) : RegOp ControlledDocument
  | TxCommit (next : Z) (row : ControlledDocument) : RegOp unit
  | TxRollback : RegOp unit
  | TryAdvisoryLock : RegOp bool
  | AdvisoryUnlock : RegOp unit
  | LegacyDocuments : RegOp (list LegacyDocument)
  | BackfillDocument (docID tenantID : string) : RegOp unit
  | RegNow : RegOp Time.

(** The identifier the database draws, and whether the advisory lock is free. *)
Record RegDraw := mkRegDraw { rd_uuid : string; rd_lock_free : bool }.

Definition reg_wrote (r : Result RegStore) (s : RegStore) : Result unit * RegStore :=
  match r with inl e => (inl e, s) | inr s' => (inr tt, s') end.

Context `{Ilike}.

Definition reg_step {B} (o : RegOp B) (t : Time) (u : RegDraw) (s : RegStore) : Result B * RegStore :=
  match o in RegOp B return Result B * RegStore with
  | GetProfile tenantID code => (Profile_GetByCode tenantID code s, s)
  | ListProfiles tenantID includeArchived => (Profile_List tenantID includeArchived s, s)
  | CreateProfile p => reg_wrote (Profile_Create p t s) s
  | UpdateProfile p => reg_wrote (Profile_Update p s) s
  | GetArea tenantID code => (Area_GetByCode tenantID code s, s)
  | ListAreas tenantID includeArchived => (Area_List tenantID includeArchived s, s)
  | CreateArea a => reg_wrote (Area_Create a t s) s
  | UpdateArea a => reg_wrote (Area_Update a s) s
  | ListAncestors tenantID code => (Area_ListAncestors tenantID code s, s)
  | IsPublished versionID => (Taxonomy_IsPublished versionID s, s)
  | GetTemplateVersionState versionID => (Registry_GetTemplateVersionState versionID s, s)
  | LogEvent e => reg_wrote (Governance_Log e s) s
  | GetDocument tenantID id => (CD_GetByID tenantID id s, s)
  | GetDocumentByCode tenantID profileCode code => (CD_GetByCode tenantID profileCode code s, s)
  | CodeExists tenantID profileCode code => (CD_CodeExists tenantID profileCode code s, s)
  | ListDocuments tenantID f => (CD_List tenantID f s, s)
  | InsertDocument doc =>
      match cd_row doc (rd_uuid u) with
      | inl e => (inl e, s)
      | inr row => match insert_cd row s with inl e => (inl e, s) | inr s' => (inr row, s') end
      end
  | UpdateStatus tenantID id status updatedAt => reg_wrote (CD_UpdateStatus tenantID id status updatedAt s) s
  | EnsureCounter tenantID profileCode => reg_wrote (Seq_EnsureCounter tenantID profileCode s) s
  | BeginTx => (inr tt, s)
  | TxNext tenantID profileCode => (Seq_NextAndIncrement tenantID profileCode s, s)
  | TxInsert doc =>
      (let! row := cd_row doc (rd_uuid u) in let! _ := insert_cd row s in inr row, s)
  | TxCommit next row => reg_wrote (commit_document next row s) s
  | TxRollback => (inr tt, s)
  | TryAdvisoryLock => (inr (rd_lock_free u), s)
  | AdvisoryUnlock => (inr tt, s)
  | LegacyDocuments => (inr (legacy_documents s), s)
  | BackfillDocument docID tenantID => reg_wrote (backfill_document docID tenantID (rd_uuid u) t s) s
  | RegNow => (inr t, s)
  end.
End tables.

#[export] Instance reg_ports `{UuidText} `{JsonbText} `{Ilike} : Ports RegOp RegStore RegDraw :=
  {| step := @reg_step _ _ _; fallible B o := match o with RegNow => false | _ => true end |}.
