(* ===== verification/Taxonomy.v ===== *)
(** * Taxonomy

    [internal/modules/taxonomy]: the services of profiles and of process areas
    ([application/profile_service.go], [application/area_service.go]) as
    programs over the port of [RegistryTables], and the endpoints
    ([delivery/http]), whole. A reply holds the values it shows; error texts
    are not modelled. *)
From S2P Require Import Prelude Text Tables Programs ContentHash RegistryTables.
Local Open Scope Z_scope.

Abbreviation RM := (PM RegOp).

(** ** Profiles *)

Definition DocumentProfile_IsActive (p : DocumentProfile) : bool := bool_decide (dp_ArchivedAt p = None).

Definition archive_profile (now : Time) (p : DocumentProfile) : Result DocumentProfile :=
  if negb (DocumentProfile_IsActive p) then inl ErrProfileArchived
  else inr (mkDocumentProfile (dp_Code p) (dp_TenantID p) (dp_FamilyCode p) (dp_Name p) (dp_Description p) (dp_Alias p)
              (dp_ReviewIntervalDays p) (dp_DefaultTemplateVersionID p) (dp_OwnerUserID p) (dp_EditableByRole p)
              (Some now) (dp_CreatedAt p)).

Definition set_default (versionID : string) (p : DocumentProfile) : DocumentProfile :=
  mkDocumentProfile (dp_Code p) (dp_TenantID p) (dp_FamilyCode p) (dp_Name p) (dp_Description p) (dp_Alias p)
    (dp_ReviewIntervalDays p) (Some versionID) (dp_OwnerUserID p) (dp_EditableByRole p) (dp_ArchivedAt p) (dp_CreatedAt p).

(** [json.Marshal] of a map of strings. *)
Definition payload_of (m : list (string * string)) : string :=
  match json_Marshal (AnyMap ((fun kv => (kv.1, AnyString kv.2)) <$> m)) with inr s => s | inl _ => "" end.

Definition SetDefaultTemplate (tenantID profileCode templateVersionID actorID : string) : RM unit :=
  profile ← call (GetProfile tenantID profileCode);
  pguard (DocumentProfile_IsActive profile) ErrProfileArchived;;
  checked ← call (IsPublished templateVersionID);
  pguard (checked : bool * string).1 ErrTemplateNotPublished;;
  pguard (str_eqb checked.2 profileCode) ErrTemplateProfileMismatch;;
  call (UpdateProfile (set_default templateVersionID profile));;
  call (LogEvent (mkGovernanceEvent tenantID "profile.default_template_change" actorID "document_profile" profileCode ""
                    (payload_of [("template_version_id", templateVersionID)]))).

Definition ArchiveProfile (tenantID profileCode actorID : string) : RM unit :=
  profile ← call (GetProfile tenantID profileCode);
  now ← call RegNow;
  archived ← plift (archive_profile now profile);
  call (UpdateProfile archived);;
  call (LogEvent (mkGovernanceEvent tenantID "profile.archived" actorID "document_profile" profileCode "" "{}")).

(** ** Areas *)

Definition ProcessArea_IsActive (a : ProcessArea) : bool := bool_decide (pa_ArchivedAt a = None).

Definition archive_area (now : Time) (a : ProcessArea) : Result ProcessArea :=
  if negb (ProcessArea_IsActive a) then inl ErrAreaArchived
  else inr (mkProcessArea (pa_Code a) (pa_TenantID a) (pa_Name a) (pa_Description a) (pa_ParentCode a) (pa_OwnerUserID a)
              (pa_DefaultApproverRole a) (Some now) (pa_CreatedAt a)).

Definition set_parent (parent : option string) (a : ProcessArea) : ProcessArea :=
  mkProcessArea (pa_Code a) (pa_TenantID a) (pa_Name a) (pa_Description a) parent (pa_OwnerUserID a)
    (pa_DefaultApproverRole a) (pa_ArchivedAt a) (pa_CreatedAt a).

(** [SetParent], which no endpoint calls. *)
Definition SetParent (tenantID areaCode : string) (parentCode : option string) (actorID : string) : RM unit :=
  area ← call (GetArea tenantID areaCode);
  pguard (ProcessArea_IsActive area) ErrAreaArchived;;
  match parentCode with
  | Some parent =>
      pguard (negb (str_eqb parent areaCode)) ErrAreaParentCycle;;
      call (GetArea tenantID parent);;
      ancestors ← call (ListAncestors tenantID parent);
      pguard (negb (existsb (fun a => str_eqb a areaCode) (ancestors : list string))) ErrAreaParentCycle
  | None => mret tt
  end;;
  call (UpdateArea (set_parent parentCode area));;
  call (LogEvent (mkGovernanceEvent tenantID "area.parent_changed" actorID "process_area" areaCode "" "{}")).

Definition ArchiveArea (tenantID areaCode actorID : string) : RM unit :=
  area ← call (GetArea tenantID areaCode);
  now ← call RegNow;
  archived ← plift (archive_area now area);
  call (UpdateArea archived);;
  call (LogEvent (mkGovernanceEvent tenantID "area.archived" actorID "process_area" areaCode "" "{}")).

(** ** Requests *)

(** The query of the list of controlled documents. *)
Record FilterQuery := mkFilterQuery {
  fq_profileCode : string; fq_processAreaCode : string; fq_departmentCode : string; fq_ownerUserId : string;
  fq_q : string; fq_status : string; fq_limit : string; fq_offset : string
}.

(** What the handlers of both modules read: the tenant header, the user of the
    context, the wildcard of the path, the body's first JSON value, the query. *)
Record RegRequest := mkRegRequest {
  gq_XTenantID : string;
  gq_actor : string;
  gq_path : string;
  gq_body : option Any;
  gq_includeArchived : string;
  gq_filter : FilterQuery
}.

Inductive RegReply :=
  | RegError (status : Z) (code : string)
  | RegProfiles (items : list DocumentProfile)
  | RegProfile (status : Z) (p : DocumentProfile)
  | RegAreas (items : list ProcessArea)
  | RegArea (status : Z) (a : ProcessArea)
  | RegDocuments (items : list ControlledDocument)
  | RegDocument (status : Z) (d : ControlledDocument)
  | RegDone (status : Z).

Definition default_tenant : string := "ffffffff-ffff-ffff-ffff-ffffffffffff".

Definition request_tenant (r : RegRequest) : string :=
  if str_eqb (TrimSpace (gq_XTenantID r)) "" then default_tenant else TrimSpace (gq_XTenantID r).

(** A reply for every outcome. *)
Definition replying {A} (on_error : Error -> RegReply) (on_ok : A -> RegReply) (m : RM A) : RM RegReply :=
  prog_bind (fun r => Ret (inr (match r with inl e => on_error e | inr a => on_ok a end))) m.

(** [strconv.ParseBool]. *)
Definition ParseBool (s : string) : option bool :=
  if bool_decide (s ∈ ["1"; "t"; "T"; "TRUE"; "true"; "True"]) then Some true
  else if bool_decide (s ∈ ["0"; "f"; "F"; "FALSE"; "false"; "False"]) then Some false
  else None.

Definition parseIncludeArchived (r : RegRequest) : option bool :=
  let raw := TrimSpace (gq_includeArchived r) in if str_eqb raw "" then Some false else ParseBool raw.

Definition invalid_payload : RM RegReply := mret (RegError 400 "VALIDATION_ERROR").

(** ** Bodies *)

Record ProfileUpsert := mkProfileUpsert {
  pu_Code : string; pu_FamilyCode : string; pu_Name : string; pu_Description : string; pu_Alias : string;
  pu_ReviewIntervalDays : Z; pu_DefaultTemplateVersionID : option string; pu_OwnerUserID : option string;
  pu_EditableByRole : string
}.

Definition profile_fields :=
  [("code", string_field (fun x r => mkProfileUpsert x (pu_FamilyCode r) (pu_Name r) (pu_Description r) (pu_Alias r)
      (pu_ReviewIntervalDays r) (pu_DefaultTemplateVersionID r) (pu_OwnerUserID r) (pu_EditableByRole r)));
   ("familyCode", string_field (fun x r => mkProfileUpsert (pu_Code r) x (pu_Name r) (pu_Description r) (pu_Alias r)
      (pu_ReviewIntervalDays r) (pu_DefaultTemplateVersionID r) (pu_OwnerUserID r) (pu_EditableByRole r)));
   ("name", string_field (fun x r => mkProfileUpsert (pu_Code r) (pu_FamilyCode r) x (pu_Description r) (pu_Alias r)
      (pu_ReviewIntervalDays r) (pu_DefaultTemplateVersionID r) (pu_OwnerUserID r) (pu_EditableByRole r)));
   ("description", string_field (fun x r => mkProfileUpsert (pu_Code r) (pu_FamilyCode r) (pu_Name r) x (pu_Alias r)
      (pu_ReviewIntervalDays r) (pu_DefaultTemplateVersionID r) (pu_OwnerUserID r) (pu_EditableByRole r)));
   ("alias", string_field (fun x r => mkProfileUpsert (pu_Code r) (pu_FamilyCode r) (pu_Name r) (pu_Description r) x
      (pu_ReviewIntervalDays r) (pu_DefaultTemplateVersionID r) (pu_OwnerUserID r) (pu_EditableByRole r)));
   ("reviewIntervalDays", int_field (fun x r => mkProfileUpsert (pu_Code r) (pu_FamilyCode r) (pu_Name r)
      (pu_Description r) (pu_Alias r) x (pu_DefaultTemplateVersionID r) (pu_OwnerUserID r) (pu_EditableByRole r)));
   ("defaultTemplateVersionId", string_ptr_field (fun x r => mkProfileUpsert (pu_Code r) (pu_FamilyCode r) (pu_Name r)
      (pu_Description r) (pu_Alias r) (pu_ReviewIntervalDays r) x (pu_OwnerUserID r) (pu_EditableByRole r)));
   ("ownerUserId", string_ptr_field (fun x r => mkProfileUpsert (pu_Code r) (pu_FamilyCode r) (pu_Name r)
      (pu_Description r) (pu_Alias r) (pu_ReviewIntervalDays r) (pu_DefaultTemplateVersionID r) x (pu_EditableByRole r)));
   ("editableByRole", string_field (fun x r => mkProfileUpsert (pu_Code r) (pu_FamilyCode r) (pu_Name r)
      (pu_Description r) (pu_Alias r) (pu_ReviewIntervalDays r) (pu_DefaultTemplateVersionID r) (pu_OwnerUserID r) x))].

Definition template_fields : list (string * (Any -> string -> Result string)) :=
  [("templateVersionId", string_field (fun x _ => x))].

Record AreaUpsert := mkAreaUpsert {
  au_Code : string; au_Name : string; au_Description : string; au_ParentCode : option string;
  au_OwnerUserID : option string; au_DefaultApproverRole : option string
}.

Definition area_fields :=
  [("code", string_field (fun x r => mkAreaUpsert x (au_Name r) (au_Description r) (au_ParentCode r) (au_OwnerUserID r) (au_DefaultApproverRole r)));
   ("name", string_field (fun x r => mkAreaUpsert (au_Code r) x (au_Description r) (au_ParentCode r) (au_OwnerUserID r) (au_DefaultApproverRole r)));
   ("description", string_field (fun x r => mkAreaUpsert (au_Code r) (au_Name r) x (au_ParentCode r) (au_OwnerUserID r) (au_DefaultApproverRole r)));
   ("parentCode", string_ptr_field (fun x r => mkAreaUpsert (au_Code r) (au_Name r) (au_Description r) x (au_OwnerUserID r) (au_DefaultApproverRole r)));
   ("ownerUserId", string_ptr_field (fun x r => mkAreaUpsert (au_Code r) (au_Name r) (au_Description r) (au_ParentCode r) x (au_DefaultApproverRole r)));
   ("defaultApproverRole", string_ptr_field (fun x r => mkAreaUpsert (au_Code r) (au_Name r) (au_Description r) (au_ParentCode r) (au_OwnerUserID r) x))].

(** ** The endpoints of profiles *)

Definition writeProfileError (e : Error) : RegReply :=
  if errors_Is e ErrProfileNotFound then RegError 404 "PROFILE_NOT_FOUND"
  else if errors_Is e ErrProfileArchived then RegError 409 "PROFILE_ARCHIVED"
  else if errors_Is e ErrTemplateNotPublished then RegError 409 "TEMPLATE_NOT_PUBLISHED"
  else if errors_Is e ErrTemplateProfileMismatch then RegError 409 "TEMPLATE_PROFILE_MISMATCH"
  else if errors_Is e ErrProfileCodeImmutable then RegError 400 "PROFILE_CODE_IMMUTABLE"
  else RegError 500 "INTERNAL_ERROR".

(** An empty alias is the code, cut at 24 bytes. *)
Definition alias_or_code (alias code : string) : string :=
  if str_eqb (TrimSpace alias) "" then String.substring 0 24 code else TrimSpace alias.

Definition profile_of (tenant code : string) (b : ProfileUpsert) : DocumentProfile :=
  mkDocumentProfile code tenant (TrimSpace (pu_FamilyCode b)) (TrimSpace (pu_Name b)) (TrimSpace (pu_Description b))
    (alias_or_code (pu_Alias b) code) (pu_ReviewIntervalDays b) (pu_DefaultTemplateVersionID b) (pu_OwnerUserID b)
    (TrimSpace (pu_EditableByRole b)) None 0.

Definition no_profile : ProfileUpsert := mkProfileUpsert "" "" "" "" "" 0 None None "".

Definition listProfiles (r : RegRequest) : RM RegReply :=
  match parseIncludeArchived r with
  | None => invalid_payload
  | Some archived =>
      replying (fun _ => RegError 500 "INTERNAL_ERROR") RegProfiles (call (ListProfiles (request_tenant r) archived))
  end.

Definition createProfile (r : RegRequest) : RM RegReply :=
  match decode_body profile_fields no_profile (gq_body r) with
  | inl _ => invalid_payload
  | inr b =>
      let p := profile_of (request_tenant r) (TrimSpace (pu_Code b)) b in
      if str_eqb (dp_Code p) "" then invalid_payload
      else replying writeProfileError (fun _ => RegProfile 201 p) (call (CreateProfile p))
  end.

Definition getProfile (r : RegRequest) : RM RegReply :=
  replying writeProfileError (RegProfile 200) (call (GetProfile (request_tenant r) (gq_path r))).

Definition updateProfile (r : RegRequest) : RM RegReply :=
  match decode_body profile_fields no_profile (gq_body r) with
  | inl _ => invalid_payload
  | inr b =>
      let p := profile_of (request_tenant r) (gq_path r) b in
      replying writeProfileError (fun _ => RegProfile 200 p) (call (UpdateProfile p))
  end.

Definition setDefaultTemplate (r : RegRequest) : RM RegReply :=
  match decode_body template_fields "" (gq_body r) with
  | inl _ => invalid_payload
  | inr versionID =>
      if str_eqb (TrimSpace versionID) "" then invalid_payload
      else replying writeProfileError (fun _ => RegDone 200)
             (SetDefaultTemplate (request_tenant r) (gq_path r) versionID (gq_actor r))
  end.

Definition archiveProfile (r : RegRequest) : RM RegReply :=
  replying writeProfileError (fun _ => RegDone 204) (ArchiveProfile (request_tenant r) (gq_path r) (gq_actor r)).

(** ** The endpoints of areas *)

Definition writeAreaError (e : Error) : RegReply :=
  if errors_Is e ErrAreaNotFound then RegError 404 "AREA_NOT_FOUND"
  else if errors_Is e ErrAreaArchived then RegError 409 "AREA_ARCHIVED"
  else if errors_Is e ErrAreaParentCycle then RegError 400 "AREA_PARENT_CYCLE"
  else if errors_Is e ErrAreaCodeImmutable then RegError 400 "AREA_CODE_IMMUTABLE"
  else RegError 500 "INTERNAL_ERROR".

Definition area_of (tenant code : string) (b : AreaUpsert) : ProcessArea :=
  mkProcessArea code tenant (TrimSpace (au_Name b)) (TrimSpace (au_Description b)) (au_ParentCode b) (au_OwnerUserID b)
    (au_DefaultApproverRole b) None 0.

Definition no_area : AreaUpsert := mkAreaUpsert "" "" "" None None None.

Definition listAreas (r : RegRequest) : RM RegReply :=
  match parseIncludeArchived r with
  | None => invalid_payload
  | Some archived =>
      replying (fun _ => RegError 500 "INTERNAL_ERROR") RegAreas (call (ListAreas (request_tenant r) archived))
  end.

Definition createArea (r : RegRequest) : RM RegReply :=
  match decode_body area_fields no_area (gq_body r) with
  | inl _ => invalid_payload
  | inr b =>
      let a := area_of (request_tenant r) (TrimSpace (au_Code b)) b in
      if str_eqb (pa_Code a) "" then invalid_payload
      else replying writeAreaError (fun _ => RegArea 201 a) (call (CreateArea a))
  end.

Definition getArea (r : RegRequest) : RM RegReply :=
  replying writeAreaError (RegArea 200) (call (GetArea (request_tenant r) (gq_path r))).

Definition updateArea (r : RegRequest) : RM RegReply :=
  match decode_body area_fields no_area (gq_body r) with
  | inl _ => invalid_payload
  | inr b =>
      let a := area_of (request_tenant r) (gq_path r) b in
      replying writeAreaError (fun _ => RegArea 200 a) (call (UpdateArea a))
  end.

Definition archiveArea (r : RegRequest) : RM RegReply :=
  replying writeAreaError (fun _ => RegDone 204) (ArchiveArea (request_tenant r) (gq_path r) (gq_actor r)).
