(* ===== verification/Registry.v ===== *)
(** * Registry

    [internal/modules/registry]: the registry of controlled documents
    ([application/service.go]), the duplicator of
    [apps/api/cmd/metaldocs-api/main.go], the start-up migration
    ([application/migration.go]) and the endpoints ([delivery/http]), but for
    the one that reads the tables of the editor and the approvals. *)
From S2P Require Import Prelude Text Tables Programs ContentHash EditorDomain Editor RegistryTables Taxonomy.
Local Open Scope Z_scope.

(** ** Registering *)

Record CreateControlledDocumentCmd := mkCreateControlledDocumentCmd {
  cc_TenantID : string;
  cc_ProfileCode : string;
  cc_ProcessAreaCode : string;
  cc_DepartmentCode : option string;
  cc_Title : string;
  cc_OwnerUserID : string;
  cc_ActorUserID : string;
  cc_ManualCode : option string;
  cc_ManualCodeReason : option string;
  cc_OverrideTemplateVersionID : option string;
  cc_OverrideTemplateReason : option string
}.

Definition cd_IsActive (d : ControlledDocument) : bool := bool_decide (cd_Status d = CDStatusActive).

(** Ten bytes at least. *)
Definition isReasonValid (reason : option string) : bool :=
  match reason with None => false | Some r => (10 <=? String.length (TrimSpace r))%nat end.

Definition reason_text (reason : option string) : string := TrimSpace (default "" reason).

Definition numbering_event (cmd : CreateControlledDocumentCmd) (code : string) : GovernanceEvent :=
  mkGovernanceEvent (cc_TenantID cmd) "numbering.override" (cc_ActorUserID cmd) "controlled_document" code
    (reason_text (cc_ManualCodeReason cmd)) (payload_of [("code", code)]).

Definition override_event (cmd : CreateControlledDocumentCmd) (code version : string) : GovernanceEvent :=
  mkGovernanceEvent (cc_TenantID cmd) "template.override" (cc_ActorUserID cmd) "controlled_document" code
    (reason_text (cc_OverrideTemplateReason cmd)) (payload_of [("override_template_version_id", version)]).

(** The override, when one is asked for: its events. *)
Definition check_override (cmd : CreateControlledDocumentCmd) (code : string) : RM (list GovernanceEvent) :=
  match cc_OverrideTemplateVersionID cmd with
  | None => mret []
  | Some version =>
      pguard (isReasonValid (cc_OverrideTemplateReason cmd)) ErrOverrideReasonRequired;;
      state ← call (GetTemplateVersionState version);
      plift (Resolve (cc_ProfileCode cmd)
               (Some (mkTemplateVersionCandidate version (state : option string * string).2 state.1)) None);;
      mret [override_event cmd code version]
  end.

Definition new_document (cmd : CreateControlledDocumentCmd) (code : string) (number : option Z) (now : Time)
    : ControlledDocument :=
  mkControlledDocument "" (cc_TenantID cmd) (cc_ProfileCode cmd) (cc_ProcessAreaCode cmd) (cc_DepartmentCode cmd) code
    number (cc_Title cmd) (cc_OwnerUserID cmd) (cc_OverrideTemplateVersionID cmd) CDStatusActive now now.

Definition with_id (row doc : ControlledDocument) : ControlledDocument :=
  mkControlledDocument (cd_ID row) (cd_TenantID doc) (cd_ProfileCode doc) (cd_ProcessAreaCode doc)
    (cd_DepartmentCode doc) (cd_Code doc) (cd_SequenceNum doc) (cd_Title doc) (cd_OwnerUserID doc)
    (cd_OverrideTemplateVersionID doc) (cd_Status doc) (cd_CreatedAt doc) (cd_UpdatedAt doc).

Definition is_unique_violation (e : Error) : bool :=
  match errors_As_PgError e with Some (code, _, _) => str_eqb code "23505" | None => false end.

(** [createWithQueryer]: the row inserted, or why its code cannot be used; the
    second look is not part of the transaction. *)
Definition create_with (insert : RegOp ControlledDocument) (doc : ControlledDocument) : RM ControlledDocument :=
  inserted ← attempt insert;
  match inserted : Result ControlledDocument with
  | inr row => mret row
  | inl e =>
      if is_unique_violation e then
        existing ← attempt (GetDocumentByCode (cd_TenantID doc) (cd_ProfileCode doc) (cd_Code doc));
        match existing : Result ControlledDocument with
        | inr d => if cd_IsActive d then fail ErrCDCodeTaken else fail ErrCDArchivedCodeReuse
        | inl _ => fail ErrCDCodeTaken
        end
      else fail e
  end.

(** The deferred [Rollback] of an error. *)
Definition rolling_back {A} (m : RM A) : RM A :=
  prog_bind (fun r => match r with
                      | inl e => attempt TxRollback;; fail e
                      | inr a => Ret (inr a)
                      end) m.

(** Events that are lost do not fail the request. *)
Fixpoint log_all (events : list GovernanceEvent) : RM unit :=
  match events with
  | [] => mret tt
  | e :: rest => attempt (LogEvent e);; log_all rest
  end.

(** A code chosen by the user. *)
Definition create_manual (cmd : CreateControlledDocumentCmd) (manual : string) : RM ControlledDocument :=
  pguard (isReasonValid (cc_ManualCodeReason cmd)) ErrManualCodeReasonRequired;;
  let code := TrimSpace manual in
  taken ← call (CodeExists (cc_TenantID cmd) (cc_ProfileCode cmd) code);
  pguard (negb taken) ErrCDCodeTaken;;
  events ← check_override cmd code;
  now ← call RegNow;
  let doc := new_document cmd code None now in
  row ← create_with (InsertDocument doc) doc;
  log_all (numbering_event cmd code :: events);;
  mret (with_id row doc).

(** The next number of the profile, in one transaction with the document. *)
Definition create_numbered (cmd : CreateControlledDocumentCmd) : RM ControlledDocument :=
  call BeginTx;;
  created ← rolling_back (
    next ← call (TxNext (cc_TenantID cmd) (cc_ProfileCode cmd));
    let code := AutoCode (cc_ProfileCode cmd) next in
    taken ← call (CodeExists (cc_TenantID cmd) (cc_ProfileCode cmd) code);
    pguard (negb taken) ErrCDCodeTaken;;
    events ← check_override cmd code;
    now ← call RegNow;
    let doc := new_document cmd code (Some next) now in
    row ← create_with (TxInsert doc) doc;
    call (TxCommit next row);;
    mret (with_id row doc, events));
  log_all (created : ControlledDocument * list GovernanceEvent).2;;
  mret created.1.

Definition Registry_Create (cmd : CreateControlledDocumentCmd) : RM ControlledDocument :=
  profile ← call (GetProfile (cc_TenantID cmd) (cc_ProfileCode cmd));
  pguard (DocumentProfile_IsActive profile) ErrProfileArchived;;
  area ← call (GetArea (cc_TenantID cmd) (cc_ProcessAreaCode cmd));
  pguard (ProcessArea_IsActive area) ErrAreaArchived;;
  match cc_ManualCode cmd with
  | Some manual => create_manual cmd manual
  | None => create_numbered cmd
  end.

Definition changeStatus (tenantID id : string) (next : CDStatus) : RM unit :=
  doc ← call (GetDocument tenantID id);
  pguard (cd_IsActive doc) Editor.ErrCDNotActive;;
  now ← call RegNow;
  call (UpdateStatus tenantID id next now).

Definition Obsolete (tenantID id : string) : RM unit := changeStatus tenantID id CDStatusObsolete.
Definition Supersede (tenantID id : string) : RM unit := changeStatus tenantID id CDStatusSuperseded.

(** [registryControlledDocumentDuplicator]. *)
Definition DuplicateControlledDocument (tenantID id actorUserID : string) : RM ControlledDocument :=
  source ← call (GetDocument tenantID id);
  Registry_Create (mkCreateControlledDocumentCmd tenantID (cd_ProfileCode source) (cd_ProcessAreaCode source)
    (cd_DepartmentCode source) (cd_Title source) (cd_OwnerUserID source) actorUserID None None
    (cd_OverrideTemplateVersionID source)
    (match cd_OverrideTemplateVersionID source with
     | Some _ => Some "Duplicated from existing controlled document"
     | None => None
     end)).

(** ** The start-up migration: an error of one document is logged and skipped *)

Fixpoint backfill_all (docs : list LegacyDocument) : RM unit :=
  match docs with
  | [] => mret tt
  | d :: rest => attempt (BackfillDocument (ld_id d) (ld_tenant d));; backfill_all rest
  end.

Definition BackfillLegacyDocuments : RM unit :=
  locked ← pmap_err (Wrapf "acquire backfill advisory lock: %w" []) (call TryAdvisoryLock);
  if negb locked then mret tt
  else
    prog_bind (fun r => attempt AdvisoryUnlock;; Ret r)
      (docs ← pmap_err (Wrapf "query legacy documents: %w" []) (call LegacyDocuments);
       backfill_all docs).

(** ** The endpoints *)

Definition writeDomainError (e : Error) : RegReply :=
  if errors_Is e ErrCDNotFound then RegError 404 "CONTROLLED_DOCUMENT_NOT_FOUND"
  else if errors_Is e Editor.ErrCDNotActive then RegError 409 "CONTROLLED_DOCUMENT_NOT_ACTIVE"
  else if errors_Is e ErrCDCodeTaken then RegError 409 "CONTROLLED_DOCUMENT_CODE_TAKEN"
  else if errors_Is e ErrCDArchivedCodeReuse then RegError 409 "CONTROLLED_DOCUMENT_CODE_ARCHIVED"
  else if errors_Is e ErrManualCodeReasonRequired then RegError 400 "MANUAL_CODE_REASON_REQUIRED"
  else if errors_Is e ErrOverrideReasonRequired then RegError 400 "OVERRIDE_REASON_REQUIRED"
  else if errors_Is e ErrOverrideTemplateDeleted then RegError 409 "OVERRIDE_TEMPLATE_DELETED"
  else if errors_Is e ErrOverrideNotPublished then RegError 409 "OVERRIDE_TEMPLATE_NOT_PUBLISHED"
  else if errors_Is e EditorDomain.ErrTemplateProfileMismatch then RegError 409 "TEMPLATE_PROFILE_MISMATCH"
  else if errors_Is e ErrProfileHasNoDefaultTemplate then RegError 409 "PROFILE_NO_DEFAULT_TEMPLATE"
  else if errors_Is e ErrDefaultObsolete then RegError 409 "DEFAULT_TEMPLATE_OBSOLETE"
  else if errors_Is e ErrProfileNotFound then RegError 404 "PROFILE_NOT_FOUND"
  else if errors_Is e ErrAreaNotFound then RegError 404 "AREA_NOT_FOUND"
  else if errors_Is e ErrProfileArchived then RegError 409 "PROFILE_ARCHIVED"
  else if errors_Is e ErrAreaArchived then RegError 409 "AREA_ARCHIVED"
  else RegError 500 "INTERNAL_ERROR".

Record CreateDocRequest := mkCreateDocRequest {
  cr_ProfileCode : string; cr_ProcessAreaCode : string; cr_DepartmentCode : option string; cr_Title : string;
  cr_OwnerUserID : string; cr_ManualCode : option string; cr_ManualCodeReason : option string;
  cr_OverrideTemplateVersionID : option string; cr_OverrideTemplateReason : option string
}.

Definition create_doc_fields :=
  [("profileCode", string_field (fun x r => mkCreateDocRequest x (cr_ProcessAreaCode r) (cr_DepartmentCode r) (cr_Title r)
      (cr_OwnerUserID r) (cr_ManualCode r) (cr_ManualCodeReason r) (cr_OverrideTemplateVersionID r) (cr_OverrideTemplateReason r)));
   ("processAreaCode", string_field (fun x r => mkCreateDocRequest (cr_ProfileCode r) x (cr_DepartmentCode r) (cr_Title r)
      (cr_OwnerUserID r) (cr_ManualCode r) (cr_ManualCodeReason r) (cr_OverrideTemplateVersionID r) (cr_OverrideTemplateReason r)));
   ("departmentCode", string_ptr_field (fun x r => mkCreateDocRequest (cr_ProfileCode r) (cr_ProcessAreaCode r) x (cr_Title r)
      (cr_OwnerUserID r) (cr_ManualCode r) (cr_ManualCodeReason r) (cr_OverrideTemplateVersionID r) (cr_OverrideTemplateReason r)));
   ("title", string_field (fun x r => mkCreateDocRequest (cr_ProfileCode r) (cr_ProcessAreaCode r) (cr_DepartmentCode r) x
      (cr_OwnerUserID r) (cr_ManualCode r) (cr_ManualCodeReason r) (cr_OverrideTemplateVersionID r) (cr_OverrideTemplateReason r)));
   ("ownerUserId", string_field (fun x r => mkCreateDocRequest (cr_ProfileCode r) (cr_ProcessAreaCode r) (cr_DepartmentCode r)
      (cr_Title r) x (cr_ManualCode r) (cr_ManualCodeReason r) (cr_OverrideTemplateVersionID r) (cr_OverrideTemplateReason r)));
   ("manualCode", string_ptr_field (fun x r => mkCreateDocRequest (cr_ProfileCode r) (cr_ProcessAreaCode r) (cr_DepartmentCode r)
      (cr_Title r) (cr_OwnerUserID r) x (cr_ManualCodeReason r) (cr_OverrideTemplateVersionID r) (cr_OverrideTemplateReason r)));
   ("manualCodeReason", string_ptr_field (fun x r => mkCreateDocRequest (cr_ProfileCode r) (cr_ProcessAreaCode r)
      (cr_DepartmentCode r) (cr_Title r) (cr_OwnerUserID r) (cr_ManualCode r) x (cr_OverrideTemplateVersionID r) (cr_OverrideTemplateReason r)));
   ("overrideTemplateVersionId", string_ptr_field (fun x r => mkCreateDocRequest (cr_ProfileCode r) (cr_ProcessAreaCode r)
      (cr_DepartmentCode r) (cr_Title r) (cr_OwnerUserID r) (cr_ManualCode r) (cr_ManualCodeReason r) x (cr_OverrideTemplateReason r)));
   ("overrideTemplateReason", string_ptr_field (fun x r => mkCreateDocRequest (cr_ProfileCode r) (cr_ProcessAreaCode r)
      (cr_DepartmentCode r) (cr_Title r) (cr_OwnerUserID r) (cr_ManualCode r) (cr_ManualCodeReason r) (cr_OverrideTemplateVersionID r) x))].

Definition no_document : CreateDocRequest := mkCreateDocRequest "" "" None "" "" None None None None.

Definition create_cmd (r : RegRequest) (b : CreateDocRequest) : CreateControlledDocumentCmd :=
  mkCreateControlledDocumentCmd (request_tenant r) (TrimSpace (cr_ProfileCode b)) (TrimSpace (cr_ProcessAreaCode b))
    (cr_DepartmentCode b) (TrimSpace (cr_Title b)) (TrimSpace (cr_OwnerUserID b)) (gq_actor r) (cr_ManualCode b)
    (cr_ManualCodeReason b) (cr_OverrideTemplateVersionID b) (cr_OverrideTemplateReason b).

Definition given (value : string) : option string :=
  if str_eqb (TrimSpace value) "" then None else Some (TrimSpace value).

(** A count that is absent, or not negative. *)
Definition count_value (value : string) : option Z :=
  match given value with
  | None => Some 0
  | Some v => match Atoi v with Some n => if n <? 0 then None else Some n | None => None end
  end.

Definition status_value (value : string) : option (option CDStatus) :=
  match given value with
  | None => Some None
  | Some v =>
      if str_eqb v "active" then Some (Some CDStatusActive)
      else if str_eqb v "obsolete" then Some (Some CDStatusObsolete)
      else if str_eqb v "superseded" then Some (Some CDStatusSuperseded)
      else None
  end.

Definition parseFilter (q : FilterQuery) : option CDFilter :=
  match status_value (fq_status q), count_value (fq_limit q), count_value (fq_offset q) with
  | Some status, Some limit, Some offset =>
      Some (mkCDFilter (given (fq_profileCode q)) (given (fq_processAreaCode q)) [] (given (fq_departmentCode q))
              (given (fq_ownerUserId q)) status (given (fq_q q)) limit offset)
  | _, _, _ => None
  end.

Definition listDocs (r : RegRequest) : RM RegReply :=
  match parseFilter (gq_filter r) with
  | None => invalid_payload
  | Some f => replying writeDomainError RegDocuments (call (ListDocuments (request_tenant r) f))
  end.

Definition createDoc (r : RegRequest) : RM RegReply :=
  match decode_body create_doc_fields no_document (gq_body r) with
  | inl _ => invalid_payload
  | inr b => replying writeDomainError (RegDocument 201) (Registry_Create (create_cmd r b))
  end.

Definition getDoc (r : RegRequest) : RM RegReply :=
  replying writeDomainError (RegDocument 200) (call (GetDocument (request_tenant r) (gq_path r))).

Definition obsoleteDoc (r : RegRequest) : RM RegReply :=
  replying writeDomainError (fun _ => RegDone 204) (Obsolete (request_tenant r) (gq_path r)).

Definition supersedeDoc (r : RegRequest) : RM RegReply :=
  replying writeDomainError (fun _ => RegDone 204) (Supersede (request_tenant r) (gq_path r)).

(** ** Requests to both modules, and what the rest of the program does *)

Inductive RegCall :=
  | CallListProfiles (r : RegRequest)
  | CallCreateProfile (r : RegRequest)
  | CallGetProfile (r : RegRequest)
  | CallUpdateProfile (r : RegRequest)
  | CallSetDefaultTemplate (r : RegRequest)
  | CallArchiveProfile (r : RegRequest)
  | CallListAreas (r : RegRequest)
  | CallCreateArea (r : RegRequest)
  | CallGetArea (r : RegRequest)
  | CallUpdateArea (r : RegRequest)
  | CallArchiveArea (r : RegRequest)
  | CallListDocs (r : RegRequest)
  | CallCreateDoc (r : RegRequest)
  | CallGetDoc (r : RegRequest)
  | CallObsoleteDoc (r : RegRequest)
  | CallSupersedeDoc (r : RegRequest)
  | CallDuplicate (tenantID id actor : string)
  | CallBackfill.

Definition serve_registry (c : RegCall) : RM RegReply :=
  match c with
  | CallListProfiles r => listProfiles r
  | CallCreateProfile r => createProfile r
  | CallGetProfile r => getProfile r
  | CallUpdateProfile r => updateProfile r
  | CallSetDefaultTemplate r => setDefaultTemplate r
  | CallArchiveProfile r => archiveProfile r
  | CallListAreas r => listAreas r
  | CallCreateArea r => createArea r
  | CallGetArea r => getArea r
  | CallUpdateArea r => updateArea r
  | CallArchiveArea r => archiveArea r
  | CallListDocs r => listDocs r
  | CallCreateDoc r => createDoc r
  | CallGetDoc r => getDoc r
  | CallObsoleteDoc r => obsoleteDoc r
  | CallSupersedeDoc r => supersedeDoc r
  | CallDuplicate tenantID id actor =>
      replying writeDomainError (RegDocument 201) (DuplicateControlledDocument tenantID id actor)
  | CallBackfill => replying writeDomainError (fun _ => RegDone 200) BackfillLegacyDocuments
  end.

(** Other modules: template versions come and change status, families are
    added, documents are created with their controlled document. *)
Definition reg_outside (s s' : RegStore) : Prop :=
  rg_profiles s' = rg_profiles s /\ rg_areas s' = rg_areas s /\ rg_docs s' = rg_docs s /\ rg_counters s' = rg_counters s.
