(* ===== verification/RegistryFacts.v ===== *)
(** * Registry: numbers and codes

    The invariant of the tables and what every request keeps of them, whatever
    interleaves and fails: the numbers of a profile have no gaps, documents keep
    their identity; and that a code taken by hand may end the numbering. *)
From S2P Require Import Prelude Text Tables Programs ProgramLogic ContentHash RegistryTables Taxonomy Registry.
From stdpp Require Import relations.
Local Open Scope Z_scope.

(** ** The invariant *)

Definition of_profile (tenant profile : string) (d : ControlledDocument) : bool :=
  str_eqb (cd_TenantID d) tenant && str_eqb (cd_ProfileCode d) profile.

(** The numbers of a profile, in the order of registration. *)
Definition numbers (tenant profile : string) (docs : list ControlledDocument) : list Z :=
  omap cd_SequenceNum (bfilter (of_profile tenant profile) docs).

Definition cd_key (d : ControlledDocument) : string * string * string := (cd_TenantID d, cd_ProfileCode d, cd_Code d).

(** A document later: its status and the time of its change differ at most, and
    it is not active again. *)
Definition same_document (d d' : ControlledDocument) : Prop :=
  exists status at_, d' = set_status status at_ d /\ (status = CDStatusActive -> cd_Status d = CDStatusActive).

Definition profile_key (p : DocumentProfile) : string * string := (dp_TenantID p, dp_Code p).
Definition area_key (a : ProcessArea) : string * string := (pa_TenantID a, pa_Code a).

Record reg_ok (s : RegStore) : Prop := {
  ok_profiles : NoDup (dp_Code <$> rg_profiles s);
  ok_areas : NoDup (pa_Code <$> rg_areas s);
  ok_parents : forall a, a ∈ rg_areas s -> parent_exists (rg_areas s) a = true;
  ok_ids : NoDup (cd_ID <$> rg_docs s);
  ok_codes : NoDup (cd_key <$> rg_docs s);
  ok_references : forall d, d ∈ rg_docs s ->
    has_profile s (cd_TenantID d) (cd_ProfileCode d) = true /\ has_area s (cd_TenantID d) (cd_ProcessAreaCode d) = true;
  ok_counters : forall tenant profile, 1 <= next_seq tenant profile (rg_counters s) <= int4_max;
  ok_numbers : forall tenant profile,
    numbers tenant profile (rg_docs s) = seqZ 1 (next_seq tenant profile (rg_counters s) - 1)
}.

(** Documents are kept, and the codes of profiles and areas. *)
Definition keeps_keys {A K} (key : A -> K) (l l' : list A) : Prop := exists new, key <$> l' = (key <$> l) ++ new.

Record reg_extends (s s' : RegStore) : Prop := {
  ext_docs : grows same_document (rg_docs s) (rg_docs s');
  ext_profiles : keeps_keys profile_key (rg_profiles s) (rg_profiles s');
  ext_areas : keeps_keys area_key (rg_areas s) (rg_areas s')
}.

#[export] Instance same_document_preorder : PreOrder same_document.
Proof.
  split.
  - intros d. exists (cd_Status d), (cd_UpdatedAt d). by destruct d.
  - intros d1 d2 d3 (? & ? & -> & H1) (s & t & -> & H2). exists s, t. cbn in H2. auto.
Qed.

#[export] Instance keeps_keys_preorder {A K} (key : A -> K) : PreOrder (keeps_keys key).
Proof.
  split; [intros l; exists []; by rewrite app_nil_r|].
  intros l1 l2 l3 [n1 H1] [n2 H2]. exists (n1 ++ n2). by rewrite H2, H1, app_assoc.
Qed.

#[export] Instance reg_extends_preorder : PreOrder reg_extends.
Proof.
  split; [intros s; split; reflexivity|]. intros a b c [D1 P1 A1] [D2 P2 A2]. split; by etrans.
Qed.

(** ** Keys under updates *)

Lemma keeps_keys_same {A K} (key : A -> K) (l l' : list A) : key <$> l' = key <$> l -> keeps_keys key l l'.
Proof. intros E. exists []. by rewrite app_nil_r. Qed.

Lemma keeps_keys_snoc {A K} (key : A -> K) (l : list A) x : keeps_keys key l (l ++ [x]).
Proof. exists [key x]. by rewrite fmap_app. Qed.

(** A test on the keys of a table that grows. *)
Lemma keeps_keys_exists {A K} (key : A -> K) (f : K -> bool) (l l' : list A) :
  keeps_keys key l l' -> existsb (fun x => f (key x)) l = true -> existsb (fun x => f (key x)) l' = true.
Proof.
  intros [new Hnew] (x & Hx & Hf)%existsb_true_elem. apply existsb_exists.
  assert (key x ∈ key <$> l') as (y & E & Hy)%list_elem_of_fmap.
  { rewrite Hnew. apply elem_of_app. left. apply list_elem_of_fmap. by exists x. }
  exists y. split; [by apply list_elem_of_In|congruence].
Qed.

Lemma has_profile_kept s s' tenant code :
  keeps_keys profile_key (rg_profiles s) (rg_profiles s') -> has_profile s tenant code = true -> has_profile s' tenant code = true.
Proof. apply (keeps_keys_exists profile_key (fun k => str_eqb k.1 tenant && str_eqb k.2 code)). Qed.

Lemma has_area_kept s s' tenant code :
  keeps_keys area_key (rg_areas s) (rg_areas s') -> has_area s tenant code = true -> has_area s' tenant code = true.
Proof. apply (keeps_keys_exists area_key (fun k => str_eqb k.1 tenant && str_eqb k.2 code)). Qed.

Lemma same_documents_key {K} (key : ControlledDocument -> K) docs docs' :
  (forall d d', same_document d d' -> key d' = key d) ->
  Forall2 same_document docs docs' -> key <$> docs' = key <$> docs.
Proof. intros Hk. induction 1 as [|d d' docs docs' Hd _ IH]; [done|]. simpl. f_equal; [by apply Hk|exact IH]. Qed.

Lemma same_documents_numbers tenant profile docs docs' :
  Forall2 same_document docs docs' -> numbers tenant profile docs' = numbers tenant profile docs.
Proof.
  unfold numbers. induction 1 as [|d d' docs docs' (st & t & -> & _) _ IH]; [done|]. rewrite !bfilter_cons.
  unfold of_profile. cbn. destruct (str_eqb _ _ && str_eqb _ _); simpl; [|done].
  destruct (cd_SequenceNum d); [by f_equal|done].
Qed.

Lemma cd_numbers_snoc tenant profile docs row :
  numbers tenant profile (docs ++ [row]) =
  numbers tenant profile docs ++ (if of_profile tenant profile row then option_list (cd_SequenceNum row) else []).
Proof.
  unfold numbers. rewrite bfilter_app, omap_app, bfilter_cons. f_equal. destruct (of_profile tenant profile row); [|done].
  simpl. by destruct (cd_SequenceNum row).
Qed.

(** ** Counters *)

Lemma next_seq_set tenant profile n t p counters :
  next_seq t p (set_next tenant profile n counters)
  = if str_eqb tenant t && str_eqb profile p then n else next_seq t p counters.
Proof.
  unfold next_seq, set_next. destruct (existsb (counter_is tenant profile) counters) eqn:Hex.
  - assert (select_one (counter_is t p)
        ((fun c => if counter_is tenant profile c then mkCounter tenant profile n else c) <$> counters)
      = (fun c => if counter_is tenant profile c then mkCounter tenant profile n else c)
          <$> select_one (counter_is t p) counters) as ->.
    { apply select_one_fmap. intros c. destruct (counter_is tenant profile c) eqn:Hc; [|done].
      unfold counter_is in *. bool_to_prop. subst. cbn. done. }
    destruct (str_eqb tenant t && str_eqb profile p) eqn:Hk.
    + bool_to_prop. subst. apply existsb_true_elem in Hex as (c & Hc & Hm).
      destruct (select_one (counter_is t p) counters) as [c'|] eqn:Hs.
      * apply select_one_Some in Hs as [_ Hs]. simpl. by rewrite Hs.
      * rewrite select_one_None in Hs. by rewrite (Hs c Hc) in Hm.
    + destruct (select_one (counter_is t p) counters) as [c|] eqn:Hs; [|done]. simpl.
      apply select_one_Some in Hs as [_ Hs]. destruct (counter_is tenant profile c) eqn:Hm; [|done].
      unfold counter_is in *. bool_to_prop. subst. by rewrite !str_eqb_refl in Hk.
  - unfold select_one. rewrite bfilter_app. destruct (bfilter (counter_is t p) counters) as [|c l] eqn:Hb.
    + simpl. rewrite bfilter_cons. unfold counter_is at 1. cbn. by destruct (str_eqb tenant t && str_eqb profile p).
    + simpl. destruct (str_eqb tenant t && str_eqb profile p) eqn:Hk; [|done]. bool_to_prop. subst.
      assert (c ∈ bfilter (counter_is t p) counters) as Hc by (rewrite Hb; left). apply elem_of_bfilter in Hc as [Hc Hin].
      by rewrite (existsb_false_elem _ _ _ Hex Hin) in Hc.
Qed.

Lemma next_seq_first tenant profile t p counters :
  existsb (counter_is tenant profile) counters = false ->
  next_seq t p (counters ++ [mkCounter tenant profile 1]) = next_seq t p counters.
Proof.
  intros Hex. unfold next_seq, select_one. rewrite bfilter_app, bfilter_cons. unfold counter_is at 2. cbn.
  destruct (bfilter (counter_is t p) counters) as [|c l]; [|done]. simpl. by destruct (_ && _).
Qed.

(** ** Every operation keeps the invariant *)

Section operations.
Context `{UuidText} `{JsonbText} `{Ilike}.

(** What the programs of the registry do: a document with a number comes with
    the commit that takes it, and bears its code; no document is made active. *)
Definition sound_op (B : Type) (o : RegOp B) : Prop :=
  match o with
  | InsertDocument doc => cd_SequenceNum doc = None
  | UpdateStatus _ _ status _ => status <> CDStatusActive
  | TxCommit next row =>
      cd_SequenceNum row = Some next /\ next + 1 <= int4_max /\ cd_Code row = AutoCode (cd_ProfileCode row) next
  | _ => True
  end.

(** What the programs know of the answers they need for it. *)
Definition reg_ans (B : Type) (o : RegOp B) : Result B -> Prop :=
  match o in RegOp B return Result B -> Prop with
  | TxNext _ _ => fun r => forall n, r = inr n -> n + 1 <= int4_max
  | TxInsert doc => fun r => forall row, r = inr row -> exists id, cd_row doc id = inr row
  | _ => fun _ => True
  end.

Definition reg_kept (s s' : RegStore) : Prop := reg_ok s' /\ reg_extends s s'.

(** Changes that leave the documents and the numbers alone. *)
Lemma kept_taxonomy s s' :
  rg_docs s' = rg_docs s -> (forall t p, next_seq t p (rg_counters s') = next_seq t p (rg_counters s)) ->
  keeps_keys profile_key (rg_profiles s) (rg_profiles s') -> keeps_keys area_key (rg_areas s) (rg_areas s') ->
  NoDup (dp_Code <$> rg_profiles s') -> NoDup (pa_Code <$> rg_areas s') ->
  (forall a, a ∈ rg_areas s' -> parent_exists (rg_areas s') a = true) -> reg_ok s -> reg_kept s s'.
Proof.
  intros Hd Hn Hp Ha Np Na Hpar [_ _ _ I C R N L]. split; [|split; [by rewrite Hd|done..]].
  split; try done; rewrite ?Hd; try done.
  - intros d [R1 R2]%R. split; [by eapply has_profile_kept|by eapply has_area_kept].
  - intros t p. rewrite Hn. apply N.
  - intros t p. rewrite Hn. apply L.
Qed.

(** Changes of the documents that keep what they are. *)
Lemma kept_documents s docs :
  Forall2 same_document (rg_docs s) docs -> reg_ok s -> reg_kept s (with_docs docs s).
Proof.
  intros Hd [P A Par I C R N L]. split; [|split; [by apply grows_update|reflexivity..]].
  split; try done; cbn [rg_docs rg_counters with_docs].
  - by rewrite (same_documents_key cd_ID _ _ ltac:(by intros ?? (?&?&->&_)) Hd).
  - by rewrite (same_documents_key cd_key _ _ ltac:(by intros ?? (?&?&->&_)) Hd).
  - intros d (d0 & Hd0 & (?&?&->&_))%(updated_forall_r _ _ _ Hd). exact (R d0 Hd0).
  - intros t p. rewrite (same_documents_numbers _ _ _ _ Hd). apply L.
Qed.

Lemma insert_cd_ok row s s' :
  insert_cd row s = inr s' ->
  s' = with_docs (rg_docs s ++ [row]) s /\ (forall d, d ∈ rg_docs s -> cd_ID d <> cd_ID row) /\
  (forall d, d ∈ rg_docs s -> cd_key d <> cd_key row) /\
  has_profile s (cd_TenantID row) (cd_ProfileCode row) = true /\ has_area s (cd_TenantID row) (cd_ProcessAreaCode row) = true.
Proof.
  unfold insert_cd. destruct (constraint ((_ <=? _) && _) _); [done|].
  destruct (constraint _ (unique_violation "controlled_documents_pkey")) eqn:E1; [done|].
  destruct (constraint _ (unique_violation "controlled_documents_tenant_id_profile_code_code_key")) eqn:E2; [done|].
  destruct (constraint (has_version _ _) _); [done|]. destruct (constraint (has_profile _ _ _) _) eqn:E3; [done|].
  destruct (constraint (has_area _ _ _) _) eqn:E4; [done|]. intros [= <-].
  apply constraint_ok in E1, E2, E3, E4. bool_to_prop. split_and!; [done| | |done..].
  - intros d Hd. pose proof (existsb_false_elem _ _ _ E1 Hd) as Hf. cbn in Hf. by apply str_eqb_false in Hf.
  - intros d Hd [= Et Ep Ec]. pose proof (existsb_false_elem _ _ _ E2 Hd) as Hf. unfold cd_has_code in Hf.
    by rewrite Et, Ep, Ec, !str_eqb_refl in Hf.
Qed.

(** A row is added: its number is the next one of its profile, or it has none. *)
Lemma kept_insert row s counters :
  (forall d, d ∈ rg_docs s -> cd_ID d <> cd_ID row) -> (forall d, d ∈ rg_docs s -> cd_key d <> cd_key row) ->
  has_profile s (cd_TenantID row) (cd_ProfileCode row) = true -> has_area s (cd_TenantID row) (cd_ProcessAreaCode row) = true ->
  (forall t p, 1 <= next_seq t p counters <= int4_max) ->
  (forall t p, (if of_profile t p row then option_list (cd_SequenceNum row) else []) =
     seqZ (next_seq t p (rg_counters s)) (next_seq t p counters - next_seq t p (rg_counters s))) ->
  (forall t p, next_seq t p (rg_counters s) <= next_seq t p counters) ->
  reg_ok s -> reg_kept s (with_counters counters (with_docs (rg_docs s ++ [row]) s)).
Proof.
  intros Hid Hkey Hpr Har Hn Hnum Hle [P A Par I C R N L]. split.
  - split; try done; cbn [rg_docs rg_counters with_docs with_counters].
    + apply NoDup_fmap_snoc; [done|by intros y Hy; apply Hid].
    + apply NoDup_fmap_snoc; [done|by intros y Hy; apply Hkey].
    + intros d [Hd| ->%list_elem_of_singleton]%elem_of_app; [exact (R d Hd)|done].
    + intros t p. rewrite cd_numbers_snoc, L, Hnum. specialize (N t p). specialize (Hle t p).
      replace (next_seq t p counters - 1)
        with ((next_seq t p (rg_counters s) - 1) + (next_seq t p counters - next_seq t p (rg_counters s))) by lia.
      rewrite seqZ_app by lia. f_equal. f_equal; lia.
  - split; cbn; [by apply grows_append; tc_solve|reflexivity..].
Qed.

Lemma kept_unnumbered row s s' :
  insert_cd row s = inr s' -> cd_SequenceNum row = None -> reg_ok s -> reg_kept s s'.
Proof.
  intros (-> & Hid & Hkey & Hp & Ha)%insert_cd_ok Hseq Hok.
  assert (with_docs (rg_docs s ++ [row]) s = with_counters (rg_counters s) (with_docs (rg_docs s ++ [row]) s)) as -> by done.
  apply kept_insert; try done; [apply Hok|]. intros t p. rewrite Hseq, Z.sub_diag. by destruct (of_profile t p row).
Qed.

Lemma kept_commit next row s s' :
  commit_document next row s = inr s' -> cd_SequenceNum row = Some next -> next + 1 <= int4_max -> reg_ok s -> reg_kept s s'.
Proof.
  unfold commit_document. cbv zeta. destruct (constraint _ _) eqn:Hn; [done|]. apply constraint_ok, Z.eqb_eq in Hn.
  destruct (insert_cd row s) as [e|s1] eqn:Hi; [done|]. apply insert_cd_ok in Hi as (-> & Hid & Hkey & Hp & Ha).
  intros [= <-] Hseq Hmax Hok. cbn [rg_counters with_docs].
  assert (forall t p, next_seq t p (set_next (cd_TenantID row) (cd_ProfileCode row) (next + 1) (rg_counters s))
    = if of_profile t p row then next + 1 else next_seq t p (rg_counters s)) as Hset by (intros; apply next_seq_set).
  assert (forall t p, of_profile t p row = true -> next_seq t p (rg_counters s) = next) as Hsame.
  { intros t p Hof. unfold of_profile in Hof. bool_to_prop. by subst. }
  destruct Hok as [P A Par I C R N L].
  apply kept_insert; try done; intros t p; rewrite Hset; specialize (N t p); destruct (of_profile t p row) eqn:Hof.
  - specialize (Hsame t p Hof). lia.
  - done.
  - rewrite Hseq, (Hsame t p Hof). by replace (next + 1 - next) with 1 by lia.
  - by rewrite Z.sub_diag.
  - specialize (Hsame t p Hof). lia.
  - lia.
Qed.

Lemma Profile_Create_kept p t s s' : Profile_Create p t s = inr s' -> reg_ok s -> reg_kept s s'.
Proof.
  unfold Profile_Create. destruct (profile_row p t) as [|row]; [done|]. destruct (profile_checks s row); [done|].
  destruct (constraint _ _) eqn:Hc; [done|]. destruct (profile_references s row); [done|]. intros [= <-] Hok.
  apply constraint_ok in Hc. bool_to_prop.
  apply kept_taxonomy; try done; cbn [rg_profiles rg_areas with_profiles].
  - apply keeps_keys_snoc.
  - apply NoDup_fmap_snoc; [apply Hok|]. intros q Hq. pose proof (existsb_false_elem _ _ _ Hc Hq) as Hf.
    cbn in Hf. by apply str_eqb_false in Hf.
  - apply Hok.
  - apply Hok.
Qed.

Lemma updates_key {R K} (key : R -> K) cond (set : R -> Result R) rows rows' :
  (forall r r', set r = inr r' -> key r' = key r) -> Forall2 (updated cond set) rows rows' -> key <$> rows' = key <$> rows.
Proof.
  intros Hk. induction 1 as [|r r' rows rows' Hr _ IH]; [done|]. rewrite !fmap_cons, IH. f_equal.
  unfold updated in Hr. destruct (cond r); [by apply Hk|by subst].
Qed.

Lemma Profile_Update_kept p s s' : Profile_Update p s = inr s' -> reg_ok s -> reg_kept s s'.
Proof.
  unfold Profile_Update. destruct (profile_row p 0) as [|row]; [done|]. cbv zeta.
  destruct (update_where _ _ _) as [e|[n rows]] eqn:Hu; [done|]. destruct (n =? 0); [done|]. intros [= <-] Hok.
  apply update_where_ok in Hu as [HF _]. revert HF.
  match goal with |- Forall2 (updated _ ?f) _ _ -> _ => set (upd := f) end. intros HF.
  assert (forall q q', upd q = inr q' -> dp_Code q' = dp_Code q /\ dp_TenantID q' = dp_TenantID q) as Hset.
  { intros q q'. unfold upd. destruct (profile_checks _ _); [done|]. destruct (profile_references _ _); [done|]. by intros [= <-]. }
  apply kept_taxonomy; try done; cbn [rg_profiles rg_areas with_profiles].
  - apply keeps_keys_same. eapply updates_key; [|exact HF]. intros q q' [E1 E2]%Hset. unfold profile_key. by rewrite E1, E2.
  - rewrite (updates_key dp_Code _ _ _ _ ltac:(by intros q q' [? _]%Hset) HF). apply Hok.
  - apply Hok.
  - apply Hok.
Qed.

(** Parents stay where areas are kept. *)
Lemma parent_kept rows rows' a :
  keeps_keys area_key rows rows' -> parent_exists rows a = true -> parent_exists rows' a = true.
Proof.
  intros Hk. unfold parent_exists. destruct (pa_ParentCode a) as [parent|]; [|done].
  apply (keeps_keys_exists area_key (fun k => str_eqb k.1 (pa_TenantID a) && str_eqb k.2 parent) _ _ Hk).
Qed.

Lemma Area_Create_kept a t s s' : Area_Create a t s = inr s' -> reg_ok s -> reg_kept s s'.
Proof.
  unfold Area_Create. destruct (area_row a t) as [|row]; [done|]. destruct (constraint (code_format _) _); [done|].
  destruct (constraint _ (unique_violation _)) eqn:Hc; [done|]. destruct (constraint _ (fk_violation _)) eqn:Hp; [done|].
  intros [= <-] Hok. apply constraint_ok in Hc, Hp. bool_to_prop.
  apply kept_taxonomy; try done; cbn [rg_profiles rg_areas with_areas].
  - apply keeps_keys_snoc.
  - apply Hok.
  - apply NoDup_fmap_snoc; [apply Hok|]. intros q Hq. pose proof (existsb_false_elem _ _ _ Hc Hq) as Hf.
    cbn in Hf. by apply str_eqb_false in Hf.
  - intros b [Hb| ->%list_elem_of_singleton]%elem_of_app; [|done].
    eapply parent_kept; [apply keeps_keys_snoc|by apply Hok].
Qed.

Lemma Area_Update_kept a s s' : Area_Update a s = inr s' -> reg_ok s -> reg_kept s s'.
Proof.
  unfold Area_Update. destruct (area_row a 0) as [|row]; [done|]. cbv zeta.
  destruct (update_where _ _ _) as [e|[n rows]] eqn:Hu; [done|]. destruct (n =? 0); [done|]. intros [= <-] Hok.
  apply update_where_ok in Hu as [HF _]. revert HF.
  match goal with |- Forall2 (updated _ ?f) _ _ -> _ => set (upd := f) end. intros HF.
  assert (forall q q', upd q = inr q' -> pa_Code q' = pa_Code q /\ pa_TenantID q' = pa_TenantID q
    /\ parent_exists (rg_areas s) q' = true) as Hset.
  { intros q q'. unfold upd. destruct (constraint _ _) eqn:Hc; [done|]. intros [= <-]. by apply constraint_ok in Hc. }
  assert (keeps_keys area_key (rg_areas s) rows) as Hkeys.
  { apply keeps_keys_same. eapply updates_key; [|exact HF]. intros q q' (E1 & E2 & _)%Hset. unfold area_key. by rewrite E1, E2. }
  apply kept_taxonomy; try done; cbn [rg_profiles rg_areas with_areas].
  - apply Hok.
  - rewrite (updates_key pa_Code _ _ _ _ ltac:(by intros q q' [? _]%Hset) HF). apply Hok.
  - intros b (b0 & Hb0 & Hup)%(updated_forall_r _ _ _ HF). eapply parent_kept; [exact Hkeys|]. unfold updated in Hup.
    destruct (area_is _ _ b0); [by apply Hset in Hup as (_ & _ & ?)|]. subst. by apply Hok.
Qed.

Lemma CD_UpdateStatus_kept tenantID id status t s s' :
  CD_UpdateStatus tenantID id status t s = inr s' -> status <> CDStatusActive -> reg_ok s -> reg_kept s s'.
Proof.
  unfold CD_UpdateStatus. destruct (uuid_param tenantID); [done|]. destruct (uuid_param id); [done|].
  destruct (update_where _ _ _) as [e|[n rows]] eqn:Hu; [done|]. destruct (n =? 0); [done|]. intros [= <-] Hst Hok.
  apply update_where_ok in Hu as [HF _]. apply kept_documents; [|done]. eapply Forall2_impl; [exact HF|].
  intros d d'. unfold updated. destruct (cd_is _ _ d); [|by intros ->]. intros [= <-]. by eexists _, _.
Qed.

Lemma EnsureCounter_kept tenantID profile s s' :
  Seq_EnsureCounter tenantID profile s = inr s' -> reg_ok s -> reg_kept s s'.
Proof.
  unfold Seq_EnsureCounter. destruct (uuid_param tenantID) as [|tenant]; [done|].
  destruct (existsb _ _) eqn:Hex; [intros [= <-] Hok; by split|]. destruct (constraint _ _); [done|].
  intros [= <-] Hok. apply kept_taxonomy; try done; try apply Hok. intros t p. by apply next_seq_first.
Qed.

Lemma kept_same_core s s' :
  rg_profiles s' = rg_profiles s -> rg_areas s' = rg_areas s -> rg_docs s' = rg_docs s -> rg_counters s' = rg_counters s ->
  reg_ok s -> reg_kept s s'.
Proof.
  intros Ep Ea Ed Ec Hok. apply kept_taxonomy; try done; rewrite ?Ep, ?Ea, ?Ec; try done; apply Hok.
Qed.

Lemma reg_kept_trans s1 s2 s3 : reg_kept s1 s2 -> reg_kept s2 s3 -> reg_kept s1 s3.
Proof. intros [_ E1] [O2 E2]. split; [done|]. by etrans. Qed.

Lemma backfill_kept docID tenantID id t s s' :
  backfill_document docID tenantID id t s = inr s' -> reg_ok s -> reg_kept s s'.
Proof.
  unfold backfill_document. destruct (uuid_param tenantID) as [|tenant]; [done|]. cbv zeta.
  destruct (select_one _ _) as [d|].
  - set (touch := fun e => if cd_has_code tenant "unassigned" (legacy_code docID) e then set_status (cd_Status e) t e else e).
    intros [= <-] Hok. assert (reg_kept s (with_docs (touch <$> rg_docs s) s)) as Hk.
    { apply kept_documents; [|done]. apply Forall2_fmap_r, Forall2_same_length_lookup_2; [done|].
      intros i x y Hx Hy. rewrite Hx in Hy. injection Hy as <-. unfold touch. cbn.
      destruct (cd_has_code tenant "unassigned" (legacy_code docID) x); [by exists (cd_Status x), t|done]. }
    eapply reg_kept_trans; [exact Hk|]. apply kept_same_core; try done. apply Hk.
  - destruct (insert_cd _ s) as [e|s1] eqn:Hi; [done|]. intros [= <-] Hok.
    pose proof (kept_unnumbered _ _ _ Hi eq_refl Hok) as Hk. eapply reg_kept_trans; [exact Hk|].
    apply kept_same_core; try done. apply Hk.
Qed.

Lemma wrote_kept r s x s' :
  reg_wrote r s = (x, s') -> (forall s1, r = inr s1 -> reg_kept s s1) -> reg_ok s -> reg_kept s s'.
Proof. destruct r as [e|s1]; intros [= <- <-] Hk Hok; [by split|by apply Hk]. Qed.

Lemma reg_step_keeps {B} (o : RegOp B) t u s r s' :
  sound_op B o -> reg_step o t u s = (r, s') -> reg_ok s -> reg_kept s s' /\ reg_ans B o r.
Proof.
  intros Ho Hs Hok.
  assert (reg_kept s s) as Hrefl by (by split).
  destruct o; cbn in Hs, Ho |- *; try (injection Hs as <- <-; by split);
    try (split; [eapply wrote_kept; [exact Hs| |done]; intros s1 Hw|done]).
  - by eapply Profile_Create_kept.
  - by eapply Profile_Update_kept.
  - by eapply Area_Create_kept.
  - by eapply Area_Update_kept.
  - unfold Governance_Log in Hw. destruct (uuid_param _); [done|]. destruct (jsonb_param _); [done|].
    injection Hw as <-. by apply kept_same_core.
  - destruct (cd_row doc (rd_uuid u)) as [e|row] eqn:Hrow; [injection Hs as <- <-; by split|].
    destruct (insert_cd row s) as [e|s1] eqn:Hi; injection Hs as <- <-; [by split|]. split; [|done].
    eapply kept_unnumbered; [exact Hi| |done]. unfold cd_row in Hrow. rewrite Ho in Hrow.
    destruct (uuid_param _); [done|]. destruct (uuid_param_opt _); [done|]. by injection Hrow as <-.
  - by eapply CD_UpdateStatus_kept.
  - by eapply EnsureCounter_kept.
  - injection Hs as <- <-. split; [done|]. unfold Seq_NextAndIncrement. intros n.
    destruct (uuid_param _) as [|tenant]; [done|]. destruct (constraint _ _); [done|]. cbv zeta.
    destruct (int4_param _) eqn:Hi; [done|]. intros [= <-]. unfold int4_param in Hi. case_match; [done|].
    apply orb_false_iff in H2 as [_ H2%Z.ltb_ge]. done.
  - injection Hs as <- <-. split; [done|]. intros row. destruct (cd_row doc (rd_uuid u)) eqn:Hrow; [done|].
    destruct (insert_cd _ s); [done|]. intros [= <-]. by eexists.
  - destruct Ho as (Hseq & Hmax & _). by eapply kept_commit.
  - by eapply backfill_kept.
Qed.
End operations.

(** ** The programs perform sound operations *)

Section programs.
Context `{UuidText} `{JsonbText} `{Ilike}.

Abbreviation sound := (each_ope sound_op reg_ans).

Lemma cd_row_ok doc id row :
  cd_row doc id = inr row ->
  cd_ProfileCode row = cd_ProfileCode doc /\ cd_Code row = cd_Code doc /\ cd_SequenceNum row = cd_SequenceNum doc /\
  uuid_in (cd_TenantID doc) = Some (cd_TenantID row).
Proof.
  unfold cd_row. destruct (uuid_param _) as [|tenant] eqn:Ht; [done|]. apply uuid_param_ok in Ht.
  destruct (cd_SequenceNum doc) as [n|] eqn:Hn.
  - destruct (int4_param n) as [|m] eqn:Hi; [done|]. apply int4_param_ok in Hi as ->.
    destruct (uuid_param_opt _); [done|]. by intros [= <-].
  - destruct (uuid_param_opt _); [done|]. by intros [= <-].
Qed.

Ltac each :=
  repeat lazymatch goal with
    | |- each_ope _ _ (mbind _ _) _ => apply each_ope_bind
    | |- each_ope _ _ (call (UpdateStatus _ _ _ _)) _ => fail
    | |- each_ope _ _ (call _) _ => apply each_ope_call; [exact I|intros ? _]
    | |- each_ope _ _ (attempt _) _ => apply each_ope_attempt; [exact I|intros ? _]
    | |- each_ope _ _ (pguard _ _) _ => apply each_ope_guard; intros ?
    | |- each_ope _ _ (plift _) _ => apply each_ope_lift; intros ? _
    | |- each_ope _ _ (pmap_err _ _) _ => apply each_ope_map_err
    | |- each_ope _ _ (mret _) _ => hnf
    | |- each_ope _ _ (fail _) _ => exact I
    | |- True => exact I
    end.

Lemma sound_replying {A} on_error (on_ok : A -> RegReply) m : sound m (fun _ => True) -> sound (replying on_error on_ok m) (fun _ => True).
Proof. intros Hm. apply each_op_prog_bind. eapply each_op_mono; [|exact Hm]. by intros [e|a]. Qed.

Lemma sound_create_with insert doc Q :
  sound_op _ insert -> (forall row, reg_ans _ insert (inr row) -> Q row) -> sound (create_with insert doc) Q.
Proof.
  intros Ho HQ. unfold create_with. apply each_ope_bind, each_ope_attempt; [done|]. intros [e|row] Hans; [|by apply HQ].
  destruct (is_unique_violation e); [|done]. each. by destruct b as [|d]; [|destruct (cd_IsActive d)].
Qed.

Lemma sound_rolling_back {A} (m : RM A) Q : sound m Q -> sound (rolling_back m) Q.
Proof. intros Hm. apply each_op_prog_bind. eapply each_op_mono; [|exact Hm]. by intros [e|a]. Qed.

Lemma sound_log_all events : sound (log_all events) (fun _ => True).
Proof. induction events as [|e events IH]; [done|]. cbn [log_all backfill_all]. each. exact IH. Qed.

Lemma sound_check_override cmd code : sound (check_override cmd code) (fun _ => True).
Proof. unfold check_override. destruct (cc_OverrideTemplateVersionID cmd); [|done]. each. Qed.

Lemma sound_create_manual cmd manual : sound (create_manual cmd manual) (fun _ => True).
Proof.
  unfold create_manual. cbv zeta. each.
  eapply each_op_mono; [|apply sound_check_override]. intros [|events] _; [done|]. each.
  apply sound_create_with; [done|]. intros row _. apply each_ope_bind. eapply each_op_mono; [|apply sound_log_all].
  by intros [].
Qed.

Lemma sound_create_numbered cmd : sound (create_numbered cmd) (fun _ => True).
Proof.
  unfold create_numbered. apply each_ope_bind, each_ope_call; [exact I|]. intros _ _. apply each_ope_bind, sound_rolling_back.
  apply each_ope_bind, each_ope_call; [exact I|]. intros next Hans. specialize (Hans next eq_refl). cbv zeta. each.
  eapply each_op_mono; [|apply sound_check_override]. intros [|events] _; [done|]. each.
  apply sound_create_with; [exact I|]. intros row Hrow. destruct (Hrow row eq_refl) as [id Hcd].
  apply cd_row_ok in Hcd as (Hp & Hc & Hs & _). apply each_ope_bind, each_ope_call.
  - cbn. by rewrite Hp, Hc, Hs.
  - intros _ _. apply each_ope_bind. eapply each_op_mono; [|apply sound_log_all]. by intros [].
Qed.

Lemma sound_Create cmd : sound (Registry_Create cmd) (fun _ => True).
Proof.
  unfold Registry_Create. each. destruct (cc_ManualCode cmd); [apply sound_create_manual|apply sound_create_numbered].
Qed.

Lemma sound_SetDefaultTemplate t p v a : sound (SetDefaultTemplate t p v a) (fun _ => True).
Proof. unfold SetDefaultTemplate. each. Qed.

Lemma sound_backfill_all docs : sound (backfill_all docs) (fun _ => True).
Proof. induction docs as [|d docs IH]; [done|]. cbn [log_all backfill_all]. each. exact IH. Qed.

Lemma sound_Backfill : sound BackfillLegacyDocuments (fun _ => True).
Proof.
  unfold BackfillLegacyDocuments. each. destruct b; [|done]. cbn [negb].
  apply each_op_prog_bind. eapply (each_op_mono _ _ _ (fun _ => True)).
  - intros r _. split; [done|]. intros b _. by destruct r.
  - eapply each_op_mono; [|apply (each_ope_bind _ _ _ _ (fun _ => True))]; [done|]. each. apply sound_backfill_all.
Qed.

Lemma sound_changeStatus tenantID id next :
  next <> CDStatusActive -> sound (changeStatus tenantID id next) (fun _ => True).
Proof. intros Hn. unfold changeStatus. each. by apply each_ope_call. Qed.

Lemma serve_sound c : sound (serve_registry c) (fun _ => True).
Proof.
  destruct c; simpl; unfold listProfiles, createProfile, getProfile, updateProfile, setDefaultTemplate, archiveProfile,
    listAreas, createArea, getArea, updateArea, archiveArea, listDocs, createDoc, getDoc, obsoleteDoc, supersedeDoc,
    invalid_payload; cbv zeta; repeat (case_match; try exact I); apply sound_replying;
    try apply sound_Create; try apply sound_SetDefaultTemplate; try apply sound_Backfill;
    unfold ArchiveProfile, ArchiveArea, Obsolete, Supersede; try (by apply sound_changeStatus); try (by each).
  unfold DuplicateControlledDocument. each. apply sound_Create.
Qed.
End programs.

(** ** The theorems *)

Section theorems.
Context `{UuidText} `{JsonbText} `{Ilike}.

(** Requests, with the invariant and one more. *)
Definition registry_rules (J : RegStore -> Prop) : Protocol RegStore :=
  mkProtocol reg_extends reg_extends (fun s => reg_ok s /\ J s).

#[local] Instance registry_guar J : PreOrder (pr_guar (registry_rules J)).
Proof. apply reg_extends_preorder. Qed.

#[local] Instance registry_rely J : PreOrder (pr_rely (registry_rules J)).
Proof. apply reg_extends_preorder. Qed.

Definition step_keeps (J : RegStore -> Prop) : Prop :=
  forall B (o : RegOp B) t u s r s', sound_op B o -> reg_step o t u s = (r, s') -> reg_ok s -> J s -> J s'.

Lemma serve_within J c s : step_keeps J -> wpe (registry_rules J) (serve_registry c) (fun _ _ => True) s.
Proof.
  intros HJ. eapply wp_mono; [|eapply (wp_each_op sound_op reg_ans (registry_rules J)); [| |apply serve_sound]].
  - by intros [].
  - intros B o t u s0 r s' Ho Hs [Hok Hj]. destruct (reg_step_keeps o t u _ _ _ Ho Hs Hok) as [[Hok' Hext] Hans].
    split_and!; [exact (conj Hok' (HJ _ _ _ _ _ _ _ Ho Hs Hok Hj))|exact Hext|exact Hans].
  - intros B o err _. by destruct o.
Qed.

Lemma outside_kept s s' : reg_outside s s' -> reg_ok s -> reg_kept s s'.
Proof. intros (Ep & Ea & Ed & Ec). by apply kept_same_core. Qed.

Definition outside_keeps (J : RegStore -> Prop) : Prop := forall s s', reg_outside s s' -> J s -> J s'.

Lemma outside_within J s s' :
  outside_keeps J -> reg_outside s s' -> pr_inv (registry_rules J) s ->
  pr_inv (registry_rules J) s' /\ pr_guar (registry_rules J) s s'.
Proof.
  intros HJ Ho [Hok Hj]. destruct (outside_kept _ _ Ho Hok) as [Hok' Hext].
  exact (conj (conj Hok' (HJ _ _ Ho Hj)) Hext).
Qed.

(** Whatever interleaves. *)
Lemma registry_sound J s s' :
  step_keeps J -> outside_keeps J -> interleaved serve_registry reg_outside s s' -> reg_ok s -> J s ->
  (reg_ok s' /\ J s') /\ reg_extends s s'.
Proof.
  intros HJ Ho Hrun Hok Hj. apply (interleaved_sound (registry_rules J) serve_registry reg_outside); try done.
  - intros c st _. by apply serve_within.
  - intros st st'. by apply outside_within.
Qed.


(** ** A number taken by hand *)

Section taken.
Context (tenant profile : string) (k : Z).

(** The code of the next number is in use. *)
Definition number_taken (s : RegStore) : Prop :=
  next_seq tenant profile (rg_counters s) = k /\
  existsb (cd_has_code tenant profile (AutoCode profile k)) (rg_docs s) = true.

Lemma code_kept code s s' :
  grows same_document (rg_docs s) (rg_docs s') ->
  existsb (cd_has_code tenant profile code) (rg_docs s) = true -> existsb (cd_has_code tenant profile code) (rg_docs s') = true.
Proof.
  intros (l1 & new & -> & HF) (d & Hd & Hc)%existsb_true_elem.
  destruct (updated_forall _ _ _ HF d Hd) as (d' & Hd' & (? & ? & -> & _)). apply existsb_exists.
  exists (set_status x x0 d). split; [|done]. apply list_elem_of_In, elem_of_app. by left.
Qed.

(** The counters change by commits only. *)
Lemma counters_change {B} (o : RegOp B) t u s r s' :
  reg_step o t u s = (r, s') ->
  match o with
  | TxCommit next row => commit_document next row s = inr s' \/ s' = s
  | _ => forall tn p, next_seq tn p (rg_counters s') = next_seq tn p (rg_counters s)
  end.
Proof.
  assert (forall w (x : Result unit) s', reg_wrote w s = (x, s') -> w = inr s' \/ s' = s) as Hw.
  { intros [e|s1] x s2 [= <- <-]; auto. }
  assert (forall row s', insert_cd row s = inr s' -> rg_counters s' = rg_counters s) as Hi.
  { intros row s2 (-> & _)%insert_cd_ok. done. }
  destruct o; cbn; intros Hs; try (by injection Hs as <- <-);
    try (apply Hw in Hs as [Hs| ->]; [|done]); try (by intros; f_equal); revert Hs.
  - unfold Profile_Create. repeat (case_match; [done|]). by intros [= <-].
  - unfold Profile_Update. cbv zeta. destruct (profile_row _ _); [done|]. destruct (update_where _ _ _) as [|[n rows]]; [done|].
    destruct (n =? 0); [done|]. by intros [= <-].
  - unfold Area_Create. repeat (case_match; [done|]). by intros [= <-].
  - unfold Area_Update. cbv zeta. destruct (area_row _ _); [done|]. destruct (update_where _ _ _) as [|[n rows]]; [done|].
    destruct (n =? 0); [done|]. by intros [= <-].
  - unfold Governance_Log. repeat (case_match; [done|]). by intros [= <-].
  - destruct (cd_row doc (rd_uuid u)) as [e|row]; [by intros [= <- <-]|].
    destruct (insert_cd row s) as [e|s1] eqn:Hin; intros [= <- <-]; [done|]. intros. by rewrite (Hi _ _ Hin).
  - unfold CD_UpdateStatus. destruct (uuid_param tenantID); [done|]. destruct (uuid_param id); [done|].
    destruct (update_where _ _ _) as [|[n rows]]; [done|]. destruct (n =? 0); [done|]. by intros [= <-].
  - unfold Seq_EnsureCounter. destruct (uuid_param _); [done|]. destruct (existsb _ _) eqn:Hex; [by intros [= <-]|].
    destruct (constraint _ _); [done|]. intros [= <-] tn p. by apply next_seq_first.
  - apply Hw.
  - unfold backfill_document. destruct (uuid_param _) as [|tn]; [done|]. cbv zeta.
    destruct (select_one _ _) as [d|]; [by intros [= <-]|].
    destruct (insert_cd _ s) as [e|s1] eqn:Hin; [done|]. intros [= <-] tn' p. cbn [rg_counters with_legacy]. by rewrite (Hi _ _ Hin).
Qed.

Lemma counter_stays next row s s' :
  number_taken s -> sound_op _ (TxCommit next row) -> commit_document next row s = inr s' ->
  next_seq tenant profile (rg_counters s') = k.
Proof.
  intros [Hk Hin] (Hseq & _ & Hcode). unfold commit_document. cbv zeta.
  destruct (constraint _ _) eqn:Hn; [done|]. apply constraint_ok, Z.eqb_eq in Hn.
  destruct (insert_cd row s) as [e|s1] eqn:Hi; [done|]. apply insert_cd_ok in Hi as (-> & _ & Hkey & _). intros [= <-].
  cbn [rg_counters with_docs with_counters]. rewrite next_seq_set.
  destruct (str_eqb (cd_TenantID row) tenant && str_eqb (cd_ProfileCode row) profile) eqn:Hsame; [|done].
  apply existsb_true_elem in Hin as (d & Hd & Hhas). destruct (Hkey d Hd). unfold cd_has_code, cd_key in *.
  bool_to_prop. congruence.
Qed.

Lemma number_taken_stays : step_keeps number_taken.
Proof.
  intros B o t u s r s' Ho Hs Hok Hj.
  destruct (reg_step_keeps o t u _ _ _ Ho Hs Hok) as [[_ [Hg _ _]] _].
  split; [|by eapply code_kept; [exact Hg|apply Hj]]. pose proof (counters_change o t u s r s' Hs) as Hc.
  destruct o; try (by rewrite Hc; apply Hj). destruct Hc as [Hc| ->]; [|apply Hj]. by eapply counter_stays.
Qed.

Lemma number_taken_outside : outside_keeps number_taken.
Proof. intros s s' (_ & _ & Ed & Ec). unfold number_taken. by rewrite Ed, Ec. Qed.

(** An operation of which only the rules matter. *)
Lemma wpe_sound {B} (o : RegOp B) Q s :
  sound_op B o -> (forall b s', Q b s') -> wpe (registry_rules number_taken) (call o) Q s.
Proof.
  intros Ho HQ. apply wpe_call; [tc_solve|]. intros s1 t u r s2 _ [Hok Hj] Hs.
  destruct (reg_step_keeps o t u _ _ _ Ho Hs Hok) as [[Hok2 Hext] _].
  split_and!; [exact (conj Hok2 (number_taken_stays _ _ _ _ _ _ _ Ho Hs Hok Hj))|exact Hext|]. by destruct r.
Qed.

Lemma wpe_rolling_back {A} (m : RM A) Q s :
  wpe (registry_rules number_taken) m (fun _ _ => False) s ->
  wpe (registry_rules number_taken) (rolling_back m) Q s.
Proof.
  intros Hm. apply wp_bind. eapply wp_mono; [|exact Hm]. intros [e|a] s1; [|done]. intros _.
  apply wpe_bind, wpe_attempt; [tc_solve|done|]. intros s2 t u r s3 _ Hi Hs. cbn in Hs. injection Hs as <- <-.
  split_and!; [done|reflexivity|done..].
Qed.

Lemma numbered_blocked cmd s :
  uuid_in (cc_TenantID cmd) = Some tenant -> cc_ProfileCode cmd = profile ->
  wpe (registry_rules number_taken) (create_numbered cmd) (fun _ _ => False) s.
Proof.
  intros Ht Hp. unfold create_numbered. apply wpe_bind, wpe_sound; [done|]. intros _ s1.
  apply wpe_bind, wpe_rolling_back, wpe_bind.
  eapply wpe_read; [tc_solve|by intros|]. intros s2 next _ [_ [Hk _]] Hnext.
  assert (next = k) as ->.
  { revert Hnext. unfold Seq_NextAndIncrement. destruct (uuid_param _) as [|tn] eqn:Hu; [done|].
    apply uuid_param_ok in Hu. destruct (constraint _ _); [done|]. cbv zeta. destruct (int4_param _); [done|].
    intros [= <-]. congruence. }
  cbv zeta. apply wpe_bind. eapply wpe_read; [tc_solve|by intros|]. intros s3 taken _ [_ [_ Htaken]] Hcode.
  assert (taken = true) as ->.
  { revert Hcode. unfold CD_CodeExists. destruct (uuid_param _) as [|tn] eqn:Hu; [done|].
    apply uuid_param_ok in Hu. intros [= <-]. congruence. }
  by apply wpe_bind, wpe_guard.
Qed.

Definition refused (a : RegReply) : Prop := exists status code, a = RegError status code.

Lemma writeDomainError_refuses e : refused (writeDomainError e).
Proof. unfold writeDomainError. repeat case_match; by eexists _, _. Qed.

(** A request for a numbered document of the profile. *)
Definition asks_number (r : RegRequest) : Prop :=
  uuid_in (request_tenant r) = Some tenant /\
  exists b, decode_body create_doc_fields no_document (gq_body r) = inr b /\
            TrimSpace (cr_ProfileCode b) = profile /\ cr_ManualCode b = None.

Lemma asking_refused r s :
  asks_number r -> wpe (registry_rules number_taken) (serve_registry (CallCreateDoc r)) (fun a _ => refused a) s.
Proof.
  intros (Ht & b & Hb & Hp & Hm). simpl. unfold createDoc. rewrite Hb. unfold replying. apply wp_bind.
  eapply (wp_mono _ _ (fun (r : Result ControlledDocument) _ => match r with inl _ => True | inr _ => False end)).
  { intros [e|d] s1; [|done]. intros _. apply writeDomainError_refuses. }
  change (wpe (registry_rules number_taken) (Registry_Create (create_cmd r b)) (fun _ _ => False) s).
  unfold Registry_Create. apply wpe_bind, wpe_sound; [done|]. intros p s1. apply wpe_bind, wpe_guard. intros _.
  apply wpe_bind, wpe_sound; [done|]. intros a s2. apply wpe_bind, wpe_guard. intros _.
  cbn [cc_ManualCode create_cmd]. rewrite Hm. by apply numbered_blocked.
Qed.

(** C33 A code taken by hand can end the numbering of a profile: once some
    document bears the code its next number would give, the profile never gets
    another numbered document, for whatever interleaves; its counter stays, and
    every request for a numbered document that is answered is refused. Nothing
    in the code moves the counter past a code that is in use. *)
Theorem taken_number_blocks_numbering s0 ts s :
  reg_ok s0 -> number_taken s0 -> rtc (pool_step serve_registry reg_outside) (mkPool [] s0) (mkPool ts s) ->
  numbers tenant profile (rg_docs s) = numbers tenant profile (rg_docs s0) /\
  forall r ts' s' a, asks_number r ->
    rtc (pool_step serve_registry reg_outside) (mkPool (ts ++ [serve_registry (CallCreateDoc r)]) s) (mkPool ts' s') ->
    ts' !! length ts = Some (Ret (inr a)) -> refused a.
Proof.
  intros Hok Hj Hrun. split.
  - destruct (registry_sound number_taken s0 s) as [[Hok' Hj'] _];
      [apply number_taken_stays|apply number_taken_outside|by exists ts|done..|].
    rewrite !ok_numbers by done. by rewrite (proj1 Hj), (proj1 Hj').
  - intros r ts' s' a Ha Hrun' Hr.
    apply (replied_sound (registry_rules number_taken) serve_registry reg_outside) with (Q := fun a _ => refused a)
      (c := CallCreateDoc r) (st0 := s0) (ts := ts) (st := s) (ts' := ts') (st' := s'); try done.
    + intros c st _. apply serve_within, number_taken_stays.
    + intros st st'. apply outside_within, number_taken_outside.
    + intros st _. by apply asking_refused.
Qed.
End taken.
End theorems.

(** ** The tree of the areas *)

(** The parent of an area, if there is such an area. *)
Definition is_parent (tenant : string) (rows : list ProcessArea) (code parent : string) : Prop :=
  parent_of tenant code rows = Some parent /\ existsb (area_is tenant parent) rows = true.

(** No area is above itself. *)
Definition no_cycle (tenant : string) (rows : list ProcessArea) : Prop := forall code, ~ tc (is_parent tenant rows) code code.

Lemma is_parent_unique tenant rows code p q : is_parent tenant rows code p -> is_parent tenant rows code q -> p = q.
Proof. intros [Hp _] [Hq _]. congruence. Qed.

Lemma tc_first {A} (R : relation A) x y : tc R x y -> exists z, R x z /\ (z = y \/ tc R z y).
Proof. induction 1 as [x y Hxy|x z y Hxz Hzy _]; [exists y|exists z]; auto. Qed.

(** Above an area with a parent: the parent, and what is above it. *)
Lemma above_parent tenant rows code p x :
  is_parent tenant rows code p -> tc (is_parent tenant rows) code x <-> x = p \/ tc (is_parent tenant rows) p x.
Proof.
  intros Hp. split.
  - intros (z & Hz & Hx)%tc_first. rewrite (is_parent_unique _ _ _ _ _ Hp Hz). destruct Hx; auto.
  - intros [->|Hx]; [by apply tc_once|by eapply tc_l].
Qed.

Lemma tc_inside {A} (R : relation A) (l : list A) x y :
  (forall a b, a ∈ l -> R a b -> b ∈ l) -> x ∈ l -> tc R x y -> y ∈ l.
Proof. intros Hl Hx Hxy. induction Hxy as [x y Hxy|x z y Hxz _ IH]; [by eapply Hl|]. apply IH. by eapply Hl. Qed.

(** What the climb has found: all that is above the start is found or above the
    last one found, each is the area of a row, and each but the last has its
    parent among them. *)
Record climbed (tenant : string) (rows : list ProcessArea) (start code : string) (found : list string) : Prop := {
  cl_above : forall x, tc (is_parent tenant rows) start x <-> x ∈ found \/ tc (is_parent tenant rows) code x;
  cl_nodup : NoDup found;
  cl_rows : found ⊆ pa_Code <$> rows;
  cl_closed : forall y p, y ∈ found -> y <> code -> is_parent tenant rows y p -> p ∈ found;
  cl_last : found = [] \/ code ∈ found
}.

Lemma parent_row tenant rows code p : is_parent tenant rows code p -> p ∈ pa_Code <$> rows.
Proof.
  intros [_ (a & Ha & Hp)%existsb_true_elem]. unfold area_is in Hp. bool_to_prop. subst. by apply list_elem_of_fmap_2.
Qed.

Lemma climbed_step tenant rows start code found p :
  climbed tenant rows start code found -> is_parent tenant rows code p -> p ∉ found ->
  climbed tenant rows start p (found ++ [p]).
Proof.
  intros [A N R C L] Hp Hnew. split.
  - intros x. rewrite A, (above_parent _ _ _ _ x Hp). set_solver.
  - apply NoDup_app. split_and!; [done|set_solver|by apply NoDup_singleton].
  - intros x [Hx| ->%list_elem_of_singleton]%elem_of_app; [by apply R|by eapply parent_row].
  - intros y q [Hy|Hy%list_elem_of_singleton]%elem_of_app Hne Hq; [|done]. apply elem_of_app.
    destruct (decide (y = code)) as [->|Hc]; [|left; by eapply C].
    right. apply list_elem_of_singleton. by eapply is_parent_unique.
  - right. set_solver.
Qed.

(** Where the climb meets an area again, or an area without a parent, nothing
    is left above. *)
Lemma climbed_ends tenant rows start code found :
  climbed tenant rows start code found -> (forall p, is_parent tenant rows code p -> p ∈ found) ->
  forall x, x ∈ found <-> tc (is_parent tenant rows) start x.
Proof.
  intros [A _ _ C _] Hend x. rewrite A. split; [auto|]. intros [Hx|Hx]; [done|].
  apply tc_first in Hx as (z & Hz & Hx). apply Hend in Hz. destruct Hx as [->|Hx]; [done|].
  eapply tc_inside; [|exact Hz|exact Hx]. intros a b Ha Hb. destruct (decide (a = code)) as [->|Hne]; [by apply Hend|by eapply C].
Qed.

Lemma found_all rows found p :
  NoDup found -> found ⊆ pa_Code <$> rows -> length found = length rows -> p ∈ pa_Code <$> rows -> p ∈ found.
Proof.
  intros Hn Hs Hl Hp. apply NoDup_submseteq in Hs; [|done].
  rewrite (submseteq_length_Permutation found (pa_Code <$> rows)); [done|done|]. rewrite length_fmap. lia.
Qed.

Lemma climb_complete fuel tenant rows start code found :
  climbed tenant rows start code found -> (length found + fuel = length rows)%nat ->
  forall x, x ∈ climb fuel tenant rows code found <-> tc (is_parent tenant rows) start x.
Proof.
  revert code found. induction fuel as [|fuel IH]; intros code found Hc Hl x; simpl.
  - apply (climbed_ends tenant rows start code); [done|]. intros p Hp%parent_row.
    apply (found_all rows); [apply Hc|apply Hc|lia|done].
  - destruct (parent_of tenant code rows) as [p|] eqn:Hp.
    + destruct (existsb (area_is tenant p) rows) eqn:He; simpl.
      * destruct (decide (p ∈ found)) as [Hin|Hnew].
        -- rewrite bool_decide_true by done. simpl. apply (climbed_ends tenant rows start code); [done|].
           intros q [Hq _]. congruence.
        -- rewrite bool_decide_false by done. simpl. apply IH; [by apply climbed_step with (code := code)|].
           rewrite length_app. simpl. lia.
      * apply (climbed_ends tenant rows start code); [done|]. intros q [Hq Hq']. congruence.
    + apply (climbed_ends tenant rows start code); [done|]. intros q [Hq _]. congruence.
Qed.

Lemma ancestors_ok tenant code rows x : x ∈ ancestors tenant code rows <-> tc (is_parent tenant rows) code x.
Proof.
  apply climb_complete; [|done]. split.
  - intros y. set_solver.
  - apply NoDup_nil_2.
  - set_solver.
  - set_solver.
  - by left.
Qed.

(** C34 The recursive query of [ListAncestors] finds exactly the areas above an
    area: its parent, the parent of that one and on; where the parents run in a
    circle too, for then it stops at the first it has found before. As many
    rounds as there are areas are enough. *)
Theorem ancestors_are_complete tenant code rows x :
  x ∈ ancestors tenant code rows <-> tc (is_parent tenant rows) code x.
Proof. apply ancestors_ok. Qed.

(** ** A new parent *)

Section new_parent.
Context (R R' : relation string) (area : string) (parent : option string).
(** [R'] is [R] but for the parent of [area]. *)
Context (Hother : forall x y, x <> area -> R' x y -> R x y) (Hnew : forall y, R' area y -> parent = Some y).
Context (Hchecked : forall p, parent = Some p -> p <> area /\ ~ tc R p area).

Lemma path_through x y : tc R' x y -> tc R x y \/ exists p, parent = Some p /\ rtc R x area /\ rtc R p y.
Proof.
  induction 1 as [x y Hxy|x y z Hxy _ IH]; (destruct (decide (x = area)) as [->|Hx]; [apply Hnew in Hxy|apply Hother in Hxy; [|done]]).
  - right. by exists y.
  - left. by apply tc_once.
  - right. exists y. split_and!; [done..|]. destruct IH as [Hz|(p & Hp & Ha & Hz)]; [by apply tc_rtc|]. congruence.
  - destruct IH as [Hz|(p & Hp & Ha & Hz)]; [left; by eapply tc_l|]. right. exists p. split_and!; [done|by eapply rtc_l|done].
Qed.

Lemma new_parent_no_cycle : (forall x, ~ tc R x x) -> forall x, ~ tc R' x x.
Proof.
  intros Hac x [Hx|(p & Hp & Hxa & Hpx)]%path_through; [by eapply Hac|]. destruct (Hchecked p Hp) as [Hne Hno].
  assert (rtc R p area) as [->|Ht]%rtc_tc by (by etrans); done.
Qed.
End new_parent.

Lemma select_one_related {A} (P : A -> A -> Prop) (cond : A -> bool) l l' :
  (forall r r', P r r' -> cond r' = cond r) -> Forall2 P l l' -> option_Forall2 P (select_one cond l) (select_one cond l').
Proof.
  intros Hc. unfold select_one. induction 1 as [|r r' l l' Hr _ IH]; [constructor|]. rewrite !bfilter_cons, (Hc r r' Hr).
  destruct (cond r); [by constructor|done].
Qed.

Section areas.
Context `{UuidText} `{JsonbText} `{Ilike}.

(** What an update of an area does to the parents. *)
Lemma Area_Update_parents a s s' t c p :
  Area_Update a s = inr s' -> is_parent t (rg_areas s') c p ->
  (uuid_in (pa_TenantID a) = Some t /\ c = pa_Code a /\ pa_ParentCode a = Some p)
  \/ ((uuid_in (pa_TenantID a) <> Some t \/ c <> pa_Code a) /\ is_parent t (rg_areas s) c p).
Proof.
  unfold Area_Update, area_row. destruct (uuid_param _) as [|tenant] eqn:Ht; [done|]. apply uuid_param_ok in Ht. rewrite Ht.
  cbv zeta. destruct (update_where _ _ _) as [e|[n rows]] eqn:Hu; [done|]. destruct (n =? 0); [done|]. intros [= <-].
  apply update_where_ok in Hu as [HF _]. cbn [rg_areas with_areas pa_Code pa_TenantID] in *.
  set (P := fun b b' : ProcessArea => area_key b' = area_key b /\
    if area_is tenant (pa_Code a) b then pa_ParentCode b' = pa_ParentCode a else b' = b).
  assert (Forall2 P (rg_areas s) rows) as HP.
  { eapply Forall2_impl; [exact HF|]. intros b b'. unfold updated, P.
    destruct (area_is _ _ b); [|by intros ->]. destruct (constraint _ _); [done|]. by intros [= <-]. }
  assert (forall t c b b', P b b' -> area_is t c b' = area_is t c b) as Hkey.
  { intros t1 c1 b b' [[= E1 E2] _]. unfold area_is. by rewrite E1, E2. }
  intros [Hp Hex].
  assert (existsb (area_is t p) (rg_areas s) = true) as Hex'.
  { apply existsb_true_elem in Hex as (b' & Hb' & Hc). apply existsb_exists.
    destruct (updated_forall_r _ _ _ HP b' Hb') as (b & Hb & HPb). exists b. rewrite <- (Hkey _ _ _ _ HPb).
    split; [by apply list_elem_of_In|done]. }
  unfold parent_of in Hp. pose proof (select_one_related P (area_is t c) _ _ (Hkey t c) HP) as Hsel.
  inversion Hsel as [b b' [_ HPb] Eb Eb'|Eb Eb']; rewrite <- Eb' in Hp; [|done]. simpl in Hp.
  symmetry in Eb. pose proof (proj2 (select_one_Some _ _ _ Eb)) as Hb. unfold area_is in Hb.
  apply andb_true_iff in Hb as [Hb1%str_eqb_true Hb2%str_eqb_true].
  destruct (area_is tenant (pa_Code a) b) eqn:Hm.
  - left. unfold area_is in Hm. bool_to_prop. subst. split_and!; [done..|congruence].
  - right. subst b'. split.
    + unfold area_is in Hm. apply andb_false_iff in Hm as [Hm|Hm]; apply str_eqb_false in Hm; [left|right]; congruence.
    + split; [|done]. unfold parent_of. by rewrite Eb.
Qed.
End areas.

Section tree.
Context `{UuidText} `{JsonbText} `{Ilike} `{!UuidLaws}.

Definition areas_are_tree (s : RegStore) : Prop := forall tenant, no_cycle tenant (rg_areas s).

(** One request at a time. *)
Definition alone : Protocol RegStore := mkProtocol eq (fun _ _ => True) areas_are_tree.

#[local] Instance alone_guar : PreOrder (pr_guar alone).
Proof. by split. Qed.

Lemma Area_GetByCode_ok tenantID code s a :
  Area_GetByCode tenantID code s = inr a -> uuid_in tenantID = Some (pa_TenantID a) /\ pa_Code a = code.
Proof.
  unfold Area_GetByCode. destruct (uuid_param _) as [|tenant] eqn:Ht; [done|]. apply uuid_param_ok in Ht.
  destruct (select_one _ _) as [b|] eqn:Hs; [|done]. intros [= <-]. apply select_one_Some in Hs as [_ Hs].
  unfold area_is in Hs. bool_to_prop. by subst.
Qed.

(** The check of [SetParent]. *)
Definition parent_allowed (tenant code : string) (parent : option string) (s : RegStore) : Prop :=
  forall p, parent = Some p -> p <> code /\ ~ tc (is_parent tenant (rg_areas s)) p code.

Lemma allowed_update a parent s s' :
  uuid_in (pa_TenantID a) = Some (pa_TenantID a) ->
  parent_allowed (pa_TenantID a) (pa_Code a) parent s -> areas_are_tree s ->
  Area_Update (set_parent parent a) s = inr s' -> areas_are_tree s'.
Proof.
  intros Hcan Hal Htree Hup t.
  pose proof (fun c p => Area_Update_parents _ _ _ t c p Hup) as Hpar. cbn [pa_TenantID pa_Code pa_ParentCode set_parent] in Hpar.
  rewrite Hcan in Hpar. intros code Hc. destruct (decide (t = pa_TenantID a)) as [->|Hne].
  - revert code Hc. apply (new_parent_no_cycle (is_parent (pa_TenantID a) (rg_areas s)) _ (pa_Code a) parent).
    + intros x y Hx Hxy. by apply Hpar in Hxy as [(_ & ? & _)|[_ ?]].
    + intros y Hy. by apply Hpar in Hy as [(_ & _ & ?)|[[?|?] _]].
    + exact Hal.
    + apply Htree.
  - apply (Htree t code). eapply (tc_congruence id); [|exact Hc]. intros x y Hxy. apply Hpar in Hxy as [(Heq & _)|[_ ?]]; [congruence|done].
Qed.

(** [SetParent] keeps the areas a tree: run on its own, whatever of it
    fails and wherever it is cut off, it leaves no area above itself where
    there was none. *)
Theorem SetParent_keeps_tree tenantID areaCode parentCode actorID s s' :
  areas_are_tree s -> runs (SetParent tenantID areaCode parentCode actorID) s s' -> areas_are_tree s'.
Proof.
  intros Htree Hrun. eapply (wp_runs alone (SetParent tenantID areaCode parentCode actorID) (fun _ _ => True)); [|exact Hrun|exact Htree].
  apply wpe_true. unfold SetParent. apply wpe_bind. eapply wpe_read; [tc_solve|by intros|]. intros s1 area -> _ [Hten Hcode]%Area_GetByCode_ok.
  apply wpe_bind, wpe_guard. intros _. apply wpe_bind.
  apply (wpe_mono _ _ (fun _ s2 => parent_allowed (pa_TenantID area) (pa_Code area) parentCode s2)).
  { intros _ s2 Hal. apply wpe_bind, wpe_call; [tc_solve|]. intros s3 t u r s4 <- Ht Hs. split_and!; [|done|].
    - revert Hs. cbn. destruct (Area_Update _ s2) as [e|s5] eqn:Hup; intros [= <- <-]; [done|].
      eapply allowed_update; [|exact Hal|exact Ht|exact Hup]. by eapply uuid_in_canonical.
    - destruct r; [done|]. apply wpe_call; [tc_solve|]. intros s5 t' u' r' s6 <- Ht4 Hs'. split_and!; [|done|by destruct r'].
      revert Hs'. cbn. unfold Governance_Log. destruct (uuid_param _); [by intros [= <- <-]|].
      destruct (jsonb_param _); intros [= <- <-]; done. }
  destruct parentCode as [parent|]; [|by apply wpe_ret].
  apply wpe_bind, wpe_guard. intros Hself. apply wpe_bind. eapply wpe_read; [tc_solve|by intros|]. intros s3 parent_area -> _ _.
  apply wpe_bind. eapply wpe_read; [tc_solve|by intros|]. intros s4 above -> _ Habove. apply wpe_guard. intros Hnot.
  intros p [= ->]. bool_to_prop. split; [congruence|]. intros Hup.
  revert Habove. unfold Area_ListAncestors. destruct (uuid_param _) as [|tenant] eqn:Ht; [done|]. apply uuid_param_ok in Ht. intros [= <-].
  assert (tenant = pa_TenantID area) as -> by congruence. apply ancestors_ok in Hup.
  pose proof (existsb_false_elem _ _ _ Hnot Hup) as Hf. cbn in Hf. by rewrite Hcode, str_eqb_refl in Hf.
Qed.
End tree.
