(* ===== verification/RegistryScenario.v ===== *)
(** * Registry: runs the kernel evaluates

    Profiles, areas and documents of one tenant: documents registered while
    others are, a code taken by hand, parents in a circle, an archived area
    that an edit brings back. *)
From S2P Require Import Prelude Text Tables Programs ProgramLogic ContentHash RegistryTables Taxonomy Registry RegistryFacts.
From stdpp Require Import relations pretty.
Local Open Scope Z_scope.

Module Demo.
#[export] Instance uuids : UuidText := fun s => if str_eqb s "" then None else Some s.

#[export] Instance uuid_laws : UuidLaws.
Proof. intros s c. unfold uuid_in, uuids. destruct (str_eqb s "") eqn:Hs; [done|]. by intros [= <-]; rewrite Hs. Qed.

#[export] Instance any_json : JsonbText := fun s => Some s.

(** Patterns are not used. *)
#[export] Instance no_match : Ilike := fun _ _ => false.

Definition draw (t : Time) : RegDraw := mkRegDraw ("u" +:+ pretty t) true.

Abbreviation RegPool := (Pool (Op := RegOp) (St := RegStore) (Reply := RegReply)).
Abbreviation Event := (Programs.Event (Call := RegCall)).
Abbreviation exec := (Programs.exec serve_registry draw).

Definition steps (i n : nat) : list Event := replicate n (Step i).

Definition tenant : string := "acme".

Definition profile : DocumentProfile :=
  mkDocumentProfile "po" tenant "procurement" "Purchase orders" "" "po" 365 None None "editor" None 1.

Definition area (code : string) (parent : option string) : ProcessArea :=
  mkProcessArea code tenant code "" parent None None None 1.

(** Three areas, each under the one before. *)
Definition started : RegStore :=
  mkRegStore ["procurement"] [] [profile] [area "ops" None; area "sales" (Some "ops"); area "export" (Some "sales")]
    [] [] [] [].

Definition request (path : string) (body : list (string * Any)) : RegRequest :=
  mkRegRequest tenant "ana" path (Some (AnyMap body)) "" (mkFilterQuery "" "" "" "" "" "" "" "").

Definition register (more : list (string * Any)) : RegRequest :=
  request "" ([("profileCode", AnyString "po"); ("processAreaCode", AnyString "ops"); ("title", AnyString "Order")] ++ more).

Definition numbered : RegRequest := register [].
Definition by_hand (code : string) : RegRequest :=
  register [("manualCode", AnyString code); ("manualCodeReason", AnyString "imported from the old register")].

(** Two documents register together, the one that came first reads its number
    last; then a third. *)
Definition together : list Event :=
  [Start (CallCreateDoc numbered); Start (CallCreateDoc numbered)] ++ steps 0 2 ++ steps 1 20 ++ steps 0 20
  ++ [Start (CallCreateDoc numbered)] ++ steps 2 20.

Definition registered : RegPool := Eval vm_compute in exec together 0 (mkPool [] started).

(** The next code taken by hand. *)
Definition taken : RegPool :=
  Eval vm_compute in exec ([Start (CallCreateDoc (by_hand "PO-01"))] ++ steps 0 20) 0 (mkPool [] started).

(** A request for a numbered document after it. *)
Definition asked : RegPool :=
  Eval vm_compute in exec (steps 0 20) 100 (mkPool [serve_registry (CallCreateDoc numbered)] (pool_store taken)).

(** The parents of the areas, changed by the service and by the endpoint. *)
Definition moved : RegStore :=
  Eval vm_compute in (run_prog draw (SetParent tenant "export" (Some "ops") "ana") 100 started).2.

Definition put_parent (code parent : string) : RegCall :=
  CallUpdateArea (request code [("name", AnyString code); ("parentCode", AnyString parent)]).

Definition in_circle : RegStore :=
  Eval vm_compute in (run_calls serve_registry draw [put_parent "ops" "export"] 100 started).2.
End Demo.
Import Demo.


Lemma one_profile_ok docs events :
  NoDup (cd_ID <$> docs) -> NoDup (cd_key <$> docs) ->
  Forall (fun d => cd_TenantID d = tenant /\ cd_ProfileCode d = "po" /\ cd_ProcessAreaCode d = "ops" /\ cd_SequenceNum d = None) docs ->
  reg_ok (with_events events (with_docs docs started)).
Proof.
  intros Hid Hkey Hdocs. rewrite Forall_forall in Hdocs. split; try done; cbn [rg_profiles rg_areas rg_docs rg_counters with_docs with_events started].
  - apply NoDup_singleton.
  - repeat constructor; set_solver.
  - intros a Ha. repeat (apply elem_of_cons in Ha as [->|Ha]; [vm_compute; exact eq_refl|]). by apply not_elem_of_nil in Ha.
  - intros d (-> & -> & -> & _)%Hdocs. by split.
  - intros t p. unfold numbers. induction docs as [|d docs IH]; [done|]. rewrite bfilter_cons.
    destruct (of_profile t p d); [simpl; destruct (Hdocs d ltac:(left)) as (_ & _ & _ & ->)|];
      (apply IH; [by apply NoDup_cons in Hid as [_ ?]|by apply NoDup_cons in Hkey as [_ ?]|by intros e He; apply Hdocs; right]).
Qed.

Lemma registry_started_ok : reg_ok started.
Proof. apply (one_profile_ok [] []); constructor. Qed.

Lemma taken_ok : reg_ok (pool_store taken).
Proof. apply (one_profile_ok (rg_docs (pool_store taken)) (rg_events (pool_store taken))); [apply NoDup_singleton..|by repeat constructor]. Qed.


Lemma taken_number_blocks_numbering_witness :
  pool_threads asked !! 0%nat = Some (Ret (inr (RegError 409 "CONTROLLED_DOCUMENT_CODE_TAKEN"))) /\
  refused (RegError 409 "CONTROLLED_DOCUMENT_CODE_TAKEN").
Proof.
  assert (pool_threads asked !! 0%nat = Some (Ret (inr (RegError 409 "CONTROLLED_DOCUMENT_CODE_TAKEN")))) as Hr by (vm_compute; exact eq_refl).
  split; [exact Hr|].
  destruct (taken_number_blocks_numbering tenant "po" 1 (pool_store taken) [] (pool_store taken)) as [_ Hall].
  - exact taken_ok.
  - split; vm_compute; exact eq_refl.
  - done.
  - apply (Hall numbered (pool_threads asked) (pool_store asked)); [|
      |exact Hr].
    + split; [vm_compute; exact eq_refl|]. eexists. split; [vm_compute; exact eq_refl|done].
    + assert (mkPool (pool_threads asked) (pool_store asked)
        = exec (steps 0 20) 100 (mkPool [serve_registry (CallCreateDoc numbered)] (pool_store taken))) as -> by (vm_compute; exact eq_refl).
      apply exec_steps.
Defined.

(** ** Parents *)

Lemma started_parents t x y : is_parent t (rg_areas started) x y -> x = "sales" /\ y = "ops" \/ x = "export" /\ y = "sales".
Proof.
  intros [Hp _]. unfold parent_of in Hp. destruct (select_one _ _) as [a|] eqn:Ha; [|done].
  apply select_one_Some in Ha as [Hin Hc]. unfold area_is in Hc. bool_to_prop. cbn [rg_areas started] in Hin.
  repeat (apply elem_of_cons in Hin as [->|Hin]; [simpl in *; naive_solver|]). by apply not_elem_of_nil in Hin.
Qed.

Lemma started_tree : areas_are_tree started.
Proof.
  intros t. set (rank := fun x => if str_eqb x "export" then 2 else if str_eqb x "sales" then 1 else 0).
  assert (forall x y, tc (is_parent t (rg_areas started)) x y -> rank y < rank x) as Hrank.
  { induction 1 as [x y Hxy|x y z Hxy _ IH]; [|transitivity (rank y); [exact IH|]];
      by apply started_parents in Hxy as [[-> ->]|[-> ->]]. }
  intros x Hx%Hrank. lia.
Qed.

Lemma SetParent_keeps_tree_witness :
  parent_of tenant "export" (rg_areas moved) = Some "ops" /\ areas_are_tree moved.
Proof.
  split; [vm_compute; exact eq_refl|].
  pose proof (run_prog_runs draw (SetParent tenant "export" (Some "ops") "ana") 100 started) as Hrun.
  assert ((run_prog draw (SetParent tenant "export" (Some "ops") "ana") 100 started).2 = moved) as E by (vm_compute; exact eq_refl).
  rewrite E in Hrun. exact (SetParent_keeps_tree tenant "export" (Some "ops") "ana" started moved started_tree Hrun).
Defined.

(** The service refuses to put the first area under the last; the endpoint that
    edits areas does not ask it, and leaves every area above itself. *)
Theorem PUT_makes_a_circle :
  (run_prog draw (SetParent tenant "ops" (Some "export") "ana") 100 started).1.1 = inl ErrAreaParentCycle /\
  history serve_registry reg_outside started in_circle /\
  ancestors tenant "ops" (rg_areas in_circle) = ["export"; "sales"; "ops"] /\ ~ areas_are_tree in_circle.
Proof.
  split_and!.
  - vm_compute. exact eq_refl.
  - assert (in_circle = (run_calls serve_registry draw [put_parent "ops" "export"] 100 started).2) as -> by (vm_compute; exact eq_refl).
    apply run_calls_turns.
  - vm_compute. exact eq_refl.
  - intros Ht. apply (Ht tenant "ops"), ancestors_ok. vm_compute. set_solver.
Qed.

(** An archived area that is edited is active again: the endpoint writes no
    archival time, whatever the row holds. *)
Theorem editing_restores_an_archived_area :
  let calls := [CallArchiveArea (request "export" []); put_parent "export" "sales"] in
  pa_ArchivedAt <$> rg_areas (run_calls serve_registry draw (take 1 calls) 100 started).2 = [None; None; Some 101] /\
  pa_ArchivedAt <$> rg_areas (run_calls serve_registry draw calls 100 started).2 = [None; None; None].
Proof. split; vm_compute; exact eq_refl. Qed.
